(* ===== verification/_CoqProject ===== *)
-Q . S2P
Prelude.v
CString.v
Kernel.v
KernelInst.v
MiscDev.v
Debugfs.v
FooRefinement.v
Identity.v
TextSearch.v
Netfilter.v
TestTs.v
Streams.v
ProdCons.v
Threads.v
NetSpec.v
Network.v
NetLive.v
Sysfs.v
MiscDev17.v
MiscDev18.v
MiscDev18Type.v
Writers18.v
Exit18.v
UserProgs.v
UserTools.v
FatLabel.v
FatApps.v
SocketTalk.v
TalkHook.v
SysEudyptula.v
ProcId.v
Lis3.v
Kthreads.v
Hello.v
