(* ===== verification/Prelude.v ===== *)
(** * A verification development for the eudyptula kernel modules

    The repository holds one person's answers to the Eudyptula challenge: small
    Linux kernel modules, the user programs that exercise them, patches to the
    kernel, and a copy of its text search infrastructure that one of the
    modules uses. This
    library models them and proves what makes them correct, or under which
    condition they are.

    ** How code becomes definitions

    Kernel code over a module's state [S] is a function of type [M S A]
    (Prelude.v): it takes the state and gives the returned value, the new state
    and the messages it printed, or the undefined behaviour it ran into: an
    access out of bounds, a use after free, a NULL dereference, a store to a
    constant, a signed overflow, a lock that was not initialised, a missing
    return value. Every theorem that names a result [Done] therefore also says
    that none of these happened. A module's static variables are a record, and
    the primitives reach their part of it through a lens. Integers are [Z]
    with the conversions [u32], [u64], [s32], [s64] where the code converts;
    buffers are lists of bytes of fixed length, with partial [slice] and
    [splice]; objects allocated by the module are a finite map from addresses,
    in which a freed object is absent.

    Format strings are written without their level (KERN_INFO) and without
    newlines and tabs at their ends; messages of pr_debug appear when the
    parameter [dbg] says that they are enabled. Loops that are not structural
    have fuel with the bound of the code's own loop, and running out is the
    result [OutOfFuel], so the theorems that give a result show that the fuel
    was enough: [walk] takes as many turns as the list has entries,
    [destroy_upto] as many as the count, [delay_loop] as many as the int plus
    one, [read_all] fifteen for an id of fourteen bytes, [find_label] as many
    as the directory has entries plus one. The streams, the threads and the
    two processes of SocketTalk.v have no fuel: they are step relations. Two
    computations that agree on every state are equivalent ([kequiv]), and
    binding respects it.

    What is not in the repository is an interface: a class of operations and
    a class of the laws the kernel documents (Kernel.v for user memory, lists,
    error pointers, semaphores, mutexes and module references; queues in
    Streams.v; the slab allocator in Identity.v; the algorithms in
    TextSearch.v; debugfs in Debugfs.v; kobjects in Sysfs.v; the C library in
    UserProgs.v; ioctls, sockets and system calls in UserTools.v; a loopback
    network in SocketTalk.v; fs/fat in FatLabel.v; the driver core in Lis3.v).
    The theorems hold for every implementation that has the
    laws; KernelInst.v and the witnesses give concrete ones.

    ** The files

    - Prelude.v, CString.v, Kernel.v, KernelInst.v: what the components share.
      CString.v has the string functions on arrays, partial where they would
      leave the array.
    - MiscDev.v: Task_6/misc_device/misc_dev.c, the device that yields the
      author's id and checks what is written against it. The handlers refine
      [read_result] and [write_result]; a process that reads to the end gets
      the id.
    - Debugfs.v, FooRefinement.v: Task_8/debugfs/my_debugfs.c. The handlers of
      the files id and foo, and an initialisation that either makes all three
      files or leaves nothing behind. FooRefinement.v runs the handlers of foo
      byte by byte among any number of callers: the lock gives mutual
      exclusion, the machine is simulated by an atomic one, and some caller can
      always move.
    - Identity.v: Task_12 and Task_13/kll/kll.c, a list of identities over a
      heap: create, find, destroy, and both initialisers (Kll12, Kll13).
    - TextSearch.v, Netfilter.v, TestTs.v: Task_19/docs/textsearch.c, netfilter.c
      and test_ts.c.
      Registering and removing algorithms refines operations on a set of
      names; every configuration holds one reference to the module of its
      algorithm, on all paths of textsearch_prepare; a search of linear data
      finds the first occurrence, regardless of case when the flags say so. Netfilter.v is the hook as a client;
      TestTs.v is the hook and the exit of test_ts.c, another client.
    - Streams.v, ProdCons.v, Threads.v, NetSpec.v, Network.v, NetLive.v:
      Task_17/kthreads/prod_cons/prod-cons.c. Streams.v interleaves put and
      get in the atomic steps of the semaphores and the queue: bounds, order,
      safety of the queue, no deadlock. Threads.v is the code of the four
      thread functions between two calls, and the machine of all six threads;
      ProdCons.v is the initialisation and the exit. NetSpec.v is an abstract
      network that passes numbers over bounded channels; Network.v relates the
      two, step by step; NetLive.v has the theorems: the machine refines the
      abstract network, never goes wrong, allocates and frees in balance,
      prints the merged multiples in order, and ends within 1200 steps, which
      a measure that every step increases does not exceed, in whatever order
      the threads run.
    - Sysfs.v: Task_9/sysfs/my_sysfs.c. The show and store callbacks and an
      initialisation that puts its kobject on every error.
    - MiscDev17.v: Task_17/misc_device/misc_dev.c, whose thread sleeps on a
      wait queue until misc_exit stops it: no wake-up is lost.
    - MiscDev18.v, MiscDev18Type.v: Task_18/misc_device/misc_dev.c, where
      writes make identities that a kernel thread takes off the list. The
      first has the functional theorems; the second gives the data a type that
      every interleaving of writes, steps of the thread, of misc_init and of
      misc_exit keeps, each taken as one step, and shows that reading an entry
      that was just freed is the only undefined thing they do.
    - Writers18.v, Exit18.v: the same module cut at every access to its
      buffer, counter, heap and list, which the code does not lock
      ([turn] of Prelude.v). Any number of writers never go wrong and leave
      whole identities, but two of them can lose a name and give one number
      twice; misc_exit and the thread can free an identity twice. Alone, each
      of them is the function of MiscDev18.v.
    - UserProgs.v: misc_app.c, debugfs_foo.c and debugfs_jiffies.c (Task_6, 8,
      9, 17, 18), one program in seven copies, run on the drivers of MiscDev.v,
      Debugfs.v, MiscDev17.v and MiscDev18.v.
    - UserTools.v: ext2_ioctl.c, fat_ioctl.c, fat_vol.c (Task_20), server.c,
      socket.c (Task_19), test_syscall.c (Task_15).
    - SocketTalk.v: server.c and socket.c once more, call by call. Run alone
      they are the programs of UserTools.v; run side by side, with every order
      of their calls and every short read, they end within fifteen steps with
      the messages exchanged, or with the client refused. TalkHook.v is what
      the hook of Netfilter.v makes of their packets.
    - FatLabel.v, FatApps.v: vol_label.patch (Task_20), the ioctl that sets the
      label of a FAT volume in its root directory and its boot sector: what it
      changes, what it keeps and what it leaks, when there is a label, when
      there is none, and on its errors. FatApps.v runs fat_ioctl.c on it.
    - SysEudyptula.v, ProcId.v, Lis3.v: the patches of Task_15 (a system call,
      called by test_syscall.c), Task_14 (a number in each task that its file
      under /proc shows and counts up) and Task_11 (the id callbacks of Sysfs.v
      in an accelerometer driver).
    - Kthreads.v: the three small modules of Task_17/kthreads.
    - Hello.v: the hello world modules, the USB driver and coding_style.c.

    ** What is assumed and what is not modelled

    - Three choices are parameters, because the code relies on what C leaves
      undefined: whether a freed object can still be read ([freed_readable]:
      the list loops read the entry they freed), whether stores to a constant
      go through ([rodata_writable]: the buffers of the misc devices are
      const), and whether pr_debug prints. The theorems say which choice they
      are for, and what happens under the other one.
    - Handlers, list functions and thread steps of MiscDev18Type.v are atomic. Task_18 has no
      lock, so on several processors they are not: Writers18.v and Exit18.v
      cut them, with each change of the list (list_add, __list_del_entry) still
      one step, writers beside writers and misc_exit beside identity_get.
      Nothing is claimed about writers beside the thread.
    - In the network of threads time is only order: msleep does nothing, and
      vmalloc is taken to succeed. Kernel threads do not receive signals, so
      the main theorems are about down_interruptible without interruption;
      [net_interrupted] and [stream_leak] show what an interruption would do.
    - The semantics is sequentially consistent.
    - Of a patch the model has what the patch shows: functions it adds are
      whole; lis3lv02d_remove_fs breaks off before its power management. In
      SocketTalk.v the calls before a connection succeed, on a machine where
      the port is free.
    - Left out: the init function of test_ts.c, which does not compile; the
      *.mod.c files the
      build generates; the patches of Task_2, 3, 10 and 16, which change a
      version string, a comment and a type annotation; tables of attributes
      and files, which are constants; code that is commented out. *)

From Stdlib Require Import ZArith Lia Strings.Byte.
From stdpp Require Import base strings gmap sets numbers list.

#[global] Open Scope Z_scope.

(** ** Machine integers *)

Definition two32 : Z := 2 ^ 32.
Definition two64 : Z := 2 ^ 64.

(** The conversions of C: to an unsigned type by reduction modulo its range,
    to a signed one the way gcc documents it (two's complement). *)
Definition u32 (z : Z) : Z := z mod two32.
Definition u64 (z : Z) : Z := z mod two64.
Definition s32 (z : Z) : Z := (z + 2 ^ 31) mod two32 - 2 ^ 31.
Definition s64 (z : Z) : Z := (z + 2 ^ 63) mod two64 - 2 ^ 63.

Definition int_range (z : Z) : Prop := - 2 ^ 31 <= z < 2 ^ 31.
Definition UINT_MAX : Z := 2 ^ 32 - 1.
Definition INT_MAX : Z := 2 ^ 31 - 1.

(** ** Error numbers (include/uapi/asm-generic/errno-base.h) *)

Definition EPERM : Z := 1.
Definition ENOENT : Z := 2.
Definition EINTR : Z := 4.
Definition EBADF : Z := 9.
Definition ENOMEM : Z := 12.
Definition EFAULT : Z := 14.
Definition EEXIST : Z := 17.
Definition EINVAL : Z := 22.
Definition ERESTARTSYS : Z := 512.

(** ** Undefined behaviour, kernel log, and the monad of kernel code *)

(** What makes a C execution undefined in the modelled code. *)
Inductive ub :=
| OutOfBounds      (* an access past the end, or before the start, of an array *)
| UseAfterFree     (* an access to an object that was freed *)
| NullDeref        (* an access through a NULL or an error pointer *)
| ReadOnlyWrite    (* a store to an object defined const *)
| SignedOverflow   (* a signed addition or multiplication out of range *)
| UninitLock       (* a lock used before its initialisation, or released twice *)
| NoReturnValue    (* the value of a call whose function fell off its end *)
| UninitRead       (* the value of an array nothing was stored in *)
| Deadlock         (* not C: the only task waits for a lock that is held *)
| OutOfFuel.       (* not C: a loop of the model that outran its fuel *)

#[export] Instance ub_eq_dec : EqDecision ub.
Proof. solve_decision. Defined.

Abbreviation byte := Byte.byte.

#[export] Instance byte_eq_dec : EqDecision byte := Byte.byte_eq_dec.

Inductive karg :=
| ArgZ (z : Z)
| ArgS (s : list byte).

Record kmsg := Printk { fmt : string; kargs : list karg }.

Inductive res (S A : Type) :=
| Done (a : A) (s : S) (out : list kmsg)
| Undef (u : ub).
Arguments Done {S A} a s out.
Arguments Undef {S A} u.

(** Kernel code over a state [S]: it returns a value, the new state and the
    messages it printed, or it runs into undefined behaviour. *)
Definition M (S A : Type) : Type := S -> res S A.

#[export] Instance M_ret S : MRet (M S) := fun A a s => Done a s [].

#[export] Instance M_bind S : MBind (M S) := fun A B k m s =>
  match m s with
  | Done a s' o =>
      match k a s' with
      | Done b s'' o' => Done b s'' (o ++ o')
      | Undef u => Undef u
      end
  | Undef u => Undef u
  end.

Definition kget {S} : M S S := fun s => Done s s [].
Definition kput {S} (s' : S) : M S unit := fun _ => Done tt s' [].
Definition undef {S A} (u : ub) : M S A := fun _ => Undef u.
Definition printk {S} (f : string) (l : list karg) : M S unit :=
  fun s => Done tt s [Printk f l].

(** pr_debug prints when the kernel has the message enabled; otherwise its
    arguments are not evaluated, so they are passed as a computation. *)
Definition pr_debug {S} (dbg : bool) (m : M S kmsg) : M S unit :=
  if dbg then (fun s =>
    match m s with
    | Done k s' o => Done tt s' (o ++ [k])
    | Undef u => Undef u
    end)
  else mret tt.

(** The two ways the modules print: printk always, pr_debug when enabled. *)
Inductive loglevel := Info | Debug (enabled : bool).

Definition klog {S} (lv : loglevel) (f : string) (l : list karg) : M S unit :=
  match lv with
  | Info => printk f l
  | Debug d => pr_debug d (mret (Printk f l))
  end.

Definition logged (lv : loglevel) (f : string) (l : list karg) : list kmsg :=
  match lv with
  | Info | Debug true => [Printk f l]
  | Debug false => []
  end.

(** Adding the messages printed before the rest of a computation. *)
Definition tell {S A} (o : list kmsg) (r : res S A) : res S A :=
  match r with
  | Done a s o' => Done a s (o ++ o')
  | Undef u => Undef u
  end.

(** [runs m s a s']: from [s], [m] returns [a] in state [s'], whatever it prints. *)
Definition runs {S A} (m : M S A) (s : S) (a : A) (s' : S) : Prop :=
  exists out, m s = Done a s' out.

(** ** Lenses: how a primitive reaches its part of a module's state *)

Record lens (S T : Type) := Lens { view : S -> T; set : T -> S -> S }.
Arguments Lens {S T} _ _.
Arguments view {S T} _ _.
Arguments set {S T} _ _ _.

Class LensOk {S T} (l : lens S T) : Prop := {
  view_set : forall t s, view l (set l t s) = t;
  set_view : forall s, set l (view l s) s = s;
  set_set : forall t t' s, set l t (set l t' s) = set l t s;
}.

Definition kread {S T} (l : lens S T) : M S T := fun s => Done (view l s) s [].
Definition kwrite {S T} (l : lens S T) (t : T) : M S unit :=
  fun s => Done tt (set l t s) [].

(** A part of a part, and a computation on a part of the state. *)
Definition lens_compose {S T U} (l : lens S T) (k : lens T U) : lens S U :=
  Lens (fun s => view k (view l s)) (fun u s => set l (set k u (view l s)) s).

Definition zoom {S T A} (l : lens S T) (m : M T A) : M S A := fun s =>
  match m (view l s) with
  | Done a t o => Done a (set l t s) o
  | Undef u => Undef u
  end.

(** ** Lists as fixed arrays of bytes *)

Definition bytes (s : string) : list byte := String.list_byte_of_string s.

(** A string literal: its characters and the terminating NUL. *)
Definition cstring (s : string) : list byte := bytes s ++ [x00].

(** [n] bytes from offset [off], when they lie inside the array. *)
Definition slice (off n : Z) (l : list byte) : option (list byte) :=
  if decide (0 <= off /\ 0 <= n /\ off + n <= Z.of_nat (length l))
  then Some (take (Z.to_nat n) (drop (Z.to_nat off) l)) else None.

(** [bs] stored from offset [off], when it fits inside the array. *)
Definition splice (off : Z) (bs l : list byte) : option (list byte) :=
  if decide (0 <= off /\ off + Z.of_nat (length bs) <= Z.of_nat (length l))
  then Some (take (Z.to_nat off) l ++ bs ++ drop (Z.to_nat off + length bs) l)
  else None.

(** ** Total functions with one value changed *)

Definition upd {A B} `{EqDecision A} (f : A -> B) (x : A) (v : B) : A -> B :=
  fun y => if decide (y = x) then v else f y.

(** ** Step relations *)

(** States reachable from an initial one. *)
Definition reachable {S} (init : S -> Prop) (step : S -> S -> Prop) (s : S) : Prop :=
  exists s0, init s0 /\ rtc step s0 s.

(** An operation cut into accesses: [next] is the access to do at a point of it
    and the point after it, and [None] where it has returned. A turn is one
    access that does not run into undefined behaviour. *)
Inductive turn {S P} (next : P -> option (M S P)) : P * S -> P * S -> Prop :=
| turn_step p m s p' s' out :
    next p = Some m -> m s = Done p' s' out -> turn next (p, s) (p', s').

(** ** Lemmas of the monad *)

Create HintDb kernel discriminated.

Section Monad.
Context {S : Type}.
Implicit Types s : S.

Lemma tell_nil {A} (r : res S A) : tell [] r = r.
Proof. by destruct r. Qed.

Lemma tell_tell {A} o o' (r : res S A) : tell o (tell o' r) = tell (o ++ o') r.
Proof. destruct r; simpl; [by rewrite app_assoc|done]. Qed.

Lemma exec_bind {A B} (m : M S A) (k : A -> M S B) s a s' o :
  m s = Done a s' o -> (m ≫= k) s = tell o (k a s').
Proof. intros E. unfold mbind, M_bind. by rewrite E. Qed.

Lemma exec_bind_undef {A B} (m : M S A) (k : A -> M S B) s u :
  m s = Undef u -> (m ≫= k) s = Undef u.
Proof. intros E. unfold mbind, M_bind. by rewrite E. Qed.

Lemma bind_Done {A B} (m : M S A) (k : A -> M S B) s b s' o :
  (m ≫= k) s = Done b s' o ->
  exists a s1 o1 o2, m s = Done a s1 o1 /\ k a s1 = Done b s' o2.
Proof.
  unfold mbind, M_bind. destruct (m s) as [a s1 o1|]; [|done]. intros E.
  destruct (k a s1) as [b' s2 o2|] eqn:E'; [|done]. injection E as -> -> <-. by exists a, s1, o1, o2.
Qed.

Lemma exec_bind_ret {A B} (a : A) (k : A -> M S B) s : (mret a ≫= k) s = k a s.
Proof. unfold mbind, M_bind, mret, M_ret. simpl. by destruct (k a s). Qed.

Lemma exec_bind_assoc {A B C} (m : M S A) (k : A -> M S B) (h : B -> M S C) s :
  ((m ≫= k) ≫= h) s = (m ≫= fun a => k a ≫= h) s.
Proof.
  unfold mbind, M_bind. destruct (m s) as [a s1 o|]; [|done].
  destruct (k a s1) as [b s2 o2|]; [|done].
  destruct (h b s2); [by rewrite app_assoc|done].
Qed.

(** Two steps at once, whose joint result is known. *)
Lemma exec_bind_two {A B C} (m : M S A) (k : A -> M S B) (h : B -> M S C) s b s' o :
  (m ≫= k) s = Done b s' o -> (m ≫= fun a => k a ≫= h) s = tell o (h b s').
Proof. intros E. by rewrite <- (exec_bind_assoc m k h), (exec_bind _ _ _ _ _ _ E). Qed.

Lemma exec_bind_get {B} (k : S -> M S B) s : (kget ≫= k) s = k s s.
Proof. unfold mbind, M_bind. simpl. by destruct (k s s). Qed.

Lemma exec_bind_put {B} s' (k : unit -> M S B) s : (kput s' ≫= k) s = k tt s'.
Proof. unfold mbind, M_bind. simpl. by destruct (k tt s'). Qed.

Lemma exec_bind_read {T B} (l : lens S T) (k : T -> M S B) s :
  (kread l ≫= k) s = k (view l s) s.
Proof. unfold mbind, M_bind. simpl. by destruct (k _ s). Qed.

Lemma exec_bind_write {T B} (l : lens S T) t (k : unit -> M S B) s :
  (kwrite l t ≫= k) s = k tt (set l t s).
Proof. unfold mbind, M_bind. simpl. by destruct (k tt _). Qed.

Lemma exec_bind_printk {B} f args (k : unit -> M S B) s :
  (printk f args ≫= k) s = tell [Printk f args] (k tt s).
Proof. by apply exec_bind. Qed.

Lemma exec_bind_klog {B} lv f args (k : unit -> M S B) s :
  (klog lv f args ≫= k) s = tell (logged lv f args) (k tt s).
Proof.
  unfold klog, logged, pr_debug, mbind, M_bind. destruct lv as [|[|]]; simpl.
  - done.
  - done.
  - by destruct (k tt s).
Qed.

Lemma zoom_done {T A} (l : lens S T) (m : M T A) s a t o :
  m (view l s) = Done a t o -> zoom l m s = Done a (set l t s) o.
Proof. intros E. unfold zoom. by rewrite E. Qed.

Lemma zoom_undef {T A} (l : lens S T) (m : M T A) s u :
  m (view l s) = Undef u -> zoom l m s = Undef u.
Proof. intros E. unfold zoom. by rewrite E. Qed.

Lemma runs_det {A} (m : M S A) s a s1 b s2 :
  runs m s a s1 -> runs m s b s2 -> a = b /\ s1 = s2.
Proof. intros [o E1] [o' E2]. rewrite E1 in E2. by simplify_eq. Qed.

Lemma runs_bind {A B} (m : M S A) (k : A -> M S B) s a s1 b s2 :
  runs m s a s1 -> runs (k a) s1 b s2 -> runs (m ≫= k) s b s2.
Proof.
  intros [o E1] [o' E2]. exists (o ++ o'). rewrite (exec_bind _ _ _ _ _ _ E1), E2. done.
Qed.

Lemma tell_runs {A} o (r : res S A) a s' :
  (exists out, tell o r = Done a s' out) <-> (exists out, r = Done a s' out).
Proof.
  destruct r as [b s1 o1|u]; simpl.
  - split; intros [out E]; simplify_eq; eauto.
  - by split; intros [out E].
Qed.

Lemma tell_undef {A} o (r : res S A) u : tell o r = Undef u <-> r = Undef u.
Proof. by destruct r. Qed.

Lemma exec_bind_undefined {A B} u (k : A -> M S B) s :
  (undef u ≫= k) s = Undef u.
Proof. done. Qed.
End Monad.

(** Computations that do the same from every state. *)
Definition kequiv {S A} (m m' : M S A) : Prop := forall s, m s = m' s.
Infix "≈" := kequiv (at level 70, no associativity).

#[export] Instance kequiv_equivalence S A : Equivalence (@kequiv S A).
Proof.
  split; [by intros m s|by intros m m' E s|].
  intros m1 m2 m3 E E' s. by rewrite E.
Qed.

#[export] Instance bind_proper S A B :
  Proper (pointwise_relation A (@kequiv S B) ==> @kequiv S A ==> @kequiv S B) mbind.
Proof.
  intros k k' K m m' E s. unfold mbind, M_bind. rewrite E.
  destruct (m' s) as [a s' o|u]; [|done]. by rewrite K.
Qed.

Lemma kequiv_assoc {S A B C} (m : M S A) (k : A -> M S B) (h : B -> M S C) :
  (m ≫= k) ≫= h ≈ (m ≫= fun a => k a ≫= h).
Proof. intros s. apply exec_bind_assoc. Qed.

Lemma kequiv_ret {S A B} (a : A) (k : A -> M S B) : mret a ≫= k ≈ k a.
Proof. intros s. apply exec_bind_ret. Qed.

Lemma kequiv_bind {S A B} (m : M S A) (k k' : A -> M S B) :
  (forall a, k a ≈ k' a) -> m ≫= k ≈ (m ≫= k').
Proof. intros K. by apply bind_proper. Qed.

(** What the result of a computation is, if it has one. *)
Definition ensures {S A} (m : M S A) (Q : A -> Prop) : Prop :=
  forall s, match m s with Done a _ _ => Q a | Undef _ => True end.

Lemma ensures_bind {S A B} (m : M S A) (k : A -> M S B) Q :
  (forall a, ensures (k a) Q) -> ensures (m ≫= k) Q.
Proof.
  intros K s. unfold mbind, M_bind. destruct (m s) as [a s' o|]; [|done].
  specialize (K a s'). by destruct (k a s').
Qed.

Lemma ensures_ret {S A} (a : A) Q : Q a -> ensures (mret a : M S A) Q.
Proof. by intros ? s. Qed.

(** ** Lemmas on arrays of bytes *)

Lemma slice_spec off n l :
  0 <= off -> 0 <= n -> off + n <= Z.of_nat (length l) ->
  slice off n l = Some (take (Z.to_nat n) (drop (Z.to_nat off) l)).
Proof. intros. unfold slice. by rewrite decide_True. Qed.

Lemma slice_length off n l bs :
  slice off n l = Some bs -> Z.of_nat (length bs) = n.
Proof.
  unfold slice. case_decide; intros; simplify_eq.
  rewrite length_take, length_drop. lia.
Qed.

Lemma slice_out off n l :
  Z.of_nat (length l) < off + n -> slice off n l = None.
Proof. intros. unfold slice. rewrite decide_False; [done|lia]. Qed.

Lemma splice_spec off bs l :
  0 <= off -> off + Z.of_nat (length bs) <= Z.of_nat (length l) ->
  splice off bs l =
    Some (take (Z.to_nat off) l ++ bs ++ drop (Z.to_nat off + length bs) l).
Proof. intros. unfold splice. by rewrite decide_True. Qed.

Lemma splice_length off bs l l' :
  splice off bs l = Some l' -> length l' = length l.
Proof.
  unfold splice. case_decide; intros; simplify_eq.
  rewrite !length_app, length_take, length_drop. lia.
Qed.

Lemma splice_out off bs l :
  Z.of_nat (length l) < off + Z.of_nat (length bs) -> splice off bs l = None.
Proof. intros. unfold splice. rewrite decide_False; [done|lia]. Qed.

(** What was stored is read back. *)
Lemma slice_splice off bs l l' :
  splice off bs l = Some l' -> slice off (Z.of_nat (length bs)) l' = Some bs.
Proof.
  intros E. pose proof (splice_length _ _ _ _ E) as L. revert E.
  unfold splice. case_decide as D; intros; simplify_eq.
  rewrite slice_spec by (rewrite ?L; lia). f_equal.
  rewrite drop_app_length' by (rewrite length_take; lia).
  rewrite take_app_length'; [done|lia].
Qed.

(** What lies outside the stored range does not change. *)
Lemma splice_lookup_ne off bs l l' i :
  splice off bs l = Some l' ->
  (Z.of_nat i < off \/ off + Z.of_nat (length bs) <= Z.of_nat i) ->
  l' !! i = l !! i.
Proof.
  unfold splice. case_decide as D; intros E H; simplify_eq.
  destruct H.
  - rewrite lookup_app_l by (rewrite length_take; lia).
    rewrite lookup_take_lt; [done|lia].
  - rewrite lookup_app_r by (rewrite length_take; lia).
    rewrite lookup_app_r by (rewrite length_take; lia).
    rewrite lookup_drop, length_take. f_equal. lia.
Qed.

(** ** Lemmas on machine integers *)

Lemma u64_id z : 0 <= z < two64 -> u64 z = z.
Proof. intros. unfold u64. by apply Z.mod_small. Qed.

Lemma u32_id z : 0 <= z < two32 -> u32 z = z.
Proof. intros. unfold u32. by apply Z.mod_small. Qed.

Lemma s64_id z : - 2 ^ 63 <= z < 2 ^ 63 -> s64 z = z.
Proof. intros. unfold s64, two64. rewrite Z.mod_small; lia. Qed.

Lemma s32_id z : int_range z -> s32 z = z.
Proof. unfold int_range. intros. unfold s32, two32. rewrite Z.mod_small; lia. Qed.

Lemma s32_range z : int_range (s32 z).
Proof. unfold int_range, s32, two32. pose proof (Z.mod_pos_bound (z + 2 ^ 31) (2 ^ 32)). lia. Qed.

(** An int stored in an unsigned int and taken out again. *)
Lemma u32_nonneg z : int_range z -> u32 z = if z <? 0 then z + two32 else z.
Proof.
  unfold int_range, u32, two32. intros. destruct (Z.ltb_spec z 0).
  - symmetry. apply (Z.mod_unique_pos _ _ (-1)); lia.
  - apply Z.mod_small. lia.
Qed.

Lemma s32_u32 z : int_range z -> s32 (u32 z) = z.
Proof.
  intros R. rewrite <- (s32_id z) at 2 by done. unfold s32, u32.
  by rewrite Zplus_mod_idemp_l.
Qed.

Lemma u32_s32 z : 0 <= z < two32 -> u32 (s32 z) = z.
Proof.
  intros R. rewrite <- (u32_id z) at 2 by done. unfold s32, u32.
  rewrite Zminus_mod_idemp_l. f_equal. lia.
Qed.

Lemma u32_zero z : int_range z -> (u32 z =? 0) = (z =? 0).
Proof.
  intros R. rewrite u32_nonneg by done. unfold int_range, two32 in *.
  destruct (Z.ltb_spec z 0); [|done].
  destruct (Z.eqb_spec (z + 2 ^ 32) 0), (Z.eqb_spec z 0); lia.
Qed.

(** ** Lemmas on changed functions *)

Lemma upd_eq {A B} `{EqDecision A} (f : A -> B) x v : upd f x v x = v.
Proof. unfold upd. by rewrite decide_True. Qed.

Lemma upd_ne {A B} `{EqDecision A} (f : A -> B) x y v : y <> x -> upd f x v y = f y.
Proof. intros. unfold upd. by rewrite decide_False. Qed.

#[global] Arguments upd : simpl never.

(** ** Sums over finite maps *)

Section Msum.
Context {A : Type}.
Implicit Types (w : A -> Z) (m : gmap Z A).

(** The sum of the weights of the values of a map. *)
Definition msum w m : Z := map_fold (fun _ a z => w a + z) 0 m.

Lemma msum_empty w : msum w ∅ = 0.
Proof. apply map_fold_empty. Qed.

Lemma msum_insert w m i a : m !! i = None -> msum w (<[i := a]> m) = w a + msum w m.
Proof. intros E. unfold msum. rewrite map_fold_insert_L; [done| |done]. intros; lia. Qed.

Lemma msum_delete w m i a : m !! i = Some a -> msum w m = w a + msum w (delete i m).
Proof.
  intros E. rewrite <- (msum_insert w (delete i m) i a) by apply lookup_delete_eq.
  by rewrite insert_delete_id.
Qed.

Lemma msum_update w m i a b :
  m !! i = Some a -> msum w (<[i := b]> m) = msum w m - w a + w b.
Proof.
  intros E. rewrite (msum_delete w m i a E), <- insert_delete_eq.
  rewrite msum_insert by apply lookup_delete_eq. lia.
Qed.

Lemma msum_nonneg w m : (forall i a, m !! i = Some a -> 0 <= w a) -> 0 <= msum w m.
Proof.
  induction m as [|i a m Hi IH] using map_ind; intros N; [by rewrite msum_empty|].
  rewrite msum_insert by done. pose proof (N i a (lookup_insert_eq m i a)).
  enough (0 <= msum w m) by lia. apply IH. intros j b Ej. apply (N j).
  rewrite lookup_insert_ne; [done|congruence].
Qed.

(** Two different entries weigh no more than the whole map. *)
Lemma msum_ge w m i a :
  (forall a, 0 <= w a) -> m !! i = Some a -> w a <= msum w m.
Proof.
  intros N E. rewrite (msum_delete w m i a E).
  pose proof (msum_nonneg w (delete i m) ltac:(eauto)). lia.
Qed.

Lemma msum_ge_two w m i j a b :
  (forall a, 0 <= w a) -> i <> j -> m !! i = Some a -> m !! j = Some b ->
  w a + w b <= msum w m.
Proof.
  intros N D Ei Ej. rewrite (msum_delete w m i a Ei).
  assert (delete i m !! j = Some b) as Ej' by (by rewrite lookup_delete_ne).
  pose proof (msum_ge w (delete i m) j b N Ej'). lia.
Qed.

Lemma msum_zero w m : (forall i a, m !! i = Some a -> w a = 0) -> msum w m = 0.
Proof.
  induction m as [|i a m Hi IH] using map_ind; intros N; [apply msum_empty|].
  rewrite msum_insert, (N i a) by (done || apply lookup_insert_eq). apply IH.
  intros j b Ej. apply (N j). rewrite lookup_insert_ne; [done|congruence].
Qed.

(** A positive sum has a positive entry. *)
Lemma msum_pos w m : 0 < msum w m -> exists i a, m !! i = Some a /\ 0 < w a.
Proof.
  induction m as [|i a m Hi IH] using map_ind; [by rewrite msum_empty|].
  rewrite msum_insert by done. intros P. destruct (decide (0 < w a)) as [W|W].
  - exists i, a. by rewrite lookup_insert_eq.
  - destruct IH as (j & b & Ej & Wb); [lia|]. exists j, b.
    rewrite lookup_insert_ne by congruence. done.
Qed.
End Msum.

(** ** Lemmas on step relations *)

Section Reachable.
Context {S : Type} (init : S -> Prop) (step : S -> S -> Prop).

(** Rule induction: an inductive invariant holds in every reachable state. *)
Lemma reachable_inv (I : S -> Prop) :
  (forall s, init s -> I s) ->
  (forall s s', I s -> step s s' -> I s') ->
  forall s, reachable init step s -> I s.
Proof.
  intros Hi Hs s (s0 & H0 & Hr). apply Hi in H0.
  induction Hr; eauto.
Qed.

Lemma reachable_init s : init s -> reachable init step s.
Proof. intros. exists s. split; [done|apply rtc_refl]. Qed.

Lemma reachable_step s s' :
  reachable init step s -> step s s' -> reachable init step s'.
Proof. intros (s0 & ? & ?) ?. exists s0. split; [done|by eapply rtc_r]. Qed.
End Reachable.

#[export] Hint Resolve reachable_init rtc_refl rtc_once : kernel.

Section Turns.
Context {S P : Type} (next : P -> option (M S P)).

Lemma turn_once p m s p' s' out :
  next p = Some m -> m s = Done p' s' out -> rtc (turn next) (p, s) (p', s').
Proof. intros E X. apply rtc_once. by eapply turn_step. Qed.

Lemma turn_deterministic x y z : turn next x y -> turn next x z -> y = z.
Proof. intros [] Q. inversion Q. congruence. Qed.

(** Without the others' turns there is one way to go. *)
Lemma turn_ends x y z :
  next y.1 = None -> next z.1 = None -> rtc (turn next) x y -> rtc (turn next) x z -> y = z.
Proof.
  assert (forall y z, next y.1 = None -> rtc (turn next) y z -> y = z) as St.
  { intros u v N [->|(w & Q & _)]%rtc_inv; [done|]. inversion Q. simplify_eq/=. }
  intros Ny Nz R. induction R as [x|x y w Q R IH]; intros R'; [by apply St|].
  apply rtc_inv in R' as [->|(y' & Q' & R')].
  - inversion Q. simplify_eq/=.
  - rewrite (turn_deterministic _ _ _ Q' Q) in R'. by apply IH.
Qed.
End Turns.

(** ** Automation *)

(** [kexec] runs a computation symbolically, one primitive at a time. *)
Ltac kexec :=
  repeat (progress (simpl; repeat first
    [ rewrite exec_bind_assoc
    | rewrite exec_bind_ret
    | rewrite exec_bind_get
    | rewrite exec_bind_put
    | rewrite exec_bind_read
    | rewrite exec_bind_write
    | rewrite exec_bind_printk
    | rewrite exec_bind_klog
    | rewrite exec_bind_undefined
    | rewrite tell_nil
    | rewrite tell_tell ])).

(** [kdone] closes [exists out, tell o (Done a s _) = Done a s out]. *)
Ltac kdone := unfold tell, mret, M_ret; simpl; eexists; reflexivity.

(** [kensures] goes through the binds, branches and returned values of code. *)
Ltac kensures := repeat first [apply ensures_bind; intros | apply ensures_ret | case_match].

(** [cint] removes the conversions of values known to be in range. *)
Ltac cint :=
  repeat first
    [ rewrite u64_id by (unfold two64 in *; lia)
    | rewrite s64_id by lia
    | rewrite u32_id by (unfold two32 in *; lia) ].

(** [zcase] splits on the boolean comparison a goal branches on. *)
Ltac zcase :=
  match goal with
  | |- context [if ?a <=? ?b then _ else _] => destruct (Z.leb_spec a b); try lia
  | |- context [if ?a <? ?b then _ else _] => destruct (Z.ltb_spec a b); try lia
  | |- context [if ?a =? ?b then _ else _] => destruct (Z.eqb_spec a b); try lia
  end.
