(* ===== verification/CString.v ===== *)
(** * C strings

    The functions of <string.h> the modules call, over arrays of bytes. Each
    returns [None] where the C function would read or write outside the array
    it was given; that is the undefined behaviour the modules must avoid. *)

From Stdlib Require Import ZArith Lia Strings.Byte.
From stdpp Require Import base strings gmap sets numbers list.
From S2P Require Import Prelude.

(** ** Definitions *)

(** strlen: the distance to the first NUL, if there is one in the array. *)
Fixpoint strlen (l : list byte) : option nat :=
  match l with
  | [] => None
  | c :: l' => if decide (c = x00) then Some 0%nat else S <$> strlen l'
  end.

(** The characters of the string stored in an array. *)
Definition string_in (l : list byte) : option (list byte) :=
  (fun n => take n l) <$> strlen l.

Definition byte_Z (c : byte) : Z := Z.of_N (Byte.to_N c).

(** strncmp(a, b, n): it stops at the first difference and at the NUL. *)
Fixpoint strncmp (a b : list byte) (n : nat) {struct n} : option Z :=
  match n with
  | O => Some 0
  | S n' =>
      match a, b with
      | x :: a', y :: b' =>
          if decide (x = y) then
            if decide (x = x00) then Some 0 else strncmp a' b' n'
          else Some (byte_Z x - byte_Z y)
      | _, _ => None
      end
  end.

Fixpoint strcmp (a b : list byte) : option Z :=
  match a, b with
  | x :: a', y :: b' =>
      if decide (x = y) then
        if decide (x = x00) then Some 0 else strcmp a' b'
      else Some (byte_Z x - byte_Z y)
  | _, _ => None
  end.

(** strcpy(dst, src): the new contents of the array [dst]. *)
Fixpoint strcpy (dst src : list byte) : option (list byte) :=
  match dst, src with
  | _ :: dst', c :: src' =>
      if decide (c = x00) then Some (x00 :: dst')
      else cons c <$> strcpy dst' src'
  | _, _ => None
  end.

(** strncpy(dst, src, n): exactly [n] bytes are stored; after the NUL of the
    source, more NULs. The source is not advanced past its NUL. *)
Fixpoint strncpy (dst src : list byte) (n : nat) {struct n} : option (list byte) :=
  match n with
  | O => Some dst
  | S n' =>
      match dst, src with
      | _ :: dst', c :: src' =>
          if decide (c = x00) then cons x00 <$> strncpy dst' src n'
          else cons c <$> strncpy dst' src' n'
      | _, _ => None
      end
  end.

(** ** strlen *)

Lemma strlen_app bs l : x00 ∉ bs -> strlen (bs ++ x00 :: l) = Some (length bs).
Proof.
  induction bs as [|c bs IH]; simpl; intros H; [done|].
  apply not_elem_of_cons in H as [??].
  rewrite decide_False by congruence. by rewrite IH.
Qed.

Lemma strlen_Some l n :
  strlen l = Some n <-> l !! n = Some x00 /\ x00 ∉ take n l.
Proof.
  revert n. induction l as [|c l IH]; intros n; simpl.
  - split; [done|]. by rewrite lookup_nil; intros [].
  - case_decide as E.
    + subst. destruct n; simpl; [split; [split; [done|by apply not_elem_of_nil]|done]|].
      split; [congruence|]. intros [_ [H _]%not_elem_of_cons]. done.
    + destruct n as [|n]; simpl.
      * split; [intros H; by destruct (strlen l)|intros [H _]; congruence].
      * rewrite fmap_Some, not_elem_of_cons. split.
        -- intros (m & Hm & [= ->]). apply IH in Hm as [? ?]. eauto.
        -- intros (H1 & H2 & H3). exists n. split; [by apply IH|done].
Qed.

Lemma strlen_lt l n : strlen l = Some n -> (n < length l)%nat.
Proof. intros [H _]%strlen_Some. by eapply lookup_lt_Some. Qed.

(** A NUL somewhere makes an array a string. *)
Lemma strlen_is_Some l i : l !! i = Some x00 -> exists n, strlen l = Some n /\ (n <= i)%nat.
Proof.
  revert i. induction l as [|c l IH]; intros i; [by rewrite lookup_nil|].
  simpl. case_decide as E; intros H; [exists 0%nat; split; [done|lia]|].
  destruct i as [|i]; simpl in H; [congruence|].
  destruct (IH _ H) as (n & -> & ?). exists (S n). split; [done|lia].
Qed.

Lemma strlen_None l : strlen l = None <-> x00 ∉ l.
Proof.
  induction l as [|c l IH]; simpl; [split; [intros; apply not_elem_of_nil|done]|].
  rewrite not_elem_of_cons. case_decide as E.
  - split; [done|]. intros []; congruence.
  - rewrite fmap_None, IH. split; [auto|by intros []].
Qed.

Lemma string_in_app bs l : x00 ∉ bs -> string_in (bs ++ x00 :: l) = Some bs.
Proof.
  intros. unfold string_in. rewrite strlen_app by done. simpl.
  by rewrite take_app_length.
Qed.

(** ** strncmp and strcmp *)

Lemma strncmp_is_Some a b n :
  (n <= length a)%nat -> (n <= length b)%nat -> is_Some (strncmp a b n).
Proof.
  revert a b. induction n as [|n IH]; intros a b ??; simpl in *; [by eexists|].
  destruct a as [|x a], b as [|y b]; simpl in *; try lia.
  case_decide; [|by eexists]. case_decide; [by eexists|]. apply IH; lia.
Qed.

Lemma byte_Z_range c : 0 <= byte_Z c < 256.
Proof. unfold byte_Z. pose proof (Byte.to_N_bounded c). lia. Qed.

Lemma byte_Z_inj c d : byte_Z c = byte_Z d -> c = d.
Proof.
  unfold byte_Z. intros E%N2Z.inj.
  pose proof (Byte.of_to_N c) as H. rewrite E, Byte.of_to_N in H. congruence.
Qed.

(** On a prefix without NUL, strncmp tests equality of the first [n] bytes. *)
Lemma strncmp_zero a b n :
  (n <= length a)%nat -> (n <= length b)%nat -> x00 ∉ take n a ->
  strncmp a b n = Some 0 <-> take n a = take n b.
Proof.
  revert a b. induction n as [|n IH]; intros a b; simpl; [done|].
  destruct a as [|x a], b as [|y b]; simpl; try lia.
  intros ?? [N1 N2]%not_elem_of_cons. case_decide as E.
  - subst. rewrite decide_False by congruence.
    rewrite IH by (done || lia). split; congruence.
  - split; [|congruence]. intros [= Hd]. exfalso.
    apply E, byte_Z_inj. lia.
Qed.

Lemma strncmp_neq a b n :
  (n <= length a)%nat -> (n <= length b)%nat -> x00 ∉ take n a ->
  take n a <> take n b -> exists z, strncmp a b n = Some z /\ z <> 0.
Proof.
  intros L1 L2 N H. destruct (strncmp_is_Some a b n L1 L2) as [z E].
  exists z. split; [done|]. intros ->. by apply strncmp_zero in E.
Qed.

(** strcmp returns 0 exactly when the two strings are the same. *)
Lemma strcmp_zero a b :
  is_Some (strlen a) -> is_Some (strlen b) ->
  strcmp a b = Some 0 <-> string_in a = string_in b.
Proof.
  unfold string_in. revert b.
  induction a as [|x a IH]; intros b; simpl; [by intros []|].
  destruct b as [|y b]; simpl; [by intros ? []|].
  intros Ha Hb. destruct (decide (x = y)) as [->|E].
  - case_decide as Z; [done|].
    rewrite fmap_is_Some in Ha, Hb. rewrite IH by done.
    destruct Ha as [n ->], Hb as [m ->]. simpl. split; congruence.
  - assert (byte_Z x - byte_Z y <> 0) by (intros ?; apply E, byte_Z_inj; lia).
    split; [congruence|]. intros Heq. exfalso. apply E. revert Ha Hb Heq.
    destruct (decide (x = x00)), (decide (y = x00)); subst; try done.
    + by destruct (strlen b); [|intros ? []].
    + by destruct (strlen a); [|intros []].
    + destruct (strlen a), (strlen b); simpl; intros [??] [??]; congruence.
Qed.

Lemma strcmp_is_Some a b :
  is_Some (strlen a) -> is_Some (strlen b) -> is_Some (strcmp a b).
Proof.
  revert b. induction a as [|x a IH]; intros b; simpl; [by intros []|].
  destruct b as [|y b]; simpl; [by intros ? []|]. intros Ha Hb.
  destruct (decide (x = y)) as [->|]; [|by eexists].
  case_decide; [by eexists|]. rewrite fmap_is_Some in Ha, Hb. by apply IH.
Qed.

(** ** strcpy and strncpy *)

Lemma strcpy_Some dst src n :
  strlen src = Some n -> (n < length dst)%nat ->
  strcpy dst src = Some (take n src ++ x00 :: drop (S n) dst).
Proof.
  revert dst n. induction src as [|c src IH]; intros dst n; simpl; [done|].
  destruct dst as [|d dst]; simpl; [lia|].
  case_decide as E; [by intros [= <-]|].
  intros (m & Hm & ->)%fmap_Some ?. rewrite (IH dst m) by (done || lia). done.
Qed.

Lemma strcpy_overflow dst src n :
  strlen src = Some n -> (length dst <= n)%nat -> strcpy dst src = None.
Proof.
  revert dst n. induction src as [|c src IH]; intros dst n; simpl; [done|].
  destruct dst as [|d dst]; simpl; [done|].
  case_decide as E; [intros [= <-]; simpl; lia|].
  intros (m & Hm & ->)%fmap_Some ?. rewrite (IH dst m) by (done || lia). done.
Qed.

Lemma strncpy_length dst src n l :
  strncpy dst src n = Some l -> length l = length dst.
Proof.
  revert dst src l. induction n as [|n IH]; intros dst src l; simpl; [congruence|].
  destruct dst as [|d dst], src as [|c src]; try done.
  case_decide; intros (l' & Hl & ->)%fmap_Some; apply IH in Hl; simpl; lia.
Qed.

(** The destination is too short: strncpy stores past its end. *)
Lemma strncpy_overflow dst src n : (length dst < n)%nat -> strncpy dst src n = None.
Proof.
  revert dst src. induction n as [|n IH]; intros dst src; simpl; [lia|].
  destruct dst as [|d dst], src as [|c src]; simpl; try done; intros.
  case_decide; rewrite IH by lia; done.
Qed.

Lemma strncpy_zeros dst l n :
  (n <= length dst)%nat ->
  strncpy dst (x00 :: l) n = Some (replicate n x00 ++ drop n dst).
Proof.
  revert dst. induction n as [|n IH]; intros dst; simpl; [done|].
  destruct dst as [|d dst]; simpl; [lia|]. intros. by rewrite IH by lia.
Qed.

(** A source without NUL in its first [n] bytes: those bytes are copied, and
    no NUL is written. *)
Lemma strncpy_full dst src n :
  (n <= length dst)%nat -> (n <= length src)%nat -> x00 ∉ take n src ->
  strncpy dst src n = Some (take n src ++ drop n dst).
Proof.
  revert dst src. induction n as [|n IH]; intros dst src; simpl; [done|].
  destruct dst as [|d dst], src as [|c src]; simpl; try lia.
  intros ?? [N1 N2]%not_elem_of_cons.
  rewrite decide_False by congruence. by rewrite IH by (done || lia).
Qed.

(** A source with its NUL among the first [n] bytes: the string, then NULs up
    to [n] bytes. *)
Lemma strncpy_pad dst src n k :
  (n <= length dst)%nat -> strlen src = Some k -> (k <= n)%nat ->
  strncpy dst src n = Some (take k src ++ replicate (n - k) x00 ++ drop n dst).
Proof.
  revert dst src k. induction n as [|n IH]; intros dst src k; simpl.
  - intros ?? K. replace k with 0%nat by lia. done.
  - destruct dst as [|d dst]; simpl; [lia|].
    destruct src as [|c src]; simpl; [done|]. intros L.
    case_decide as E.
    + intros [= <-] ?. subst c. simpl. rewrite strncpy_zeros by lia. done.
    + intros (m & Hm & ->)%fmap_Some ?. simpl.
      rewrite (IH dst src m) by (done || lia). done.
Qed.

(** What strncpy leaves in [dst]: the source up to its first NUL, then NULs up
    to the count, then what was there. *)
Definition stored (dst src : list byte) (n : nat) : list byte :=
  match strlen (take n src) with
  | Some k => take k src ++ replicate (n - k) x00 ++ drop n dst
  | None => take n src ++ drop n dst
  end.

Lemma strlen_take n l k : strlen (take n l) = Some k -> strlen l = Some k /\ (k < n)%nat.
Proof.
  intros E. pose proof (strlen_lt _ _ E) as L. rewrite length_take in L.
  apply strlen_Some in E as [E N]. rewrite strlen_Some.
  rewrite lookup_take_lt in E by lia. rewrite take_take in N.
  replace (k `min` n)%nat with k in N by lia. split; [done|lia].
Qed.

Lemma strncpy_stored dst src n :
  (n <= length dst)%nat -> (n <= length src)%nat ->
  strncpy dst src n = Some (stored dst src n).
Proof.
  intros Ld Ls. unfold stored. destruct (strlen (take n src)) as [k|] eqn:E.
  - apply strlen_take in E as [E L]. by apply strncpy_pad; [|done|lia].
  - apply strlen_None in E. by apply strncpy_full.
Qed.

Lemma stored_length dst src n :
  (n <= length dst)%nat -> (n <= length src)%nat -> length (stored dst src n) = length dst.
Proof. intros Ld Ls. by eapply strncpy_length, strncpy_stored. Qed.

(** Storing bytes that hold no NUL in front of a string leaves its tail. *)
Lemma string_in_stored dst src n tl :
  (n <= length dst)%nat -> (n <= length src)%nat -> x00 ∉ take n src ->
  string_in (drop n dst) = Some tl ->
  string_in (stored dst src n) = Some (take n src ++ tl).
Proof.
  intros Ld Ls N E. unfold stored. rewrite (proj2 (strlen_None (take n src)) N).
  revert E. generalize (drop n dst) as d. revert N. generalize (take n src) as l.
  unfold string_in. induction l as [|c l IH]; intros N d E; simpl; [done|].
  apply not_elem_of_cons in N as [D N]. rewrite decide_False by congruence.
  apply fmap_Some in E as (k & Ek & ->).
  specialize (IH N d ltac:(by rewrite Ek)). apply fmap_Some in IH as (m & -> & Em).
  simpl. by rewrite <- Em.
Qed.

#[global] Arguments strlen : simpl never.
#[global] Arguments strcmp : simpl never.
#[global] Arguments strncmp : simpl never.
#[global] Arguments strcpy : simpl never.
#[global] Arguments strncpy : simpl never.
