(* ===== verification/Kernel.v ===== *)
(** * The kernel interfaces the modules are written against

    None of this code is in the repository: each class names the operations
    the modules call and a second class states what the kernel documents about
    them. The theorems about the modules are proved for every implementation
    that satisfies the laws; KernelInst.v gives a concrete one. *)

From Stdlib Require Import ZArith Lia Strings.Byte.
From stdpp Require Import base strings gmap sets numbers list.
From S2P Require Import Prelude.

(** ** User space memory (linux/uaccess.h) *)

(** [copy_from_user m a n] is what arrives in the kernel buffer, and how many
    bytes could not be copied; [uread] is what the process itself would read,
    and [uwritable m a n] says that it may store to [n] bytes from [a]. *)
Class UserMem := {
  umem : Type;
  uread : umem -> Z -> nat -> option (list byte);
  uwritable : umem -> Z -> nat -> Prop;
  user_bytes : umem -> Z -> nat -> list byte * nat;
  user_store : umem -> Z -> list byte -> umem * nat;
}.

(** Both functions return the number of bytes that could not be copied, zero
    on success; copy_from_user pads what it could not copy with zero bytes. *)
Class UserMemOk `{UserMem} : Prop := {
  user_bytes_length : forall m a n, length (user_bytes m a n).1 = n;
  user_bytes_le : forall m a n, ((user_bytes m a n).2 <= n)%nat;
  user_bytes_ok : forall m a n,
    (user_bytes m a n).2 = O -> uread m a n = Some (user_bytes m a n).1;
  user_bytes_complete : forall m a n bs,
    uread m a n = Some bs -> user_bytes m a n = (bs, O);
  user_bytes_pad : forall m a n,
    drop (n - (user_bytes m a n).2) (user_bytes m a n).1 =
      replicate (user_bytes m a n).2 x00;
  user_store_le : forall m a bs, ((user_store m a bs).2 <= length bs)%nat;
  user_store_ok : forall m a bs,
    (user_store m a bs).2 = O ->
    uread (user_store m a bs).1 a (length bs) = Some bs;
  user_store_writable : forall m a n bs,
    uwritable m a n -> (length bs <= n)%nat -> (user_store m a bs).2 = O;
  uwritable_store : forall m a n b bs,
    uwritable m a n -> uwritable (user_store m b bs).1 a n;
}.

(** copy_from_user into a buffer of the module at an offset, and copy_to_user
    from one: the kernel side of the copy must lie inside the buffer. *)
Definition copy_from_user `{UserMem} {S} (um : lens S umem)
    (buf : lens S (list byte)) (off ubuf n : Z) : M S Z :=
  m ← kread um; b ← kread buf;
  let c := user_bytes m ubuf (Z.to_nat n) in
  match splice off c.1 b with
  | Some b' => kwrite buf b' ;; mret (Z.of_nat c.2)
  | None => undef OutOfBounds
  end.

Definition copy_to_user `{UserMem} {S} (um : lens S umem) (ubuf : Z)
    (src : list byte) (off n : Z) : M S Z :=
  match slice off n src with
  | Some bs =>
      m ← kread um;
      let c := user_store m ubuf bs in
      kwrite um c.1 ;; mret (Z.of_nat c.2)
  | None => undef OutOfBounds
  end.

(** ** Intrusive lists (linux/list.h, linux/rculist.h)

    The state of the links of one list head and of the entries on it.
    [list_first] and [list_next] are the two pointer reads of
    list_for_each_entry; they return [None] when the cursor is back at the
    head. *)
Class KList (addr : Type) := {
  klist : Type;
  entries : klist -> list addr;
  LIST_HEAD : klist;
  list_add : addr -> klist -> klist;
  list_add_tail : addr -> klist -> klist;
  list_del_entry : addr -> klist -> klist;
  list_first : klist -> option addr;
  list_next : addr -> klist -> option addr;
}.

Class KListOk (addr : Type) `{KList addr} : Prop := {
  entries_head : entries LIST_HEAD = [];
  entries_add : forall a l, a ∉ entries l -> entries (list_add a l) = a :: entries l;
  entries_add_tail : forall a l,
    a ∉ entries l -> entries (list_add_tail a l) = entries l ++ [a];
  entries_del : forall a l p q,
    NoDup (entries l) -> entries l = p ++ a :: q ->
    entries (list_del_entry a l) = p ++ q;
  list_first_entry : forall l, list_first l = head (entries l);
  list_next_entry : forall a l p q,
    NoDup (entries l) -> entries l = p ++ a :: q -> list_next a l = head q;
}.

(** Not promised by list.h, which calls a deleted entry undefined: its own
    next pointer still leads where it led. *)
Class KListStale (addr : Type) `{KList addr} : Prop := {
  list_next_deleted : forall a l p q,
    NoDup (entries l) -> entries l = p ++ a :: q ->
    list_next a (list_del_entry a l) = head q;
}.

(** list_for_each_entry: [next] is the read of the cursor's own pointer, and the
    body may leave the function with a result. A traversal of a list that is
    not extended meanwhile visits each entry at most once, so the number of
    entries is enough fuel. *)
Fixpoint walk {S A R : Type} (next : A -> M S (option A)) (fuel : nat) (cur : option A)
    (body : A -> M S (option R)) : M S (option R) :=
  match cur with
  | None => mret None
  | Some a =>
      match fuel with
      | O => undef OutOfFuel
      | Datatypes.S f =>
          r ← body a;
          match r with
          | Some x => mret (Some x)
          | None => n ← next a; walk next f n body
          end
      end
  end.

(** ** Error pointers (linux/err.h) *)

Class ErrPtr := {
  ERR_PTR : Z -> Z;
  IS_ERR : Z -> bool;
  PTR_ERR : Z -> Z;
}.

Class ErrPtrOk `{ErrPtr} : Prop := {
  IS_ERR_ERR_PTR : forall e, -4095 <= e < 0 -> IS_ERR (ERR_PTR e) = true;
  PTR_ERR_ERR_PTR : forall e, -4095 <= e < 0 -> PTR_ERR (ERR_PTR e) = e;
  PTR_ERR_range : forall p, IS_ERR p = true -> -4095 <= PTR_ERR p < 0;
  ERR_PTR_PTR_ERR : forall p, IS_ERR p = true -> ERR_PTR (PTR_ERR p) = p;
}.

(** ** Counting semaphores (linux/semaphore.h) *)

Class Semaphore := {
  semaphore : Type;
  sema_init : Z -> semaphore;
  sem_count : semaphore -> Z;
  down : semaphore -> option semaphore;     (* None: the caller sleeps *)
  up : semaphore -> semaphore;
}.

Class SemaphoreOk `{Semaphore} : Prop := {
  sema_init_count : forall n, sem_count (sema_init n) = n;
  down_Some : forall s s', down s = Some s' -> 0 < sem_count s /\ sem_count s' = sem_count s - 1;
  down_None : forall s, down s = None -> sem_count s <= 0;
  up_count : forall s, sem_count (up s) = sem_count s + 1;
}.

(** ** Mutexes (linux/mutex.h) *)

Class Mutex := {
  mutex : Type;
  mutex_new : mutex;                         (* after mutex_init *)
  mutex_is_locked : mutex -> bool;
  mutex_lock : mutex -> option mutex;        (* None: the caller sleeps *)
  mutex_unlock : mutex -> mutex;
}.

Class MutexOk `{Mutex} : Prop := {
  mutex_new_unlocked : mutex_is_locked mutex_new = false;
  mutex_lock_free : forall m, mutex_is_locked m = false ->
    exists m', mutex_lock m = Some m' /\ mutex_is_locked m' = true;
  mutex_lock_held : forall m, mutex_is_locked m = true -> mutex_lock m = None;
  mutex_unlock_unlocked : forall m, mutex_is_locked (mutex_unlock m) = false;
}.

(** ** Module reference counts (linux/module.h) *)

Class ModuleRefs (owner : Type) := {
  mods : Type;
  refcount : mods -> owner -> Z;
  try_module_get : owner -> mods -> bool * mods;
  module_put : owner -> mods -> mods;
}.

Class ModuleRefsOk (owner : Type) `{ModuleRefs owner} : Prop := {
  try_module_get_true : forall o m m', try_module_get o m = (true, m') ->
    refcount m' o = refcount m o + 1 /\
    (forall p, p <> o -> refcount m' p = refcount m p);
  try_module_get_false : forall o m m', try_module_get o m = (false, m') -> m' = m;
  module_put_self : forall o m, refcount (module_put o m) o = refcount m o - 1;
  module_put_other : forall o p m, p <> o -> refcount (module_put o m) p = refcount m p;
}.

(** ** Running the copies *)

Section Copies.
Context `{UserMemOk} {S : Type} (um : lens S umem) (buf : lens S (list byte)).

(** A copy from user space that fits its buffer. *)
Lemma copy_from_user_fits off ubuf n s :
  0 <= off -> 0 <= n -> off + n <= Z.of_nat (length (view buf s)) ->
  exists b',
    splice off (user_bytes (view um s) ubuf (Z.to_nat n)).1 (view buf s) = Some b' /\
    length b' = length (view buf s) /\
    slice off n b' = Some (user_bytes (view um s) ubuf (Z.to_nat n)).1 /\
    copy_from_user um buf off ubuf n s =
      Done (Z.of_nat (user_bytes (view um s) ubuf (Z.to_nat n)).2) (set buf b' s) [].
Proof.
  intros Ho Hn Hf. set (c := user_bytes _ _ _).
  assert (Z.of_nat (length c.1) = n) as Hc.
  { unfold c. rewrite user_bytes_length. lia. }
  pose proof (splice_spec off c.1 (view buf s) Ho ltac:(lia)) as E.
  eexists. split; [exact E|].
  split; [by eapply splice_length|].
  split; [rewrite <- Hc; by eapply slice_splice|].
  unfold copy_from_user. kexec. fold c. rewrite E. by kexec.
Qed.

(** A copy from user space that does not. *)
Lemma copy_from_user_overflow off ubuf n s :
  0 <= n -> Z.of_nat (length (view buf s)) < off + n ->
  copy_from_user um buf off ubuf n s = Undef OutOfBounds.
Proof.
  intros Hn Ho. unfold copy_from_user. kexec.
  rewrite splice_out; [done|]. rewrite user_bytes_length. lia.
Qed.

Lemma copy_to_user_fits ubuf src off n s :
  0 <= off -> 0 <= n -> off + n <= Z.of_nat (length src) ->
  let bs := take (Z.to_nat n) (drop (Z.to_nat off) src) in
  copy_to_user um ubuf src off n s =
    Done (Z.of_nat (user_store (view um s) ubuf bs).2)
         (set um (user_store (view um s) ubuf bs).1 s) [].
Proof.
  intros. unfold copy_to_user. rewrite slice_spec by done. by kexec.
Qed.

Lemma copy_to_user_overflow ubuf src off n s :
  Z.of_nat (length src) < off + n ->
  copy_to_user um ubuf src off n s = Undef OutOfBounds.
Proof. intros. unfold copy_to_user. by rewrite slice_out. Qed.
End Copies.

(** ** Lists of distinct entries *)

(** A walk whose body changes nothing stops at the first entry for which the
    body has a result. *)
Lemma walk_search `{KListOk addr} {S R} next (body : addr -> M S (option R)) f l p q fuel s :
  NoDup (entries l) -> entries l = p ++ q -> (length q <= fuel)%nat ->
  (forall a, a ∈ q -> next a s = Done (list_next a l) s [] /\ body a s = Done (f a) s []) ->
  walk next fuel (head q) body s = Done (head (omap f q)) s [].
Proof.
  intros N. revert p fuel. induction q as [|a q IH]; intros p fuel E F B; simpl.
  - by destruct fuel.
  - destruct fuel as [|fuel]; simpl in F; [lia|].
    destruct (B a) as [En Eb]; [by left|]. simpl.
    rewrite (exec_bind _ _ _ _ _ _ Eb), tell_nil.
    destruct (f a); [done|]. rewrite (exec_bind _ _ _ _ _ _ En), tell_nil.
    rewrite (list_next_entry a l p q) by done.
    apply (IH (p ++ [a])); [by rewrite <- app_assoc|lia|]. intros b ?. apply B. by right.
Qed.

(** The part of a walk before the entry it stops at, for a body that changes
    nothing there. *)
Lemma walk_prefix `{KListOk addr} {S R} next (body : addr -> M S (option R)) l p q r fuel s :
  NoDup (entries l) -> entries l = p ++ q ++ r ->
  (forall a, a ∈ q -> next a s = Done (list_next a l) s [] /\ body a s = Done None s []) ->
  walk next (length q + fuel) (head (q ++ r)) body s = walk next fuel (head r) body s.
Proof.
  intros N. revert p. induction q as [|a q IH]; intros p E B; simpl; [done|].
  destruct (B a) as [En Eb]; [by left|].
  rewrite (exec_bind _ _ _ _ _ _ Eb), tell_nil, (exec_bind _ _ _ _ _ _ En), tell_nil.
  rewrite (list_next_entry a l p (q ++ r)) by done.
  apply (IH (p ++ [a])); [by rewrite <- app_assoc|]. intros b ?. apply B. by right.
Qed.

Section Lists.
Context `{KListOk addr}.

Lemma list_next_cons a l q :
  NoDup (entries l) -> entries l = a :: q -> list_next a l = head q.
Proof. intros N E. by apply (list_next_entry a l [] q). Qed.

End Lists.
