(* ===== verification/KernelInst.v ===== *)
(** * A concrete kernel

    One implementation of every interface of Kernel.v, with its laws: it shows
    that the laws can hold together and lets the witnesses evaluate. User
    memory is a map from mapped addresses to bytes; a list is its sequence of
    entries and, for the entries deleted last, the successor they had. *)

From Stdlib Require Import ZArith Lia Strings.Byte.
From stdpp Require Import base strings gmap sets numbers list.
From S2P Require Import Prelude.
From S2P Require Import Kernel.

(** ** User memory *)

Fixpoint map_read (m : gmap Z byte) (a : Z) (n : nat) : option (list byte) :=
  match n with
  | O => Some []
  | S n' => match m !! a with
            | Some b => cons b <$> map_read m (a + 1) n'
            | None => None
            end
  end.

Fixpoint map_bytes (m : gmap Z byte) (a : Z) (n : nat) : list byte * nat :=
  match n with
  | O => ([], O)
  | S n' => match m !! a with
            | Some b => let c := map_bytes m (a + 1) n' in (b :: c.1, c.2)
            | None => (replicate n x00, n)
            end
  end.

Fixpoint map_store (m : gmap Z byte) (a : Z) (bs : list byte) : gmap Z byte * nat :=
  match bs with
  | [] => (m, O)
  | b :: bs' => match m !! a with
                | Some _ => map_store (<[a := b]> m) (a + 1) bs'
                | None => (m, length bs)
                end
  end.

#[export] Instance map_umem : UserMem := {|
  umem := gmap Z byte;
  uread := map_read;
  uwritable m a n := forall i, a <= i < a + Z.of_nat n -> is_Some (m !! i);
  user_bytes := map_bytes;
  user_store := map_store;
|}.

(** [n] mapped bytes from address [a]. *)
Definition mapped (a : Z) (bs : list byte) : gmap Z byte :=
  list_to_map (imap (fun i b => (a + Z.of_nat i, b)) bs).

(** ** Lists *)

Record seq_list := SeqList { order : list Z; last_deleted : option (Z * option Z) }.

Fixpoint successor (a : Z) (l : list Z) : option Z :=
  match l with
  | [] => None
  | b :: l' => if decide (a = b) then head l' else successor a l'
  end.

Definition seq_next (a : Z) (l : seq_list) : option Z :=
  if decide (a ∈ order l) then successor a (order l)
  else match last_deleted l with
       | Some (b, n) => if decide (a = b) then n else None
       | None => None
       end.

#[export] Instance seq_klist : KList Z := {|
  klist := seq_list;
  entries := order;
  LIST_HEAD := SeqList [] None;
  list_add a l := SeqList (a :: order l) None;
  list_add_tail a l := SeqList (order l ++ [a]) None;
  list_del_entry a l :=
    SeqList (filter (fun b => b <> a) (order l)) (Some (a, successor a (order l)));
  list_first l := head (order l);
  list_next := seq_next;
|}.

(** ** Semaphores, mutexes, module references *)

#[export] Instance Z_semaphore : Semaphore := {|
  semaphore := Z;
  sema_init n := n;
  sem_count n := n;
  down n := if 0 <? n then Some (n - 1) else None;
  up n := n + 1;
|}.

#[export] Instance bool_mutex : Mutex := {|
  mutex := bool;
  mutex_new := false;
  mutex_is_locked m := m;
  mutex_lock m := if m then None else Some true;
  mutex_unlock _ := false;
|}.

(** A pointer value in the last page of the address space is an error. *)
#[export] Instance err_ptr64 : ErrPtr := {|
  ERR_PTR e := u64 e;
  IS_ERR p := (two64 - 4095 <=? p) && (p <? two64);
  PTR_ERR p := s64 p;
|}.

(** Every module is live; its count is in the map. *)
#[export] Instance map_refs : ModuleRefs Z := {|
  mods := gmap Z Z;
  refcount m o := default 0 (m !! o);
  try_module_get o m := (true, <[o := default 0 (m !! o) + 1]> m);
  module_put o m := <[o := default 0 (m !! o) - 1]> m;
|}.

(** An address above those in use. *)
Definition above {A} (h : gmap Z A) : Z := map_fold (fun a _ m => Z.max a m) 0 h + 1.

(** ** The laws *)

Lemma map_bytes_ok m a n :
  (map_bytes m a n).2 = O -> map_read m a n = Some (map_bytes m a n).1.
Proof.
  revert a. induction n as [|n IH]; intros a; simpl; [done|].
  destruct (m !! a) as [b|]; simpl; [|done]. intros E. by rewrite (IH _ E).
Qed.

Lemma map_bytes_complete m a n bs :
  map_read m a n = Some bs -> map_bytes m a n = (bs, O).
Proof.
  revert a bs. induction n as [|n IH]; intros a bs; simpl; [congruence|].
  destruct (m !! a) as [b|]; simpl; [|done].
  intros (bs' & E & ->)%fmap_Some. by rewrite (IH _ _ E).
Qed.

Lemma map_read_insert m c b a n : c < a -> map_read (<[c := b]> m) a n = map_read m a n.
Proof.
  revert a. induction n as [|n IH]; intros a L; [done|]. simpl.
  rewrite lookup_insert_ne by lia. by rewrite IH by lia.
Qed.

Lemma mapped_cons a b bs : mapped a (b :: bs) = <[a := b]> (mapped (a + 1) bs).
Proof.
  unfold mapped. rewrite imap_cons. simpl. rewrite Z.add_0_r. do 2 f_equal.
  apply imap_ext. intros i x _. unfold compose. f_equal. lia.
Qed.

(** Mapped bytes are read. *)
Lemma map_read_mapped a bs : map_read (mapped a bs) a (length bs) = Some bs.
Proof.
  revert a. induction bs as [|b bs IH]; intros a; [done|].
  rewrite mapped_cons. simpl. rewrite lookup_insert_eq.
  rewrite map_read_insert by lia. by rewrite IH.
Qed.

Lemma map_bytes_length m a n : length (map_bytes m a n).1 = n.
Proof.
  revert a. induction n as [|n IH]; intros a; simpl; [done|].
  destruct (m !! a); simpl; [by rewrite IH|]. by rewrite length_replicate.
Qed.

Lemma map_bytes_le m a n : ((map_bytes m a n).2 <= n)%nat.
Proof.
  revert a. induction n as [|n IH]; intros a; simpl; [done|].
  destruct (m !! a); simpl; [|done]. specialize (IH (a + 1)). lia.
Qed.

Lemma map_bytes_pad m a n :
  drop (n - (map_bytes m a n).2) (map_bytes m a n).1 = replicate (map_bytes m a n).2 x00.
Proof.
  revert a. induction n as [|n IH]; intros a; simpl; [done|].
  destruct (m !! a); simpl; [|by rewrite Nat.sub_diag].
  pose proof (map_bytes_le m (a + 1) n).
  replace (S n - (map_bytes m (a + 1) n).2)%nat
    with (S (n - (map_bytes m (a + 1) n).2)) by lia.
  simpl. apply IH.
Qed.

Lemma map_store_le m a bs : ((map_store m a bs).2 <= length bs)%nat.
Proof.
  revert m a. induction bs as [|b bs IH]; intros m a; simpl; [done|].
  destruct (m !! a); simpl; [|done]. specialize (IH (<[a:=b]> m) (a + 1)). lia.
Qed.

Lemma map_store_before m a bs c : c < a -> (map_store m a bs).1 !! c = m !! c.
Proof.
  revert m a. induction bs as [|b bs IH]; intros m a Hc; simpl; [done|].
  destruct (m !! a); simpl; [|done].
  rewrite IH by lia. rewrite lookup_insert_ne; [done|lia].
Qed.

Lemma map_store_ok m a bs :
  (map_store m a bs).2 = O ->
  map_read (map_store m a bs).1 a (length bs) = Some bs.
Proof.
  revert m a. induction bs as [|b bs IH]; intros m a; simpl; [done|].
  destruct (m !! a); simpl; [|done]. intros H.
  rewrite map_store_before by lia. rewrite lookup_insert_eq.
  by rewrite (IH _ _ H).
Qed.

Lemma map_store_writable m a bs :
  (forall i, a <= i < a + Z.of_nat (length bs) -> is_Some (m !! i)) ->
  (map_store m a bs).2 = O.
Proof.
  revert m a. induction bs as [|b bs IH]; intros m a W; simpl; [done|].
  destruct (W a) as [x ->]; [simpl; lia|]. apply IH. intros i Hi.
  rewrite lookup_insert_is_Some'. right. apply W. simpl. lia.
Qed.

Lemma map_store_is_Some m a bs i :
  is_Some (m !! i) -> is_Some ((map_store m a bs).1 !! i).
Proof.
  revert m a. induction bs as [|b bs IH]; intros m a Hi; simpl; [done|].
  destruct (m !! a); simpl; [|done]. apply IH.
  rewrite lookup_insert_is_Some'. by right.
Qed.

#[export] Instance map_umem_ok : UserMemOk.
Proof.
  split; intros.
  - apply map_bytes_length.
  - apply map_bytes_le.
  - by apply map_bytes_ok.
  - by apply map_bytes_complete.
  - apply map_bytes_pad.
  - apply map_store_le.
  - by apply map_store_ok.
  - apply map_store_writable. intros i Hi. apply H. lia.
  - intros i Hi. by apply map_store_is_Some, H.
Qed.

Lemma filter_ne_middle (a : Z) p q :
  NoDup (p ++ a :: q) -> filter (fun b => b <> a) (p ++ a :: q) = p ++ q.
Proof.
  intros (N1 & N2 & [N3 N4]%NoDup_cons)%NoDup_app.
  assert (forall l : list Z, a ∉ l -> filter (fun b => b <> a) l = l) as F.
  { induction l as [|c l IH]; [done|]. intros [??]%not_elem_of_cons.
    rewrite filter_cons_True by congruence. by rewrite IH. }
  rewrite filter_app, filter_cons_False by (intros []; done).
  rewrite !F; [done|done|]. intros Ha. apply (N2 _ Ha). by left.
Qed.

Lemma successor_middle a p q :
  NoDup (p ++ a :: q) -> successor a (p ++ a :: q) = head q.
Proof.
  induction p as [|c p IH]; simpl; intros N.
  - by rewrite decide_True.
  - apply NoDup_cons in N as [N1 N2].
    rewrite decide_False by (intros ->; apply N1, elem_of_app; right; by left).
    by apply IH.
Qed.

#[export] Instance seq_klist_ok : KListOk Z.
Proof.
  split; simpl; intros; try done.
  - rewrite H0 in *. by apply filter_ne_middle.
  - unfold seq_next. rewrite decide_True.
    + rewrite H0 in *. by apply successor_middle.
    + rewrite H0. apply elem_of_app. right. by left.
Qed.

#[export] Instance seq_klist_stale : KListStale Z.
Proof.
  split. simpl. intros a l p q N E. unfold seq_next. simpl.
  rewrite decide_False.
  - rewrite decide_True by done. rewrite E in *. by apply successor_middle.
  - intros [? _]%list_elem_of_filter. done.
Qed.

#[export] Instance Z_semaphore_ok : SemaphoreOk.
Proof.
  split; simpl; intros; try done; destruct (Z.ltb_spec 0 s); simplify_eq; lia.
Qed.

#[export] Instance err_ptr64_ok : ErrPtrOk.
Proof.
  assert (forall e, -4095 <= e < 0 -> u64 e = e + two64) as U.
  { intros e He. unfold u64, two64.
    symmetry. apply (Z.mod_unique_pos _ _ (-1)); lia. }
  assert (forall p, two64 - 4095 <= p < two64 -> s64 p = p - two64) as V.
  { intros p Hp. unfold s64. replace ((p + 2 ^ 63) mod two64) with (p + 2 ^ 63 - two64);
      [unfold two64; lia|]. apply (Z.mod_unique_pos _ _ 1); unfold two64 in *; lia. }
  split; simpl; intros e He;
    try (apply andb_true_iff in He as [?%Z.leb_le ?%Z.ltb_lt]).
  - rewrite U by done. apply andb_true_iff. split; [apply Z.leb_le|apply Z.ltb_lt]; lia.
  - rewrite U, V by lia. lia.
  - rewrite V by lia. lia.
  - rewrite V, U by lia. lia.
Qed.

#[export] Instance bool_mutex_ok : MutexOk.
Proof. split; simpl; intros; subst; eauto. Qed.

#[export] Instance map_refs_ok : ModuleRefsOk Z.
Proof.
  split; simpl; intros; simplify_eq; rewrite ?lookup_insert_eq; simpl; try done.
  - split; [done|]. intros. by rewrite lookup_insert_ne.
  - by rewrite lookup_insert_ne.
Qed.

Lemma above_fresh {A} (h : gmap Z A) a o : h !! a = Some o -> a < above h.
Proof.
  unfold above. intros E. enough (a <= map_fold (fun a _ m => Z.max a m) 0 h) by lia.
  revert a o E. apply (map_fold_weak_ind (fun m h => forall a o, h !! a = Some o -> a <= m)).
  - intros a o. by rewrite lookup_empty.
  - intros b x h' m _ IH a o. rewrite lookup_insert_Some.
    intros [[-> _]|[_ E]]; [lia|]. specialize (IH _ _ E). lia.
Qed.

Lemma above_None {A} (h : gmap Z A) : h !! above h = None.
Proof.
  destruct (h !! above h) as [x|] eqn:E; [|done]. apply above_fresh in E. lia.
Qed.

Lemma above_pos {A} (h : gmap Z A) : 0 < above h.
Proof.
  unfold above. enough (0 <= map_fold (fun a _ m => Z.max a m) 0 h) by lia.
  apply (map_fold_weak_ind (fun m _ => 0 <= m)); [done|]. intros; lia.
Qed.
