(* ===== verification/MiscDev.v ===== *)
(** * The misc character device (Task_6/misc_device, Task_17/misc_device)

    A device file that yields the author's id when read and compares what is
    written to it with that id. [dev] is the module's buffer, the position of
    the open file and the memory of the calling process. Task_17's write
    handler is Task_6's with printk for pr_debug: both are [simple_dev_write]
    at a log level. *)

From Stdlib Require Import ZArith Lia Strings.Byte.
From stdpp Require Import base strings gmap sets numbers list.
From S2P Require Import Prelude.
From S2P Require Import CString.
From S2P Require Import Kernel.
From S2P Require Import KernelInst.

(** ** The module *)

Definition author_id : list byte := cstring "Nishad Kamdar".
Definition author_id_size : Z := Z.of_nat (length author_id).

Section MiscDev.
Context `{UserMem}.

(** Whether stores reach [user_input], which is defined const; C leaves such a
    store undefined, and the kernel maps constants read-only when it enforces
    module memory protection. *)
Variable rodata_writable : bool.
Variable lv : loglevel.

Record dev := Dev {
  user_input : list byte;
  f_pos : Z;
  um : umem;
}.

Definition user_inputL : lens dev (list byte) :=
  Lens user_input (fun b s => Dev b (f_pos s) (um s)).
Definition f_posL : lens dev Z :=
  Lens f_pos (fun p s => Dev (user_input s) p (um s)).
Definition umL : lens dev umem :=
  Lens um (fun m s => Dev (user_input s) (f_pos s) m).

Definition store_const (n : Z) : M dev unit :=
  if (0 <? n) && negb rodata_writable then undef ReadOnlyWrite else mret tt.

Definition simple_dev_open : M dev Z :=
  klog lv "eudyptula opened" [] ;; mret 0.

Definition simple_dev_read (buf count : Z) : M dev Z :=
  pos ← kread f_posL;
  klog lv "misc_dev: Device file is read at offset = %i, read bytes count = %u"
    [ArgZ (s32 pos); ArgZ (u32 count)] ;;
  if author_id_size <=? pos then mret 0 else
  let count := if u64 author_id_size <? u64 (pos + count)
               then u64 (author_id_size - pos) else count in
  r ← copy_to_user umL buf author_id pos count;
  if negb (r =? 0) then mret (- EFAULT) else
  kwrite f_posL (s64 (u64 (pos + count))) ;;
  mret (s64 count).

Definition simple_dev_write (buf count : Z) : M dev Z :=
  pos ← kread f_posL;
  klog lv "misc_dev: Device file is written at offset = %i, written bytes count = %u"
    [ArgZ (s32 pos); ArgZ (u32 count)] ;;
  if 4096 <=? pos then mret 0 else
  let count := if 4096 <? u64 (pos + count) then u64 (4096 - pos) else count in
  store_const count ;;
  r ← copy_from_user umL user_inputL pos buf count;
  if negb (r =? 0) then mret (- EFAULT) else
  kwrite f_posL (s64 (u64 (pos + count))) ;;
  input ← kread user_inputL;
  match strncmp author_id input 13 with
  | None => undef OutOfBounds
  | Some c =>
      if negb (c =? 0)
      then klog lv "incorrect value written" [] ;; mret (-1)
      else klog lv "correct value written" [] ;; mret (s64 count)
  end.

(** *** Registration *)

Section Init.
Context {core : Type}.
Variable misc_register : M core Z.
Variable misc_deregister : M core unit.
Variable minor : core -> Z.

Definition misc_init : M core Z :=
  error ← misc_register;
  if negb (error =? 0)
  then klog lv "can't misc_register" [] ;; mret error
  else
    c ← kget;
    klog lv "misc device initialized! minor number is %i" [ArgZ (minor c)] ;;
    mret 0.

Definition misc_exit : M core unit :=
  klog lv "See you later." [] ;; misc_deregister.
End Init.

(** ** What the handlers promise *)

(** The VFS calls a handler with a position and a count in these ranges
    (rw_verify_area). *)
Definition vfs_ok (pos count : Z) : Prop :=
  0 <= pos /\ 0 <= count /\ pos + count < 2 ^ 63.

Definition dev_wf (s : dev) : Prop := length (user_input s) = 4096%nat.

(** What the write handler is looking for: the id, at the start of the buffer. *)
Definition holds_author (input : list byte) : bool :=
  bool_decide (take 13 input = bytes "Nishad Kamdar").

(** The outcomes of a read of [count] bytes into [buf]. *)
Inductive read_result (s : dev) (buf count : Z) : Z -> dev -> Prop :=
| read_eof :
    14 <= f_pos s -> read_result s buf count 0 s
| read_fault bs m r :
    f_pos s < 14 ->
    slice (f_pos s) (Z.min count (14 - f_pos s)) author_id = Some bs ->
    user_store (um s) buf bs = (m, S r) ->
    read_result s buf count (- EFAULT) (Dev (user_input s) (f_pos s) m)
| read_done bs m :
    f_pos s < 14 ->
    slice (f_pos s) (Z.min count (14 - f_pos s)) author_id = Some bs ->
    user_store (um s) buf bs = (m, O) ->
    read_result s buf count (Z.of_nat (length bs))
      (Dev (user_input s) (f_pos s + Z.of_nat (length bs)) m).

(** The outcomes of a write: [n] is the part of the request that fits. *)
Inductive write_result (s : dev) (buf count : Z) : Z -> dev -> Prop :=
| write_eof :
    4096 <= f_pos s -> write_result s buf count 0 s
| write_fault n bs r b :
    f_pos s < 4096 -> n = Z.min count (4096 - f_pos s) ->
    user_bytes (um s) buf (Z.to_nat n) = (bs, S r) ->
    splice (f_pos s) bs (user_input s) = Some b ->
    write_result s buf count (- EFAULT) (Dev b (f_pos s) (um s))
| write_done n bs b v :
    f_pos s < 4096 -> n = Z.min count (4096 - f_pos s) ->
    user_bytes (um s) buf (Z.to_nat n) = (bs, O) ->
    splice (f_pos s) bs (user_input s) = Some b ->
    v = (if holds_author b then n else -1) ->
    write_result s buf count v (Dev b (f_pos s + n) (um s)).

(** A process that reads until a read returns nothing, [chunk] bytes at a time
    into the buffer at [buf], and keeps what it finds there (cat). *)
Fixpoint read_all (fuel : nat) (buf chunk : Z) (s : dev) : option (list byte) :=
  match fuel with
  | O => None
  | S f =>
      match simple_dev_read buf chunk s with
      | Done n s' _ =>
          if n <=? 0 then Some [] else
          bs ← uread (um s') buf (Z.to_nat n);
          rest ← read_all f buf chunk s';
          Some (bs ++ rest)
      | Undef _ => None
      end
  end.
End MiscDev.

Arguments Dev {_} _ _ _.
Arguments user_input {_} _.
Arguments f_pos {_} _.
Arguments um {_} _.

(** ** Lemmas *)

#[global] Arguments holds_author : simpl never.

Section MiscDevFacts.
Context `{UserMemOk}.
Implicit Types s : dev.

Lemma author_id_length : length author_id = 14%nat.
Proof. done. Qed.

Lemma author_prefix : take 13 author_id = bytes "Nishad Kamdar".
Proof. done. Qed.

Lemma author_no_nul : x00 ∉ take 13 author_id.
Proof. by apply (bool_decide_unpack _). Qed.

(** The clamp of both handlers, on a position the VFS lets through. *)
Lemma clamp_count lim pos count :
  vfs_ok pos count -> 0 <= lim < 2 ^ 63 -> pos < lim ->
  (if lim <? u64 (pos + count) then u64 (lim - pos) else count) = Z.min count (lim - pos).
Proof.
  unfold vfs_ok. intros (?&?&?) ??.
  rewrite (u64_id (pos + count)) by (unfold two64; lia).
  rewrite (u64_id (lim - pos)) by (unfold two64; lia).
  zcase.
Qed.

(** The comparison of the first 13 bytes of the buffer with the id. *)
Lemma compare_author input :
  (13 <= length input)%nat ->
  exists c, strncmp author_id input 13 = Some c /\
    (c = 0 <-> holds_author input = true).
Proof.
  intros L. assert (13 <= length author_id)%nat as L' by (rewrite author_id_length; lia).
  destruct (strncmp_is_Some author_id input 13 L' L) as [c E].
  exists c. split; [done|]. unfold holds_author. rewrite bool_decide_eq_true, <- author_prefix.
  pose proof (strncmp_zero author_id input 13 L' L author_no_nul) as Z.
  rewrite E in Z. split.
  - intros ->. symmetry. by apply Z.
  - intros T. assert (Some c = Some 0) as [= ->]; [by apply Z|done].
Qed.

(** Both handlers leave the size of the buffer alone. *)
Lemma write_result_wf s buf count v s' :
  dev_wf s -> write_result s buf count v s' -> dev_wf s'.
Proof.
  unfold dev_wf. destruct 2; simpl; [done|..];
    match goal with E : splice _ _ _ = Some _ |- _ => apply splice_length in E end;
    lia.
Qed.

(** The read handler is total and does what [read_result] says. *)
Lemma read_runs lv s buf count :
  vfs_ok (f_pos s) count ->
  exists v s', runs (simple_dev_read lv buf count) s v s' /\ read_result s buf count v s'.
Proof.
  intros V. pose proof V as (?&?&?). unfold runs, simple_dev_read. kexec.
  change author_id_size with 14. change (u64 14) with 14. zcase.
  - eexists _, s. split; [kdone|by constructor].
  - rewrite clamp_count by (done || lia). set (n := Z.min _ _).
    assert (0 <= n <= 14 - f_pos s) as Hn by lia.
    assert (slice (f_pos s) n author_id =
      Some (take (Z.to_nat n) (drop (Z.to_nat (f_pos s)) author_id))) as Es.
    { apply slice_spec; rewrite ?author_id_length; lia. }
    pose proof (slice_length _ _ _ _ Es) as Hl.
    set (bs := take _ _) in *. destruct (user_store (um s) buf bs) as [m r] eqn:Eu.
    rewrite (exec_bind _ _ _ (Z.of_nat r) (Dev (user_input s) (f_pos s) m) []).
    2:{ rewrite copy_to_user_fits by (rewrite ?author_id_length; lia).
        fold bs. simpl. by rewrite Eu. }
    destruct r as [|r]; simpl.
    + kexec. cint. eexists _, _. split; [kdone|].
      rewrite <- Hl. by apply read_done.
    + eexists _, _. split; [kdone|]. by eapply read_fault.
Qed.

Lemma write_runs lv s buf count :
  vfs_ok (f_pos s) count -> dev_wf s ->
  exists v s',
    runs (simple_dev_write true lv buf count) s v s' /\ write_result s buf count v s'.
Proof.
  unfold dev_wf. intros V L. pose proof V as (?&?&?).
  unfold runs, simple_dev_write. kexec. zcase.
  - eexists _, s. split; [kdone|by constructor].
  - rewrite clamp_count by (done || lia). set (n := Z.min _ _).
    assert (0 <= n <= 4096 - f_pos s) as Hn by lia.
    unfold store_const. rewrite andb_false_r. kexec.
    destruct (copy_from_user_fits umL user_inputL (f_pos s) buf n s)
      as (b & Eb & Lb & _ & Er); [lia|lia|simpl; lia|].
    simpl in *. rewrite (exec_bind _ _ _ _ _ _ Er).
    destruct (user_bytes (um s) buf (Z.to_nat n)) as [bs [|r]] eqn:Eu; simpl in *.
    + kexec. destruct (compare_author b) as (c & -> & Hc); [lia|].
      cint. exists (if holds_author b then n else -1).
      eexists. split.
      * destruct (Z.eqb_spec c 0) as [E|E]; kexec; cint.
        -- rewrite (proj1 Hc E). kdone.
        -- destruct (holds_author b); [by exfalso; apply E, Hc|]. kdone.
      * by eapply write_done.
    + eexists _, _. split; [kdone|]. by eapply write_fault.
Qed.
End MiscDevFacts.

(** ** Theorems *)

Section MiscDevTheorems.
Context `{UserMemOk}.
Implicit Types s : dev.

(** On every position and count the VFS lets through, the read handler
    returns without touching memory outside the id, and its value, the new
    position and the process's memory are those of [read_result]: end of file,
    a fault that leaves the position alone, or the requested part of the id
    stored in the caller's buffer. *)
Theorem simple_dev_read_refines lv s buf count :
  vfs_ok (f_pos s) count ->
  (exists v s', runs (simple_dev_read lv buf count) s v s') /\
  (forall v s', runs (simple_dev_read lv buf count) s v s' ->
    read_result s buf count v s').
Proof.
  intros V. destruct (read_runs lv s buf count V) as (v & s' & R & P).
  split; [eauto|]. intros v2 s2 R2. by destruct (runs_det _ _ _ _ _ _ R R2) as [<- <-].
Qed.

Lemma read_all_from lv fuel buf chunk s :
  uwritable (um s) buf (Z.to_nat chunk) -> 1 <= chunk < 2 ^ 62 ->
  0 <= f_pos s <= 14 -> (Z.to_nat (14 - f_pos s) < fuel)%nat ->
  read_all lv fuel buf chunk s = Some (drop (Z.to_nat (f_pos s)) author_id).
Proof.
  revert s. induction fuel as [|fuel IH]; intros s W Hc Hp Hf; [lia|].
  destruct (read_runs lv s buf chunk) as (v & s' & [o R] & P); [unfold vfs_ok; lia|].
  cbn [read_all]. rewrite R.
  destruct P as [Hp'|bs m r Hp' Es Eu|bs m Hp' Es Eu].
  - simpl. by replace (f_pos s) with 14 by lia.
  - pose proof (slice_length _ _ _ _ Es).
    pose proof (user_store_writable _ _ _ bs W ltac:(lia)) as E. by rewrite Eu in E.
  - pose proof (slice_length _ _ _ _ Es) as Hl.
    pose proof (user_store_ok (um s) buf bs) as Hr. rewrite Eu in Hr.
    pose proof (uwritable_store _ _ _ buf bs W) as W'. rewrite Eu in W'. simpl in *.
    zcase. rewrite Nat2Z.id, Hr by done. simpl.
    rewrite IH by (simpl; done || lia). simpl. f_equal.
    unfold slice in Es. case_decide; simplify_eq.
    rewrite Z2Nat.inj_add, Nat2Z.id, <- drop_drop by lia.
    set (l := drop (Z.to_nat (f_pos s)) author_id) in *.
    rewrite length_take in *. rewrite Nat.min_l by lia. apply take_drop.
Qed.

(** C40: a process that reads the device from the start, any positive number
    of bytes at a time, gets the author's id and its terminating NUL, and
    after at most fifteen reads is told there is no more. *)
Theorem read_all_author lv fuel buf chunk s :
  uwritable (um s) buf (Z.to_nat chunk) -> 1 <= chunk < 2 ^ 62 ->
  f_pos s = 0 -> (15 <= fuel)%nat ->
  read_all lv fuel buf chunk s = Some author_id.
Proof. intros. rewrite read_all_from by (done || lia). by rewrite H3. Qed.

(** C32: on every position and count the VFS lets through, the write handler
    stays inside its 4096-byte buffer, keeps the buffer's size, and does what
    [write_result] says: end of file, a fault that leaves the position alone,
    or a store of what fits, answered by the stored count when the buffer then
    starts with the id and by -1 otherwise. *)
Theorem simple_dev_write_refines lv s buf count :
  vfs_ok (f_pos s) count -> dev_wf s ->
  (exists v s', runs (simple_dev_write true lv buf count) s v s') /\
  (forall v s', runs (simple_dev_write true lv buf count) s v s' ->
    write_result s buf count v s' /\ dev_wf s').
Proof.
  intros V W. destruct (write_runs lv s buf count V W) as (v & s' & R & P).
  split; [eauto|]. intros v2 s2 R2. destruct (runs_det _ _ _ _ _ _ R R2) as [<- <-].
  split; [done|]. by eapply write_result_wf.
Qed.

(** The verdict is about the buffer and not about the data written: once
    the buffer starts with the id, a write past its thirteenth byte is
    answered as correct whatever it contains. *)
Theorem simple_dev_write_stale lv s buf count :
  vfs_ok (f_pos s) count -> dev_wf s ->
  holds_author (user_input s) = true -> 13 <= f_pos s < 4096 ->
  (user_bytes (um s) buf (Z.to_nat (Z.min count (4096 - f_pos s)))).2 = O ->
  exists s', runs (simple_dev_write true lv buf count) s (Z.min count (4096 - f_pos s)) s' /\
    holds_author (user_input s') = true.
Proof.
  intros V W A Hp Hu. destruct (write_runs lv s buf count V W) as (v & s' & R & P).
  destruct P as [|n bs r b ? -> Eu|n bs b v ? -> Eu Eb Ev];
    [lia|by rewrite Eu in Hu|].
  assert (take 13 b = take 13 (user_input s)) as T.
  { apply list_eq. intros i. rewrite !lookup_take. case_decide; [|done].
    apply (splice_lookup_ne _ _ _ _ _ Eb). left. lia. }
  assert (holds_author b = true) as A'.
  { revert A. unfold holds_author. by rewrite T. }
  rewrite A' in Ev. subst v. eauto.
Qed.

(** Where constants are mapped read-only, no write of at least one byte
    that has room can succeed: the handler stores to an object it defined
    const. *)
Theorem simple_dev_write_const lv s buf count :
  vfs_ok (f_pos s) count -> 0 < count -> f_pos s < 4096 ->
  simple_dev_write false lv buf count s = Undef ReadOnlyWrite.
Proof.
  intros V Hc Hp. unfold simple_dev_write. kexec. zcase.
  rewrite clamp_count by (done || lia). unfold store_const.
  destruct (Z.ltb_spec 0 (Z.min count (4096 - f_pos s))); [done|lia].
Qed.

End MiscDevTheorems.

(** ** Witnesses *)

(** A process with twenty mapped bytes at 1000, of which the first thirteen
    are [name]. *)
Definition demo_dev (input : list byte) (pos : Z) (name : string) : dev :=
  Dev (input ++ replicate (4096 - length input) x00) pos
    (mapped 1000 (bytes name ++ replicate 7 x00)).

Lemma simple_dev_read_refines_witness :
  vfs_ok 5 100 /\
  exists v s', runs (simple_dev_read Info 1000 100) (demo_dev [] 5 "some user data") v s' /\
    read_result (demo_dev [] 5 "some user data") 1000 100 v s'.
Proof.
  assert (vfs_ok 5 100) as V by (unfold vfs_ok; lia). split; [done|].
  destruct (simple_dev_read_refines Info (demo_dev [] 5 "some user data") 1000 100 V)
    as [(v & s' & R) P]. eauto.
Defined.

Lemma demo_writable input pos :
  uwritable (um (demo_dev input pos "0123456789abc")) 1000 5%nat.
Proof.
  intros i Hi. assert (i = 1000 \/ i = 1001 \/ i = 1002 \/ i = 1003 \/ i = 1004) as C by lia.
  destruct C as [->|[->|[->|[->| ->]]]]; by eexists.
Qed.

Lemma read_all_author_witness :
  read_all (Debug false) 15 1000 5 (demo_dev [] 0 "0123456789abc") = Some author_id.
Proof.
  apply read_all_author; [apply demo_writable|lia|reflexivity|lia].
Defined.

Lemma simple_dev_write_refines_witness :
  exists v s', runs (simple_dev_write true Info 1000 13) (demo_dev [] 0 "Nishad Kamdar") v s' /\
    write_result (demo_dev [] 0 "Nishad Kamdar") 1000 13 v s'.
Proof.
  destruct (simple_dev_write_refines Info (demo_dev [] 0 "Nishad Kamdar") 1000 13)
    as [(v & s' & R) P]; [unfold vfs_ok; simpl; lia|vm_compute; reflexivity|].
  exists v, s'. split; [done|]. by apply P.
Defined.

Lemma simple_dev_write_stale_witness :
  exists s', runs (simple_dev_write true Info 1000 3)
    (demo_dev (bytes "Nishad Kamdar") 13 "xyz----------") 3 s' /\
    holds_author (user_input s') = true.
Proof.
  apply (simple_dev_write_stale Info (demo_dev (bytes "Nishad Kamdar") 13 "xyz----------") 1000 3);
    [unfold vfs_ok; simpl; lia|vm_compute; reflexivity|vm_compute; reflexivity
    |simpl; lia|vm_compute; reflexivity].
Defined.

Lemma simple_dev_write_const_witness :
  simple_dev_write false Info 1000 13 (demo_dev [] 0 "Nishad Kamdar") = Undef ReadOnlyWrite.
Proof. apply simple_dev_write_const; [unfold vfs_ok; simpl; lia|lia|simpl; lia]. Defined.
