(* ===== verification/Debugfs.v ===== *)
(** * The debugfs module (Task_8/debugfs/my_debugfs.c)

    Two files under /sys/kernel/debug/eudyptula: [id], the misc device's
    handlers again but without the clamp on writes, and [foo], a page of shared
    memory behind a mutex. This file has the handlers one call at a time and
    the module's initialisation; FooRefinement.v interleaves the calls. *)

From Stdlib Require Import ZArith Lia Strings.Byte.
From stdpp Require Import base strings gmap sets numbers list.
From S2P Require Import Prelude.
From S2P Require Import CString.
From S2P Require Import Kernel.
From S2P Require Import KernelInst.
From S2P Require Import MiscDev.

(** ** The handlers of [id] *)

Section Id.
Context `{UserMem}.

Definition id_open : M dev Z :=
  printk "id opened" [] ;; mret 0.

Definition id_read (buf count : Z) : M dev Z :=
  pos ← kread f_posL;
  printk "id: Device file is read at offset = %i,read bytes count = %u"
    [ArgZ (s32 pos); ArgZ (u32 count)] ;;
  if author_id_size <=? pos then mret 0 else
  let count := if u64 author_id_size <? u64 (pos + count)
               then u64 (author_id_size - pos) else count in
  r ← copy_to_user umL buf author_id pos count;
  if negb (r =? 0) then mret (- EFAULT) else
  kwrite f_posL (s64 (u64 (pos + count))) ;;
  mret (s64 count).

Definition id_write (buf count : Z) : M dev Z :=
  pos ← kread f_posL;
  printk "id: Device file is written at offset = %i,written bytes count = %u"
    [ArgZ (s32 pos); ArgZ (u32 count)] ;;
  if 4096 <=? pos then mret 0 else
  r ← copy_from_user umL user_inputL pos buf count;
  if negb (r =? 0) then mret (- EFAULT) else
  kwrite f_posL (s64 (u64 (pos + count))) ;;
  input ← kread user_inputL;
  match strncmp author_id input 13 with
  | None => undef OutOfBounds
  | Some c =>
      if negb (c =? 0)
      then printk "incorrect value written" [] ;; mret (-1)
      else printk "correct value written" [] ;; mret (s64 count)
  end.
End Id.

(** ** The handlers of [foo] *)

Section Foo.
Context `{UserMem} `{Mutex}.

(** struct foo, and the file position and process of the call at hand. The
    lock is [None] until mutex_init has run. *)
Record foo := Foo {
  page : list byte;
  lock : option mutex;
  foo_pos : Z;
  foo_um : umem;
}.

Definition pageL : lens foo (list byte) :=
  Lens page (fun b s => Foo b (lock s) (foo_pos s) (foo_um s)).
Definition lockL : lens foo (option mutex) :=
  Lens lock (fun l s => Foo (page s) l (foo_pos s) (foo_um s)).
Definition foo_posL : lens foo Z :=
  Lens foo_pos (fun p s => Foo (page s) (lock s) p (foo_um s)).
Definition foo_umL : lens foo umem :=
  Lens foo_um (fun m s => Foo (page s) (lock s) (foo_pos s) m).

(** mutex_lock_interruptible, called by the only running task: it takes a free
    lock; on a held one it sleeps, and only a signal can make it return. *)
Definition mutex_lock_interruptible : M foo Z :=
  l ← kread lockL;
  match l with
  | None => undef UninitLock
  | Some m =>
      match mutex_lock m with
      | Some m' => kwrite lockL (Some m') ;; mret 0
      | None => mret (- EINTR)
      end
  end.

Definition foo_unlock : M foo unit :=
  l ← kread lockL;
  match l with
  | None => undef UninitLock
  | Some m =>
      if mutex_is_locked m then kwrite lockL (Some (mutex_unlock m)) else undef UninitLock
  end.

Definition foo_is_locked : M foo bool :=
  l ← kread lockL;
  match l with
  | None => undef UninitLock
  | Some m => mret (mutex_is_locked m)
  end.

Definition foo_open : M foo Z :=
  printk "foo opened" [] ;; mret 0.

Definition foo_read (buf count : Z) : M foo Z :=
  e ← mutex_lock_interruptible;
  if negb (e =? 0) then mret (- ERESTARTSYS) else
  pos ← kread foo_posL;
  printk "foo: Device file is read at offset = %i,read bytes count = %u"
    [ArgZ (s32 pos); ArgZ (u32 count)] ;;
  if 4096 <=? pos then foo_unlock ;; mret 0 else
  let count := if 4096 <? u64 (pos + count) then u64 (4096 - pos) else count in
  p ← kread pageL;
  r ← copy_to_user foo_umL buf p pos count;
  retval ← (if negb (r =? 0) then mret (- EFAULT) else
            kwrite foo_posL (s64 (u64 (pos + count))) ;;
            mret (s64 count));
  foo_unlock ;; mret retval.

Definition foo_write (buf count : Z) : M foo Z :=
  mtx ← foo_is_locked;
  printk "mutex status is %i" [ArgZ (Z.b2z mtx)] ;;
  e ← mutex_lock_interruptible;
  if negb (e =? 0) then mret (- ERESTARTSYS) else
  pos ← kread foo_posL;
  printk "foo: Device file is written at offset = %i,written bytes count = %u"
    [ArgZ (s32 pos); ArgZ (u32 count)] ;;
  if 4096 <=? pos then foo_unlock ;; mret 0 else
  r ← copy_from_user foo_umL pageL pos buf count;
  retval ← (if negb (r =? 0) then mret (- EFAULT) else
            kwrite foo_posL (s64 (u64 (pos + count))) ;;
            mret (s64 count));
  foo_unlock ;; mret retval.

(** *** What they promise *)

Definition foo_wf (s : foo) : Prop := length (page s) = 4096%nat.

(** The effect of a read or a write on the page, the position and the process,
    the lock apart. *)
Inductive foo_read_effect (p : list byte) (pos : Z) (m : umem) (buf count : Z) :
    Z -> Z -> umem -> Prop :=
| foo_read_eof : 4096 <= pos -> foo_read_effect p pos m buf count 0 pos m
| foo_read_fault bs m' r :
    pos < 4096 -> slice pos (Z.min count (4096 - pos)) p = Some bs ->
    user_store m buf bs = (m', S r) ->
    foo_read_effect p pos m buf count (- EFAULT) pos m'
| foo_read_done bs m' :
    pos < 4096 -> slice pos (Z.min count (4096 - pos)) p = Some bs ->
    user_store m buf bs = (m', O) ->
    foo_read_effect p pos m buf count (Z.of_nat (length bs)) (pos + Z.of_nat (length bs)) m'.

Inductive foo_write_effect (p : list byte) (pos : Z) (m : umem) (buf count : Z) :
    Z -> Z -> list byte -> Prop :=
| foo_write_eof : 4096 <= pos -> foo_write_effect p pos m buf count 0 pos p
| foo_write_fault bs r p' :
    pos < 4096 -> user_bytes m buf (Z.to_nat count) = (bs, S r) ->
    splice pos bs p = Some p' ->
    foo_write_effect p pos m buf count (- EFAULT) pos p'
| foo_write_done bs p' :
    pos < 4096 -> user_bytes m buf (Z.to_nat count) = (bs, O) ->
    splice pos bs p = Some p' ->
    foo_write_effect p pos m buf count count (pos + count) p'.
End Foo.

Arguments Foo {_ _} _ _ _ _.
Arguments page {_ _} _.
Arguments lock {_ _} _.
Arguments foo_pos {_ _} _.
Arguments foo_um {_ _} _.

(** ** Initialisation *)

(** debugfs as the module uses it: directories with the names of their files.
    A creation that fails returns NULL and changes nothing. *)
Class DebugfsCore := {
  dcore : Type;
  dentry : Type;
  dentry_eq_dec :: EqDecision dentry;
  dir_files : dcore -> dentry -> option (gset string);
  debugfs_create_dir : string -> dcore -> option dentry * dcore;
  debugfs_create_file : string -> dentry -> dcore -> option dentry * dcore;
  debugfs_remove_recursive : option dentry -> dcore -> dcore;
}.

Class DebugfsCoreOk `{DebugfsCore} : Prop := {
  create_dir_Some : forall n c d c', debugfs_create_dir n c = (Some d, c') ->
    dir_files c d = None /\ dir_files c' d = Some ∅ /\
    (forall e, e <> d -> dir_files c' e = dir_files c e);
  create_dir_None : forall n c c', debugfs_create_dir n c = (None, c') -> c' = c;
  create_file_Some : forall n d c f c' fs, debugfs_create_file n d c = (Some f, c') ->
    dir_files c d = Some fs ->
    dir_files c' d = Some ({[n]} ∪ fs) /\
    (forall e, e <> d -> dir_files c' e = dir_files c e);
  create_file_None : forall n d c c', debugfs_create_file n d c = (None, c') -> c' = c;
  remove_recursive_Some : forall d c,
    dir_files (debugfs_remove_recursive (Some d) c) d = None /\
    (forall e, e <> d -> dir_files (debugfs_remove_recursive (Some d) c) e = dir_files c e);
  remove_recursive_None : forall c, debugfs_remove_recursive None c = c;
}.

(** A debugfs that numbers its directories as they come, and refuses to create
    the file [refused] (a failing allocation). *)
Definition map_debugfs (refused : option string) : DebugfsCore := {|
  dcore := nat * gmap nat (gset string);
  dentry := nat;
  dir_files c d := if bool_decide (d < c.1)%nat then c.2 !! d else None;
  debugfs_create_dir n c := (Some c.1, (S c.1, <[c.1 := ∅]> c.2));
  debugfs_create_file n d c :=
    if bool_decide (refused = Some n) then (None, c)
    else (Some d, (c.1, alter (fun fs => {[n]} ∪ fs) d c.2));
  debugfs_remove_recursive d c :=
    match d with Some d => (c.1, delete d c.2) | None => c end;
|}.

Section Init.
Context `{DebugfsCore} `{Mutex}.

Record dmod := Dmod {
  core : dcore;
  my_debugfs_root : option dentry;
  foo_lock : option mutex;
}.

Definition create_dir (n : string) : M dmod (option dentry) := fun s =>
  let r := debugfs_create_dir n (core s) in
  Done r.1 (Dmod r.2 (my_debugfs_root s) (foo_lock s)) [].

Definition create_file (n : string) (d : dentry) : M dmod (option dentry) := fun s =>
  let r := debugfs_create_file n d (core s) in
  Done r.1 (Dmod r.2 (my_debugfs_root s) (foo_lock s)) [].

Definition remove_recursive (d : option dentry) : M dmod unit := fun s =>
  Done tt (Dmod (debugfs_remove_recursive d (core s)) (my_debugfs_root s) (foo_lock s)) [].

Definition set_root (d : option dentry) : M dmod unit := fun s =>
  Done tt (Dmod (core s) d (foo_lock s)) [].

Definition foo_mutex_init : M dmod unit := fun s =>
  Done tt (Dmod (core s) (my_debugfs_root s) (Some mutex_new)) [].

(** The label FAIL. *)
Definition my_debugfs_fail : M dmod Z :=
  s ← kget;
  remove_recursive (my_debugfs_root s) ;;
  set_root None ;;
  mret (- ENOENT).

Definition my_debugfs_init : M dmod Z :=
  printk "my_debugfs init" [] ;;
  d ← create_dir "eudyptula";
  set_root d ;;
  match d with
  | None => mret (- ENOENT)
  | Some root =>
      file_a ← create_file "id" root;
      match file_a with
      | None => my_debugfs_fail
      | Some _ =>
          file_b ← create_file "jiffies" root;
          match file_b with
          | None => my_debugfs_fail
          | Some _ =>
              foo_mutex_init ;;
              file_c ← create_file "foo" root;
              match file_c with
              | None => my_debugfs_fail
              | Some _ => mret 0
              end
          end
      end
  end.

Definition my_debugfs_exit : M dmod unit :=
  printk "my_debugfs_exit" [] ;;
  s ← kget;
  remove_recursive (my_debugfs_root s).

(** The module's directory entirely absent, every other one as in [c]. *)
Definition cleaned (c c' : dcore) : Prop :=
  forall e, dir_files c' e = dir_files c e.
End Init.

Arguments Dmod {_ _} _ _ _.
Arguments core {_ _} _.
Arguments my_debugfs_root {_ _} _.
Arguments foo_lock {_ _} _.

(** ** The handlers of [id]: theorems *)

Section IdTheorems.
Context `{UserMemOk}.
Implicit Types s : dev.

(** The read handler of [id] is the misc device's: from every state and
    for every request both return the same value in the same state, or both
    run into the same undefined behaviour. *)
Theorem id_read_equiv lv s buf count :
  (forall v s', runs (id_read buf count) s v s' <->
                runs (simple_dev_read lv buf count) s v s') /\
  (forall u, id_read buf count s = Undef u <-> simple_dev_read lv buf count s = Undef u).
Proof.
  unfold runs, id_read, simple_dev_read. kexec.
  split; intros; rewrite ?tell_runs, ?tell_undef; reflexivity.
Qed.

Lemma id_write_in_bounds lv s buf count :
  vfs_ok (f_pos s) count -> f_pos s + count <= 4096 ->
  forall v s', runs (id_write buf count) s v s' <->
               runs (simple_dev_write true lv buf count) s v s'.
Proof.
  intros V Hb v s'. unfold runs, id_write, simple_dev_write. kexec.
  rewrite !tell_runs. zcase; [reflexivity|]. rewrite clamp_count by (done || lia).
  rewrite Z.min_l by lia. unfold store_const. rewrite andb_false_r. kexec.
  unfold copy_from_user. kexec.
  destruct (splice _ _ _) as [b|]; kexec; [|reflexivity].
  destruct (user_bytes _ _ _).2; kexec; [|reflexivity].
  destruct (strncmp author_id b 13); [|reflexivity].
  destruct (negb _); kexec; split; intros [? [= <- <- _]]; eauto.
Qed.

Lemma id_write_overflow s buf count :
  vfs_ok (f_pos s) count -> dev_wf s -> f_pos s < 4096 -> 4096 < f_pos s + count ->
  id_write buf count s = Undef OutOfBounds.
Proof.
  unfold dev_wf. intros V L Hp Ho. destruct V as (?&?&?). unfold id_write. kexec. zcase.
  rewrite (exec_bind_undef _ _ _ OutOfBounds); [done|].
  apply copy_from_user_overflow; simpl; lia.
Qed.

(** The write handler of [id] has no clamp. A request that starts inside
    the 4096-byte buffer stores past its end exactly when it reaches beyond
    it; every other request is answered as the misc device answers it. *)
Theorem id_write_bounds lv s buf count :
  vfs_ok (f_pos s) count -> dev_wf s -> f_pos s < 4096 ->
  (id_write buf count s = Undef OutOfBounds <-> 4096 < f_pos s + count) /\
  (f_pos s + count <= 4096 -> forall v s',
    runs (id_write buf count) s v s' <-> runs (simple_dev_write true lv buf count) s v s').
Proof.
  intros V W Hp. split; [split|].
  - intros E. destruct (Z.lt_ge_cases 4096 (f_pos s + count)) as [|Hb]; [done|].
    destruct (write_runs lv s buf count V W) as (v & s' & R & _).
    apply id_write_in_bounds in R as [o R]; [congruence|done|lia].
  - by apply id_write_overflow.
  - by apply id_write_in_bounds.
Qed.
End IdTheorems.

(** ** The handlers of [foo]: theorems *)

Section FooTheorems.
Context `{UserMemOk} `{MutexOk}.
Implicit Types s : foo.

Lemma lock_free_exec s l :
  lock s = Some l -> mutex_is_locked l = false ->
  exists l', mutex_is_locked l' = true /\
    mutex_lock_interruptible s = Done 0 (set lockL (Some l') s) [].
Proof.
  intros E F. destruct (mutex_lock_free l F) as (l' & E' & F').
  exists l'. split; [done|]. unfold mutex_lock_interruptible. kexec. rewrite E, E'. by kexec.
Qed.

Lemma exec_bind_unlock {B} (k : unit -> M foo B) p l pos m :
  mutex_is_locked l = true ->
  (foo_unlock ≫= k) (Foo p (Some l) pos m) = k tt (Foo p (Some (mutex_unlock l)) pos m).
Proof. intros F. unfold foo_unlock. kexec. rewrite F. by kexec. Qed.

(** The handlers with the lock free: [foo_read_effect] and [foo_write_effect]
    with the lock released at the end, on every path. *)
Lemma foo_read_runs s l buf count :
  vfs_ok (foo_pos s) count -> foo_wf s -> lock s = Some l -> mutex_is_locked l = false ->
  exists v l' pos' m',
    runs (foo_read buf count) s v (Foo (page s) (Some l') pos' m') /\
    mutex_is_locked l' = false /\
    foo_read_effect (page s) (foo_pos s) (foo_um s) buf count v pos' m'.
Proof.
  unfold foo_wf. intros V L E F. pose proof V as (?&?&?).
  destruct (lock_free_exec s l E F) as (l' & F' & R). unfold runs, foo_read.
  rewrite (exec_bind _ _ _ _ _ _ R). kexec.
  assert (mutex_is_locked (mutex_unlock l') = false) as U by apply mutex_unlock_unlocked.
  zcase.
  - rewrite (exec_bind_unlock _ _ _ _ _ F'). kexec.
    eexists _, _, _, _. split; [kdone|]. split; [done|]. by constructor.
  - rewrite clamp_count by (done || lia). set (n := Z.min _ _).
    assert (0 <= n <= 4096 - foo_pos s) as Hn by lia.
    assert (slice (foo_pos s) n (page s) =
      Some (take (Z.to_nat n) (drop (Z.to_nat (foo_pos s)) (page s)))) as Es
      by (apply slice_spec; lia).
    pose proof (slice_length _ _ _ _ Es) as Hl.
    kexec.
    rewrite (exec_bind _ _ _ _ _ _
      (copy_to_user_fits foo_umL buf (page s) (foo_pos s) n _ ltac:(lia) ltac:(lia) ltac:(lia))).
    simpl. set (bs := take _ _) in *.
    destruct (user_store (foo_um s) buf bs) as [m' [|r]] eqn:Eu; simpl; kexec;
      rewrite (exec_bind_unlock _ _ _ _ _ F'); kexec;
      eexists _, _, _, _; (split; [kdone|split; [done|]]).
    + cint. rewrite <- Hl. by apply foo_read_done.
    + by eapply foo_read_fault.
Qed.

Lemma foo_write_runs s l buf count :
  vfs_ok (foo_pos s) count -> foo_wf s -> lock s = Some l -> mutex_is_locked l = false ->
  (4096 <= foo_pos s \/ foo_pos s + count <= 4096) ->
  exists v l' pos' p',
    runs (foo_write buf count) s v (Foo p' (Some l') pos' (foo_um s)) /\
    mutex_is_locked l' = false /\ length p' = 4096%nat /\
    foo_write_effect (page s) (foo_pos s) (foo_um s) buf count v pos' p'.
Proof.
  unfold foo_wf. intros V L E F B. pose proof V as (?&?&?).
  destruct (lock_free_exec s l E F) as (l' & F' & R).
  unfold runs, foo_write, foo_is_locked. kexec. rewrite E. kexec.
  rewrite (exec_bind _ _ _ _ _ _ R). kexec.
  assert (mutex_is_locked (mutex_unlock l') = false) as U by apply mutex_unlock_unlocked.
  zcase.
  - rewrite (exec_bind_unlock _ _ _ _ _ F'). kexec.
    eexists _, _, _, _. split; [kdone|]. do 2 (split; [done|]). by constructor.
  - destruct (copy_from_user_fits foo_umL pageL (foo_pos s) buf count
      (Foo (page s) (Some l') (foo_pos s) (foo_um s)))
      as (p' & Ep & Lp & _ & Er); [simpl; lia..|]. simpl in *.
    rewrite (exec_bind _ _ _ _ _ _ Er).
    destruct (user_bytes (foo_um s) buf (Z.to_nat count)) as [bs [|r]] eqn:Eu;
      simpl in *; kexec;
      rewrite (exec_bind_unlock _ _ _ _ _ F'); kexec;
      eexists _, _, _, _; (split; [kdone|split; [done|split; [lia|]]]).
    + cint. by eapply foo_write_done.
    + by eapply foo_write_fault.
Qed.

(** With the lock free, a read of [foo] returns on every path with the
    lock free again and the page untouched; what it returned and stored in
    the caller's memory is the part of the page [foo_read_effect] says. *)
Theorem foo_read_refines s l buf count v s' :
  vfs_ok (foo_pos s) count -> foo_wf s ->
  lock s = Some l -> mutex_is_locked l = false ->
  runs (foo_read buf count) s v s' ->
  foo_read_effect (page s) (foo_pos s) (foo_um s) buf count v (foo_pos s') (foo_um s') /\
  page s' = page s /\ exists l', lock s' = Some l' /\ mutex_is_locked l' = false.
Proof.
  intros V W E F R. destruct (foo_read_runs s l buf count V W E F)
    as (v1 & l1 & p1 & m1 & R1 & U & P).
  destruct (runs_det _ _ _ _ _ _ R R1) as [-> ->]. simpl. eauto.
Qed.

(** C38: with the lock free, a write to [foo] that starts at or past the end
    of the page or ends inside it returns on every path with the lock free
    again and [foo_write_effect] on the page; any other write stores past the
    end of the page, over the lock that follows it. *)
Theorem foo_write_refines s l buf count :
  vfs_ok (foo_pos s) count -> foo_wf s ->
  lock s = Some l -> mutex_is_locked l = false ->
  if decide (foo_pos s < 4096 /\ 4096 < foo_pos s + count)
  then foo_write buf count s = Undef OutOfBounds
  else exists v l' pos' p',
    runs (foo_write buf count) s v (Foo p' (Some l') pos' (foo_um s)) /\
    mutex_is_locked l' = false /\ length p' = 4096%nat /\
    foo_write_effect (page s) (foo_pos s) (foo_um s) buf count v pos' p'.
Proof.
  intros V W E F. case_decide as D; [|apply (foo_write_runs s l); done || lia].
  destruct (lock_free_exec s l E F) as (l' & F' & R). destruct V as (?&?&?).
  unfold foo_write, foo_is_locked. kexec. rewrite E. kexec.
  rewrite (exec_bind _ _ _ _ _ _ R). kexec. zcase.
  rewrite (exec_bind_undef _ _ _ OutOfBounds); [done|].
  unfold foo_wf in W. apply copy_from_user_overflow; simpl; lia.
Qed.

(** What one process writes to the page another reads back: when the
    writer's memory holds [bs] and the reader's buffer has room for it, the
    write stores all of it and a read at the same position leaves it in the
    reader's memory. *)
Theorem foo_write_read s l buf rbuf rm bs :
  foo_wf s -> lock s = Some l -> mutex_is_locked l = false ->
  0 <= foo_pos s < 4096 -> foo_pos s + Z.of_nat (length bs) <= 4096 ->
  uread (foo_um s) buf (length bs) = Some bs -> uwritable rm rbuf (length bs) ->
  exists s' rs,
    runs (foo_write buf (Z.of_nat (length bs))) s (Z.of_nat (length bs)) s' /\
    runs (foo_read rbuf (Z.of_nat (length bs)))
      (Foo (page s') (lock s') (foo_pos s) rm) (Z.of_nat (length bs)) rs /\
    uread (foo_um rs) rbuf (length bs) = Some bs.
Proof.
  intros W E F Hp B Hu Hw. apply user_bytes_complete in Hu.
  assert (vfs_ok (foo_pos s) (Z.of_nat (length bs))) as V by (unfold vfs_ok; lia).
  destruct (foo_write_runs s l buf _ V W E F (or_intror B))
    as (v & l1 & pos1 & p1 & R1 & F1 & L1 & P).
  destruct (foo_read_runs (Foo p1 (Some l1) (foo_pos s) rm) l1 rbuf (Z.of_nat (length bs)))
    as (v2 & l2 & pos2 & m2 & R2 & F2 & P2); [done..|]. simpl in *.
  destruct P as [|bs' r p' ? Eu|bs' p' ? Eu Es]; [lia|rewrite Nat2Z.id in Eu; congruence|].
  rewrite Nat2Z.id, Hu in Eu. injection Eu as <-. apply slice_splice in Es.
  destruct P2 as [|bs2 m' r ? Es2 Est|bs2 m' ? Es2 Est]; [lia|..];
    rewrite Z.min_l, Es in Es2 by lia; injection Es2 as <-.
  - pose proof (user_store_writable _ _ _ bs Hw ltac:(lia)) as X. by rewrite Est in X.
  - eexists _, _. split; [exact R1|]. split; [exact R2|]. simpl.
    pose proof (user_store_ok rm rbuf bs) as X. rewrite Est in X. by apply X.
Qed.
End FooTheorems.

(** ** Initialisation: theorems *)

Section InitTheorems.
Context `{DebugfsCoreOk} `{Mutex}.
Implicit Types s : dmod.

(** The directory holds the three files and nothing else changed. *)
Definition registered (c c' : dcore) (root : dentry) : Prop :=
  dir_files c root = None /\
  dir_files c' root = Some {["id"; "jiffies"; "foo"]} /\
  (forall e, e <> root -> dir_files c' e = dir_files c e).

Lemma removed_restores c c' root :
  dir_files c root = None ->
  (forall e, e <> root -> dir_files c' e = dir_files c e) ->
  cleaned c (debugfs_remove_recursive (Some root) c').
Proof.
  intros N O e. destruct (remove_recursive_Some root c') as [R1 R2].
  destruct (decide (e = root)) as [->|]; [congruence|]. by rewrite R2, O.
Qed.

Lemma exec_create_dir {B} n (k : option dentry -> M dmod B) s :
  (create_dir n ≫= k) s =
    k (debugfs_create_dir n (core s)).1
      (Dmod (debugfs_create_dir n (core s)).2 (my_debugfs_root s) (foo_lock s)).
Proof. unfold create_dir, mbind, M_bind. simpl. by destruct (k _ _). Qed.

Lemma exec_create_file {B} n d (k : option dentry -> M dmod B) s :
  (create_file n d ≫= k) s =
    k (debugfs_create_file n d (core s)).1
      (Dmod (debugfs_create_file n d (core s)).2 (my_debugfs_root s) (foo_lock s)).
Proof. unfold create_file, mbind, M_bind. simpl. by destruct (k _ _). Qed.

Lemma exec_set_root {B} d (k : unit -> M dmod B) s :
  (set_root d ≫= k) s = k tt (Dmod (core s) d (foo_lock s)).
Proof. unfold set_root, mbind, M_bind. by destruct (k _ _). Qed.

Lemma exec_foo_mutex_init {B} (k : unit -> M dmod B) s :
  (foo_mutex_init ≫= k) s = k tt (Dmod (core s) (my_debugfs_root s) (Some mutex_new)).
Proof. unfold foo_mutex_init, mbind, M_bind. by destruct (k _ _). Qed.

Lemma exec_fail s :
  my_debugfs_fail s =
    Done (- ENOENT)
      (Dmod (debugfs_remove_recursive (my_debugfs_root s) (core s)) None (foo_lock s)) [].
Proof. done. Qed.

Ltac dexec :=
  kexec; repeat (progress (rewrite ?exec_create_dir, ?exec_create_file, ?exec_set_root,
    ?exec_foo_mutex_init, ?exec_fail; simpl)).

(** What a creation in the module's directory did, from the state before. *)
Lemma create_file_step n c root c1 fs r c2 :
  (forall e, e <> root -> dir_files c1 e = dir_files c e) ->
  dir_files c1 root = Some fs ->
  debugfs_create_file n root c1 = (r, c2) ->
  (forall e, e <> root -> dir_files c2 e = dir_files c e) /\
  (r <> None -> dir_files c2 root = Some ({[n]} ∪ fs)).
Proof.
  intros O F E. destruct r as [f|].
  - destruct (create_file_Some _ _ _ _ _ _ E F) as [? O2].
    split; [|done]. intros. by rewrite O2, O.
  - apply create_file_None in E as ->. done.
Qed.

Lemma my_debugfs_init_spec s :
  exists v s', runs my_debugfs_init s v s' /\
    ((v = 0 /\ exists root, my_debugfs_root s' = Some root /\
       registered (core s) (core s') root /\ foo_lock s' = Some mutex_new) \/
     (v = - ENOENT /\ my_debugfs_root s' = None /\ cleaned (core s) (core s'))).
Proof.
  assert (forall root c, dir_files (core s) root = None ->
    (forall e, e <> root -> dir_files c e = dir_files (core s) e) ->
    - ENOENT = - ENOENT /\ None = @None dentry /\
    cleaned (core s) (debugfs_remove_recursive (Some root) c)) as Fail.
  { intros root c N O. split; [done|split; [done|by apply removed_restores]]. }
  unfold runs, my_debugfs_init. dexec.
  destruct (debugfs_create_dir "eudyptula" (core s)) as [[root|] c1] eqn:E1; simpl.
  2: { apply create_dir_None in E1 as ->.
       eexists _, _. split; [kdone|]. right. by repeat split. }
  apply create_dir_Some in E1 as (N & F1 & O1). dexec.
  destruct (debugfs_create_file "id" root c1) as [r2 c2] eqn:E2.
  destruct (create_file_step _ _ _ _ _ _ _ O1 F1 E2) as [O2 F2].
  destruct r2; dexec; [|eexists _, _; split; [kdone|]; right; by apply Fail].
  destruct (debugfs_create_file "jiffies" root c2) as [r3 c3] eqn:E3.
  destruct (create_file_step _ _ _ _ _ _ _ O2 (F2 ltac:(done)) E3) as [O3 F3].
  destruct r3; dexec; [|eexists _, _; split; [kdone|]; right; by apply Fail].
  destruct (debugfs_create_file "foo" root c3) as [r4 c4] eqn:E4.
  destruct (create_file_step _ _ _ _ _ _ _ O3 (F3 ltac:(done)) E4) as [O4 F4].
  destruct r4; dexec; [|eexists _, _; split; [kdone|]; right; by apply Fail].
  eexists _, _. split; [kdone|]. left. split; [done|]. exists root. split; [done|].
  split; [|done]. split; [done|]. split; [|done]. simpl. rewrite F4 by done.
  by f_equal.
Qed.

(** Loading the module either creates the directory with exactly the files
    id, jiffies and foo, and the lock of foo before the file that uses it, and
    returns 0; or it returns -ENOENT with every directory as it was and no
    dangling root. It always returns. *)
Theorem my_debugfs_init_all_or_nothing s :
  exists v s', runs my_debugfs_init s v s' /\
    ((v = 0 /\ exists root, my_debugfs_root s' = Some root /\
       registered (core s) (core s') root /\ foo_lock s' = Some mutex_new) \/
     (v = - ENOENT /\ my_debugfs_root s' = None /\ cleaned (core s) (core s'))).
Proof. exact (my_debugfs_init_spec s). Qed.

(** Unloading the module after a successful load leaves every directory as
    it was before the load. *)
Theorem my_debugfs_exit_cleans s v s' :
  runs my_debugfs_init s v s' -> v = 0 ->
  exists s'', runs my_debugfs_exit s' tt s'' /\ cleaned (core s) (core s'').
Proof.
  intros R ->. destruct (my_debugfs_init_spec s) as (v & s2 & R2 & P).
  destruct (runs_det _ _ _ _ _ _ R R2) as [<- <-].
  destruct P as [(_ & root & Er & (N & _ & O) & _)|[? _]]; [|done].
  eexists. split.
  - unfold runs, my_debugfs_exit. kexec. unfold remove_recursive. kdone.
  - simpl. rewrite Er. by apply removed_restores.
Qed.
End InitTheorems.

(** ** Witnesses *)

Lemma map_debugfs_ok refused : @DebugfsCoreOk (map_debugfs refused).
Proof.
  split; simpl.
  - intros n c d c' E. injection E as <- <-. simpl. rewrite lookup_insert_eq.
    rewrite bool_decide_eq_false_2, bool_decide_eq_true_2 by lia.
    split; [done|split; [done|]]. intros e Ne. rewrite lookup_insert_ne by done.
    by rewrite (bool_decide_ext (e < S c.1)%nat (e < c.1)%nat) by lia.
  - done.
  - intros n d c f c' fs E F. destruct (bool_decide (refused = Some n)); [done|].
    injection E as <- <-. simpl. rewrite lookup_alter_eq.
    destruct (bool_decide (d < c.1)%nat); [|done]. rewrite F.
    split; [done|]. intros e Ne. by rewrite lookup_alter_ne.
  - intros n d c c' E. destruct (bool_decide (refused = Some n)); congruence.
  - intros d c. simpl. rewrite lookup_delete_eq. split; [by case_bool_decide|].
    intros e Ne. by rewrite lookup_delete_ne.
  - done.
Qed.

Lemma id_write_bounds_witness :
  id_write 1000 4 (demo_dev [] 4093 "Nishad Kamdar") = Undef OutOfBounds.
Proof.
  apply (id_write_bounds Info (demo_dev [] 4093 "Nishad Kamdar") 1000 4);
    [unfold vfs_ok; simpl; lia|vm_compute; reflexivity|simpl; lia|simpl; lia].
Defined.

(** The page all zero, the lock free, the caller's memory [name] at 1000. *)
Definition demo_foo (pos : Z) (name : string) : foo :=
  Foo (replicate 4096 x00) (Some (mutex_new : @mutex bool_mutex)) pos
    (mapped 1000 (bytes name) : @umem map_umem).

Lemma foo_read_refines_witness :
  exists v s', runs (foo_read 1000 3) (demo_foo 4094 "abc") v s' /\
    foo_read_effect (page (demo_foo 4094 "abc")) 4094 (foo_um (demo_foo 4094 "abc"))
      1000 3 v (foo_pos s') (foo_um s').
Proof.
  assert (exists v s', runs (foo_read 1000 3) (demo_foo 4094 "abc") v s') as (v & s' & R)
    by (vm_compute; do 3 eexists; reflexivity).
  exists v, s'. split; [exact R|].
  apply (foo_read_refines (demo_foo 4094 "abc") false 1000 3 v s');
    [unfold vfs_ok; simpl; lia|vm_compute; reflexivity|reflexivity|reflexivity|exact R].
Defined.

Lemma foo_write_refines_witness :
  foo_write 1000 3 (demo_foo 4094 "abc") = Undef OutOfBounds.
Proof.
  assert (vfs_ok (foo_pos (demo_foo 4094 "abc")) 3) as V by (unfold vfs_ok; simpl; lia).
  assert (foo_wf (demo_foo 4094 "abc")) as W by (vm_compute; reflexivity).
  pose proof (foo_write_refines (demo_foo 4094 "abc") false 1000 3 V W eq_refl eq_refl) as X.
  rewrite decide_True in X by (simpl; lia). exact X.
Defined.

Lemma foo_write_read_witness :
  exists s' rs,
    runs (foo_write 1000 3) (demo_foo 4000 "abc") 3 s' /\
    runs (foo_read 1000 3) (Foo (page s') (lock s') 4000 (foo_um (demo_foo 0 "xyz"))) 3 rs /\
    uread (foo_um rs) 1000 3 = Some (bytes "abc").
Proof.
  apply (foo_write_read (demo_foo 4000 "abc") false 1000 1000 (foo_um (demo_foo 0 "xyz")) (bytes "abc"));
    [vm_compute; reflexivity|reflexivity|reflexivity|simpl; lia|simpl; lia|reflexivity|].
  intros i Hi. simpl in Hi.
  assert (i = 1000 \/ i = 1001 \/ i = 1002) as [->|[->| ->]] by lia; by eexists.
Defined.

Definition empty_debugfs : @dcore (map_debugfs None) :=
  (0%nat, ∅ : gmap nat (gset string)).

Lemma my_debugfs_exit_cleans_witness :
  let init := @my_debugfs_init (map_debugfs None) bool_mutex in
  exists s' s'', runs init (Dmod empty_debugfs None None) 0 s' /\
    runs my_debugfs_exit s' tt s'' /\ cleaned empty_debugfs (core s'').
Proof.
  intros init. pose proof (map_debugfs_ok None) as O.
  assert (exists s', runs init (Dmod empty_debugfs None None) 0 s') as [s' R]
    by (do 2 eexists; reflexivity).
  destruct (my_debugfs_exit_cleans _ 0 s' R eq_refl) as (s'' & R' & C).
  exists s', s''. by split; [|split].
Defined.

(** A debugfs that cannot create the file foo. *)
Definition full_debugfs : @dcore (map_debugfs (Some "foo")) := (0%nat, ∅).

Lemma my_debugfs_init_all_or_nothing_witness :
  exists v s', runs (@my_debugfs_init (map_debugfs (Some "foo")) bool_mutex)
      (Dmod full_debugfs None None) v s' /\
    (v = - ENOENT -> cleaned full_debugfs (core s')).
Proof.
  pose proof (map_debugfs_ok (Some "foo")) as O.
  destruct (my_debugfs_init_all_or_nothing (Dmod full_debugfs None None)) as (v & s' & R & P).
  exists v, s'. split; [exact R|]. intros ->. by destruct P as [[? _]|(_ & _ & C)].
Defined.
