(* ===== verification/FooRefinement.v ===== *)
(** * The page of debugfs's foo, shared by many processes

    Debugfs.v runs foo_read and foo_write one at a time. Here any number of
    calls run at once: each takes the lock, copies byte by byte, and releases
    it, and the steps of different calls interleave freely. The specification
    runs each call in one step, by the handlers of Debugfs.v themselves; the
    refinement theorem says that the lock makes the two indistinguishable.
    The messages, with the test of the lock that one of them shows, are in
    Debugfs.v only. *)

From Stdlib Require Import ZArith Lia Strings.Byte.
From stdpp Require Import base strings gmap sets numbers list.
From S2P Require Import Prelude.
From S2P Require Import Kernel.
From S2P Require Import KernelInst.
From S2P Require Import MiscDev.
From S2P Require Import Debugfs.

(** ** The calls *)

Section Machine.
Context `{UserMem} `{Mutex}.

Inductive fop := FRead | FWrite.

(** A call as the VFS makes it: the operation, the user buffer and count, the
    position of the open file, and the process's memory. *)
Record call := Call {
  c_op : fop;
  c_buf : Z;
  c_count : Z;
  c_pos : Z;
  c_um : umem;
}.

Record ret := Ret { r_val : Z; r_pos : Z; r_um : umem }.

(** Where a call stands. [Loading] and [Storing] are inside the copy loop:
    the bytes loaded so far, or the bytes to store, the shortfall that
    copy_from_user will report, and how many are stored. *)
Inductive pc :=
| Calling (c : call)
| Entered (c : call)
| Loading (c : call) (n : Z) (acc : list byte)
| Storing (c : call) (bs : list byte) (r k : nat)
| Overran (c : call)
| Leaving (c : call) (v : ret)
| Returned (v : ret).

Record cstate := Cstate {
  cpage : list byte;
  clock : mutex;
  threads : gmap nat pc;
}.

(** retval and the position after a copy that left [r] bytes uncopied. *)
Definition finish (c : call) (n : Z) (m : umem) (r : nat) : ret :=
  if decide (r = O) then Ret (s64 n) (s64 (u64 (c_pos c + n))) m
  else Ret (- EFAULT) (c_pos c) m.

Definition clamped (c : call) : Z :=
  if 4096 <? u64 (c_pos c + c_count c) then u64 (4096 - c_pos c) else c_count c.

(** One step of one call. *)
Inductive tstep (p : list byte) (l : mutex) : pc -> list byte -> mutex -> pc -> Prop :=
| t_lock c l' :
    mutex_lock l = Some l' -> tstep p l (Calling c) p l' (Entered c)
| t_signal c :
    mutex_is_locked l = true ->
    tstep p l (Calling c) p l (Returned (Ret (- ERESTARTSYS) (c_pos c) (c_um c)))
| t_eof c :
    4096 <= c_pos c ->
    tstep p l (Entered c) p l (Leaving c (Ret 0 (c_pos c) (c_um c)))
| t_read c :
    c_pos c < 4096 -> c_op c = FRead ->
    tstep p l (Entered c) p l (Loading c (clamped c) [])
| t_load c n acc b :
    Z.of_nat (length acc) < n ->
    p !! (Z.to_nat (c_pos c) + length acc)%nat = Some b ->
    tstep p l (Loading c n acc) p l (Loading c n (acc ++ [b]))
| t_load_overrun c n acc :
    Z.of_nat (length acc) < n ->
    p !! (Z.to_nat (c_pos c) + length acc)%nat = None ->
    tstep p l (Loading c n acc) p l (Overran c)
| t_loaded c n acc m r :
    Z.of_nat (length acc) = n -> user_store (c_um c) (c_buf c) acc = (m, r) ->
    tstep p l (Loading c n acc) p l (Leaving c (finish c n m r))
| t_write c bs r :
    c_pos c < 4096 -> c_op c = FWrite ->
    user_bytes (c_um c) (c_buf c) (Z.to_nat (c_count c)) = (bs, r) ->
    tstep p l (Entered c) p l (Storing c bs r 0)
| t_store c bs r k b :
    bs !! k = Some b -> c_pos c + Z.of_nat k < Z.of_nat (length p) ->
    tstep p l (Storing c bs r k) (<[(Z.to_nat (c_pos c) + k)%nat := b]> p) l
      (Storing c bs r (S k))
| t_store_overrun c bs r k b :
    bs !! k = Some b -> Z.of_nat (length p) <= c_pos c + Z.of_nat k ->
    tstep p l (Storing c bs r k) p l (Overran c)
| t_stored c bs r :
    tstep p l (Storing c bs r (length bs)) p l
      (Leaving c (finish c (c_count c) (c_um c) r))
| t_unlock c v :
    tstep p l (Leaving c v) p (mutex_unlock l) (Returned v).

Inductive cstep (s : cstate) : cstate -> Prop :=
| c_step t pc1 p' l' pc2 :
    threads s !! t = Some pc1 ->
    tstep (cpage s) (clock s) pc1 p' l' pc2 ->
    cstep s (Cstate p' l' (<[t := pc2]> (threads s))).

(** ** The specification: calls one at a time *)

Record astate := Astate {
  apage : list byte;
  calls : gmap nat (call + ret);
}.

Definition handler (c : call) : M foo Z :=
  match c_op c with
  | FRead => foo_read (c_buf c) (c_count c)
  | FWrite => foo_write (c_buf c) (c_count c)
  end.

(** The call [c] on the page [p], with the lock free. *)
Definition enter (p : list byte) (c : call) : foo :=
  Foo p (Some mutex_new) (c_pos c) (c_um c).

Inductive astep (s : astate) : astate -> Prop :=
| a_interrupted t c :
    calls s !! t = Some (inl c) ->
    astep s (Astate (apage s)
      (<[t := inr (Ret (- ERESTARTSYS) (c_pos c) (c_um c))]> (calls s)))
| a_call t c v f :
    calls s !! t = Some (inl c) ->
    runs (handler c) (enter (apage s) c) v f ->
    astep s (Astate (page f) (<[t := inr (Ret v (foo_pos f) (foo_um f))]> (calls s))).

(** ** Initial states, critical sections *)

(** A call the VFS lets through and, if it writes inside the page, one that
    ends inside it. *)
Definition call_ok (c : call) : Prop :=
  vfs_ok (c_pos c) (c_count c) /\
  (c_op c = FWrite -> c_pos c < 4096 -> c_pos c + c_count c <= 4096).

Definition initial (p : list byte) (cs : gmap nat call) : cstate :=
  Cstate p mutex_new (Calling <$> cs).

Definition ainitial (p : list byte) (cs : gmap nat call) : astate :=
  Astate p (inl <$> cs).

Definition critical (q : pc) : bool :=
  match q with
  | Calling _ | Returned _ => false
  | _ => true
  end.

Definition abs (q : pc) : call + ret :=
  match q with
  | Calling c | Entered c | Loading c _ _ | Storing c _ _ _ | Overran c
  | Leaving c _ => inl c
  | Returned v => inr v
  end.

(** How far the holder of the lock has brought the page [ap] it found. *)
Definition progress (ap p : list byte) (q : pc) : Prop :=
  match q with
  | Entered c => p = ap
  | Loading c n acc =>
      p = ap /\ c_op c = FRead /\ c_pos c < 4096 /\
      n = Z.min (c_count c) (4096 - c_pos c) /\
      Z.of_nat (length acc) <= n /\
      acc = take (length acc) (drop (Z.to_nat (c_pos c)) ap)
  | Storing c bs r k =>
      c_op c = FWrite /\ c_pos c < 4096 /\
      user_bytes (c_um c) (c_buf c) (Z.to_nat (c_count c)) = (bs, r) /\
      (k <= length bs)%nat /\
      p = take (Z.to_nat (c_pos c)) ap ++ take k bs ++ drop (Z.to_nat (c_pos c) + k) ap
  | Leaving c v =>
      exists f, runs (handler c) (enter ap c) (r_val v) f /\
        page f = p /\ foo_pos f = r_pos v /\ foo_um f = r_um v
  | Overran _ => False
  | Calling _ | Returned _ => True
  end.

Definition call_of (q : pc) : option call :=
  match abs q with inl c => Some c | inr _ => None end.

(** The simulation relation. *)
Record sim (s : cstate) (a : astate) : Prop := {
  sim_calls : calls a = abs <$> threads s;
  sim_len : length (apage a) = 4096%nat;
  sim_clen : length (cpage s) = 4096%nat;
  sim_ok : forall t q c, threads s !! t = Some q -> call_of q = Some c -> call_ok c;
  sim_excl : forall t u q r, threads s !! t = Some q -> threads s !! u = Some r ->
    critical q = true -> critical r = true -> t = u;
  sim_free : mutex_is_locked (clock s) = false ->
    cpage s = apage a /\ forall t q, threads s !! t = Some q -> critical q = false;
  sim_held : mutex_is_locked (clock s) = true ->
    exists t q, threads s !! t = Some q /\ critical q = true /\
      progress (apage a) (cpage s) q;
}.
End Machine.

(** ** Lemmas *)

Section MachineFacts.
Context `{UserMemOk} `{MutexOk}.
Implicit Types s : cstate.

Lemma mutex_lock_Some m m' :
  mutex_lock m = Some m' -> mutex_is_locked m = false /\ mutex_is_locked m' = true.
Proof.
  intros E. destruct (mutex_is_locked m) eqn:F.
  - rewrite mutex_lock_held in E by done. done.
  - destruct (mutex_lock_free m F) as (m2 & E2 & F2). split; congruence.
Qed.

(** The bytes a read loaded one by one, and what it does with them, are those
    of the handler run in one go. *)
Lemma read_outcome ap c acc m r :
  call_ok c -> length ap = 4096%nat -> c_op c = FRead -> c_pos c < 4096 ->
  Z.of_nat (length acc) = Z.min (c_count c) (4096 - c_pos c) ->
  acc = take (length acc) (drop (Z.to_nat (c_pos c)) ap) ->
  user_store (c_um c) (c_buf c) acc = (m, r) ->
  progress ap ap (Leaving c (finish c (Z.of_nat (length acc)) m r)).
Proof.
  intros [V _] L O Hp Hn Ea Eu. pose proof V as (?&?&?).
  destruct (foo_read_runs (enter ap c) mutex_new (c_buf c) (c_count c))
    as (v & l' & pos' & m' & R & _ & P); [done|done|done|apply mutex_new_unlocked|].
  assert (slice (c_pos c) (Z.min (c_count c) (4096 - c_pos c)) ap = Some acc) as Es.
  { rewrite slice_spec by lia. rewrite <- Hn, Nat2Z.id. by rewrite <- Ea. }
  simpl in *. unfold handler. rewrite O.
  destruct P as [|bs m' r' _ Es' Eu'|bs m' _ Es' Eu']; [lia|..];
    rewrite Es in Es'; injection Es' as <-; rewrite Eu in Eu'; injection Eu' as -> ->;
    unfold finish; simpl.
  - eexists. by split; [exact R|].
  - cint. eexists. by split; [exact R|].
Qed.

Lemma write_outcome ap c bs r :
  call_ok c -> length ap = 4096%nat -> c_op c = FWrite -> c_pos c < 4096 ->
  user_bytes (c_um c) (c_buf c) (Z.to_nat (c_count c)) = (bs, r) ->
  progress ap
    (take (Z.to_nat (c_pos c)) ap ++ bs ++ drop (Z.to_nat (c_pos c) + length bs) ap)
    (Leaving c (finish c (c_count c) (c_um c) r)).
Proof.
  intros [V B] L O Hp Eu. pose proof V as (?&?&?). specialize (B O Hp).
  destruct (foo_write_runs (enter ap c) mutex_new (c_buf c) (c_count c))
    as (v & l' & pos' & p' & R & _ & _ & P);
    [done|done|done|apply mutex_new_unlocked|by right|].
  pose proof (user_bytes_length (c_um c) (c_buf c) (Z.to_nat (c_count c))) as Lb.
  rewrite Eu in Lb. simpl in *. unfold handler. rewrite O.
  destruct P as [|bs' r' p' _ Eu' Es|bs' p' _ Eu' Es]; [lia|..];
    rewrite Eu in Eu'; injection Eu' as -> ->;
    rewrite splice_spec in Es by lia; injection Es as <-;
    unfold finish; simpl.
  - eexists. by split; [exact R|].
  - cint. eexists. by split; [exact R|].
Qed.

(** One byte stored extends the stored prefix by one. *)
Lemma store_extends pos (ap bs : list byte) k b :
  (pos + length bs <= length ap)%nat -> bs !! k = Some b ->
  <[(pos + k)%nat := b]> (take pos ap ++ take k bs ++ drop (pos + k) ap) =
    take pos ap ++ take (S k) bs ++ drop (pos + S k) ap.
Proof.
  intros L E. pose proof (lookup_lt_Some _ _ _ E) as K.
  assert (length (take pos ap) = pos) as L1 by (rewrite length_take; lia).
  assert (length (take k bs) = k) as L2 by (rewrite length_take; lia).
  rewrite insert_app_r_alt by lia. rewrite insert_app_r_alt by lia.
  replace (pos + k - length (take pos ap) - length (take k bs))%nat with 0%nat by lia.
  rewrite (take_S_r _ _ _ E), <- app_assoc. f_equal. f_equal.
  assert (drop (pos + S k) ap = drop 1 (drop (pos + k) ap)) as ->
    by (rewrite drop_drop; f_equal; lia).
  destruct (drop (pos + k) ap) as [|x l] eqn:D; [|done].
  apply (f_equal length) in D. rewrite length_drop in D. simpl in D. lia.
Qed.

(** A step of the lock's holder keeps [progress], or releases the lock with the
    page as the handler leaves it. *)
Lemma holder_step ap p l q p' l' q' c :
  length ap = 4096%nat -> call_of q = Some c -> call_ok c -> critical q = true ->
  progress ap p q -> tstep p l q p' l' q' ->
  (l' = l /\ critical q' = true /\ abs q' = inl c /\ progress ap p' q') \/
  (exists v, q = Leaving c v /\ q' = Returned v /\ p' = p /\ l' = mutex_unlock l).
Proof.
  intros L C K Cr P T. pose proof K as [(?&?&?) B].
  destruct T; simpl in *; try done; injection C as ->.
  - left. subst p. split; [done|split; [done|split; [done|]]].
    destruct (c_op c) eqn:O.
    + destruct (foo_read_runs (enter ap c) mutex_new (c_buf c) (c_count c))
        as (v & l' & pos' & m' & R & _ & Q); [done|done|done|apply mutex_new_unlocked|].
      simpl in *. destruct Q; [|lia..]. unfold handler. rewrite O. eauto.
    + destruct (foo_write_runs (enter ap c) mutex_new (c_buf c) (c_count c))
        as (v & l' & pos' & p' & R & _ & _ & Q);
        [done|done|done|apply mutex_new_unlocked|by left|].
      simpl in *. destruct Q; [|lia..]. unfold handler. rewrite O. eauto.
  - left. subst p. repeat (split; [done|]). simpl. unfold clamped.
    rewrite clamp_count by (done || lia). repeat (split; [done || lia|]). done.
  - left. destruct P as (-> & O & Hp & Hn & Hl & Ea). repeat (split; [done|]). simpl.
    rewrite length_app. simpl. repeat (split; [done || lia|]).
    rewrite Nat.add_1_r, (take_S_r _ _ b); [by rewrite <- Ea|].
    by rewrite lookup_drop.
  - destruct P as (-> & O & Hp & Hn & Hl & Ea).
    match goal with E : _ !! _ = None |- _ => apply lookup_ge_None_1 in E end. lia.
  - left. destruct P as (-> & O & Hp & Hn & Hl & Ea).
    repeat (split; [done|]).
    match goal with E : Z.of_nat (length acc) = n |- _ =>
      rewrite <- E; apply read_outcome; try done; congruence end.
  - left. subst p. repeat (split; [done|]). simpl.
    repeat (split; [done || lia|]). rewrite Nat.add_0_r. simpl. by rewrite take_drop.
  - left. destruct P as (O & Hp & Eu & Hk & ->).
    pose proof (user_bytes_length (c_um c) (c_buf c) (Z.to_nat (c_count c))) as Lb.
    rewrite Eu in Lb. simpl in Lb. specialize (B O Hp).
    match goal with E : bs !! k = Some b |- _ => pose proof (lookup_lt_Some _ _ _ E) end.
    rewrite store_extends by (done || lia). simpl. repeat (split; [done || lia|]). done.
  - destruct P as (O & Hp & Eu & Hk & ->).
    pose proof (user_bytes_length (c_um c) (c_buf c) (Z.to_nat (c_count c))) as Lb.
    rewrite Eu in Lb. simpl in Lb. specialize (B O Hp).
    match goal with E : _ !! k = Some b |- _ => apply lookup_lt_Some in E end.
    rewrite !length_app, !length_take, length_drop in *. lia.
  - left. destruct P as (O & Hp & Eu & Hk & ->). repeat (split; [done|]).
    rewrite firstn_all. by apply write_outcome.
  - right. eauto.
Qed.

(** A caller without the lock: it takes it, or gives up because of a signal. *)
Lemma caller_step p l q p' l' q' c :
  call_of q = Some c -> critical q = false -> tstep p l q p' l' q' ->
  p' = p /\
  ((mutex_is_locked l = false /\ mutex_is_locked l' = true /\ q' = Entered c) \/
   (mutex_is_locked l = true /\ l' = l /\
    q' = Returned (Ret (- ERESTARTSYS) (c_pos c) (c_um c)))).
Proof.
  intros C Cr T. destruct T; simpl in *; try done; injection C as ->.
  - apply mutex_lock_Some in H3 as [??]. auto.
  - auto.
Qed.

Lemma step_call_of p l q p' l' q' :
  tstep p l q p' l' q' -> exists c, call_of q = Some c /\
    (call_of q' = Some c \/ call_of q' = None).
Proof. destruct 1; eexists; (split; [reflexivity|]); auto. Qed.

Lemma step_page_length p l q p' l' q' : tstep p l q p' l' q' -> length p' = length p.
Proof. by destruct 1; rewrite ?length_insert. Qed.

Lemma sim_initial p cs :
  length p = 4096%nat -> (forall t c, cs !! t = Some c -> call_ok c) ->
  sim (initial p cs) (ainitial p cs).
Proof.
  intros L K. split; simpl; try done.
  - rewrite <- map_fmap_compose. by apply map_fmap_ext.
  - intros t q c. rewrite lookup_fmap. intros (c' & E & ->)%fmap_Some [= <-]. eauto.
  - intros t u q r. rewrite !lookup_fmap. by intros (c & _ & ->)%fmap_Some.
  - intros _. split; [done|]. intros t q. rewrite lookup_fmap.
    by intros (c & _ & ->)%fmap_Some.
  - by rewrite mutex_new_unlocked.
Qed.

(** The threads after one step: what the update does to the parts of [sim]. *)
Lemma sim_ok_insert s a t q q' c :
  sim s a -> threads s !! t = Some q -> call_of q = Some c ->
  (call_of q' = Some c \/ call_of q' = None) ->
  forall u r d, <[t := q']> (threads s) !! u = Some r -> call_of r = Some d -> call_ok d.
Proof.
  intros S E C C' u r d. rewrite lookup_insert. case_decide as D.
  - intros [= <-] Hd. destruct C'; [|congruence]. replace d with c by congruence; by apply (sim_ok _ _ S t q c).
  - intros. by apply (sim_ok _ _ S u r d).
Qed.

Lemma sim_excl_insert s a t q q' :
  sim s a -> threads s !! t = Some q ->
  (critical q' = true -> forall u r, u <> t -> threads s !! u = Some r -> critical r = false) ->
  forall u w r r', <[t := q']> (threads s) !! u = Some r ->
    <[t := q']> (threads s) !! w = Some r' ->
    critical r = true -> critical r' = true -> u = w.
Proof.
  intros S E N u w r r'. rewrite !lookup_insert. repeat case_decide; subst; try done.
  - intros [= <-] E' C1 C2. by rewrite (N C1 w r' ltac:(auto) E') in C2.
  - intros E' [= <-] C1 C2. by rewrite (N C2 u r ltac:(auto) E') in C1.
  - apply (sim_excl _ _ S u w r r').
Qed.

(** A step of the holder that keeps the lock changes nothing the specification
    can see. *)
Lemma sim_holder_step s a t q p' q' :
  sim s a -> threads s !! t = Some q -> length p' = 4096%nat ->
  mutex_is_locked (clock s) = true -> critical q' = true -> abs q' = abs q ->
  progress (apage a) p' q' ->
  (forall u r d, <[t := q']> (threads s) !! u = Some r -> call_of r = Some d -> call_ok d) ->
  (forall u r, u <> t -> threads s !! u = Some r -> critical r = false) ->
  sim (Cstate p' (clock s) (<[t := q']> (threads s))) a.
Proof.
  intros S E L Lk Cr A P Ok Others. split; simpl; try done.
  - rewrite (sim_calls _ _ S), fmap_insert, A. symmetry. apply insert_id.
    by rewrite lookup_fmap, E.
  - apply (sim_len _ _ S).
  - by eapply sim_excl_insert.
  - congruence.
  - intros _. exists t, q'. by rewrite lookup_insert_eq.
Qed.

(** A thread that returns while nobody holds the lock any more, or that never
    had it. *)
Lemma sim_return s a t q l v ap :
  sim s a -> threads s !! t = Some q -> length ap = 4096%nat ->
  (forall u r d, <[t := Returned v]> (threads s) !! u = Some r ->
    call_of r = Some d -> call_ok d) ->
  (mutex_is_locked l = false -> cpage s = ap /\
    forall u r, u <> t -> threads s !! u = Some r -> critical r = false) ->
  (mutex_is_locked l = true -> exists u r, u <> t /\ threads s !! u = Some r /\
    critical r = true /\ progress ap (cpage s) r) ->
  sim (Cstate (cpage s) l (<[t := Returned v]> (threads s)))
      (Astate ap (<[t := inr v]> (calls a))).
Proof.
  intros S E L Ok Fr Hd. split; simpl; try done.
  - by rewrite (sim_calls _ _ S), fmap_insert.
  - apply (sim_clen _ _ S).
  - by eapply sim_excl_insert.
  - intros F. destruct (Fr F) as [? Others]. split; [done|].
    intros u r. rewrite lookup_insert. case_decide; [by intros [= <-]|eauto].
  - intros F. destruct (Hd F) as (u & r & N & Er & Cr & P).
    exists u, r. by rewrite lookup_insert_ne by done.
Qed.

(** Every step of the machine is no step, or one step, of the specification. *)
Lemma sim_step s a s' :
  sim s a -> cstep s s' -> exists a', rtc astep a a' /\ sim s' a'.
Proof.
  intros S [t q p' l' q' E T].
  destruct (step_call_of _ _ _ _ _ _ T) as (c & C & C').
  pose proof (sim_ok _ _ S t q c E C) as K.
  pose proof (step_page_length _ _ _ _ _ _ T) as L'. rewrite (sim_clen _ _ S) in L'.
  assert (abs q = inl c) as A by (unfold call_of in C; destruct (abs q); congruence).
  assert (calls a !! t = Some (inl c)) as Ea
    by by rewrite (sim_calls _ _ S), lookup_fmap, E; simpl; rewrite A.
  pose proof (sim_ok_insert _ _ _ _ q' _ S E C C') as Ok.
  destruct (critical q) eqn:Cr.
  - assert (forall u r, u <> t -> threads s !! u = Some r -> critical r = false) as Others.
    { intros u r N Eu. destruct (critical r) eqn:Cr'; [|done].
      exfalso. apply N. by apply (sim_excl _ _ S u t r q). }
    assert (mutex_is_locked (clock s) = true) as Lk.
    { destruct (mutex_is_locked (clock s)) eqn:F; [done|].
      apply (sim_free _ _ S) in F as [_ F]. by rewrite (F _ _ E) in Cr. }
    destruct (sim_held _ _ S Lk) as (t' & r & Er & Cr' & P).
    assert (t' = t) as -> by by apply (sim_excl _ _ S t' t r q).
    rewrite E in Er. injection Er as <-.
    destruct (holder_step _ _ _ _ _ _ _ _ (sim_len _ _ S) C K Cr P T)
      as [(-> & Cr2 & A2 & P')|(v & -> & -> & -> & ->)].
    + exists a. split; [auto with kernel|].
      apply (sim_holder_step s a t q); congruence || done.
    + destruct P as (f & R & Pf & Pp & Pu).
      destruct v as [v vp vm]. simpl in *. subst vp vm.
      eexists. split; [by apply rtc_once, (a_call a t c v f)|].
      eapply sim_return; eauto; [by rewrite Pf|by rewrite mutex_unlock_unlocked].
  - destruct (caller_step _ _ _ _ _ _ _ C Cr T)
      as [-> [(F & F' & ->)|(F & -> & ->)]].
    + destruct (sim_free _ _ S F) as [Ep Others].
      exists a. split; [auto with kernel|]. split; simpl; try done.
      * rewrite (sim_calls _ _ S), fmap_insert. symmetry. apply insert_id.
        by rewrite lookup_fmap, E; simpl; rewrite A.
      * apply (sim_len _ _ S).
      * eapply sim_excl_insert; eauto.
      * congruence.
      * intros _. exists t, (Entered c). by rewrite lookup_insert_eq.
    + eexists. split; [by apply rtc_once, (a_interrupted a t c)|].
      eapply sim_return; eauto; [apply (sim_len _ _ S)|congruence|].
      intros _. destruct (sim_held _ _ S F) as (u & r & Er & Cr' & P).
      exists u, r. split; [|done]. intros ->. congruence.
Qed.

Lemma sim_steps s a s' :
  sim s a -> rtc cstep s s' -> exists a', rtc astep a a' /\ sim s' a'.
Proof.
  intros S R. revert a S. induction R as [s|s s1 s' T R IH]; intros a S.
  - exists a. auto with kernel.
  - destruct (sim_step _ _ _ S T) as (a1 & R1 & S1).
    destruct (IH a1 S1) as (a2 & R2 & S2). exists a2. split; [|done]. by etrans.
Qed.
End MachineFacts.

(** ** Theorems *)

Section MachineTheorems.
Context `{UserMemOk} `{MutexOk}.

(** C7: however the steps of the calls interleave, there is an execution of
    the specification, one call at a time and each by the handler of
    Debugfs.v, in which exactly the same calls have returned, with the same
    values, positions and memories; and whenever the lock is free the page is
    the specification's page. In particular no reader sees a torn write. *)
Theorem foo_linearizable p cs s :
  length p = 4096%nat -> (forall t c, cs !! t = Some c -> call_ok c) ->
  rtc cstep (initial p cs) s ->
  exists a, rtc astep (ainitial p cs) a /\
    (forall t v, threads s !! t = Some (Returned v) <-> calls a !! t = Some (inr v)) /\
    (mutex_is_locked (clock s) = false -> cpage s = apage a).
Proof.
  intros L K R. destruct (sim_steps _ _ _ (sim_initial p cs L K) R) as (a & Ra & S).
  exists a. split; [done|]. split.
  - intros t v. rewrite (sim_calls _ _ S), lookup_fmap, fmap_Some.
    split; [by intros ->; eexists|]. intros (q & -> & E). by destruct q; simplify_eq/=.
  - intros F. by apply (sim_free _ _ S).
Qed.

(** At most one call is between taking and releasing the lock, the lock is
    held exactly when one is, and no call ever stores or loads outside the
    page. *)
Theorem foo_mutual_exclusion p cs s :
  length p = 4096%nat -> (forall t c, cs !! t = Some c -> call_ok c) ->
  rtc cstep (initial p cs) s ->
  (forall t u q r, threads s !! t = Some q -> threads s !! u = Some r ->
    critical q = true -> critical r = true -> t = u) /\
  (mutex_is_locked (clock s) = true <->
    exists t q, threads s !! t = Some q /\ critical q = true) /\
  (forall t c, threads s !! t <> Some (Overran c)).
Proof.
  intros L K R. destruct (sim_steps _ _ _ (sim_initial p cs L K) R) as (a & _ & S).
  split; [apply (sim_excl _ _ S)|]. split; [split|].
  - intros F. destruct (sim_held _ _ S F) as (t & q & ? & ? & _). eauto.
  - intros (t & q & E & Cr). destruct (mutex_is_locked (clock s)) eqn:F; [done|].
    destruct (sim_free _ _ S F) as [_ N]. by rewrite (N _ _ E) in Cr.
  - intros t c E. destruct (mutex_is_locked (clock s)) eqn:F.
    + destruct (sim_held _ _ S F) as (u & q & Eu & Cr & P).
      rewrite (sim_excl _ _ S u t q (Overran c) Eu E Cr eq_refl) in Eu.
      rewrite E in Eu. by injection Eu as <-.
    + destruct (sim_free _ _ S F) as [_ N]. by specialize (N _ _ E).
Qed.

(** The lock never blocks the module for good: while some call has not
    returned, some call can take a step. *)
Theorem foo_progress p cs s t q :
  length p = 4096%nat -> (forall t c, cs !! t = Some c -> call_ok c) ->
  rtc cstep (initial p cs) s ->
  threads s !! t = Some q -> (forall v, q <> Returned v) ->
  exists s', cstep s s'.
Proof.
  intros L K R E N. destruct (sim_steps _ _ _ (sim_initial p cs L K) R) as (a & _ & S).
  destruct (mutex_is_locked (clock s)) eqn:F.
  - destruct (sim_held _ _ S F) as (u & r & Eu & Cr & P).
    assert (exists p' l' r', tstep (cpage s) (clock s) r p' l' r') as (p' & l' & r' & T);
      [|eexists; by eapply c_step].
    destruct r as [|c|c n acc|c bs r k| |c v|]; try done.
    + destruct (Z.le_gt_cases 4096 (c_pos c)); [by do 3 eexists; apply t_eof|].
      destruct (c_op c) eqn:O; [by do 3 eexists; apply t_read; [lia|]|].
      destruct (user_bytes (c_um c) (c_buf c) (Z.to_nat (c_count c))) eqn:Eb.
      by do 3 eexists; eapply t_write; [lia|..].
    + destruct P as (_ & _ & _ & _ & Hl & _).
      destruct (user_store (c_um c) (c_buf c) acc) eqn:Es.
      destruct (Z.eq_dec (Z.of_nat (length acc)) n); [by do 3 eexists; eapply t_loaded|].
      destruct (cpage s !! (Z.to_nat (c_pos c) + length acc)%nat) eqn:Ep.
      * by do 3 eexists; eapply t_load; [lia|].
      * by do 3 eexists; eapply t_load_overrun; [lia|].
    + destruct P as (_ & _ & _ & Hk & _). destruct (bs !! k) as [b|] eqn:Ek.
      * destruct (Z.lt_ge_cases (c_pos c + Z.of_nat k) (Z.of_nat (length (cpage s)))).
        -- by do 3 eexists; eapply t_store.
        -- by do 3 eexists; eapply t_store_overrun.
      * apply lookup_ge_None in Ek. replace k with (length bs) by lia.
        do 3 eexists. apply t_stored.
    + do 3 eexists. apply t_unlock.
  - destruct (sim_free _ _ S F) as [_ Others]. specialize (Others _ _ E).
    destruct q; try done; [|by destruct (N v)].
    destruct (mutex_lock_free _ F) as (l' & El & _).
    eexists. eapply c_step; [done|by apply t_lock].
Qed.
End MachineTheorems.

(** ** Witnesses *)

(** A process writing [abc] at 4000 and one reading there. *)
Definition demo_write : call :=
  Call FWrite 1000 3 4000 (mapped 1000 (bytes "abc") : @umem map_umem).
Definition demo_read : call :=
  Call FRead 1000 3 4000 (mapped 1000 (bytes "xyz") : @umem map_umem).
Definition demo_calls : gmap nat call := {[0%nat := demo_write; 1%nat := demo_read]}.
Definition demo_page : list byte := replicate 4096 x00.

Definition held : @mutex bool_mutex := true.

(** The writer holds the lock, the reader was interrupted waiting for it. *)
Definition demo_state : @cstate map_umem bool_mutex :=
  Cstate demo_page held
    (<[1%nat := Returned (Ret (- ERESTARTSYS) 4000 (c_um demo_read))]>
      (<[0%nat := Entered demo_write]> (Calling <$> demo_calls))).

Lemma demo_calls_ok t c : demo_calls !! t = Some c -> call_ok c.
Proof.
  unfold demo_calls. rewrite lookup_insert_Some, lookup_singleton_Some.
  intros [[<- <-]|[_ [<- <-]]]; split; simpl; unfold vfs_ok; simpl; lia.
Qed.

Lemma demo_reachable : rtc cstep (initial demo_page demo_calls) demo_state.
Proof.
  set (mid := Cstate demo_page held (<[0%nat := Entered demo_write]> (Calling <$> demo_calls))).
  assert (cstep (initial demo_page demo_calls) mid) as S1.
  { apply (c_step (initial demo_page demo_calls) 0%nat (Calling demo_write) demo_page held
      (Entered demo_write)); [reflexivity|]. by apply t_lock. }
  assert (cstep mid demo_state) as S2; [|by eapply rtc_l, rtc_once].
  apply (c_step mid 1%nat (Calling demo_read) demo_page held
    (Returned (Ret (- ERESTARTSYS) 4000 (c_um demo_read)))); [reflexivity|].
  by apply (t_signal demo_page held demo_read).
Qed.

Lemma foo_linearizable_witness :
  exists a, rtc astep (ainitial demo_page demo_calls) a /\
    calls a !! 1%nat = Some (inr (Ret (- ERESTARTSYS) 4000 (c_um demo_read))).
Proof.
  destruct (foo_linearizable demo_page demo_calls demo_state
    (length_replicate _ _) demo_calls_ok demo_reachable) as (a & R & E & _).
  exists a. split; [exact R|]. apply E. reflexivity.
Defined.

Lemma foo_mutual_exclusion_witness :
  threads demo_state !! 0%nat = Some (Entered demo_write) /\
  (forall t q, threads demo_state !! t = Some q -> critical q = true -> t = 0%nat).
Proof.
  split; [reflexivity|].
  destruct (foo_mutual_exclusion demo_page demo_calls demo_state
    (length_replicate _ _) demo_calls_ok demo_reachable) as (X & _ & _).
  intros t q E C. by apply (X t 0%nat q (Entered demo_write)).
Defined.

Lemma foo_progress_witness : exists s', cstep demo_state s'.
Proof.
  apply (foo_progress demo_page demo_calls demo_state 0%nat (Entered demo_write)
    (length_replicate _ _) demo_calls_ok demo_reachable); [reflexivity|].
  intros v. discriminate.
Defined.
