(* ===== verification/Identity.v ===== *)
(** * The list of identities (Task_12/kll, Task_13/kll; the same code in Task_18)

    A kernel list of heap-allocated structures, created, found and destroyed by
    id. The heap maps live addresses to objects; an address that is not live is
    freed, or was never allocated. Task_12 allocates with kmalloc, Task_13 from
    its own slab cache; the rest of the code is the same, so the operations
    take the allocator as a parameter. *)

From Stdlib Require Import ZArith Lia Strings.Byte.
From stdpp Require Import base strings gmap sets numbers list.
From S2P Require Import Prelude.
From S2P Require Import CString.
From S2P Require Import Kernel.
From S2P Require Import KernelInst.

(** ** Data *)

(** struct identity; its list_head is part of the state of the list. *)
Record identity := Identity {
  name : list byte;
  id : Z;
  busy : bool;
}.

Inductive allocator := Kmalloc | KmemCache.

#[export] Instance allocator_eq_dec : EqDecision allocator.
Proof. solve_decision. Defined.

(** The slab allocator: an address that is not live and the contents the
    object happens to have, or NULL. *)
Class ObjAlloc := {
  obj_alloc : allocator -> gmap Z identity -> option (Z * identity);
}.

Class ObjAllocOk `{ObjAlloc} : Prop := {
  obj_alloc_fresh : forall al h a o, obj_alloc al h = Some (a, o) -> h !! a = None;
  obj_alloc_size : forall al h a o, obj_alloc al h = Some (a, o) -> length (name o) = 20%nat;
}.

(** An allocator that never fails, and one that always does. *)
Definition next_alloc : ObjAlloc := {|
  obj_alloc _ h := Some (above h, Identity (replicate 20 x00) 0 false);
|}.

Definition no_alloc : ObjAlloc := {| obj_alloc _ _ := None |}.

(** ** Operations *)

Section Identity.
Context `{KList Z} `{ObjAlloc}.

(** Whether the memory of an object still has its contents after kfree, so
    that a read of it goes through; C leaves such a read undefined. *)
Variable freed_readable : bool.

(** Which allocator, and whether pr_debug prints. *)
Variable al : allocator.
Variable dbg : bool.

Record kll := Kll {
  heap : gmap Z identity;
  my_id_list : klist;
  kll_cache : option nat;
}.

Definition heapL : lens kll (gmap Z identity) :=
  Lens heap (fun h s => Kll h (my_id_list s) (kll_cache s)).
Definition listL : lens kll klist :=
  Lens my_id_list (fun l s => Kll (heap s) l (kll_cache s)).
Definition cacheL : lens kll (option nat) :=
  Lens kll_cache (fun c s => Kll (heap s) (my_id_list s) c).

(** A read of an object, and a change to it, through a pointer. *)
Definition load (a : Z) : M kll identity :=
  h ← kread heapL;
  match h !! a with Some o => mret o | None => undef UseAfterFree end.

Definition update (a : Z) (f : identity -> identity) : M kll unit :=
  h ← kread heapL;
  match h !! a with
  | Some o => kwrite heapL (<[a := f o]> h)
  | None => undef UseAfterFree
  end.

(** kmalloc(sizeof(struct identity)), or kmem_cache_alloc from kll_cache. *)
Definition alloc : M kll (option Z) :=
  c ← kread cacheL;
  if bool_decide (al = KmemCache) && bool_decide (c = None) then undef NullDeref else
  h ← kread heapL;
  match obj_alloc al h with
  | Some (a, o) => kwrite heapL (<[a := o]> h) ;; mret (Some a)
  | None => mret None
  end.

(** kfree, or kmem_cache_free. *)
Definition free (a : Z) : M kll unit :=
  h ← kread heapL;
  match h !! a with
  | Some _ => kwrite heapL (delete a h)
  | None => undef UseAfterFree
  end.

(** The read of pos->mylist.next that moves list_for_each_entry on. *)
Definition load_next (a : Z) : M kll (option Z) :=
  s ← kget;
  if bool_decide (is_Some (heap s !! a)) || freed_readable
  then mret (list_next a (my_id_list s))
  else undef UseAfterFree.

(** A traversal visits every entry at most once: as many steps as entries. *)
Definition list_for_each_entry {R} (body : Z -> M kll (option R)) : M kll (option R) :=
  l ← kread listL;
  walk load_next (length (entries l)) (list_first l) body.

Definition identity_create (nm : list byte) (i : Z) : M kll Z :=
  match strlen nm with
  | None => undef OutOfBounds
  | Some n =>
      if 20 <? u64 (Z.of_nat n + 1) then mret (- ENOMEM) else
      temp_id ← alloc;
      match temp_id with
      | None => mret (- ENOMEM)
      | Some a =>
          o ← load a;
          match strcpy (name o) nm with
          | None => undef OutOfBounds
          | Some nm' =>
              update a (fun o => Identity nm' (id o) (busy o)) ;;
              update a (fun o => Identity (name o) i (busy o)) ;;
              update a (fun o => Identity (name o) (id o) false) ;;
              l ← kread listL;
              kwrite listL (list_add a l) ;;
              mret 0
          end
      end
  end.

Definition identity_find (i : Z) : M kll (option Z) :=
  list_for_each_entry (fun a =>
    o ← load a;
    mret (if id o =? i then Some a else None)).

(** The body of the loop of identity_destroy. *)
Definition destroy_entry (i a : Z) : M kll (option unit) :=
  o ← load a;
  if id o =? i then
    l ← kread listL;
    kwrite listL (list_del_entry a l) ;;
    free a ;;
    mret None
  else mret None.

Definition identity_destroy (i : Z) : M kll unit :=
  list_for_each_entry (destroy_entry i) ;;
  mret tt.

(** temp->name as an argument of %s. *)
Definition name_arg (temp : option Z) : M kll (list byte) :=
  match temp with
  | None => undef NullDeref
  | Some a =>
      o ← load a;
      match string_in (name o) with
      | Some s => mret s
      | None => undef OutOfBounds
      end
  end.

Definition create_or_complain (complaint nm : string) (i : Z) : M kll unit :=
  e ← identity_create (cstring nm) i;
  if e <? 0 then klog (Debug dbg) complaint [] else mret tt.

(** The part linked_list_init of Task_12 and Task_13 share. *)
Definition create_all : M kll unit :=
  create_or_complain "unable to allocate memory" "Alice" 1 ;;
  create_or_complain "unable to alocate memory" "Bob" 2 ;;
  create_or_complain "unable to alocate memory" "Dave" 3 ;;
  create_or_complain "unable to alocate memory" "Gena" 4.

Definition show_3 : M kll unit :=
  temp ← identity_find 3;
  pr_debug dbg (nm ← name_arg temp; mret (Printk "id 3 = %s" [ArgS nm])).

Definition destroy_all : M kll unit :=
  identity_destroy 2 ;;
  identity_destroy 1 ;;
  identity_destroy 10 ;;
  identity_destroy 42 ;;
  identity_destroy 3.

(** What an operation of the list keeps true: no entry twice, every entry
    live, every name a string in its 20 bytes, every id an int. *)
Definition identity_wf (o : identity) : Prop :=
  length (name o) = 20%nat /\ is_Some (strlen (name o)) /\ int_range (id o).

Record kll_wf (s : kll) : Prop := {
  wf_nodup : NoDup (entries (my_id_list s));
  wf_live : forall a, a ∈ entries (my_id_list s) ->
    exists o, heap s !! a = Some o /\ identity_wf o;
}.

(** The id of the object at an address. *)
Definition id_at (s : kll) (a : Z) : option Z := id <$> heap s !! a.

(** The objects on the list, in its order. *)
Definition contents (s : kll) : list identity :=
  omap (fun a => heap s !! a) (entries (my_id_list s)).
End Identity.

(** ** The modules *)

(** Task_12: nothing is returned at the end of linked_list_init. *)
Module Kll12.
Section Kll12.
Context `{KList Z} `{ObjAlloc}.
Variable freed_readable : bool.
Variable dbg : bool.

Definition identity_create := identity_create Kmalloc.
Definition identity_find := identity_find freed_readable.
Definition identity_destroy := identity_destroy freed_readable.

Definition linked_list_init : M kll (option Z) :=
  create_all Kmalloc dbg ;;
  show_3 freed_readable dbg ;;
  temp ← identity_find 42;
  (if bool_decide (temp = None) then klog (Debug dbg) "id 42 not found" [] else mret tt) ;;
  destroy_all freed_readable ;;
  mret None.

Definition linked_list_exit : M kll unit :=
  klog (Debug dbg) "Goodbye, Kernel World!" [].
End Kll12.
End Kll12.

(** Task_13: the objects come from a slab cache of the module's own. *)
Module Kll13.
Section Kll13.
Context `{KList Z} `{ObjAlloc}.
Variable freed_readable : bool.
Variable dbg : bool.

(** kmem_cache_create and kmem_cache_destroy. *)
Variable kmem_cache_create : option nat.
Variable kmem_cache_destroy : option nat -> M kll unit.

Definition identity_create := identity_create KmemCache.
Definition identity_find := identity_find freed_readable.
Definition identity_destroy := identity_destroy freed_readable.

(** The constructor of the cache: memset(addr, 0, sizeof(struct identity)). *)
Definition kll_const (addr : identity) : identity :=
  Identity (replicate (length (name addr)) x00) 0 false.

Definition linked_list_init : M kll (option Z) :=
  kwrite cacheL kmem_cache_create ;;
  c ← kread cacheL;
  match c with
  | None =>
      klog (Debug dbg) "unable to allocate memory" [] ;; mret (Some (- ENOMEM))
  | Some _ =>
      create_all KmemCache dbg ;;
      show_3 freed_readable dbg ;;
      temp ← identity_find 42;
      klog (Debug dbg) "id 42 not found" [] ;;
      destroy_all freed_readable ;;
      mret (Some 0)
  end.

Definition linked_list_exit : M kll unit :=
  c ← kread cacheL;
  kmem_cache_destroy c ;;
  klog (Debug dbg) "Goodbye, Kernel World!" [].
End Kll13.
End Kll13.

Arguments Kll {_} _ _ _.
Arguments heap {_} _.
Arguments my_id_list {_} _.
Arguments kll_cache {_} _.

(** ** Lemmas *)

(** The entries with an id, and the others, in list order. *)
Definition with_id `{KList Z} (s : kll) (i : Z) : list Z :=
  filter (fun a => id_at s a = Some i) (entries (my_id_list s)).
Definition without_id `{KList Z} (s : kll) (i : Z) : list Z :=
  filter (fun a => id_at s a <> Some i) (entries (my_id_list s)).

(** The side conditions on the literals the modules pass. *)
Ltac literal :=
  first [ done | by apply (bool_decide_unpack _) | unfold int_range; simpl; lia
        | intros; repeat match goal with E : kll_cache _ = _ |- _ => rewrite E end; auto ].

Section IdentityFacts.
Context `{KListOk Z} `{ObjAllocOk}.
Implicit Types s : kll.

Lemma exec_load {B} a o (k : identity -> M kll B) s :
  heap s !! a = Some o -> (load a ≫= k) s = k o s.
Proof. intros E. unfold load. kexec. rewrite E. by kexec. Qed.

Lemma exec_update {B} a f o (k : unit -> M kll B) s :
  heap s !! a = Some o ->
  (update a f ≫= k) s = k tt (Kll (<[a := f o]> (heap s)) (my_id_list s) (kll_cache s)).
Proof. intros E. unfold update. kexec. rewrite E. by kexec. Qed.

Lemma exec_free {B} a (k : unit -> M kll B) s :
  is_Some (heap s !! a) ->
  (free a ≫= k) s = k tt (Kll (delete a (heap s)) (my_id_list s) (kll_cache s)).
Proof. intros [o E]. unfold free. kexec. rewrite E. by kexec. Qed.

Lemma exec_destroy_entry {B} i a o (k : option unit -> M kll B) s :
  heap s !! a = Some o ->
  (destroy_entry i a ≫= k) s =
    if id o =? i
    then k None (Kll (delete a (heap s)) (list_del_entry a (my_id_list s)) (kll_cache s))
    else k None s.
Proof.
  intros E. unfold destroy_entry. kexec. rewrite (exec_load a o) by done.
  destruct (id o =? i); kexec; [|done]. by rewrite exec_free by (simpl; eauto); kexec.
Qed.

Lemma exec_load_next {B} fr a (k : option Z -> M kll B) s :
  is_Some (heap s !! a) \/ fr = true ->
  (load_next fr a ≫= k) s = k (list_next a (my_id_list s)) s.
Proof.
  intros D. unfold load_next. kexec.
  replace (bool_decide (is_Some (heap s !! a)) || fr) with true; [by kexec|].
  symmetry. apply orb_true_iff. destruct D; [left|by right].
  by apply bool_decide_eq_true.
Qed.

Lemma exec_load_next_freed {B} a (k : option Z -> M kll B) s :
  heap s !! a = None -> (load_next false a ≫= k) s = Undef UseAfterFree.
Proof. intros E. unfold load_next. kexec. rewrite E. by kexec. Qed.

(** The list of a traversal, cut at the cursor. *)
Lemma next_of_split s p a q :
  NoDup (entries (my_id_list s)) -> entries (my_id_list s) = p ++ a :: q ->
  list_next a (my_id_list s) = head q.
Proof. intros. by eapply list_next_entry. Qed.

Lemma list_for_each_entry_unfold {R} fr (body : Z -> M kll (option R)) s :
  list_for_each_entry fr body s =
    walk (load_next fr) (length (entries (my_id_list s))) (head (entries (my_id_list s))) body s.
Proof. unfold list_for_each_entry. kexec. by rewrite list_first_entry. Qed.

Lemma omap_filter_head i s q :
  (forall a, a ∈ q -> is_Some (heap s !! a)) ->
  head (omap (fun a => if default 0 (id_at s a) =? i then Some a else None) q) =
    head (filter (fun a => id_at s a = Some i) q).
Proof.
  induction q as [|a q IH]; intros L; [done|]. simpl.
  destruct (L a) as [o E]; [by left|]. unfold id_at at 1. rewrite E. simpl.
  destruct (Z.eqb_spec (id o) i) as [<-|D].
  - rewrite filter_cons_True; [done|]. unfold id_at. by rewrite E.
  - rewrite filter_cons_False; [|unfold id_at; rewrite E; simpl; congruence].
    apply IH. intros b ?. apply L. by right.
Qed.

Lemma wf_live_is_Some s a : kll_wf s -> a ∈ entries (my_id_list s) -> is_Some (heap s !! a).
Proof. intros W Ha. destruct (wf_live _ W a Ha) as (o & E & _). eauto. Qed.

(** identity_find returns the first entry of the list with the id. *)
Lemma identity_find_exec fr s i :
  kll_wf s -> identity_find fr i s = Done (head (with_id s i)) s [].
Proof.
  intros W. unfold identity_find. rewrite list_for_each_entry_unfold.
  rewrite (walk_search _ _
    (fun a => if default 0 (id_at s a) =? i then Some a else None)
    (my_id_list s) [] (entries (my_id_list s)));
    [|apply W|done|done|].
  - by rewrite omap_filter_head by (intros; by apply wf_live_is_Some).
  - intros a Ha. destruct (wf_live_is_Some s a W Ha) as [o E]. split.
    + unfold load_next. kexec. by rewrite bool_decide_true by eauto.
    + rewrite (exec_load a o) by done. unfold id_at. by rewrite E.
Qed.

(** The traversal of identity_destroy when C's rule on freed memory is kept: it
    goes wrong at the first entry it frees. *)
Lemma destroy_strict i s p q fuel :
  NoDup (entries (my_id_list s)) -> entries (my_id_list s) = p ++ q ->
  (length q <= fuel)%nat -> (forall a, a ∈ q -> is_Some (heap s !! a)) ->
  walk (load_next false) fuel (head q) (destroy_entry i) s =
  match filter (fun a => id_at s a = Some i) q with
  | [] => Done None s []
  | _ :: _ => Undef UseAfterFree
  end.
Proof.
  intros N. revert p fuel. induction q as [|a q IH]; intros p fuel E F L; simpl.
  - by destruct fuel.
  - destruct fuel as [|fuel]; simpl in F; [lia|].
    destruct (L a) as [o Eo]; [by left|]. simpl.
    rewrite (exec_destroy_entry i a o) by done.
    destruct (Z.eqb_spec (id o) i) as [<-|D].
    + rewrite filter_cons_True by (unfold id_at; by rewrite Eo).
      apply exec_load_next_freed. simpl. apply lookup_delete_eq.
    + rewrite filter_cons_False by (unfold id_at; rewrite Eo; simpl; congruence).
      rewrite exec_load_next by (left; eauto).
      rewrite (next_of_split s p a q) by done.
      apply (IH (p ++ [a])); [by rewrite <- app_assoc|lia|]. intros b ?. apply L. by right.
Qed.

(** The same traversal where freed memory keeps its contents and a deleted
    entry its next pointer. *)
Lemma destroy_stale `{!KListStale Z} i s p q fuel (dead : Z -> bool) :
  NoDup (entries (my_id_list s)) -> entries (my_id_list s) = p ++ q ->
  (length q <= fuel)%nat ->
  (forall a, a ∈ q -> exists o, heap s !! a = Some o /\ (dead a = true <-> id o = i)) ->
  exists s',
    walk (load_next true) fuel (head q) (destroy_entry i) s = Done None s' [] /\
    entries (my_id_list s') = p ++ filter (fun a => dead a <> true) q /\
    kll_cache s' = kll_cache s /\
    (forall a, heap s' !! a = if decide (a ∈ q /\ dead a = true) then None else heap s !! a).
Proof.
  revert s p fuel. induction q as [|a q IH]; intros s p fuel N E F L.
  - exists s. destruct fuel; (split; [done|]); (split; [done|split; [done|]]);
      intros a; rewrite decide_False; [done|set_solver|done|set_solver].
  - destruct fuel as [|fuel]; simpl in F; [lia|].
    destruct (L a) as (o & Eo & D); [by left|]. simpl.
    rewrite (exec_destroy_entry i a o) by done.
    assert (a ∉ q) as Na.
    { rewrite E in N. by apply NoDup_app in N as (_ & _ & [? _]%NoDup_cons). }
    destruct (Z.eqb_spec (id o) i) as [Ei|Ei].
    + rewrite exec_load_next by by right. simpl.
      rewrite (list_next_deleted a _ p q) by done.
      destruct (IH (Kll (delete a (heap s)) (list_del_entry a (my_id_list s)) (kll_cache s))
        p fuel) as (s' & R & E' & C' & H'); simpl.
      * rewrite (entries_del _ _ p q) by done. rewrite E in N.
        apply NoDup_app in N as (N1 & N2 & [_ N3]%NoDup_cons). apply NoDup_app.
        split; [done|split; [|done]]. intros b Hb ?. apply (N2 b Hb). by right.
      * by rewrite (entries_del _ _ p q).
      * lia.
      * intros b Hb. rewrite lookup_delete_ne by congruence. apply L. by right.
      * exists s'. split; [done|]. rewrite filter_cons_False by (intros X; by apply X, D).
        split; [done|split; [done|]]. intros b. rewrite H'. simpl.
        destruct (decide (b = a)) as [->|Nb].
        -- rewrite (decide_False (P := a ∈ q /\ _)) by by intros [].
           rewrite decide_True by (split; [by left|by apply D]). apply lookup_delete_eq.
        -- rewrite lookup_delete_ne by done. apply decide_ext. set_solver.
    + rewrite exec_load_next by by right. rewrite (next_of_split s p a q) by done.
      destruct (IH s (p ++ [a]) fuel) as (s' & R & E' & C' & H'); simpl.
      * done.
      * by rewrite <- app_assoc.
      * lia.
      * intros b Hb. apply L. by right.
      * assert (dead a <> true) as Da by by rewrite D.
        exists s'. split; [done|]. rewrite filter_cons_True by done.
        rewrite <- app_assoc in E'. split; [done|split; [done|]].
        intros b. rewrite H'. apply decide_ext. set_solver.
Qed.

(** identity_destroy, in terms of the entries with the id. *)
Lemma identity_destroy_strict_exec s i :
  kll_wf s ->
  identity_destroy false i s =
    match with_id s i with [] => Done tt s [] | _ :: _ => Undef UseAfterFree end.
Proof.
  intros W. unfold identity_destroy.
  pose proof (destroy_strict i s [] (entries (my_id_list s)) (length (entries (my_id_list s)))
    (wf_nodup _ W) eq_refl (Nat.le_refl _) (fun a Ha => wf_live_is_Some s a W Ha)) as D.
  rewrite <- list_for_each_entry_unfold in D. fold (with_id s i) in D.
  destruct (with_id s i).
  - by rewrite (exec_bind _ _ _ _ _ _ D).
  - by rewrite (exec_bind_undef _ _ _ _ D).
Qed.

Lemma id_at_bool s a o i :
  heap s !! a = Some o -> bool_decide (id_at s a = Some i) = true <-> id o = i.
Proof.
  intros E. rewrite bool_decide_eq_true. unfold id_at. rewrite E. simpl. split; congruence.
Qed.

Lemma identity_destroy_stale_exec `{!KListStale Z} s i :
  kll_wf s ->
  exists s', identity_destroy true i s = Done tt s' [] /\
    entries (my_id_list s') = without_id s i /\ kll_cache s' = kll_cache s /\
    (forall a, heap s' !! a = if decide (a ∈ with_id s i) then None else heap s !! a).
Proof.
  intros W. unfold identity_destroy.
  destruct (destroy_stale i s [] (entries (my_id_list s)) (length (entries (my_id_list s)))
    (fun a => bool_decide (id_at s a = Some i))) as (s' & R & E & C & Hp);
    [apply W|done|done|..].
  { intros a Ha. destruct (wf_live_is_Some s a W Ha) as [o Eo].
    exists o. split; [done|by apply id_at_bool]. }
  rewrite <- list_for_each_entry_unfold in R.
  exists s'. split; [by rewrite (exec_bind _ _ _ _ _ _ R)|].
  split; [|split; [done|]].
  - rewrite E. simpl. apply list_filter_iff. intros a. by rewrite bool_decide_eq_true.
  - intros a. rewrite Hp. apply decide_ext. unfold with_id.
    rewrite list_elem_of_filter, bool_decide_eq_true. tauto.
Qed.

(** The objects at the addresses without an id are the objects without it. *)
Lemma objects_without s s' i (l : list Z) :
  (forall a, a ∈ l -> is_Some (heap s !! a)) ->
  (forall a, a ∈ filter (fun a => id_at s a <> Some i) l -> heap s' !! a = heap s !! a) ->
  omap (fun a => heap s' !! a) (filter (fun a => id_at s a <> Some i) l) =
    filter (fun o => id o <> i) (omap (fun a => heap s !! a) l).
Proof.
  induction l as [|a l IH]; intros L Sm; [done|].
  destruct (L a) as [o Eo]; [by left|]. simpl. rewrite Eo.
  assert (id_at s a = Some (id o)) as Ei by (unfold id_at; by rewrite Eo).
  destruct (decide (id o = i)) as [D|D].
  - rewrite filter_cons_False in Sm by (rewrite Ei; naive_solver).
    rewrite filter_cons_False by (rewrite Ei; naive_solver).
    rewrite filter_cons_False by naive_solver.
    apply IH; [|done]. intros b ?. apply L. by right.
  - rewrite filter_cons_True in Sm by (rewrite Ei; congruence).
    rewrite filter_cons_True by (rewrite Ei; congruence).
    rewrite filter_cons_True by done. simpl. rewrite Sm, Eo by by left. f_equal.
    apply IH; intros b ?; [apply L|apply Sm]; by right.
Qed.

(** What is left is well formed, and is the others' contents. *)
Lemma destroyed_wf s s' i :
  kll_wf s -> entries (my_id_list s') = without_id s i ->
  (forall a, heap s' !! a = if decide (a ∈ with_id s i) then None else heap s !! a) ->
  kll_wf s' /\ contents s' = filter (fun o => id o <> i) (contents s).
Proof.
  intros W E Hp.
  assert (forall a, a ∈ without_id s i -> heap s' !! a = heap s !! a) as Same.
  { intros a Ha. rewrite Hp, decide_False; [done|].
    apply list_elem_of_filter in Ha as [? _]. by intros [? _]%list_elem_of_filter. }
  split; [split|].
  - rewrite E. apply NoDup_filter, W.
  - intros a. rewrite E. intros Ha. rewrite Same by done.
    apply list_elem_of_filter in Ha as [_ Ha]. by apply W.
  - unfold contents. rewrite E.
    apply objects_without; [by intros; apply wf_live_is_Some|done].
Qed.

(** The stored object once strcpy has filled its name. *)
Lemma created_wf nm n o i nm' :
  strlen nm = Some n -> (n < 20)%nat -> length (name o) = 20%nat ->
  strcpy (name o) nm = Some nm' -> int_range i ->
  identity_wf (Identity nm' i false) /\ string_in nm' = Some (take n nm).
Proof.
  intros Ln Hn Lo E R. rewrite (strcpy_Some _ _ n) in E by (done || lia). injection E as <-.
  pose proof (proj1 (strlen_Some _ _) Ln) as [_ Nul].
  pose proof (strlen_lt _ _ Ln) as Lt.
  assert (length (take n nm) = n) as Ln' by (rewrite length_take; lia).
  split; [split; [|split; [|done]]|]; simpl.
  - rewrite length_app, Ln'. simpl. rewrite length_drop. lia.
  - rewrite strlen_app by done. eauto.
  - by apply string_in_app.
Qed.

(** identity_create on a string of [n] characters. *)
Lemma identity_create_exact al s nm n i :
  strlen nm = Some n -> Z.of_nat n + 1 < two64 ->
  (al = KmemCache -> kll_cache s <> None) ->
  identity_create al nm i s =
    if decide (n < 20)%nat then
      match obj_alloc al (heap s) with
      | Some (a, o) =>
          Done 0 (Kll (<[a := Identity (take n nm ++ x00 :: drop (S n) (name o)) i false]> (heap s))
            (list_add a (my_id_list s)) (kll_cache s)) []
      | None => Done (- ENOMEM) s []
      end
    else Done (- ENOMEM) s [].
Proof.
  intros Ln Hb C.
  assert (forall k : option Z -> M kll Z, (alloc al ≫= k) s =
    match obj_alloc al (heap s) with
    | Some (a, o) => k (Some a) (Kll (<[a := o]> (heap s)) (my_id_list s) (kll_cache s))
    | None => k None s
    end) as Ea.
  { intros k. unfold alloc. kexec.
    replace (bool_decide (al = KmemCache) && bool_decide (kll_cache s = None)) with false.
    - kexec. destruct (obj_alloc al (heap s)) as [[a o]|]; by kexec.
    - symmetry. apply andb_false_iff. destruct (decide (al = KmemCache)) as [D|D].
      + right. apply bool_decide_eq_false. by apply C.
      + left. by apply bool_decide_eq_false. }
  unfold identity_create. rewrite Ln, u64_id by lia.
  destruct (Z.ltb_spec 20 (Z.of_nat n + 1)) as [Hl|Hl].
  { by rewrite decide_False by lia. }
  rewrite decide_True, Ea by lia. destruct (obj_alloc al (heap s)) as [[a o]|] eqn:Eo; [|done].
  rewrite (exec_load a o) by (simpl; apply lookup_insert_eq).
  rewrite (strcpy_Some _ _ n) by (done || rewrite (obj_alloc_size _ _ _ _ Eo); lia).
  do 3 (erewrite exec_update by (simpl; apply lookup_insert_eq); simpl). kexec.
  by rewrite !insert_insert_eq.
Qed.

Lemma identity_create_exec al s nm n i :
  kll_wf s -> strlen nm = Some n -> Z.of_nat n + 1 < two64 -> int_range i ->
  (al = KmemCache -> kll_cache s <> None) ->
  match obj_alloc al (heap s) with
  | Some (a, o0) =>
      if decide (n < 20)%nat then (
        exists o s', identity_create al nm i s = Done 0 s' [] /\
          heap s' = <[a := o]> (heap s) /\ kll_cache s' = kll_cache s /\
          entries (my_id_list s') = a :: entries (my_id_list s) /\
          (a ∉ entries (my_id_list s)) /\ identity_wf o /\
          string_in (name o) = Some (take n nm) /\ id o = i /\ busy o = false)
      else identity_create al nm i s = Done (- ENOMEM) s []
  | None => identity_create al nm i s = Done (- ENOMEM) s []
  end.
Proof.
  intros W Ln Hb R C. rewrite (identity_create_exact al s nm n i Ln Hb C).
  destruct (obj_alloc al (heap s)) as [[a o0]|] eqn:Eo; [|by case_decide].
  case_decide; [|done].
  pose proof (obj_alloc_fresh _ _ _ _ Eo) as Fr. pose proof (obj_alloc_size _ _ _ _ Eo) as Sz.
  assert (a ∉ entries (my_id_list s)) as Na.
  { intros Ha. destruct (wf_live_is_Some s a W Ha). congruence. }
  destruct (created_wf nm n o0 i (take n nm ++ x00 :: drop (S n) (name o0)) Ln ltac:(lia) Sz)
    as [Wo So]; [by apply strcpy_Some; [|lia]|done|].
  eexists _, _. split; [done|]. simpl. rewrite entries_add by done. repeat (split; [done|]). done.
Qed.

Lemma created_list_wf s s' a o :
  kll_wf s -> heap s' = <[a := o]> (heap s) ->
  entries (my_id_list s') = a :: entries (my_id_list s) ->
  a ∉ entries (my_id_list s) -> identity_wf o ->
  kll_wf s' /\ contents s' = o :: contents s.
Proof.
  intros W Eh El Na Wo. split; [split|].
  - rewrite El. apply NoDup_cons. split; [done|apply W].
  - intros b. rewrite El, Eh. intros [->|Hb]%elem_of_cons.
    + exists o. by rewrite lookup_insert_eq.
    + rewrite lookup_insert_ne by congruence. by apply W.
  - unfold contents. rewrite El, Eh. simpl. rewrite lookup_insert_eq. f_equal.
    apply list_omap_ext, Forall_Forall2_diag, Forall_forall. intros b Hb.
    by rewrite lookup_insert_ne by congruence.
Qed.

(** Membership of an id in the contents, by address. *)
Lemma with_id_nil s i :
  kll_wf s -> with_id s i = [] <-> (forall o, o ∈ contents s -> id o <> i).
Proof.
  intros W. unfold with_id, contents. split.
  - intros E o (a & Ha & Ho)%list_elem_of_omap D.
    assert (a ∈ (filter (fun a => id_at s a = Some i) (entries (my_id_list s)))) as X.
    { apply list_elem_of_filter. split; [|done]. unfold id_at. rewrite Ho. simpl. congruence. }
    rewrite E in X. by apply not_elem_of_nil in X.
  - intros N. destruct (filter _ _) as [|a l] eqn:E; [done|]. exfalso.
    assert (a ∈ (filter (fun a => id_at s a = Some i) (entries (my_id_list s)))) as X
      by (rewrite E; by left).
    apply list_elem_of_filter in X as [X Ha]. unfold id_at in X.
    apply fmap_Some in X as (o & Ho & ->). apply (N o); [|done].
    apply list_elem_of_omap. eauto.
Qed.

Lemma head_with_id s i a :
  kll_wf s -> head (with_id s i) = Some a ->
  exists o, heap s !! a = Some o /\ id o = i /\ identity_wf o.
Proof.
  intros W E. assert (a ∈ with_id s i) as X.
  { destruct (with_id s i); simplify_eq/=. by left. }
  apply list_elem_of_filter in X as [X Ha]. destruct (wf_live _ W a Ha) as (o & Ho & Wo).
  unfold id_at in X. rewrite Ho in X. simplify_eq/=. eauto.
Qed.

Lemma exec_name_arg {B} a o (k : list byte -> M kll B) s :
  heap s !! a = Some o -> identity_wf o ->
  exists nm, string_in (name o) = Some nm /\ (name_arg (Some a) ≫= k) s = k nm s.
Proof.
  intros E (_ & [n Hn] & _). unfold string_in. rewrite Hn. eexists. split; [done|].
  unfold name_arg. kexec. rewrite (exec_load a o) by done. unfold string_in. rewrite Hn.
  by kexec.
Qed.

(** show_3 prints the name of the first object with id 3. *)
Lemma show_3_exec fr dbg s a :
  kll_wf s -> head (with_id s 3) = Some a -> exists out, show_3 fr dbg s = Done tt s out.
Proof.
  intros W E. unfold show_3.
  rewrite (exec_bind _ _ _ _ _ _ (identity_find_exec fr s 3 W)), tell_nil, E.
  destruct dbg; [|by eexists].
  destruct (head_with_id s 3 a W E) as (o & Ho & _ & Wo).
  destruct (exec_name_arg a o (fun nm => mret (Printk "id 3 = %s" [ArgS nm])) s Ho Wo)
    as (nm & _ & En). unfold pr_debug. rewrite En. by eexists.
Qed.

Lemma show_3_null fr s :
  kll_wf s -> with_id s 3 = [] -> show_3 fr true s = Undef NullDeref.
Proof.
  intros W E. unfold show_3.
  by rewrite (exec_bind _ _ _ _ _ _ (identity_find_exec fr s 3 W)), tell_nil, E.
Qed.

Lemma create_literal al dbg s cm nm i :
  kll_wf s -> (forall h, obj_alloc al h <> None) -> (al = KmemCache -> kll_cache s <> None) ->
  x00 ∉ bytes nm -> (length (bytes nm) < 20)%nat -> int_range i ->
  exists o s', create_or_complain al dbg cm nm i s = Done tt s' [] /\ kll_wf s' /\
    kll_cache s' = kll_cache s /\ contents s' = o :: contents s /\
    id o = i /\ string_in (name o) = Some (bytes nm).
Proof.
  intros W A C N L R. unfold create_or_complain, cstring.
  pose proof (strlen_app (bytes nm) [] N) as Ln.
  pose proof (identity_create_exec al s _ _ i W Ln ltac:(unfold two64; lia) R C) as X.
  destruct (obj_alloc al (heap s)) as [[a o0]|] eqn:Eo; [|by destruct (A (heap s))].
  rewrite decide_True in X by done.
  destruct X as (o & s' & E & Eh & Ec & El & Na & Wo & So & Ei & _).
  destruct (created_list_wf s s' a o W Eh El Na Wo) as [W' C'].
  exists o, s'. rewrite (exec_bind _ _ _ _ _ _ E). rewrite take_app_length in So. done.
Qed.

Lemma create_all_exec al dbg s :
  kll_wf s -> (forall h, obj_alloc al h <> None) -> (al = KmemCache -> kll_cache s <> None) ->
  exists oG oD oB oA s', create_all al dbg s = Done tt s' [] /\ kll_wf s' /\
    kll_cache s' = kll_cache s /\ contents s' = oG :: oD :: oB :: oA :: contents s /\
    id oA = 1 /\ id oB = 2 /\ id oD = 3 /\ id oG = 4 /\
    string_in (name oG) = Some (bytes "Gena").
Proof.
  intros W A C. unfold create_all.
  destruct (create_literal al dbg s "unable to allocate memory" "Alice" 1)
    as (oA & s1 & E1 & W1 & C1 & L1 & I1 & _); [literal..|].
  destruct (create_literal al dbg s1 "unable to alocate memory" "Bob" 2)
    as (oB & s2 & E2 & W2 & C2 & L2 & I2 & _); [literal..|].
  destruct (create_literal al dbg s2 "unable to alocate memory" "Dave" 3)
    as (oD & s3 & E3 & W3 & C3 & L3 & I3 & _); [literal..|].
  destruct (create_literal al dbg s3 "unable to alocate memory" "Gena" 4)
    as (oG & s4 & E4 & W4 & C4 & L4 & I4 & N4); [literal..|].
  exists oG, oD, oB, oA, s4.
  rewrite (exec_bind _ _ _ _ _ _ E1), tell_nil, (exec_bind _ _ _ _ _ _ E2), tell_nil,
    (exec_bind _ _ _ _ _ _ E3), tell_nil.
  by rewrite L4, L3, L2, L1, C4, C3, C2, C1.
Qed.

(** One destruction, on the contents. *)
Lemma destroy_contents `{!KListStale Z} s i :
  kll_wf s -> exists s', identity_destroy true i s = Done tt s' [] /\ kll_wf s' /\
    contents s' = filter (fun o => id o <> i) (contents s).
Proof.
  intros W. destruct (identity_destroy_stale_exec s i W) as (s' & R & E & _ & Hp).
  exists s'. split; [done|]. by apply destroyed_wf.
Qed.

Lemma destroy_all_exec `{!KListStale Z} s :
  kll_wf s -> exists s', destroy_all true s = Done tt s' [] /\ kll_wf s' /\
    contents s' = filter (fun o => id o <> 3) (filter (fun o => id o <> 42)
      (filter (fun o => id o <> 10) (filter (fun o => id o <> 1)
      (filter (fun o => id o <> 2) (contents s))))).
Proof.
  intros W. unfold destroy_all.
  destruct (destroy_contents s 2 W) as (s1 & E1 & W1 & <-).
  destruct (destroy_contents s1 1 W1) as (s2 & E2 & W2 & <-).
  destruct (destroy_contents s2 10 W2) as (s3 & E3 & W3 & <-).
  destruct (destroy_contents s3 42 W3) as (s4 & E4 & W4 & <-).
  destruct (destroy_contents s4 3 W4) as (s5 & E5 & W5 & <-).
  exists s5. rewrite (exec_bind _ _ _ _ _ _ E1), tell_nil, (exec_bind _ _ _ _ _ _ E2), tell_nil,
    (exec_bind _ _ _ _ _ _ E3), tell_nil, (exec_bind _ _ _ _ _ _ E4), tell_nil. done.
Qed.

Lemma empty_wf s : entries (my_id_list s) = [] -> kll_wf s.
Proof. intros E. split; rewrite E; [constructor|]. by intros a ?%not_elem_of_nil. Qed.
End IdentityFacts.

(** ** Theorems *)

Section IdentityTheorems.
Context `{KListOk Z} `{ObjAllocOk}.
Implicit Types s : kll.

(** Identity_create refuses, with -ENOMEM and the state untouched, a name
    that does not fit its 20 bytes, and a request the allocator refuses;
    otherwise it puts one new well-formed object in front of the list, with
    the given name and id, and not busy, and returns 0. *)
Theorem identity_create_correct al s nm n i :
  kll_wf s -> strlen nm = Some n -> Z.of_nat n + 1 < two64 -> int_range i ->
  (al = KmemCache -> kll_cache s <> None) ->
  (identity_create al nm i s = Done (- ENOMEM) s [] /\
    ((20 <= n)%nat \/ obj_alloc al (heap s) = None)) \/
  (exists o s', identity_create al nm i s = Done 0 s' [] /\ (n < 20)%nat /\ kll_wf s' /\
    contents s' = o :: contents s /\
    string_in (name o) = Some (take n nm) /\ id o = i /\ busy o = false).
Proof.
  intros W Ln B R C. pose proof (identity_create_exec al s nm n i W Ln B R C) as X.
  destruct (obj_alloc al (heap s)) as [[a o0]|] eqn:Eo; [|by left; split; [|right]].
  case_decide as D; [|left; split; [done|left; lia]].
  destruct X as (o & s' & E & Eh & _ & El & Na & Wo & So & Ei & Eb).
  destruct (created_list_wf s s' a o W Eh El Na Wo) as [W' C'].
  right. by exists o, s'.
Qed.

(** Identity_find returns, with the state untouched, the first object in
    list order that has the id, so the one created last, and NULL exactly when
    no object has it. The traversal ends. *)
Theorem identity_find_correct fr s i :
  kll_wf s ->
  exists r, identity_find fr i s = Done r s [] /\
    match r with
    | Some a => exists p q o, entries (my_id_list s) = p ++ a :: q /\
        heap s !! a = Some o /\ id o = i /\ (forall b, b ∈ p -> id_at s b <> Some i)
    | None => forall o, o ∈ contents s -> id o <> i
    end.
Proof.
  intros W. exists (head (with_id s i)). split; [by apply identity_find_exec|].
  destruct (head (with_id s i)) as [a|] eqn:E.
  - destruct (head_with_id s i a W E) as (o & Ho & Ei & _).
    apply head_filter_Some in E as (p & q & El & Fp).
    exists p, q, o. split; [done|split; [done|split; [done|]]].
    by apply Forall_forall.
  - apply with_id_nil; [done|]. by destruct (with_id s i).
Qed.

(** What was created is found: after a successful identity_create, a find
    for its id returns a live object with its name. *)
Theorem identity_create_find al fr s nm n i s' out :
  kll_wf s -> strlen nm = Some n -> Z.of_nat n + 1 < two64 -> int_range i ->
  (al = KmemCache -> kll_cache s <> None) ->
  identity_create al nm i s = Done 0 s' out ->
  exists a o, identity_find fr i s' = Done (Some a) s' [] /\
    heap s' !! a = Some o /\ id o = i /\ string_in (name o) = Some (take n nm).
Proof.
  intros W Ln B R C E. pose proof (identity_create_exec al s nm n i W Ln B R C) as X.
  destruct (obj_alloc al (heap s)) as [[a o0]|] eqn:Eo; [|by rewrite E in X].
  case_decide as D; [|by rewrite E in X].
  destruct X as (o & s2 & E2 & Eh & _ & El & Na & Wo & So & Ei & _).
  rewrite E in E2. injection E2 as <- _.
  destruct (created_list_wf s s' a o W Eh El Na Wo) as [W' _].
  exists a, o. rewrite identity_find_exec by done. unfold with_id.
  rewrite El, filter_cons_True by (unfold id_at; rewrite Eh, lookup_insert_eq; simpl; congruence).
  by rewrite Eh, lookup_insert_eq.
Qed.

(** C33: identity_destroy reads the entry it has just freed to move on, so
    when freed memory must not be read it is undefined exactly when some
    object has the id; when none has, it changes nothing. *)
Theorem identity_destroy_use_after_free s i :
  kll_wf s ->
  (identity_destroy false i s = Undef UseAfterFree <-> exists o, o ∈ contents s /\ id o = i) /\
  ((forall o, o ∈ contents s -> id o <> i) -> identity_destroy false i s = Done tt s []).
Proof.
  intros W. rewrite identity_destroy_strict_exec by done.
  pose proof (with_id_nil s i W) as [N1 N2].
  split; [split|].
  - intros E. destruct (with_id s i) as [|a l] eqn:Ew; [done|].
    destruct (head_with_id s i a W) as (o & Ho & Ei & _); [by rewrite Ew|].
    exists o. split; [|done]. apply list_elem_of_omap. exists a. split; [|done].
    assert (a ∈ with_id s i) as X by (rewrite Ew; by left).
    by apply list_elem_of_filter in X as [_ ?].
  - intros (o & Ho & Ei). destruct (with_id s i); [|done]. by destruct (N1 eq_refl o Ho).
  - intros N. by rewrite (N2 N).
Qed.

(** Where freed memory keeps its contents until the loop has moved on, and
    a deleted entry its next pointer, identity_destroy does what it is for: it
    returns, the list keeps exactly the objects with another id, in their
    order, and exactly the addresses of the others are freed. *)
Theorem identity_destroy_stale `{!KListStale Z} s i :
  kll_wf s ->
  exists s', identity_destroy true i s = Done tt s' [] /\ kll_wf s' /\
    contents s' = filter (fun o => id o <> i) (contents s) /\
    (forall a, heap s' !! a = if decide (a ∈ with_id s i) then None else heap s !! a).
Proof.
  intros W. destruct (identity_destroy_stale_exec s i W) as (s' & R & E & _ & Hp).
  destruct (destroyed_wf s s' i W E Hp). by exists s'.
Qed.

(** Loading Task_12's or Task_13's module with an allocator that never
    fails reads freed memory: the first identity_destroy frees Bob while the
    list is being traversed. *)
Theorem linked_list_init_use_after_free dbg cache s :
  entries (my_id_list s) = [] -> (forall al h, obj_alloc al h <> None) ->
  Kll12.linked_list_init false dbg s = Undef UseAfterFree /\
  Kll13.linked_list_init false dbg (Some cache) s = Undef UseAfterFree.
Proof.
  intros E A.
  assert (forall al t (k : unit -> M kll (option Z)),
    entries (my_id_list t) = [] -> (al = KmemCache -> kll_cache t <> None) ->
    (forall t1, kll_wf t1 -> with_id t1 2 <> [] -> k tt t1 = Undef UseAfterFree) ->
    (create_all al dbg ≫= fun _ => show_3 false dbg ≫= k) t = Undef UseAfterFree) as Pre.
  { intros al t k Et Ct K.
    destruct (create_all_exec al dbg t (empty_wf t Et) (A al) Ct)
      as (oG & oD & oB & oA & s1 & E1 & W1 & _ & L1 & _ & I2 & I3 & _).
    rewrite (exec_bind _ _ _ _ _ _ E1), tell_nil.
    assert (forall i o, o ∈ contents s1 -> id o = i -> with_id s1 i <> []) as In.
    { intros i o Ho Ei N. by apply (proj1 (with_id_nil s1 i W1) N o). }
    destruct (with_id s1 3) as [|a l] eqn:E3.
    { exfalso. apply (In 3 oD); [rewrite L1; set_solver|done|done]. }
    destruct (show_3_exec false dbg s1 a W1) as [out Es]; [by rewrite E3|].
    rewrite (exec_bind _ _ _ _ _ _ Es), K; [done|done|].
    apply (In 2 oB); [rewrite L1; set_solver|done]. }
  assert (forall (k : unit -> M kll (option Z)) t, kll_wf t -> with_id t 2 <> [] ->
    (destroy_all false ≫= k) t = Undef UseAfterFree) as D.
  { intros k t W N. apply exec_bind_undef. unfold destroy_all. apply exec_bind_undef.
    rewrite identity_destroy_strict_exec by done. by destruct (with_id t 2). }
  split.
  - unfold Kll12.linked_list_init. apply Pre; [done|done|]. intros t W N.
    unfold Kll12.identity_find.
    rewrite (exec_bind _ _ _ _ _ _ (identity_find_exec false t 42 W)), tell_nil.
    case_bool_decide; rewrite ?exec_bind_klog, ?exec_bind_ret; by rewrite D.
  - unfold Kll13.linked_list_init. rewrite exec_bind_write, exec_bind_read.
    change (view cacheL (set cacheL (Some cache) s)) with (Some cache).
    apply Pre; [done|done|]. intros t W N.
    unfold Kll13.identity_find.
    rewrite (exec_bind _ _ _ _ _ _ (identity_find_exec false t 42 W)), tell_nil.
    rewrite exec_bind_klog. by rewrite D.
Qed.

Lemma load_leaves_gena `{!KListStale Z} al dbg s (mid : option Z -> M kll unit) (v : option Z) :
  entries (my_id_list s) = [] -> (forall h, obj_alloc al h <> None) ->
  (al = KmemCache -> kll_cache s <> None) ->
  (forall r t, exists out, mid r t = Done tt t out) ->
  exists s' o, runs (create_all al dbg ;; show_3 true dbg ;;
      temp ← identity_find true 42; mid temp ;; destroy_all true ;; mret v) s v s' /\
    contents s' = [o] /\ id o = 4 /\ string_in (name o) = Some (bytes "Gena").
Proof.
  intros E A C Mid.
  destruct (create_all_exec al dbg s (empty_wf s E) A C)
    as (oG & oD & oB & oA & s1 & E1 & W1 & _ & L1 & I1 & I2 & I3 & I4 & NG).
  replace (contents s) with (@nil identity) in L1 by (unfold contents; by rewrite E).
  destruct (with_id s1 3) as [|a l] eqn:E3.
  { exfalso. apply (proj1 (with_id_nil s1 3 W1) E3 oD); [rewrite L1; set_solver|done]. }
  destruct (show_3_exec true dbg s1 a W1) as [out Es]; [by rewrite E3|].
  destruct (destroy_all_exec s1 W1) as (s2 & E2 & _ & L2).
  destruct (Mid (head (with_id s1 42)) s1) as [out' Em].
  exists s2, oG. split.
  - unfold runs. rewrite (exec_bind _ _ _ _ _ _ E1), (exec_bind _ _ _ _ _ _ Es),
      (exec_bind _ _ _ _ _ _ (identity_find_exec true s1 42 W1)),
      (exec_bind _ _ _ _ _ _ Em), (exec_bind _ _ _ _ _ _ E2). kdone.
  - rewrite L2, L1. repeat first
      [ rewrite filter_cons_True by (rewrite ?I1, ?I2, ?I3, ?I4; done)
      | rewrite filter_cons_False by (rewrite ?I1, ?I2, ?I3, ?I4; naive_solver) ].
    done.
Qed.

(** Where freed memory can still be read, loading either module destroys
    Alice, Bob and Dave and leaves exactly Gena on the list. Task_12's
    initialiser then ends without a return value, Task_13's returns 0; and the
    exit function of Task_12 leaves Gena where it is. *)
Theorem linked_list_init_leaves_gena `{!KListStale Z} dbg cache s :
  entries (my_id_list s) = [] -> (forall al h, obj_alloc al h <> None) ->
  (exists s12 o, runs (Kll12.linked_list_init true dbg) s None s12 /\
    contents s12 = [o] /\ id o = 4 /\ string_in (name o) = Some (bytes "Gena") /\
    runs (Kll12.linked_list_exit dbg) s12 tt s12) /\
  (exists s13 o, runs (Kll13.linked_list_init true dbg (Some cache)) s (Some 0) s13 /\
    contents s13 = [o] /\ id o = 4 /\ string_in (name o) = Some (bytes "Gena")).
Proof.
  intros E A. split.
  - destruct (load_leaves_gena Kmalloc dbg s (fun temp =>
      if bool_decide (temp = None) then klog (Debug dbg) "id 42 not found" [] else mret tt) None)
      as (s' & o & R & L); [done|done|done| |].
    { intros r t. case_bool_decide; [|by eexists]. destruct dbg; by eexists. }
    exists s', o. split; [exact R|]. repeat (split; [apply L|]). destruct dbg; by eexists.
  - set (s0 := set cacheL (Some cache) s).
    destruct (load_leaves_gena KmemCache dbg s0 (fun _ => klog (Debug dbg) "id 42 not found" [])
      (Some 0)) as (s' & o & R & L); [done|done|done| |].
    { intros r t. destruct dbg; by eexists. }
    exists s', o. split; [|exact L].
    unfold runs, Kll13.linked_list_init. rewrite exec_bind_write, exec_bind_read.
    change (view cacheL (set cacheL (Some cache) s)) with (Some cache). exact R.
Qed.

(** With pr_debug enabled and an allocator that refuses everything, loading
    Task_12's module prints the name of an object it did not find. *)
Theorem linked_list_init_null_deref fr s :
  entries (my_id_list s) = [] -> (forall al h, obj_alloc al h = None) ->
  Kll12.linked_list_init fr true s = Undef NullDeref.
Proof.
  intros E A. pose proof (empty_wf s E) as W.
  assert (forall cm nm i, x00 ∉ bytes nm -> (length (bytes nm) < 20)%nat -> int_range i ->
    exists out, create_or_complain Kmalloc true cm nm i s = Done tt s out) as Cr.
  { intros cm nm i N L R. unfold create_or_complain, cstring.
    pose proof (identity_create_exec Kmalloc s _ _ i W (strlen_app (bytes nm) [] N)
      ltac:(unfold two64; lia) R ltac:(done)) as X.
    rewrite A in X. rewrite (exec_bind _ _ _ _ _ _ X). by eexists. }
  destruct (Cr "unable to allocate memory" "Alice" 1) as [o1 E1]; [literal..|].
  destruct (Cr "unable to alocate memory" "Bob" 2) as [o2 E2]; [literal..|].
  destruct (Cr "unable to alocate memory" "Dave" 3) as [o3 E3]; [literal..|].
  destruct (Cr "unable to alocate memory" "Gena" 4) as [o4 E4]; [literal..|].
  assert (exists out, create_all Kmalloc true s = Done tt s out) as [o5 E5].
  { unfold create_all. rewrite (exec_bind _ _ _ _ _ _ E1), (exec_bind _ _ _ _ _ _ E2),
      (exec_bind _ _ _ _ _ _ E3), E4. kdone. }
  unfold Kll12.linked_list_init. rewrite (exec_bind _ _ _ _ _ _ E5).
  rewrite (exec_bind_undef _ _ _ NullDeref); [done|]. apply show_3_null; [done|].
  unfold with_id. by rewrite E.
Qed.
End IdentityTheorems.

(** ** Witnesses *)

Lemma next_alloc_ok : @ObjAllocOk next_alloc.
Proof.
  split; simpl; intros al h a o E; injection E as <- <-; [|done].
  destruct (h !! above h) as [x|] eqn:Ex; [|done]. apply above_fresh in Ex. lia.
Qed.

Lemma no_alloc_ok : @ObjAllocOk no_alloc.
Proof. by split. Qed.

Definition empty_kll : @kll seq_klist := Kll ∅ (LIST_HEAD : @klist Z seq_klist) None.

(** A list of one object, Bob with id 2 at address 1. *)
Definition bob : identity := Identity (bytes "Bob" ++ replicate 17 x00) 2 false.
Definition bob_kll : @kll seq_klist :=
  Kll {[1 := bob]} (list_add 1 LIST_HEAD : @klist Z seq_klist) None.

Lemma empty_kll_wf : kll_wf empty_kll.
Proof. by apply empty_wf. Qed.

Lemma bob_kll_wf : kll_wf bob_kll.
Proof.
  split; simpl; [apply NoDup_singleton|]. intros a ->%list_elem_of_singleton.
  exists bob. split; [done|]. split; [done|split; [by eexists|]]. by unfold int_range.
Qed.

Lemma identity_create_correct_witness :
  let create := @identity_create seq_klist next_alloc in
  create Kmalloc (cstring "a name of twenty-one.") 7 empty_kll = Done (- ENOMEM) empty_kll [].
Proof.
  intros create. pose (A := next_alloc). assert (@ObjAllocOk A) as O by apply next_alloc_ok.
  destruct (identity_create_correct Kmalloc empty_kll (cstring "a name of twenty-one.") 21 7
    empty_kll_wf eq_refl ltac:(unfold two64; lia) ltac:(unfold int_range; lia) ltac:(done))
    as [[X _]|(o & s' & _ & X & _)]; [exact X|lia].
Defined.

Lemma identity_find_correct_witness :
  exists r, identity_find false 2 bob_kll = Done r bob_kll [] /\ r = Some 1.
Proof.
  destruct (identity_find_correct false bob_kll 2 bob_kll_wf) as (r & E & _).
  exists r. split; [exact E|]. revert E. vm_compute. congruence.
Defined.

Lemma identity_create_find_witness :
  exists a o s', identity_find false 7 s' = Done (Some a) s' [] /\
    heap s' !! a = Some o /\ id o = 7 /\ string_in (name o) = Some (bytes "Carol").
Proof.
  pose (A := next_alloc). assert (@ObjAllocOk A) as O by apply next_alloc_ok.
  assert (exists s' out, @identity_create seq_klist next_alloc Kmalloc (cstring "Carol") 7 bob_kll
    = Done 0 s' out) as (s' & out & E) by (do 2 eexists; vm_compute; reflexivity).
  destruct (identity_create_find Kmalloc false bob_kll (cstring "Carol") 5 7 s' out
    bob_kll_wf eq_refl ltac:(unfold two64; lia) ltac:(unfold int_range; lia) ltac:(done) E)
    as (a & o & X). by exists a, o, s'.
Defined.

Lemma identity_destroy_use_after_free_witness :
  identity_destroy false 2 bob_kll = Undef UseAfterFree.
Proof.
  apply (identity_destroy_use_after_free bob_kll 2 bob_kll_wf).
  exists bob. split; [|reflexivity]. apply list_elem_of_here.
Defined.

Lemma identity_destroy_stale_witness :
  exists s', identity_destroy true 2 bob_kll = Done tt s' [] /\ contents s' = [].
Proof.
  pose (A := next_alloc). assert (@ObjAllocOk A) as O by apply next_alloc_ok.
  destruct (identity_destroy_stale bob_kll 2 bob_kll_wf) as (s' & E & _ & C & _).
  exists s'. split; [exact E|]. rewrite C. reflexivity.
Defined.

Lemma linked_list_init_use_after_free_witness :
  @Kll12.linked_list_init seq_klist next_alloc false true empty_kll = Undef UseAfterFree.
Proof.
  pose (A := next_alloc). assert (@ObjAllocOk A) as O by apply next_alloc_ok.
  assert (forall al h, obj_alloc al h <> None) as Al by (intros al h; simpl; discriminate).
  exact (proj1 (linked_list_init_use_after_free true 0%nat empty_kll eq_refl Al)).
Defined.

Lemma linked_list_init_leaves_gena_witness :
  exists s o, runs (@Kll12.linked_list_init seq_klist next_alloc true true) empty_kll None s /\
    contents s = [o] /\ id o = 4.
Proof.
  pose (A := next_alloc). assert (@ObjAllocOk A) as O by apply next_alloc_ok.
  destruct (linked_list_init_leaves_gena true 0%nat empty_kll) as [(s & o & R & C & I & _) _];
    [reflexivity|intros al h; simpl; discriminate|]. by exists s, o.
Defined.

Lemma linked_list_init_null_deref_witness :
  @Kll12.linked_list_init seq_klist no_alloc false true empty_kll = Undef NullDeref.
Proof.
  pose (A := no_alloc). assert (@ObjAllocOk A) as O by apply no_alloc_ok.
  exact (linked_list_init_null_deref false empty_kll eq_refl (fun _ _ => eq_refl)).
Defined.
