(* ===== verification/TextSearch.v ===== *)
(** * The text search infrastructure (Task_19/docs/textsearch.c)

    The registry of search algorithms, the search configurations made from it,
    and the linear-data callback of textsearch_find_continuous. The algorithms
    themselves (the init, find and destroy callbacks of a struct ts_ops), the
    module loader and the lock are parameters. The netfilter module of
    Task_19 is a client of this file. *)

From Stdlib Require Import ZArith Lia Strings.Byte.
From stdpp Require Import base strings gmap sets numbers list.
From S2P Require Import Prelude.
From S2P Require Import CString.
From S2P Require Import Kernel.
From S2P Require Import KernelInst.

(** ** Data *)

(** struct ts_ops: a function pointer is the address of its code, or NULL. *)
Record ts_ops := TsOps {
  ts_name : option (list byte);
  ts_init : option Z;
  ts_find : option Z;
  ts_destroy : option Z;
  ts_get_pattern : option Z;
  ts_get_pattern_len : option Z;
  ts_owner : Z;
}.

(** TS_AUTOLOAD and TS_IGNORECASE (linux/textsearch.h). *)
Definition TS_AUTOLOAD : Z := 1.
Definition TS_IGNORECASE : Z := 2.

(** struct ts_linear_state: [ls_data] is the memory the pointer leads to. *)
Record ts_linear_state := LinearState { ls_len : Z; ls_data : list byte }.

(** struct ts_state: the offset of the search and the control block. *)
Record ts_state := TsState { ts_offset : Z; ts_cb : ts_linear_state }.

(** The get_next_block callback of a configuration: it takes the number of
    bytes consumed and the current block pointer, and returns the length of
    the next block, 0 at the end, and where it starts. *)
Inductive block_fn :=
| GetLinearData
| OtherBlocks (f : Z -> list byte -> Z * list byte).

(** struct ts_config: what a configuration of an algorithm keeps is its own. *)
Record ts_config (priv : Type) := TsConfig {
  conf_ops : option Z;
  conf_next_block : option block_fn;
  conf_priv : priv;
}.
Arguments TsConfig {priv} _ _ _.
Arguments conf_ops {priv} _.
Arguments conf_next_block {priv} _.
Arguments conf_priv {priv} _.

(** get_linear_data returns the rest of the data, and 0 when it is consumed. *)
Definition get_linear_data (consumed : Z) (dst : list byte) (st : ts_linear_state) :
    Z * list byte :=
  if consumed <? ls_len st
  then (u32 (ls_len st - consumed), drop (Z.to_nat consumed) (ls_data st))
  else (0, dst).

Definition call_next_block (fn : block_fn) (state : ts_state) (consumed : Z) (dst : list byte) :
    Z * list byte :=
  match fn with
  | GetLinearData => get_linear_data consumed dst (ts_cb state)
  | OtherBlocks f => f consumed dst
  end.

(** ** What the infrastructure relies on *)

(** The algorithms: [run_init] is the code at an init pointer, called with the
    pattern, its length and the flags; it returns the pointer and the
    configurations there are then. A configuration has the pattern and the
    flags it was made with; [toupper] is what an algorithm that ignores case
    compares by. [run_destroy] frees what a configuration
    keeps. [textsearch_find] is the inline function of linux/textsearch.h: it
    calls the algorithm with the block callback and returns the position and
    the offset it leaves in the state. *)
Class TsAlgo := {
  priv : Type;
  pattern_of : priv -> list byte;
  flags_of : priv -> Z;
  toupper : byte -> byte;
  run_init : Z -> list byte -> Z -> Z -> Z -> gmap Z (ts_config priv) ->
    Z * gmap Z (ts_config priv);
  run_destroy : Z -> Z -> gmap Z (ts_config priv) -> gmap Z (ts_config priv);
  textsearch_find : priv -> (Z -> list byte -> Z * list byte) -> Z * Z;
}.

(** A callback that delivers a text block by block, whatever the blocks. *)
Definition streams (f : Z -> list byte -> Z * list byte) (text : list byte) : Prop :=
  forall consumed dst, 0 <= consumed <= Z.of_nat (length text) ->
    let r := f consumed dst in
    0 <= r.1 /\ consumed + r.1 <= Z.of_nat (length text) /\
    (consumed < Z.of_nat (length text) -> 0 < r.1) /\
    take (Z.to_nat r.1) r.2 = take (Z.to_nat r.1) (drop (Z.to_nat consumed) text).

Definition occurs_at (pattern text : list byte) (i : nat) : Prop :=
  take (length pattern) (drop i text) = pattern.

(** The documented result of a search: the first occurrence, or UINT_MAX. *)
Definition first_match (pattern text : list byte) (pos : Z) : Prop :=
  (pos = UINT_MAX /\ forall i, ~ occurs_at pattern text i) \/
  (exists i, pos = Z.of_nat i /\ occurs_at pattern text i /\
     forall j, (j < i)%nat -> ~ occurs_at pattern text j).

(** What is compared: with TS_IGNORECASE the matching is case insensitive. *)
Definition compared `{TsAlgo} (c : priv) (l : list byte) : list byte :=
  if Z.land (flags_of c) TS_IGNORECASE =? 0 then l else toupper <$> l.
Definition matches_at `{TsAlgo} (c : priv) (text : list byte) (i : nat) : Prop :=
  occurs_at (compared c (pattern_of c)) (compared c text) i.

Class TsAlgoOk `{TsAlgo} `{ErrPtr} : Prop := {
  run_init_ok : forall f pattern len gfp flags h p h',
    run_init f pattern len gfp flags h = (p, h') -> IS_ERR p = false ->
    p <> 0 /\ h !! p = None /\ exists c, h' = <[p := c]> h /\
      (0 < len <= Z.of_nat (length pattern) ->
       pattern_of (conf_priv c) = take (Z.to_nat len) pattern /\ flags_of (conf_priv c) = flags);
  run_init_err : forall f pattern len gfp flags h p h',
    run_init f pattern len gfp flags h = (p, h') -> IS_ERR p = true -> h' = h;
  run_destroy_ops : forall f p h,
    conf_ops <$> run_destroy f p h !! p = conf_ops <$> h !! p;
  run_destroy_other : forall f p q h, q <> p -> run_destroy f p h !! q = h !! q;
  textsearch_find_first : forall c f text,
    pattern_of c <> [] -> Z.of_nat (length text) <= UINT_MAX -> streams f text ->
    first_match (compared c (pattern_of c)) (compared c text) (textsearch_find c f).1;
}.

(** ** State *)

Section TextSearch.
Context `{KList Z} `{ModuleRefs Z} `{Mutex} `{ErrPtr} `{TsAlgo}.

(** [ts_mem] is the memory of the ts_ops of the modules that are loaded;
    [rcu_nesting] counts the rcu_read_lock calls not yet unlocked. The spin
    lock has the interface of a mutex. *)
Record ts := Ts {
  ts_mem : gmap Z ts_ops;
  ts_list : klist;
  ts_mod_lock : mutex;
  rcu_nesting : Z;
  ts_mods : mods;
  ts_confs : gmap Z (ts_config priv);
}.

Definition ts_memL : lens ts (gmap Z ts_ops) :=
  Lens ts_mem (fun x s => Ts x (ts_list s) (ts_mod_lock s) (rcu_nesting s) (ts_mods s) (ts_confs s)).
Definition ts_listL : lens ts klist :=
  Lens ts_list (fun x s => Ts (ts_mem s) x (ts_mod_lock s) (rcu_nesting s) (ts_mods s) (ts_confs s)).
Definition ts_mod_lockL : lens ts mutex :=
  Lens ts_mod_lock (fun x s => Ts (ts_mem s) (ts_list s) x (rcu_nesting s) (ts_mods s) (ts_confs s)).
Definition rcu_nestingL : lens ts Z :=
  Lens rcu_nesting (fun x s => Ts (ts_mem s) (ts_list s) (ts_mod_lock s) x (ts_mods s) (ts_confs s)).
Definition ts_modsL : lens ts mods :=
  Lens ts_mods (fun x s => Ts (ts_mem s) (ts_list s) (ts_mod_lock s) (rcu_nesting s) x (ts_confs s)).
Definition ts_confsL : lens ts (gmap Z (ts_config priv)) :=
  Lens ts_confs (fun x s => Ts (ts_mem s) (ts_list s) (ts_mod_lock s) (rcu_nesting s) (ts_mods s) x).

(** CONFIG_MODULES, and request_module("ts_%s", name). *)
Variable config_modules : bool.
Variable request_module : list byte -> M ts unit.

(** ** Operations *)

Definition load_ops (a : Z) : M ts ts_ops :=
  m ← kread ts_memL;
  match m !! a with Some o => mret o | None => undef UseAfterFree end.

Definition load_conf (p : Z) : M ts (ts_config priv) :=
  h ← kread ts_confsL;
  match h !! p with Some c => mret c | None => undef UseAfterFree end.

Definition spin_lock : M ts unit :=
  l ← kread ts_mod_lockL;
  match mutex_lock l with
  | Some l' => kwrite ts_mod_lockL l'
  | None => undef Deadlock
  end.

Definition spin_unlock : M ts unit :=
  l ← kread ts_mod_lockL;
  if mutex_is_locked l then kwrite ts_mod_lockL (mutex_unlock l) else undef UninitLock.

Definition rcu_read_lock : M ts unit :=
  n ← kread rcu_nestingL; kwrite rcu_nestingL (n + 1).
Definition rcu_read_unlock : M ts unit :=
  n ← kread rcu_nestingL; kwrite rcu_nestingL (n - 1).

(** strcmp with the name of an entry, which is read through its pointer. *)
Definition cmp_name (nm : list byte) (o : ts_ops) : M ts Z :=
  match ts_name o with
  | None => undef NullDeref
  | Some n => match strcmp nm n with Some c => mret c | None => undef OutOfBounds end
  end.

Definition ts_next (a : Z) : M ts (option Z) :=
  _ ← load_ops a; l ← kread ts_listL; mret (list_next a l).

Definition for_each_ops {R} (body : Z -> M ts (option R)) : M ts (option R) :=
  l ← kread ts_listL;
  walk ts_next (length (entries l)) (list_first l) body.

(** The body of the loop of lookup_ts_algo. *)
Definition lookup_entry (nm : list byte) (a : Z) : M ts (option (option Z)) :=
  o ← load_ops a;
  c ← cmp_name nm o;
  if c =? 0 then
    m ← kread ts_modsL;
    (let g := try_module_get (ts_owner o) m in
     kwrite ts_modsL g.2 ;;
     rcu_read_unlock ;;
     mret (Some (if g.1 then Some a else None)))
  else mret None.

Definition lookup_ts_algo (nm : list byte) : M ts (option Z) :=
  rcu_read_lock ;;
  r ← for_each_ops (lookup_entry nm);
  match r with
  | Some o => mret o
  | None => rcu_read_unlock ;; mret None
  end.

Definition complete (o : ts_ops) : bool :=
  negb (bool_decide (ts_name o = None) || bool_decide (ts_find o = None) ||
        bool_decide (ts_init o = None) || bool_decide (ts_get_pattern o = None) ||
        bool_decide (ts_get_pattern_len o = None)).

(** The body of the loop of textsearch_register. *)
Definition same_name (nm : list byte) (a : Z) : M ts (option unit) :=
  o ← load_ops a;
  c ← cmp_name nm o;
  mret (if c =? 0 then Some tt else None).

Definition textsearch_register (ops : Z) : M ts Z :=
  po ← load_ops ops;
  if negb (complete po) then mret (- EINVAL) else
  spin_lock ;;
  r ← for_each_ops (same_name (default [] (ts_name po)));
  err ← match r with
        | Some _ => mret (- EEXIST)
        | None => l ← kread ts_listL; kwrite ts_listL (list_add_tail ops l) ;; mret 0
        end;
  spin_unlock ;;
  mret err.

(** The body of the loop of textsearch_unregister. *)
Definition remove_entry (ops o : Z) : M ts (option unit) :=
  if o =? ops then
    l ← kread ts_listL; kwrite ts_listL (list_del_entry o l) ;; mret (Some tt)
  else mret None.

Definition textsearch_unregister (ops : Z) : M ts Z :=
  spin_lock ;;
  r ← for_each_ops (remove_entry ops);
  (let err := match r with Some _ => 0 | None => - ENOENT end in
   spin_unlock ;; mret err).

Definition module_put_of (ops : Z) : M ts unit :=
  o ← load_ops ops; m ← kread ts_modsL; kwrite ts_modsL (module_put (ts_owner o) m).

(** The errout label of textsearch_prepare. *)
Definition prepare_errout (ops : option Z) (err : Z) : M ts Z :=
  match ops with Some a => module_put_of a | None => mret tt end ;;
  mret (ERR_PTR err).

(** textsearch_prepare once the operations have been looked up. *)
Definition prepare_conf (ops : option Z) (pattern : list byte) (len gfp_mask flags : Z) :
    M ts Z :=
  match ops with
  | None => prepare_errout None (- ENOENT)
  | Some a =>
      o ← load_ops a;
      match ts_init o with
      | None => undef NullDeref
      | Some f =>
          h ← kread ts_confsL;
          (let r := run_init f pattern len gfp_mask flags h in
           kwrite ts_confsL r.2 ;;
           if IS_ERR r.1 then prepare_errout (Some a) (PTR_ERR r.1) else
           c ← load_conf r.1;
           h ← kread ts_confsL;
           kwrite ts_confsL (<[r.1 := TsConfig (Some a) (conf_next_block c) (conf_priv c)]> h) ;;
           mret r.1)
      end
  end.

Definition textsearch_prepare (algo pattern : list byte) (len gfp_mask flags : Z) : M ts Z :=
  if len =? 0 then mret (ERR_PTR (- EINVAL)) else
  ops ← lookup_ts_algo algo;
  ops ← (if config_modules && bool_decide (ops = None) &&
            negb (Z.land flags TS_AUTOLOAD =? 0)
         then request_module algo ;; lookup_ts_algo algo
         else mret ops);
  prepare_conf ops pattern len gfp_mask flags.

Definition textsearch_destroy (conf : Z) : M ts unit :=
  c ← load_conf conf;
  match conf_ops c with
  | Some a =>
      o ← load_ops a;
      match ts_destroy o with
      | Some f => h ← kread ts_confsL; kwrite ts_confsL (run_destroy f conf h)
      | None => mret tt
      end ;;
      c ← load_conf conf;
      match conf_ops c with Some a => module_put_of a | None => undef NullDeref end
  | None => mret tt
  end ;;
  h ← kread ts_confsL;
  kwrite ts_confsL (delete conf h).

(** The search state is the caller's: it is passed and returned. *)
Definition textsearch_find_continuous (conf : Z) (state : ts_state) (data : list byte) (len : Z) :
    M ts (Z * ts_state) :=
  c ← load_conf conf;
  h ← kread ts_confsL;
  kwrite ts_confsL (<[conf := TsConfig (conf_ops c) (Some GetLinearData) (conf_priv c)]> h) ;;
  let state := TsState (ts_offset state) (LinearState len data) in
  c ← load_conf conf;
  match conf_next_block c with
  | None => undef NullDeref
  | Some fn =>
      let r := textsearch_find (conf_priv c) (call_next_block fn state) in
      mret (r.1, TsState r.2 (ts_cb state))
  end.

(** ** What the registry keeps true *)

(** The name of the operations at an address, as a string. *)
Definition key (s : ts) (a : Z) : option (list byte) :=
  o ← ts_mem s !! a; nm ← ts_name o; string_in nm.

(** No entry twice, no two entries with one name, every entry live, complete
    and with a string for a name. *)
Record registry_wf (s : ts) : Prop := {
  ts_nodup : NoDup (entries (ts_list s));
  ts_unique : forall a b, a ∈ entries (ts_list s) -> b ∈ entries (ts_list s) ->
    key s a = key s b -> a = b;
  ts_entry : forall a, a ∈ entries (ts_list s) ->
    exists o, ts_mem s !! a = Some o /\ complete o = true /\ is_Some (key s a);
}.

(** Between calls the lock is free as well. *)
Record ts_wf (s : ts) : Prop := {
  ts_registry : registry_wf s;
  ts_unlocked : mutex_is_locked (ts_mod_lock s) = false;
}.

(** The entry registered under a name. *)
Definition registered (s : ts) (nm : list byte) : option Z :=
  head (filter (fun a => key s a = Some nm) (entries (ts_list s))).

(** Reference counts that agree, and one module with one more. *)
Definition same_refs (m m' : mods) : Prop := forall o, refcount m' o = refcount m o.
Definition one_more (o : Z) (m m' : mods) : Prop :=
  refcount m' o = refcount m o + 1 /\ forall p, p <> o -> refcount m' p = refcount m p.

(** No module that can be referred to has operations registered under a name. *)
Definition unavailable (s : ts) (nm : list byte) : Prop :=
  forall a, registered s nm = Some a -> exists o, ts_mem s !! a = Some o /\
    (try_module_get (ts_owner o) (ts_mods s)).1 = false.

(** What request_module may do: load modules that register operations. *)
Definition loader_ok (loader : list byte -> M ts unit) : Prop :=
  forall nm s, ts_wf s -> exists s' out, loader nm s = Done tt s' out /\ ts_wf s' /\
    ts_confs s' = ts_confs s /\ same_refs (ts_mods s) (ts_mods s') /\
    (forall a o, ts_mem s !! a = Some o -> ts_mem s' !! a = Some o).

(** The module whose code a configuration runs, and how many configurations
    each module has. *)
Definition owner_in (m : gmap Z ts_ops) (c : ts_config priv) : option Z :=
  a ← conf_ops c; ts_owner <$> m !! a.
Definition holders_in (m : gmap Z ts_ops) (h : gmap Z (ts_config priv)) (o : Z) : nat :=
  size (filter (fun pc => owner_in m pc.2 = Some o) h).

(** What holds between the calls of any clients: no configuration points to
    operations that are gone, and the reference count of a module is the
    number of configurations that run its code. *)
Record ts_inv (s : ts) : Prop := {
  inv_wf : ts_wf s;
  inv_confs : forall p c, ts_confs s !! p = Some c -> is_Some (owner_in (ts_mem s) c);
  inv_refs : forall o, refcount (ts_mods s) o = Z.of_nat (holders_in (ts_mem s) (ts_confs s) o);
}.

(** No module loaded, nothing registered, nothing prepared. *)
Definition ts_init_state (s : ts) : Prop :=
  ts_mem s = ∅ /\ ts_list s = LIST_HEAD /\ mutex_is_locked (ts_mod_lock s) = false /\
  ts_confs s = ∅ /\ forall o, refcount (ts_mods s) o = 0.

(** What may happen: a module is loaded, or unloaded once it has unregistered
    its operations and its reference count is 0; any call of the interface. *)
Inductive ts_step : ts -> ts -> Prop :=
| step_load s a o :
    ts_mem s !! a = None -> ts_step s (set ts_memL (<[a := o]> (ts_mem s)) s)
| step_unload s a o :
    ts_mem s !! a = Some o -> a ∉ entries (ts_list s) -> refcount (ts_mods s) (ts_owner o) = 0 ->
    ts_step s (set ts_memL (delete a (ts_mem s)) s)
| step_register s a po e s' :
    ts_mem s !! a = Some po -> (complete po = true -> is_Some (key s a)) ->
    runs (textsearch_register a) s e s' -> ts_step s s'
| step_unregister s a e s' :
    runs (textsearch_unregister a) s e s' -> ts_step s s'
| step_prepare s algo pattern len gfp flags p s' :
    is_Some (string_in algo) -> 0 <= len <= Z.of_nat (length pattern) ->
    runs (textsearch_prepare algo pattern len gfp flags) s p s' -> ts_step s s'
| step_destroy s p s' :
    is_Some (ts_confs s !! p) -> runs (textsearch_destroy p) s tt s' -> ts_step s s'
| step_find s p c state data len r s' :
    ts_confs s !! p = Some c -> pattern_of (conf_priv c) <> [] ->
    0 <= len <= Z.of_nat (length data) -> len <= UINT_MAX ->
    runs (textsearch_find_continuous p state data len) s r s' -> ts_step s s'.
End TextSearch.

Arguments Ts {_ _ _ _} _ _ _ _ _ _.
Arguments ts_mem {_ _ _ _} _.
Arguments ts_list {_ _ _ _} _.
Arguments ts_mod_lock {_ _ _ _} _.
Arguments rcu_nesting {_ _ _ _} _.
Arguments ts_mods {_ _ _ _} _.
Arguments ts_confs {_ _ _ _} _.

(** ** Lemmas *)

Section TextSearchFacts.
Context `{KListOk Z} `{ModuleRefsOk Z} `{MutexOk} `{ErrPtrOk} `{!TsAlgo} `{!TsAlgoOk}.
Implicit Types s : ts.

Lemma exec_load_ops {B} a o (k : ts_ops -> M ts B) s :
  ts_mem s !! a = Some o -> (load_ops a ≫= k) s = k o s.
Proof. intros E. unfold load_ops. kexec. rewrite E. by kexec. Qed.

Lemma exec_load_conf {B} p c (k : ts_config priv -> M ts B) s :
  ts_confs s !! p = Some c -> (load_conf p ≫= k) s = k c s.
Proof. intros E. unfold load_conf. kexec. rewrite E. by kexec. Qed.

(** Comparing with the name of a registered entry. *)
Lemma cmp_name_exec nm n o a s :
  ts_mem s !! a = Some o -> is_Some (key s a) -> string_in nm = Some n ->
  exists c, cmp_name nm o s = Done c s [] /\ (c = 0 <-> key s a = Some n).
Proof.
  intros E K Hn. unfold key in *. rewrite E in *. simpl in *.
  destruct (ts_name o) as [m|] eqn:Em; simpl in *; [|by destruct K].
  assert (is_Some (strlen m)) as Lm by (unfold string_in in K; by apply fmap_is_Some in K).
  assert (is_Some (strlen nm)) as Ln.
  { unfold string_in in Hn. apply fmap_Some in Hn as (x & -> & _). eauto. }
  destruct (strcmp_is_Some nm m Ln Lm) as [c Ec]. exists c. split.
  - unfold cmp_name. by rewrite Em, Ec.
  - pose proof (strcmp_zero nm m Ln Lm) as Z. rewrite Ec, Hn in Z. simpl.
    split; intros X.
    + symmetry. apply Z. by subst c.
    + assert (Some c = Some 0) as Y by (by apply Z). by injection Y.
Qed.

Lemma ts_next_exec s a :
  registry_wf s -> a ∈ entries (ts_list s) -> ts_next a s = Done (list_next a (ts_list s)) s [].
Proof.
  intros W Ha. destruct (ts_entry _ W a Ha) as (o & E & _).
  unfold ts_next. by rewrite (exec_load_ops a o) by done.
Qed.

(** A traversal that finds nothing, and one that stops at an entry. *)
Lemma for_each_ops_miss {R} (body : Z -> M ts (option R)) s :
  registry_wf s -> (forall a, a ∈ entries (ts_list s) -> body a s = Done None s []) ->
  for_each_ops body s = Done None s [].
Proof.
  intros W B. unfold for_each_ops. kexec. rewrite list_first_entry.
  pose proof (walk_prefix ts_next body (ts_list s) [] (entries (ts_list s)) [] 0 s
    (ts_nodup _ W) ltac:(by rewrite app_nil_r)) as E.
  rewrite app_nil_r, Nat.add_0_r in E. rewrite E; [done|].
  intros a Ha. split; [by apply ts_next_exec|by apply B].
Qed.

Lemma for_each_ops_hit {R} (body : Z -> M ts (option R)) s p a q x s' o :
  registry_wf s -> entries (ts_list s) = p ++ a :: q ->
  (forall b, b ∈ p -> body b s = Done None s []) ->
  body a s = Done (Some x) s' o -> for_each_ops body s = Done (Some x) s' o.
Proof.
  intros W E B Ea. unfold for_each_ops. kexec. rewrite list_first_entry.
  pose proof (walk_prefix ts_next body (ts_list s) [] p (a :: q) (S (length q)) s
    (ts_nodup _ W) E) as X. rewrite E, length_app. simpl in *.
  rewrite X.
  - rewrite (exec_bind _ _ _ _ _ _ Ea). simpl. by rewrite app_nil_r.
  - intros b Hb. split; [apply ts_next_exec; [done|]|by apply B]. rewrite E. set_solver.
Qed.

(** Being registered under a name. *)
Lemma registered_split s nm a :
  registered s nm = Some a ->
  exists p q, entries (ts_list s) = p ++ a :: q /\ key s a = Some nm /\
    forall b, b ∈ p -> key s b <> Some nm.
Proof.
  unfold registered. intros E. pose proof E as E'.
  apply head_filter_Some in E as (p & q & El & F). exists p, q. split; [done|]. split.
  - assert (a ∈ filter (fun a => key s a = Some nm) (entries (ts_list s))) as X.
    { destruct (filter _ _); simplify_eq/=. by left. }
    by apply list_elem_of_filter in X as [].
  - by apply Forall_forall.
Qed.

Lemma registered_None s nm :
  registered s nm = None <-> forall a, a ∈ entries (ts_list s) -> key s a <> Some nm.
Proof.
  unfold registered. split.
  - intros E a Ha K. assert (a ∈ filter (fun a => key s a = Some nm) (entries (ts_list s))) as X.
    { by apply list_elem_of_filter. }
    destruct (filter _ _); [set_solver|done].
  - intros N. destruct (filter _ _) as [|a l] eqn:E; [done|].
    assert (a ∈ filter (fun a => key s a = Some nm) (entries (ts_list s))) as X.
    { rewrite E. by left. }
    apply list_elem_of_filter in X as [??]. by destruct (N a).
Qed.

Lemma registered_Some s nm a :
  registry_wf s -> registered s nm = Some a <-> a ∈ entries (ts_list s) /\ key s a = Some nm.
Proof.
  intros W. split.
  - intros (p & q & E & K & _)%registered_split. split; [|done]. rewrite E. set_solver.
  - intros [Ha K]. destruct (registered s nm) as [b|] eqn:E.
    + apply registered_split in E as (p & q & E & Kb & _). f_equal.
      apply (ts_unique _ W); [rewrite E; set_solver|done|congruence].
    + by apply (proj1 (registered_None s nm) E a) in Ha.
Qed.

(** The registry depends on the memory of the operations and the list alone. *)
Lemma registry_wf_frame s s' :
  registry_wf s -> ts_mem s' = ts_mem s -> entries (ts_list s') = entries (ts_list s) ->
  registry_wf s'.
Proof.
  intros [N U En] Em El.
  assert (forall a, key s' a = key s a) as K by (intros; unfold key; by rewrite Em).
  split; rewrite ?El; [done| |intros a Ha].
  - intros a b. rewrite !K. apply U.
  - rewrite Em, K. by apply En.
Qed.

Lemma registered_frame s s' nm :
  ts_mem s' = ts_mem s -> entries (ts_list s') = entries (ts_list s) ->
  registered s' nm = registered s nm.
Proof. intros Em El. unfold registered, key. by rewrite El, Em. Qed.

Lemma lookup_ts_algo_exec s nm n :
  registry_wf s -> string_in nm = Some n ->
  lookup_ts_algo nm s =
    match registered s n with
    | None => Done None s []
    | Some a =>
        match ts_mem s !! a with
        | Some o =>
            let g := try_module_get (ts_owner o) (ts_mods s) in
            Done (if g.1 then Some a else None) (set ts_modsL g.2 s) []
        | None => Undef UseAfterFree
        end
    end.
Proof.
  intros W Hn. unfold lookup_ts_algo, rcu_read_lock. kexec.
  set (s1 := Ts _ _ _ _ _ _).
  assert (registry_wf s1) as W1 by (by eapply registry_wf_frame).
  set (body := lookup_entry nm).
  assert (forall a, a ∈ entries (ts_list s1) -> key s a <> Some n -> body a s1 = Done None s1 [])
    as Miss.
  { intros a Ha K. destruct (ts_entry _ W1 a Ha) as (o & E & _ & Ka). unfold body, lookup_entry.
    rewrite (exec_load_ops a o) by done.
    destruct (cmp_name_exec nm n o a s1 E Ka Hn) as (c & Ec & Hc).
    rewrite (exec_bind _ _ _ _ _ _ Ec), tell_nil.
    destruct (Z.eqb_spec c 0) as [->|]; [|done]. destruct K. by apply Hc. }
  destruct (registered s n) as [a|] eqn:Er.
  - destruct (registered_split s n a Er) as (p & q & El & Ka & Hp).
    destruct (ts_entry _ W a) as (o & E & _); [rewrite El; set_solver|]. rewrite E.
    assert (forall b, b ∈ p -> b ∈ entries (ts_list s1)) as Hin.
    { intros b Hb. change (b ∈ entries (ts_list s)). rewrite El. set_solver. }
    set (g := try_module_get _ _).
    assert (body a s1 = Done (Some (if g.1 then Some a else None)) (set ts_modsL g.2 s) []) as Hit.
    { unfold body, lookup_entry. rewrite (exec_load_ops a o) by done.
      destruct (cmp_name_exec nm n o a s1 E ltac:(unfold key in *; by eexists) Hn)
        as (c & Ec & [_ Hc]).
      rewrite (exec_bind _ _ _ _ _ _ Ec), tell_nil.
      rewrite Hc by done. unfold rcu_read_unlock. kexec. unfold mret, M_ret.
      by rewrite Z.add_simpl_r. }
    rewrite (exec_bind _ _ _ _ _ _ (for_each_ops_hit body s1 p a q _ _ _ W1 El
      ltac:(intros b Hb; apply Miss; [by apply Hin|by apply Hp]) Hit)).
    done.
  - pose proof (proj1 (registered_None s n) Er) as N.
    rewrite (exec_bind _ _ _ _ _ _ (for_each_ops_miss body s1 W1
      ltac:(intros a Ha; apply Miss; [done|by apply N]))).
    unfold rcu_read_unlock. kexec. unfold mret, M_ret. rewrite Z.add_simpl_r. by destruct s.
Qed.

Lemma spin_lock_exec s :
  mutex_is_locked (ts_mod_lock s) = false ->
  exists l, spin_lock s = Done tt (set ts_mod_lockL l s) [] /\ mutex_is_locked l = true.
Proof.
  intros U. destruct (mutex_lock_free _ U) as (l & E & L). exists l. split; [|done].
  unfold spin_lock. kexec. by rewrite E.
Qed.

Lemma exec_spin_unlock {B} (k : unit -> M ts B) s :
  mutex_is_locked (ts_mod_lock s) = true ->
  (spin_unlock ≫= k) s = k tt (set ts_mod_lockL (mutex_unlock (ts_mod_lock s)) s).
Proof. intros L. unfold spin_unlock. kexec. rewrite L. by kexec. Qed.

Lemma same_name_exec s nm n a :
  registry_wf s -> a ∈ entries (ts_list s) -> string_in nm = Some n ->
  same_name nm a s = Done (if decide (key s a = Some n) then Some tt else None) s [].
Proof.
  intros W Ha Hn. destruct (ts_entry _ W a Ha) as (o & E & _ & Ka).
  unfold same_name. rewrite (exec_load_ops a o) by done.
  destruct (cmp_name_exec nm n o a s E Ka Hn) as (c & Ec & Hc).
  rewrite (exec_bind _ _ _ _ _ _ Ec), tell_nil.
  case_decide as D; destruct (Z.eqb_spec c 0) as [E0|N0]; try done.
  - by destruct N0; apply Hc.
  - by destruct D; apply Hc.
Qed.

(** The search for a name, and the search for an entry. *)
Lemma search_name_exec s nm n :
  registry_wf s -> string_in nm = Some n ->
  for_each_ops (same_name nm) s = Done (const tt <$> registered s n) s [].
Proof.
  intros W Hn. destruct (registered s n) as [a|] eqn:Er.
  - destruct (registered_split s n a Er) as (p & q & El & Ka & Hp).
    eapply for_each_ops_hit; [done|exact El| |].
    + intros b Hb. rewrite (same_name_exec s nm n) by (rewrite ?El; set_solver).
      rewrite decide_False by (by apply Hp). done.
    + rewrite (same_name_exec s nm n) by (rewrite ?El; set_solver).
      by rewrite decide_True.
  - pose proof (proj1 (registered_None s n) Er) as N.
    apply for_each_ops_miss; [done|]. intros a Ha.
    rewrite (same_name_exec s nm n), decide_False by (try apply N; done). done.
Qed.

Lemma remove_entry_exec s a :
  registry_wf s ->
  for_each_ops (remove_entry a) s =
    if decide (a ∈ entries (ts_list s))
    then Done (Some tt) (set ts_listL (list_del_entry a (ts_list s)) s) []
    else Done None s [].
Proof.
  intros W. case_decide as D.
  - destruct (list_elem_of_split_l _ _ D) as (p & q & El & Np).
    eapply for_each_ops_hit; [done|exact El| |].
    + intros b Hb. unfold remove_entry. destruct (Z.eqb_spec b a) as [->|]; done.
    + unfold remove_entry. rewrite Z.eqb_refl. by kexec.
  - apply for_each_ops_miss; [done|]. intros b Hb. unfold remove_entry.
    destruct (Z.eqb_spec b a) as [->|]; done.
Qed.

(** What register and unregister do when they get as far as the list. *)
Lemma textsearch_register_exec s a po n :
  ts_wf s -> ts_mem s !! a = Some po -> complete po = true -> key s a = Some n ->
  exists lk, mutex_is_locked lk = false /\
  textsearch_register a s =
    match registered s n with
    | Some _ => Done (- EEXIST) (set ts_mod_lockL lk s) []
    | None => Done 0 (set ts_mod_lockL lk (set ts_listL (list_add_tail a (ts_list s)) s)) []
    end.
Proof.
  intros [R U] E C K. unfold textsearch_register.
  rewrite (exec_load_ops a po) by done. rewrite C. simpl.
  destruct (spin_lock_exec s U) as (l & El & L).
  rewrite (exec_bind _ _ _ _ _ _ El), tell_nil.
  assert (string_in (default [] (ts_name po)) = Some n) as Hn.
  { unfold key in K. rewrite E in K. simpl in K. by destruct (ts_name po). }
  exists (mutex_unlock l). split; [apply mutex_unlock_unlocked|].
  set (s1 := set ts_mod_lockL l s).
  assert (registry_wf s1) as R1 by (by eapply registry_wf_frame).
  rewrite (exec_bind _ _ _ _ _ _ (search_name_exec s1 _ n R1 Hn)), tell_nil.
  rewrite (registered_frame s s1) by done.
  destruct (registered s n) as [b|]; simpl; kexec; by rewrite exec_spin_unlock.
Qed.

Lemma textsearch_unregister_exec s a :
  ts_wf s ->
  exists lk, mutex_is_locked lk = false /\
  textsearch_unregister a s =
    if decide (a ∈ entries (ts_list s))
    then Done 0 (set ts_mod_lockL lk (set ts_listL (list_del_entry a (ts_list s)) s)) []
    else Done (- ENOENT) (set ts_mod_lockL lk s) [].
Proof.
  intros [R U]. unfold textsearch_unregister.
  destruct (spin_lock_exec s U) as (l & El & L).
  rewrite (exec_bind _ _ _ _ _ _ El), tell_nil.
  exists (mutex_unlock l). split; [apply mutex_unlock_unlocked|].
  set (s1 := set ts_mod_lockL l s).
  assert (registry_wf s1) as R1 by (by eapply registry_wf_frame).
  pose proof (remove_entry_exec s1 a R1) as X.
  change (entries (ts_list s1)) with (entries (ts_list s)) in X.
  case_decide; rewrite (exec_bind _ _ _ _ _ _ X), tell_nil; by rewrite exec_spin_unlock.
Qed.

(** The list with an entry more or less. *)
Lemma registry_wf_add s s' a po n :
  registry_wf s -> ts_mem s' = ts_mem s -> entries (ts_list s') = entries (ts_list s) ++ [a] ->
  ts_mem s !! a = Some po -> complete po = true -> key s a = Some n -> registered s n = None ->
  registry_wf s'.
Proof.
  intros W Em El E C K N.
  assert (forall a, key s' a = key s a) as Ke by (intros; unfold key; by rewrite Em).
  pose proof (proj1 (registered_None s n) N) as Nn.
  assert (a ∉ entries (ts_list s)) as Na by (intros Ha; by apply (Nn a Ha)).
  split; rewrite El.
  - apply NoDup_app. split; [apply W|]. split; [|apply NoDup_singleton]. set_solver.
  - intros b c Hb Hc. rewrite !Ke. intros Ebc.
    apply elem_of_app in Hb as [Hb| ->%list_elem_of_singleton];
      apply elem_of_app in Hc as [Hc| ->%list_elem_of_singleton]; [..|done].
    + by apply (ts_unique _ W).
    + destruct (Nn b Hb). congruence.
    + destruct (Nn c Hc). congruence.
  - intros b Hb. rewrite Em, Ke.
    apply elem_of_app in Hb as [Hb| ->%list_elem_of_singleton]; [by apply W|].
    exists po. rewrite K. eauto.
Qed.

Lemma registry_wf_del s s' p a q :
  registry_wf s -> ts_mem s' = ts_mem s -> entries (ts_list s) = p ++ a :: q ->
  entries (ts_list s') = p ++ q -> registry_wf s'.
Proof.
  intros W Em El El'.
  assert (forall a, key s' a = key s a) as Ke by (intros; unfold key; by rewrite Em).
  assert (forall b, b ∈ p ++ q -> b ∈ entries (ts_list s)) as In by (rewrite El; set_solver).
  split; rewrite El'.
  - pose proof (ts_nodup _ W) as N. rewrite El, <- Permutation_middle in N.
    by apply NoDup_cons in N as [_ N].
  - intros b c Hb Hc. rewrite !Ke. apply (ts_unique _ W); by apply In.
  - intros b Hb. rewrite Em, Ke. by apply W, In.
Qed.

(** A lookup takes a reference to the module it answers with, or none. *)
Lemma lookup_ts_algo_spec s nm n :
  registry_wf s -> string_in nm = Some n ->
  exists r m, lookup_ts_algo nm s = Done r (set ts_modsL m s) [] /\
    match r with
    | None => m = ts_mods s /\
        (forall a, registered s n = Some a -> exists o, ts_mem s !! a = Some o /\
           (try_module_get (ts_owner o) (ts_mods s)).1 = false)
    | Some a => registered s n = Some a /\ exists o, ts_mem s !! a = Some o /\
        complete o = true /\ one_more (ts_owner o) (ts_mods s) m
    end.
Proof.
  intros W Hn. rewrite (lookup_ts_algo_exec s nm n W Hn).
  destruct (registered s n) as [a|] eqn:Er.
  2: { exists None, (ts_mods s). split; [by destruct s|done]. }
  destruct (registered_split s n a Er) as (p & q & El & _).
  destruct (ts_entry _ W a) as (o & E & C & _); [rewrite El; set_solver|]. rewrite E.
  destruct (try_module_get (ts_owner o) (ts_mods s)) as [[|] m] eqn:G.
  - exists (Some a), m. split; [done|]. split; [done|]. exists o. split_and!; [done..|].
    by apply try_module_get_true.
  - apply try_module_get_false in G as X. subst m. exists None, (ts_mods s).
    split; [done|]. split; [done|]. intros b [= <-]. exists o. by rewrite G.
Qed.

Lemma module_put_of_exec s a o :
  ts_mem s !! a = Some o ->
  module_put_of a s = Done tt (set ts_modsL (module_put (ts_owner o) (ts_mods s)) s) [].
Proof. intros E. unfold module_put_of. by rewrite (exec_load_ops a o) by done. Qed.

Lemma complete_init o : complete o = true -> is_Some (ts_init o).
Proof.
  unfold complete. intros E. destruct (ts_init o); [eauto|].
  rewrite (bool_decide_true (None = None)), !orb_true_r in E by done. done.
Qed.

(** With the operations in hand, the algorithm makes a configuration, or the
    reference is given back. *)
Lemma prepare_conf_exec s a o pattern len gfp flags :
  ts_mem s !! a = Some o -> complete o = true ->
  exists p s', prepare_conf (Some a) pattern len gfp flags s = Done p s' [] /\
    (exists f, ts_init o = Some f /\ p = (run_init f pattern len gfp flags (ts_confs s)).1) /\
    if IS_ERR p then s' = set ts_modsL (module_put (ts_owner o) (ts_mods s)) s
    else ts_confs s !! p = None /\ exists c, conf_ops c = Some a /\
      (0 < len <= Z.of_nat (length pattern) ->
       pattern_of (conf_priv c) = take (Z.to_nat len) pattern /\ flags_of (conf_priv c) = flags) /\
      s' = set ts_confsL (<[p := c]> (ts_confs s)) s.
Proof.
  intros E C. destruct (complete_init o C) as [f Ef].
  unfold prepare_conf. rewrite (exec_load_ops a o) by done. rewrite Ef.
  rewrite exec_bind_read, exec_bind_write.
  destruct (run_init f pattern len gfp flags (view ts_confsL s)) as [p h] eqn:R.
  cbn [fst snd]. destruct (IS_ERR p) eqn:Ep.
  - pose proof (run_init_err _ _ _ _ _ _ _ _ R Ep) as ->.
    exists p, (set ts_modsL (module_put (ts_owner o) (ts_mods s)) s). rewrite Ep.
    split; [|split; [exists f; split; [done|by simpl in R; rewrite R]|done]]. unfold prepare_errout.
    rewrite (exec_bind _ _ _ _ _ _ (module_put_of_exec (set ts_confsL (view ts_confsL s) s) a o E)).
    unfold mret, M_ret. simpl. rewrite ERR_PTR_PTR_ERR by done. by destruct s.
  - destruct (run_init_ok _ _ _ _ _ _ _ _ R Ep) as (_ & F & c & -> & P).
    eexists p, _. split.
    + rewrite (exec_load_conf p c) by (simpl; by rewrite lookup_insert_eq).
      kexec. by rewrite insert_insert_eq.
    + split; [exists f; split; [done|by simpl in R; rewrite R]|].
      rewrite Ep. split; [done|]. by eexists (TsConfig _ _ _).
Qed.

Lemma same_refs_put o (m m' : mods) :
  one_more o m m' -> same_refs m (module_put o m').
Proof.
  intros [E N] p. destruct (decide (p = o)) as [->|D].
  - rewrite module_put_self, E. lia.
  - rewrite module_put_other, N by done. done.
Qed.

Lemma one_more_trans o (m m1 m2 : mods) : same_refs m m1 -> one_more o m1 m2 -> one_more o m m2.
Proof. intros S [E N]. split; [by rewrite E, S|]. intros p D. by rewrite N, S. Qed.

Lemma ts_wf_mods s m : ts_wf s -> ts_wf (set ts_modsL m s).
Proof. intros [W U]. split; [by eapply registry_wf_frame|done]. Qed.

Lemma ts_wf_confs s h : ts_wf s -> ts_wf (set ts_confsL h s).
Proof. intros [W U]. split; [by eapply registry_wf_frame|done]. Qed.

(** The lookup of textsearch_prepare, autoloading included. *)
Lemma prepare_lookup cm loader s algo n flags :
  ts_wf s -> string_in algo = Some n -> loader_ok loader ->
  exists r s' out,
    (ops ← lookup_ts_algo algo;
     if cm && bool_decide (ops = None) && negb (Z.land flags TS_AUTOLOAD =? 0)
     then loader algo ;; lookup_ts_algo algo else mret ops) s = Done r s' out /\
    ts_wf s' /\ ts_confs s' = ts_confs s /\
    (forall a o, ts_mem s !! a = Some o -> ts_mem s' !! a = Some o) /\
    match r with
    | None => same_refs (ts_mods s) (ts_mods s') /\ unavailable s' n
    | Some a => registered s' n = Some a /\ exists o, ts_mem s' !! a = Some o /\
        complete o = true /\ one_more (ts_owner o) (ts_mods s) (ts_mods s')
    end.
Proof.
  intros W Hn L.
  destruct (lookup_ts_algo_spec s algo n (ts_registry _ W) Hn) as (r & m & E & P).
  rewrite (exec_bind _ _ _ _ _ _ E), tell_nil.
  destruct (cm && bool_decide (r = None) && negb (Z.land flags TS_AUTOLOAD =? 0)) eqn:B.
  - destruct r as [a|]; [by rewrite andb_false_r in B|]. destruct P as [-> _].
    set (s1 := set ts_modsL (ts_mods s) s).
    destruct (L algo s1) as (s2 & o2 & E2 & W2 & C2 & R2 & M2); [by apply ts_wf_mods|].
    destruct (lookup_ts_algo_spec s2 algo n (ts_registry _ W2) Hn) as (r & m & E3 & P3).
    rewrite (exec_bind _ _ _ _ _ _ E2), E3. do 3 eexists. split; [done|].
    split; [by apply ts_wf_mods|]. split; [done|]. split; [done|].
    destruct r as [a|]; [|by destruct P3 as [-> P3]].
    destruct P3 as (Rg & o & Eo & Co & Mo). split; [done|]. exists o. split_and!; [done..|].
    by eapply one_more_trans.
  - do 3 eexists. split; [done|]. split; [by apply ts_wf_mods|]. split_and!; [done..|].
    destruct r as [a|]; [done|]. by destruct P as [-> P].
Qed.

(** Both failures of textsearch_prepare after a lookup, and its success. *)
Lemma textsearch_prepare_exec cm loader s algo n pattern len gfp flags :
  ts_wf s -> string_in algo = Some n -> 0 < len <= Z.of_nat (length pattern) ->
  loader_ok loader ->
  exists p s' out, textsearch_prepare cm loader algo pattern len gfp flags s = Done p s' out /\
    ts_wf s' /\ (forall a o, ts_mem s !! a = Some o -> ts_mem s' !! a = Some o) /\
    if IS_ERR p then ts_confs s' = ts_confs s /\ same_refs (ts_mods s) (ts_mods s') /\
      (p = ERR_PTR (- ENOENT) /\ unavailable s' n \/
       exists a o f, registered s' n = Some a /\ ts_mem s' !! a = Some o /\
         ts_init o = Some f /\ p = (run_init f pattern len gfp flags (ts_confs s)).1)
    else ts_confs s !! p = None /\ exists a o c, registered s' n = Some a /\
      ts_mem s' !! a = Some o /\ conf_ops c = Some a /\
      (pattern_of (conf_priv c) = take (Z.to_nat len) pattern /\ flags_of (conf_priv c) = flags) /\
      ts_confs s' = <[p := c]> (ts_confs s) /\ one_more (ts_owner o) (ts_mods s) (ts_mods s').
Proof.
  intros W Hn Len L.
  destruct (prepare_lookup cm loader s algo n flags W Hn L)
    as (r & s1 & o1 & E & W1 & C1 & M1 & P).
  unfold textsearch_prepare. rewrite (proj2 (Z.eqb_neq len 0)) by lia.
  rewrite (exec_bind_two _ _ _ _ _ _ _ E).
  destruct r as [a|].
  - destruct P as (Rg & o & Eo & Co & Mo).
    destruct (prepare_conf_exec s1 a o pattern len gfp flags Eo Co) as (p & s2 & -> & (f & Ef & Ei) & P2).
    exists p. destruct (IS_ERR p).
    + subst s2. do 2 eexists. split; [done|]. split; [by apply ts_wf_mods|].
      split_and!; [done..|by apply same_refs_put|]. right. exists a, o, f.
      rewrite <- C1. split_and!; done.
    + destruct P2 as (F & c & Ec & Pc & ->). do 2 eexists. split; [done|].
      split; [by apply ts_wf_confs|]. split; [done|]. rewrite <- C1. split; [done|].
      destruct (Pc Len). by exists a, o, c.
  - unfold prepare_conf, prepare_errout. rewrite exec_bind_ret.
    do 3 eexists. split; [done|]. split; [done|]. split; [done|].
    rewrite IS_ERR_ERR_PTR by (unfold ENOENT; lia). destruct P. split_and!; [done..|]. by left.
Qed.

Lemma textsearch_destroy_exec s p c a o :
  ts_confs s !! p = Some c -> conf_ops c = Some a -> ts_mem s !! a = Some o ->
  exists h, textsearch_destroy p s =
      Done tt (set ts_confsL (delete p h) (set ts_modsL (module_put (ts_owner o) (ts_mods s)) s)) [] /\
    forall q, q <> p -> h !! q = ts_confs s !! q.
Proof.
  intros Ep Ea Eo. unfold textsearch_destroy.
  rewrite (exec_load_conf p c) by done. rewrite Ea, exec_bind_assoc, (exec_load_ops a o) by done.
  destruct (ts_destroy o) as [f|].
  - exists (run_destroy f p (ts_confs s)). split; [|intros q D; by apply run_destroy_other].
    pose proof (run_destroy_ops f p (ts_confs s)) as X. rewrite Ep in X. simpl in X.
    destruct (run_destroy f p (ts_confs s) !! p) as [c'|] eqn:E'; [|done].
    simpl in X. rewrite !exec_bind_assoc, exec_bind_read, exec_bind_write.
    rewrite exec_bind_assoc, (exec_load_conf p c') by done.
    replace (conf_ops c') with (Some a) by congruence.
    rewrite (exec_bind _ _ _ _ _ _ (module_put_of_exec (set ts_confsL (run_destroy f p (ts_confs s)) s) a o Eo)).
    done.
  - exists (ts_confs s). split; [|done].
    rewrite exec_bind_assoc, exec_bind_ret, exec_bind_assoc, (exec_load_conf p c) by done. rewrite Ea.
    by rewrite (exec_bind _ _ _ _ _ _ (module_put_of_exec s a o Eo)).
Qed.

(** The linear data are a stream of one block. *)
Lemma get_linear_data_streams off data len :
  0 <= len <= Z.of_nat (length data) -> len <= UINT_MAX ->
  streams (call_next_block GetLinearData (TsState off (LinearState len data)))
    (take (Z.to_nat len) data).
Proof.
  unfold UINT_MAX. intros L U consumed dst C. rewrite length_take in *. simpl. unfold get_linear_data.
  simpl. destruct (Z.ltb_spec consumed len) as [D|D]; simpl;
    [|by split_and!; [lia..|]].
  rewrite u32_id by (unfold two32; lia). split_and!; [lia|lia|lia|].
  rewrite skipn_firstn_comm, take_take. f_equal. lia.
Qed.

Lemma compared_length (c : priv) l : length (compared c l) = length l.
Proof. unfold compared. destruct (_ =? 0); [done|apply length_fmap]. Qed.

Lemma compared_nil (c : priv) l : compared c l = [] -> l = [].
Proof. intros E%(f_equal length). rewrite compared_length in E. by destruct l. Qed.

Lemma textsearch_find_continuous_exec s p c state data len :
  ts_confs s !! p = Some c -> pattern_of (conf_priv c) <> [] ->
  0 <= len <= Z.of_nat (length data) -> len <= UINT_MAX ->
  exists pos off,
    textsearch_find_continuous p state data len s =
      Done (pos, TsState off (LinearState len data))
        (set ts_confsL (<[p := TsConfig (conf_ops c) (Some GetLinearData) (conf_priv c)]>
           (ts_confs s)) s) [] /\
    first_match (compared (conf_priv c) (pattern_of (conf_priv c)))
      (compared (conf_priv c) (take (Z.to_nat len) data)) pos.
Proof.
  intros Ep P L U. unfold textsearch_find_continuous.
  rewrite (exec_load_conf p c) by done. rewrite exec_bind_read, exec_bind_write. cbv zeta.
  rewrite (exec_load_conf p (TsConfig (conf_ops c) (Some GetLinearData) (conf_priv c)))
    by (simpl; by rewrite lookup_insert_eq).
  do 2 eexists. split; [done|]. apply textsearch_find_first; [done| |].
  - rewrite length_take. unfold UINT_MAX in *. lia.
  - by apply get_linear_data_streams.
Qed.

(** Counting the configurations of a module. *)
Lemma holders_insert m h p c o :
  holders_in m (<[p := c]> h) o =
    (holders_in m (delete p h) o + if decide (owner_in m c = Some o) then 1 else 0)%nat.
Proof.
  unfold holders_in. rewrite <- insert_delete_eq. case_decide as D.
  - rewrite map_filter_insert_True by done.
    rewrite map_size_insert_None; [lia|].
    apply map_lookup_filter_None. left. apply lookup_delete_eq.
  - rewrite map_filter_insert_False, delete_delete_eq by done. lia.
Qed.

Lemma holders_delete m h p c o :
  h !! p = Some c ->
  holders_in m h o =
    (holders_in m (delete p h) o + if decide (owner_in m c = Some o) then 1 else 0)%nat.
Proof. intros E. rewrite <- holders_insert. by rewrite insert_id. Qed.

Lemma holders_mem m m' h o :
  (forall p c, h !! p = Some c -> owner_in m' c = owner_in m c) ->
  holders_in m' h o = holders_in m h o.
Proof.
  intros E. unfold holders_in. f_equal. apply map_filter_ext. intros p c Ep. simpl.
  by rewrite (E p c).
Qed.

Lemma holders_zero m h p c o :
  holders_in m h o = O -> h !! p = Some c -> owner_in m c <> Some o.
Proof.
  intros Z E O. rewrite (holders_delete m h p c o E), decide_True in Z by done. lia.
Qed.

Lemma owner_in_mono m m' c :
  (forall a o, m !! a = Some o -> m' !! a = Some o) -> is_Some (owner_in m c) ->
  owner_in m' c = owner_in m c.
Proof.
  unfold owner_in. intros M [o E]. destruct (conf_ops c) as [a|]; [|done]. simpl in *.
  destruct (m !! a) as [x|] eqn:Ea; [|done]. by rewrite (M a x).
Qed.

(** A step that leaves the configurations and the counts alone. *)
Lemma ts_inv_frame s s' :
  ts_inv s -> ts_wf s' -> ts_confs s' = ts_confs s -> same_refs (ts_mods s) (ts_mods s') ->
  (forall p c, ts_confs s !! p = Some c -> owner_in (ts_mem s') c = owner_in (ts_mem s) c) ->
  ts_inv s'.
Proof.
  intros [W C R] W' Ec S O. split; [done| |]; rewrite Ec.
  - intros p c E. rewrite (O p c) by done. by eapply C.
  - intros o. by rewrite S, R, (holders_mem (ts_mem s) (ts_mem s')).
Qed.

(** A module is loaded; one that is not referred to is unloaded. *)
Lemma ts_inv_load s a o :
  ts_inv s -> ts_mem s !! a = None -> ts_inv (set ts_memL (<[a := o]> (ts_mem s)) s).
Proof.
  intros I E. pose proof (inv_wf _ I) as [[N U En] L].
  assert (forall b, b ∈ entries (ts_list s) -> b <> a) as D.
  { intros b Hb ->. destruct (En a Hb) as (x & Ex & _). congruence. }
  apply (ts_inv_frame s); [done| |done|done|].
  - split; [|done]. split; simpl; unfold key; simpl; [done| |].
    + intros b c Hb Hc. rewrite !lookup_insert_ne by (symmetry; by apply D). by apply U.
    + intros b Hb. rewrite !lookup_insert_ne by (symmetry; by apply D). by apply En.
  - intros p c Ec. simpl. apply owner_in_mono; [|by eapply I].
    intros b x Eb. rewrite lookup_insert_ne by congruence. done.
Qed.

Lemma ts_inv_unload s a o :
  ts_inv s -> ts_mem s !! a = Some o -> a ∉ entries (ts_list s) ->
  refcount (ts_mods s) (ts_owner o) = 0 -> ts_inv (set ts_memL (delete a (ts_mem s)) s).
Proof.
  intros I E Na Z. pose proof (inv_wf _ I) as [[N U En] L].
  assert (forall b, b ∈ entries (ts_list s) -> b <> a) as D by (intros b Hb ->; done).
  apply (ts_inv_frame s); [done| |done|done|].
  - split; [|done]. split; simpl; unfold key; simpl; [done| |].
    + intros b c Hb Hc. rewrite !lookup_delete_ne by (symmetry; by apply D). by apply U.
    + intros b Hb. rewrite !lookup_delete_ne by (symmetry; by apply D). by apply En.
  - intros p c Ec. simpl. destruct (inv_confs _ I p c Ec) as [x Ex].
    assert (holders_in (ts_mem s) (ts_confs s) (ts_owner o) = O) as Hz.
    { pose proof (inv_refs _ I (ts_owner o)). lia. }
    pose proof (holders_zero _ _ _ _ _ Hz Ec) as Nh.
    unfold owner_in in *. destruct (conf_ops c) as [b|]; [|done]. simpl in *.
    rewrite lookup_delete_ne; [done|]. intros <-. by rewrite E in Nh.
Qed.

(** A configuration is made, and one is freed. *)
Lemma ts_inv_prepared s s' p a o c :
  ts_inv s -> ts_wf s' -> (forall a o, ts_mem s !! a = Some o -> ts_mem s' !! a = Some o) ->
  ts_confs s !! p = None -> ts_mem s' !! a = Some o -> conf_ops c = Some a ->
  ts_confs s' = <[p := c]> (ts_confs s) -> one_more (ts_owner o) (ts_mods s) (ts_mods s') ->
  ts_inv s'.
Proof.
  intros I W M F Eo Ea Ec [R1 R2].
  assert (owner_in (ts_mem s') c = Some (ts_owner o)) as Oc.
  { unfold owner_in. rewrite Ea. simpl. by rewrite Eo. }
  assert (forall q d, ts_confs s !! q = Some d -> owner_in (ts_mem s') d = owner_in (ts_mem s) d)
    as Od by (intros q d Ed; apply owner_in_mono; [done|by eapply I]).
  split; [done| |]; rewrite Ec.
  - intros q d [[<- <-]|[_ Ed]]%lookup_insert_Some; [by rewrite Oc|].
    rewrite (Od q d) by done. by eapply I.
  - intros x. rewrite holders_insert, delete_id, (holders_mem (ts_mem s)) by done.
    rewrite Oc. pose proof (inv_refs _ I x) as Rx. case_decide as D.
    + injection D as <-. lia.
    + rewrite R2 by congruence. lia.
Qed.

Lemma ts_inv_destroyed s p c a o h :
  ts_inv s -> ts_confs s !! p = Some c -> conf_ops c = Some a -> ts_mem s !! a = Some o ->
  (forall q, q <> p -> h !! q = ts_confs s !! q) ->
  ts_inv (set ts_confsL (delete p h) (set ts_modsL (module_put (ts_owner o) (ts_mods s)) s)).
Proof.
  intros I Ep Ea Eo Eh.
  assert (delete p h = delete p (ts_confs s)) as ->.
  { apply map_eq. intros q. destruct (decide (p = q)) as [<-|D].
    - by rewrite !lookup_delete_eq.
    - rewrite !lookup_delete_ne by done. by apply Eh. }
  assert (owner_in (ts_mem s) c = Some (ts_owner o)) as Oc.
  { unfold owner_in. rewrite Ea. simpl. by rewrite Eo. }
  split; [by apply ts_wf_confs, ts_wf_mods, I| |]; simpl.
  - intros q d [_ Ed]%lookup_delete_Some. by eapply I.
  - intros x. pose proof (inv_refs _ I x) as Rx.
    rewrite (holders_delete _ _ p c x Ep), Oc in Rx. destruct (decide (x = ts_owner o)) as [->|D].
    + rewrite decide_True in Rx by done. rewrite module_put_self. lia.
    + rewrite decide_False in Rx by congruence. rewrite module_put_other by done. lia.
Qed.

Lemma ts_inv_found s p c fn :
  ts_inv s -> ts_confs s !! p = Some c ->
  ts_inv (set ts_confsL (<[p := TsConfig (conf_ops c) fn (conf_priv c)]> (ts_confs s)) s).
Proof.
  intros I Ep. split; [by apply ts_wf_confs, I| |]; simpl.
  - intros q d [[<- <-]|[_ Ed]]%lookup_insert_Some; [|by eapply I].
    apply (inv_confs _ I p c Ep).
  - intros x. rewrite holders_insert. rewrite (inv_refs _ I x).
    by rewrite (holders_delete _ _ p c x Ep).
Qed.

(** Registering and unregistering keep the registry, and leave the rest alone. *)
Lemma textsearch_register_frame s a po :
  ts_wf s -> ts_mem s !! a = Some po -> (complete po = true -> is_Some (key s a)) ->
  exists e s', textsearch_register a s = Done e s' [] /\ ts_wf s' /\
    ts_mem s' = ts_mem s /\ ts_mods s' = ts_mods s /\ ts_confs s' = ts_confs s.
Proof.
  intros W E K. destruct (complete po) eqn:C.
  2: { exists (- EINVAL), s. split; [|done]. unfold textsearch_register.
       rewrite (exec_load_ops a po) by done. by rewrite C. }
  destruct (K eq_refl) as [n Hn].
  destruct (textsearch_register_exec s a po n W E C Hn) as (lk & U & ->).
  destruct (registered s n) as [b|] eqn:Er; (do 2 eexists; split; [done|]).
  - split; [|done]. split; [|done]. by eapply registry_wf_frame; [apply W|..].
  - split; [|done]. split; [|done]. eapply registry_wf_add; [apply W|done| |done..].
    apply entries_add_tail. intros Ha. by apply (proj1 (registered_None s n) Er a Ha).
Qed.

Lemma textsearch_unregister_frame s a :
  ts_wf s ->
  exists e s', textsearch_unregister a s = Done e s' [] /\ ts_wf s' /\
    ts_mem s' = ts_mem s /\ ts_mods s' = ts_mods s /\ ts_confs s' = ts_confs s.
Proof.
  intros W. destruct (textsearch_unregister_exec s a W) as (lk & U & ->). case_decide as D;
    (do 2 eexists; split; [done|]); (split; [|done]); (split; [|done]).
  - destruct (list_elem_of_split _ _ D) as (p & q & El).
    eapply registry_wf_del; [apply W|done|exact El|].
    apply entries_del; [apply W|done].
  - by eapply registry_wf_frame; [apply W|..].
Qed.

Lemma runs_done {A} (m : M ts A) s a s' b t o :
  m s = Done a s' o -> runs m s b t -> a = b /\ s' = t.
Proof. intros E [o' E']. rewrite E in E'. by injection E'. Qed.

Ltac same_run E :=
  match goal with
  | R : runs _ _ _ _ |- _ => destruct (runs_done _ _ _ _ _ _ _ E R) as [? ?]; subst
  end.

Lemma ts_init_inv s : ts_init_state s -> ts_inv s.
Proof.
  intros (Em & El & L & Ec & R). split.
  - split; [|done]. split; rewrite El, entries_head; [apply NoDup_nil_2|set_solver..].
  - intros p c. by rewrite Ec, lookup_empty.
  - intros o. rewrite R, Ec. unfold holders_in. by rewrite map_filter_empty, map_size_empty.
Qed.

Lemma ts_step_inv cm loader s s' :
  loader_ok loader -> ts_inv s -> ts_step cm loader s s' -> ts_inv s'.
Proof.
  intros L I St. pose proof (inv_wf _ I) as W. destruct St.
  - by apply ts_inv_load.
  - by apply (ts_inv_unload s a o).
  - destruct (textsearch_register_frame s a po W) as (e' & s1 & E & W1 & Em & Er & Ec); [done..|].
    same_run E.
    apply (ts_inv_frame s); [done..| |by rewrite Em]. by rewrite Er.
  - destruct (textsearch_unregister_frame s a W) as (e' & s1 & E & W1 & Em & Er & Ec).
    same_run E.
    apply (ts_inv_frame s); [done..| |by rewrite Em]. by rewrite Er.
  - destruct H9 as [n Hn]. destruct (decide (len = 0)) as [->|Hl].
    + destruct H11 as [o E]. unfold textsearch_prepare in E. simpl in E. by injection E as <- <- _.
    + destruct (textsearch_prepare_exec cm loader s algo n pattern len gfp flags W Hn
        ltac:(lia) L) as (p' & s1 & o & E & W1 & M1 & P).
      same_run E. destruct (IS_ERR p).
      * destruct P as (Ec & R & _). apply (ts_inv_frame s); [done..|].
        intros q c Eq. apply owner_in_mono; [done|by eapply I].
      * destruct P as (F & a & x & c & _ & Ex & Ea & _ & Ec & R).
        by apply (ts_inv_prepared s s' p a x c).
  - destruct H9 as [c Ep]. destruct (inv_confs _ I p c Ep) as [x Ex]. unfold owner_in in Ex.
    destruct (conf_ops c) as [a|] eqn:Ea; [|done]. simpl in Ex.
    destruct (ts_mem s !! a) as [o|] eqn:Eo; [|done].
    destruct (textsearch_destroy_exec s p c a o Ep Ea Eo) as (h & E & Eh).
    same_run E. by apply (ts_inv_destroyed s p c a).
  - destruct (textsearch_find_continuous_exec s p c state data len H9 H10 H11 H12)
      as (pos & off & E & _).
    same_run E. by apply ts_inv_found.
Qed.
End TextSearchFacts.

(** ** Theorems *)

Section TextSearchTheorems.
Context `{KListOk Z} `{ModuleRefsOk Z} `{MutexOk} `{ErrPtrOk} `{!TsAlgo} `{!TsAlgoOk}.
Implicit Types s : ts.

(** C17: textsearch_register implements insertion into a map from names to
    operations. Operations with a NULL member are refused with -EINVAL before
    the lock is taken, and a name that is taken with -EEXIST; otherwise the
    name, which was free, and no other, is bound to the operations. Each time
    the registry stays well formed, no name twice, and the lock is free. *)
Theorem textsearch_register_refines s a po :
  ts_wf s -> ts_mem s !! a = Some po -> (complete po = true -> is_Some (key s a)) ->
  exists e s', textsearch_register a s = Done e s' [] /\ ts_wf s' /\
    ts_mem s' = ts_mem s /\ ts_mods s' = ts_mods s /\ ts_confs s' = ts_confs s /\
    if complete po then
      exists n, key s a = Some n /\
        match registered s n with
        | Some _ => e = - EEXIST /\ entries (ts_list s') = entries (ts_list s)
        | None => e = 0 /\
            forall m, registered s' m = if decide (m = n) then Some a else registered s m
        end
    else e = - EINVAL /\ s' = s.
Proof.
  intros W E K. destruct (textsearch_register_frame s a po W E K) as (e & s' & R & W' & F).
  exists e, s'. split; [done|]. split; [done|]. destruct F as (Em & Er & Ec).
  split_and!; [done..|]. destruct (complete po) eqn:C.
  2: { revert R. unfold textsearch_register. rewrite (exec_load_ops a po) by done.
       rewrite C. by intros [= <- <-]. }
  destruct (K eq_refl) as [n Hn]. exists n. split; [done|].
  destruct (textsearch_register_exec s a po n W E C Hn) as (lk & _ & R').
  rewrite R in R'. destruct (registered s n) as [b|] eqn:Eb; injection R' as -> ->; [done|].
  split; [done|]. intros m.
  assert (a ∉ entries (ts_list s)) as Na.
  { intros Ha. by apply (proj1 (registered_None s n) Eb a Ha). }
  case_decide as D; [subst m|].
  - apply registered_Some; [apply W'|]. simpl. rewrite entries_add_tail by done. set_solver.
  - unfold registered.
    match goal with |- context [key ?x] => change (key x) with (key s) end.
    simpl. rewrite entries_add_tail, filter_app by done.
    rewrite filter_cons_False by congruence. by rewrite filter_nil, app_nil_r.
Qed.

(** C37: textsearch_unregister is removal from that map: it returns 0 and
    unbinds exactly the name of the operations when they are registered, and
    -ENOENT with the registry unchanged when they are not. *)
Theorem textsearch_unregister_refines s a :
  ts_wf s ->
  exists e s', textsearch_unregister a s = Done e s' [] /\ ts_wf s' /\
    ts_mem s' = ts_mem s /\ ts_mods s' = ts_mods s /\ ts_confs s' = ts_confs s /\
    ((e = 0 /\ exists n, registered s n = Some a /\
        forall m, registered s' m = if decide (m = n) then None else registered s m) \/
     (e = - ENOENT /\ (forall n, registered s n <> Some a) /\
        entries (ts_list s') = entries (ts_list s))).
Proof.
  intros W. destruct (textsearch_unregister_frame s a W) as (e & s' & E & W' & F).
  exists e, s'. split; [done|]. split; [done|]. destruct F as (Em & Er & Ec).
  split_and!; [done..|]. destruct (textsearch_unregister_exec s a W) as (lk & _ & E').
  rewrite E in E'. case_decide as D; injection E' as -> ->.
  2: { right. split_and!; [done| |done].
       intros n En. by apply registered_Some in En as [? _]; [|apply W]. }
  left. split; [done|]. destruct (ts_entry _ (ts_registry _ W) a D) as (o & _ & _ & [n Kn]).
  exists n. split; [by apply registered_Some; [apply W|]|].
  destruct (list_elem_of_split _ _ D) as (p & q & El).
  pose proof (ts_nodup _ (ts_registry _ W)) as N.
  assert (a ∉ p ++ q) as Na.
  { rewrite El, <- Permutation_middle in N. by apply NoDup_cons in N as [N _]. }
  intros m. apply option_eq. intros b. rewrite registered_Some by apply W'.
  match goal with |- context [key ?x b] => change (key x b) with (key s b) end.
  simpl. rewrite (entries_del a (ts_list s) p q) by done. case_decide as Dm.
  - split; [|done]. intros [Hb Kb]. destruct Na. replace a with b; [done|].
    apply (ts_unique _ (ts_registry _ W)); [|done|congruence]. rewrite El. set_solver.
  - rewrite registered_Some by apply W. rewrite El.
    split; intros [Hb Kb]; (split; [|done]); [set_solver|].
    assert (b <> a) by congruence. set_solver.
Qed.

(** Lookup_ts_algo returns the operations registered under the name, with
    one more reference to their module and nothing else changed, the RCU read
    section closed; it returns NULL with nothing changed when the name is not
    registered or the module can no longer be referred to. *)
Theorem lookup_ts_algo_correct s nm n :
  ts_wf s -> string_in nm = Some n ->
  exists r m, lookup_ts_algo nm s = Done r (set ts_modsL m s) [] /\
    match r with
    | Some a => registered s n = Some a /\
        exists o, ts_mem s !! a = Some o /\ one_more (ts_owner o) (ts_mods s) m
    | None => m = ts_mods s /\
        (registered s n = None \/ exists a o, registered s n = Some a /\
           ts_mem s !! a = Some o /\ (try_module_get (ts_owner o) (ts_mods s)).1 = false)
    end.
Proof.
  intros W Hn. destruct (lookup_ts_algo_spec s nm n (ts_registry _ W) Hn) as (r & m & E & P).
  exists r, m. split; [done|]. destruct r as [a|].
  - destruct P as (Rg & o & Eo & _ & Mo). eauto.
  - destruct P as [-> P]. split; [done|]. destruct (registered s n) as [a|]; [|by left].
    right. destruct (P a eq_refl) as (o & Eo & F). eauto.
Qed.

(** C34: textsearch_prepare returns a pointer: -EINVAL for an empty pattern,
    with nothing done at all; -ENOENT when no such algorithm is available even
    after autoloading, or the error of its init callback, with no configuration
    and no reference left behind; or a new configuration of the algorithm registered under the
    name, which has the pattern and exactly one reference to its module. *)
Theorem textsearch_prepare_correct cm loader s algo n pattern len gfp flags :
  ts_wf s -> string_in algo = Some n -> 0 <= len <= Z.of_nat (length pattern) ->
  loader_ok loader ->
  exists p s' out, textsearch_prepare cm loader algo pattern len gfp flags s = Done p s' out /\
    ts_wf s' /\
    ((len = 0 /\ p = ERR_PTR (- EINVAL) /\ s' = s) \/
     (0 < len /\ IS_ERR p = true /\ ts_confs s' = ts_confs s /\
        same_refs (ts_mods s) (ts_mods s') /\
        (p = ERR_PTR (- ENOENT) /\ unavailable s' n \/
         exists a o f, registered s' n = Some a /\ ts_mem s' !! a = Some o /\
           ts_init o = Some f /\ p = (run_init f pattern len gfp flags (ts_confs s)).1)) \/
     (0 < len /\ IS_ERR p = false /\ ts_confs s !! p = None /\
        exists a o c, registered s' n = Some a /\ ts_mem s' !! a = Some o /\
          conf_ops c = Some a /\
          (pattern_of (conf_priv c) = take (Z.to_nat len) pattern /\ flags_of (conf_priv c) = flags) /\
          ts_confs s' = <[p := c]> (ts_confs s) /\
          one_more (ts_owner o) (ts_mods s) (ts_mods s'))).
Proof.
  intros W Hn Len L. destruct (decide (len = 0)) as [->|Hl].
  { do 3 eexists. split; [done|]. split; [done|]. by left. }
  destruct (textsearch_prepare_exec cm loader s algo n pattern len gfp flags W Hn ltac:(lia) L)
    as (p & s' & out & E & W' & _ & P).
  exists p, s', out. split; [done|]. split; [done|]. right. destruct (IS_ERR p).
  - left. destruct P as (? & ? & ?). by split_and!; [lia|..].
  - right. by split; [lia|].
Qed.

(** C19: textsearch_destroy undoes textsearch_prepare: afterwards the
    configurations and every reference count are what they were before. *)
Theorem textsearch_prepare_destroy cm loader s algo n pattern len gfp flags p s1 out :
  ts_wf s -> string_in algo = Some n -> 0 < len <= Z.of_nat (length pattern) ->
  loader_ok loader ->
  textsearch_prepare cm loader algo pattern len gfp flags s = Done p s1 out ->
  IS_ERR p = false ->
  exists s2, textsearch_destroy p s1 = Done tt s2 [] /\
    ts_confs s2 = ts_confs s /\ same_refs (ts_mods s) (ts_mods s2) /\
    ts_mem s2 = ts_mem s1 /\ ts_list s2 = ts_list s1.
Proof.
  intros W Hn Len L E Ep.
  destruct (textsearch_prepare_exec cm loader s algo n pattern len gfp flags W Hn Len L)
    as (p' & s' & out' & E' & _ & _ & P).
  rewrite E in E'. injection E' as <- <- <-. rewrite Ep in P.
  destruct P as (F & a & o & c & _ & Eo & Ea & _ & Ec & R).
  destruct (textsearch_destroy_exec s1 p c a o) as (h & -> & Eh);
    [by rewrite Ec, lookup_insert_eq|done..|].
  eexists. split; [done|]. simpl. split_and!; [|by apply same_refs_put|done..].
  apply map_eq. intros q. destruct (decide (p = q)) as [<-|D].
  - by rewrite lookup_delete_eq.
  - rewrite lookup_delete_ne, Eh, Ec by done. by apply lookup_insert_ne.
Qed.


(** C6: in every state that clients and modules can reach, whatever they call
    and in whatever order, the registry is well formed, the reference count
    of each module is the number of configurations that run its code, and no
    configuration points to operations whose module is gone. *)
Theorem textsearch_refcounts cm loader s :
  loader_ok loader -> reachable ts_init_state (ts_step cm loader) s ->
  ts_wf s /\
  (forall o, refcount (ts_mods s) o = Z.of_nat (holders_in (ts_mem s) (ts_confs s) o)) /\
  (forall p c, ts_confs s !! p = Some c ->
     exists a o, conf_ops c = Some a /\ ts_mem s !! a = Some o).
Proof.
  intros L R. assert (ts_inv s) as [W C Rc].
  { revert s R. apply reachable_inv; [apply ts_init_inv|]. intros s s'. by apply ts_step_inv. }
  split; [done|split; [done|]]. intros p c E. destruct (C p c E) as [x Ex].
  unfold owner_in in Ex. destruct (conf_ops c) as [a|]; [|done]. simpl in Ex.
  destruct (ts_mem s !! a) as [o|] eqn:Eo; [|done]. eauto.
Qed.
End TextSearchTheorems.

(** ** Witnesses *)

(** An algorithm: it collects the blocks and tries every position. Its fuel
    is the largest text there can be. *)
Fixpoint gather (fuel : nat) (f : Z -> list byte -> Z * list byte) (consumed : Z) : list byte :=
  match fuel with
  | O => []
  | S n =>
      let r := f consumed [] in
      if r.1 <=? 0 then [] else take (Z.to_nat r.1) r.2 ++ gather n f (consumed + r.1)
  end.

Fixpoint search_from (pattern text : list byte) (i : Z) : Z :=
  if decide (take (length pattern) text = pattern) then i
  else match text with [] => UINT_MAX | _ :: t => search_from pattern t (i + 1) end.

Definition gather_fuel : nat := Z.to_nat UINT_MAX.
#[global] Opaque gather_fuel.

Lemma gather_fuel_Z : Z.of_nat gather_fuel = UINT_MAX.
Proof. with_strategy transparent [gather_fuel] unfold gather_fuel. apply Z2Nat.id. done. Qed.

Definition upper (c : byte) : byte :=
  let n := Byte.to_N c in
  if ((97 <=? n) && (n <=? 122))%N then default c (Byte.of_N (n - 32)) else c.

(** What a configuration keeps. *)
Record naive := Naive { n_pattern : list byte; n_flags : Z }.

Definition naive_case (c : naive) (l : list byte) : list byte :=
  if Z.land (n_flags c) TS_IGNORECASE =? 0 then l else upper <$> l.

#[export] Instance naive_algo : TsAlgo := {|
  priv := naive;
  pattern_of := n_pattern;
  flags_of := n_flags;
  toupper := upper;
  run_init _ pattern len _ flags h :=
    (above h, if IS_ERR (above h) then h
              else <[above h := TsConfig None None (Naive (take (Z.to_nat len) pattern) flags)]> h);
  run_destroy _ _ h := h;
  textsearch_find c f :=
    (search_from (naive_case c (n_pattern c)) (naive_case c (gather gather_fuel f 0)) 0, 0);
|}.

Lemma gather_streams f text fuel consumed :
  streams f text -> 0 <= consumed <= Z.of_nat (length text) ->
  Z.of_nat (length text) - consumed <= Z.of_nat fuel ->
  gather fuel f consumed = drop (Z.to_nat consumed) text.
Proof.
  intros St. revert consumed. induction fuel as [|fuel IH]; intros consumed C F; simpl.
  { rewrite drop_ge; [done|lia]. }
  destruct (St consumed [] C) as (N & B & P & T).
  destruct (Z.leb_spec (f consumed []).1 0) as [Z|Z].
  - rewrite drop_ge; [done|]. lia.
  - rewrite T, IH by lia. rewrite Z2Nat.inj_add, <- drop_drop by lia. apply take_drop.
Qed.

Lemma search_from_spec pattern text i :
  pattern <> [] ->
  (search_from pattern text i = UINT_MAX /\ forall k, ~ occurs_at pattern text k) \/
  (exists k, search_from pattern text i = i + Z.of_nat k /\ occurs_at pattern text k /\
     forall j, (j < k)%nat -> ~ occurs_at pattern text j).
Proof.
  intros P. revert i. induction text as [|b text IH]; intros i; simpl.
  - case_decide as D; [by rewrite take_nil in D|]. left. split; [done|].
    intros k O. unfold occurs_at in O. by rewrite drop_nil, take_nil in O.
  - case_decide as D.
    + right. exists 0%nat. split; [lia|]. split; [done|]. lia.
    + destruct (IH (i + 1)) as [[E N]|(k & E & O & F)]; [left|right; exists (S k)].
      * split; [done|]. intros [|k] O; [done|]. by apply (N k).
      * split; [lia|]. split; [done|]. intros [|j] Hj Oj; [done|]. apply (F j); [lia|done].
Qed.

#[export] Instance naive_algo_ok : TsAlgoOk.
Proof.
  split; simpl.
  - intros f pattern len gfp flags h p h' [= <- <-] E. rewrite E.
    split; [pose proof (above_pos h); lia|]. split; [apply above_None|].
    by eexists.
  - intros f pattern len gfp flags h p h' [= <- <-] E. by rewrite E.
  - done.
  - done.
  - intros c f text P B St. rewrite (gather_streams f text) by (rewrite ?gather_fuel_Z; try done; lia). simpl.
    rewrite drop_0. assert (naive_case c (n_pattern c) <> []) as P'.
    { unfold naive_case. destruct (_ =? 0); [done|]. by destruct (n_pattern c). }
    destruct (search_from_spec _ (naive_case c text) 0 P') as [[E N]|(k & E & O & F)]; rewrite E.
    + by left.
    + right. by exists k.
Qed.

(** A module, "kmp", loaded and registered. *)
Definition kmp_ops : ts_ops :=
  TsOps (Some (cstring "kmp")) (Some 11) (Some 12) (Some 13) (Some 14) (Some 15) 7.

Definition empty_ts : ts := Ts ∅ LIST_HEAD mutex_new 0 ∅ ∅.
Definition loaded_ts : ts := set ts_memL {[100 := kmp_ops]} empty_ts.
Definition kmp_ts : ts := set ts_listL (list_add_tail 100 LIST_HEAD) loaded_ts.

(** A configuration of "kmp" for the pattern Nishad. *)
Definition conf_ts : ts :=
  set ts_confsL {[1 := TsConfig (Some 100) None (Naive (bytes "Nishad") 1)]} kmp_ts.

Definition no_loader : list byte -> M ts unit := fun _ => mret tt.

Lemma no_loader_ok : loader_ok no_loader.
Proof. intros nm s W. do 2 eexists. by split_and!. Qed.

Lemma empty_ts_init : ts_init_state empty_ts.
Proof. by split_and!. Qed.

Lemma loaded_ts_wf : ts_wf loaded_ts.
Proof. split; [|done]. split; simpl; [constructor|set_solver..]. Qed.

Lemma kmp_ts_wf : ts_wf kmp_ts.
Proof.
  split; [|done].
  apply (registry_wf_add loaded_ts kmp_ts 100 kmp_ops (bytes "kmp")); try reflexivity.
  apply loaded_ts_wf.
Qed.

Lemma textsearch_register_refines_witness :
  exists s', textsearch_register 100 loaded_ts = Done 0 s' [] /\
    registered s' (bytes "kmp") = Some 100.
Proof.
  destruct (textsearch_register_refines loaded_ts 100 kmp_ops loaded_ts_wf eq_refl
    ltac:(intros _; by eexists)) as (e & s' & E & _ & _ & _ & _ & n & Hn & R).
  injection Hn as <-. destruct R as [-> R]. exists s'. split; [exact E|].
  rewrite R. by rewrite decide_True.
Defined.

Lemma textsearch_unregister_refines_witness :
  exists e s', textsearch_unregister 100 kmp_ts = Done e s' [] /\ ts_wf s'.
Proof.
  destruct (textsearch_unregister_refines kmp_ts 100 kmp_ts_wf) as (e & s' & E & W & _).
  by exists e, s'.
Defined.

Lemma lookup_ts_algo_correct_witness :
  exists r m, lookup_ts_algo (cstring "kmp") kmp_ts = Done r (set ts_modsL m kmp_ts) [].
Proof.
  destruct (lookup_ts_algo_correct kmp_ts (cstring "kmp") (bytes "kmp") kmp_ts_wf eq_refl)
    as (r & m & E & _). by exists r, m.
Defined.

Lemma textsearch_prepare_correct_witness :
  exists p s' out, textsearch_prepare true no_loader (cstring "bm") (bytes "Nishad") 6 0 1 kmp_ts
    = Done p s' out /\ ts_wf s'.
Proof.
  destruct (textsearch_prepare_correct true no_loader kmp_ts (cstring "bm") (bytes "bm")
    (bytes "Nishad") 6 0 1 kmp_ts_wf eq_refl ltac:(simpl; lia) no_loader_ok)
    as (p & s' & out & E & W & _). by exists p, s', out.
Defined.

Lemma textsearch_prepare_destroy_witness :
  exists p s1 s2 out,
    textsearch_prepare true no_loader (cstring "kmp") (bytes "Nishad") 6 0 1 kmp_ts
      = Done p s1 out /\
    textsearch_destroy p s1 = Done tt s2 [] /\ ts_confs s2 = ∅.
Proof.
  assert (match textsearch_prepare true no_loader (cstring "kmp") (bytes "Nishad") 6 0 1 kmp_ts
    with Done p _ _ => IS_ERR p | Undef _ => true end = false) as X by reflexivity.
  destruct (textsearch_prepare true no_loader (cstring "kmp") (bytes "Nishad") 6 0 1 kmp_ts)
    as [p s1 out|] eqn:E; [|discriminate].
  destruct (textsearch_prepare_destroy true no_loader kmp_ts (cstring "kmp") (bytes "kmp")
    (bytes "Nishad") 6 0 1 p s1 out kmp_ts_wf eq_refl ltac:(simpl; lia) no_loader_ok E X)
    as (s2 & D & C & _). exists p, s1, s2, out. split; [reflexivity|]. split; [exact D|exact C].
Defined.


Lemma textsearch_refcounts_witness : ts_wf empty_ts.
Proof.
  apply (textsearch_refcounts true no_loader empty_ts no_loader_ok).
  apply reachable_init, empty_ts_init.
Defined.
