(* ===== verification/Netfilter.v ===== *)
(** * The netfilter hook (Task_19/netfilter.c)

    A client of the text search infrastructure: it prepares one configuration
    when the module is loaded, searches every outgoing packet with it, and
    destroys it when the module is unloaded. The search of a packet
    (skb_find_text), its continuation (textsearch_next) and the registration
    of hooks are the kernel's. *)

From Stdlib Require Import ZArith Lia Strings.Byte.
From stdpp Require Import base strings gmap sets numbers list.
From S2P Require Import Prelude.
From S2P Require Import CString.
From S2P Require Import Kernel.
From S2P Require Import KernelInst.
From S2P Require Import TextSearch.

(** NF_ACCEPT (linux/netfilter.h). *)
Definition NF_ACCEPT : Z := 1.

Section Netfilter.
Context `{KList Z} `{ModuleRefs Z} `{Mutex} `{ErrPtr} `{!TsAlgo}.

(** ** State *)

(** The text search core, the module's two statics, and whether its hook is
    registered. *)
Record nfm := Nfm {
  core : ts;
  conf : Z;
  eustate : ts_state;
  hooked : bool;
}.

Definition coreL : lens nfm ts :=
  Lens core (fun x s => Nfm x (conf s) (eustate s) (hooked s)).
Definition confL : lens nfm Z :=
  Lens conf (fun x s => Nfm (core s) x (eustate s) (hooked s)).
Definition eustateL : lens nfm ts_state :=
  Lens eustate (fun x s => Nfm (core s) (conf s) x (hooked s)).
Definition hookedL : lens nfm bool :=
  Lens hooked (fun x s => Nfm (core s) (conf s) (eustate s) x).

(** A search of the bytes of a packet, and the continuation of one: each
    returns a position, or UINT_MAX; the second has no packet to look at but
    what the state it is given remembers. *)
Variable skb_find_text : list byte -> ts_config priv -> Z.
Variable textsearch_next : ts_config priv -> ts_state -> Z * ts_state.

Variable config_modules : bool.
Variable request_module : list byte -> M ts unit.

(** The allocation flags, which the algorithm passes on. *)
Variable GFP_KERNEL : Z.

(** nf_register_net_hook: an error code, 0 when the hook is in place. *)
Variable nf_register_error : Z.

(** ** Operations *)

(** textsearch_next(conf, &eustate). *)
Definition next_match : M nfm Z :=
  p ← kread confL;
  c ← zoom coreL (load_conf p);
  st ← kread eustateL;
  (let r := textsearch_next c st in kwrite eustateL r.2 ;; mret r.1).

(** The loop of the hook; [fuel] bounds the matches that are reported. *)
Fixpoint report (fuel : nat) (pos : Z) : M nfm unit :=
  if pos =? UINT_MAX then mret tt else
  match fuel with
  | O => undef OutOfFuel
  | S f =>
      printk "the pos is %d" [ArgZ (s32 pos)] ;;
      printk "Nishad Kamdar at %d" [ArgZ (s32 pos)] ;;
      pos ← next_match;
      report f pos
  end.

Definition eudyptula_hook (fuel : nat) (data : list byte) : M nfm Z :=
  p ← kread confL;
  c ← zoom coreL (load_conf p);
  report fuel (skb_find_text data c) ;;
  printk "Packet received of length %d" [ArgZ (s32 (Z.of_nat (length data)))] ;;
  mret NF_ACCEPT.

Definition nf_register_net_hook : M nfm Z :=
  (if nf_register_error =? 0 then kwrite hookedL true else mret tt) ;; mret nf_register_error.

Definition init : M nfm Z :=
  printk "registering hook" [] ;;
  p ← zoom coreL (textsearch_prepare config_modules request_module
                    (cstring "kmp") (cstring "Nishad") 6 GFP_KERNEL 1);
  kwrite confL p ;;
  if IS_ERR p then mret (PTR_ERR p) else nf_register_net_hook.

(** The exit, up to the call of nf_unregister_net_hook, and that call. *)
Definition fini_destroy : M nfm unit :=
  printk "unregistering hook" [] ;;
  p ← kread confL;
  zoom coreL (textsearch_destroy p).

Definition nf_unregister_net_hook : M nfm unit := kwrite hookedL false.

Definition fini : M nfm unit := fini_destroy ;; nf_unregister_net_hook.

(** ** What a search goes through *)

(** The positions textsearch_next gives from a state on, until UINT_MAX, and
    the state it leaves. *)
Inductive continues (c : ts_config priv) : ts_state -> list Z -> ts_state -> Prop :=
| continues_end st : (textsearch_next c st).1 = UINT_MAX ->
    continues c st [] (textsearch_next c st).2
| continues_more st l st' : (textsearch_next c st).1 <> UINT_MAX ->
    continues c (textsearch_next c st).2 l st' ->
    continues c st ((textsearch_next c st).1 :: l) st'.

(** What the hook prints for a list of positions. *)
Definition lines (l : list Z) : list kmsg :=
  concat (map (fun p => [Printk "the pos is %d" [ArgZ (s32 p)];
                         Printk "Nishad Kamdar at %d" [ArgZ (s32 p)]]) l).
End Netfilter.

Arguments Nfm {_ _ _ _} _ _ _ _.
Arguments core {_ _ _ _} _.
Arguments conf {_ _ _ _} _.
Arguments eustate {_ _ _ _} _.
Arguments hooked {_ _ _ _} _.

(** ** Lemmas *)

Section NetfilterFacts.
Context `{KListOk Z} `{ModuleRefsOk Z} `{MutexOk} `{ErrPtrOk} `{!TsAlgo} `{!TsAlgoOk}.
Variable skb_find_text : list byte -> ts_config priv -> Z.
Variable textsearch_next : ts_config priv -> ts_state -> Z * ts_state.
Implicit Types s : nfm.

Lemma conf_exec s c :
  ts_confs (core s) !! conf s = Some c ->
  zoom coreL (load_conf (conf s)) s = Done c s [].
Proof.
  intros E. unfold zoom, load_conf. simpl. rewrite exec_bind_read. simpl. rewrite E. by destruct s.
Qed.

Lemma next_match_exec s c :
  ts_confs (core s) !! conf s = Some c ->
  next_match textsearch_next s =
    Done (textsearch_next c (eustate s)).1 (set eustateL (textsearch_next c (eustate s)).2 s) [].
Proof.
  intros E. unfold next_match. rewrite exec_bind_read. simpl.
  rewrite (exec_bind _ _ _ _ _ _ (conf_exec s c E)), tell_nil. by kexec.
Qed.

Lemma report_exec s c pos l st fuel :
  ts_confs (core s) !! conf s = Some c -> pos <> UINT_MAX ->
  continues textsearch_next c (eustate s) l st -> (length l < fuel)%nat ->
  report textsearch_next fuel pos s = Done tt (set eustateL st s) (lines (pos :: l)).
Proof.
  intros E N C. revert pos N fuel. remember (eustate s) as st0 eqn:Es.
  revert s E Es. induction C as [st0 U|st0 l st N' C IH]; intros s E Es pos N fuel L;
    (destruct fuel as [|fuel]; simpl in L; [lia|]);
    simpl; rewrite (proj2 (Z.eqb_neq pos UINT_MAX) N), !exec_bind_printk;
    rewrite (exec_bind _ _ _ _ _ _ (next_match_exec s c E)), <- Es, !tell_nil.
  - rewrite U. destruct fuel; simpl; by rewrite ?Z.eqb_refl.
  - rewrite (IH (set eustateL (textsearch_next c st0).2 s)); [done|done|done|done|lia].
Qed.

(** The hook on a packet. *)
Lemma hook_exec s c l st fuel data :
  ts_confs (core s) !! conf s = Some c ->
  continues textsearch_next c (eustate s) l st -> (length l < fuel)%nat ->
  let pos := skb_find_text data c in
  eudyptula_hook skb_find_text textsearch_next fuel data s =
    Done NF_ACCEPT (if pos =? UINT_MAX then s else set eustateL st s)
      ((if pos =? UINT_MAX then [] else lines (pos :: l)) ++
       [Printk "Packet received of length %d" [ArgZ (s32 (Z.of_nat (length data)))]]).
Proof.
  intros E C L pos. unfold eudyptula_hook. rewrite exec_bind_read. simpl.
  rewrite (exec_bind _ _ _ _ _ _ (conf_exec s c E)), tell_nil. fold pos.
  destruct (Z.eqb_spec pos UINT_MAX) as [U|N].
  - assert (report textsearch_next fuel pos s = Done tt s []) as Er.
    { destruct fuel; simpl; by rewrite (proj2 (Z.eqb_eq _ _) U). }
    by rewrite (exec_bind _ _ _ _ _ _ Er), tell_nil.
  - by rewrite (exec_bind _ _ _ _ _ _ (report_exec s c pos l st fuel E N C L)).
Qed.
End NetfilterFacts.

(** ** Theorems *)

Section NetfilterTheorems.
Context `{KListOk Z} `{ModuleRefsOk Z} `{MutexOk} `{ErrPtrOk} `{!TsAlgo} `{!TsAlgoOk}.
Variable skb_find_text : list byte -> ts_config priv -> Z.
Variable textsearch_next : ts_config priv -> ts_state -> Z * ts_state.
Implicit Types s : nfm.

(** C35: the hook accepts every packet. It reports the first match and then what
    continuing the module's own search state gives, up to the end of that
    search: those further positions are the same whatever the packet, since
    only the first search looks at it. *)
Theorem hook_reports s c l st fuel :
  ts_confs (core s) !! conf s = Some c ->
  continues textsearch_next c (eustate s) l st -> (length l < fuel)%nat ->
  forall data, let pos := skb_find_text data c in
    eudyptula_hook skb_find_text textsearch_next fuel data s =
      Done NF_ACCEPT (if pos =? UINT_MAX then s else set eustateL st s)
        ((if pos =? UINT_MAX then [] else lines (pos :: l)) ++
         [Printk "Packet received of length %d" [ArgZ (s32 (Z.of_nat (length data)))]]).
Proof.
  intros E C L data. by apply hook_exec.
Qed.

(** C36: loading the module passes on the error of textsearch_prepare, which is
    that "kmp" is not available even after autoloading or that of its init
    callback, with the configurations and the reference counts as they were;
    or it prepares one configuration of the algorithm registered as "kmp" for
    the six letters of the name, holds one reference to its module, and returns
    what registering the hook returns. After that, unloading brings the configurations and the
    reference counts back; but when the hook could not be registered the
    module is not loaded, nothing calls the exit, and both stay. *)
Theorem init_fini cm loader gfp err s :
  ts_wf (core s) -> loader_ok loader ->
  exists v s', runs (init cm loader gfp err) s v s' /\
    if IS_ERR (conf s') then
      v = PTR_ERR (conf s') /\ hooked s' = hooked s /\
      ts_confs (core s') = ts_confs (core s) /\
      same_refs (ts_mods (core s)) (ts_mods (core s')) /\
      (conf s' = ERR_PTR (- ENOENT) /\ unavailable (core s') (bytes "kmp") \/
       exists a o f, registered (core s') (bytes "kmp") = Some a /\
         ts_mem (core s') !! a = Some o /\ ts_init o = Some f /\
         conf s' = (run_init f (cstring "Nishad") 6 gfp 1 (ts_confs (core s))).1)
    else
      v = err /\ hooked s' = (if err =? 0 then true else hooked s) /\
      (exists c a o, registered (core s') (bytes "kmp") = Some a /\ conf_ops c = Some a /\
         ts_mem (core s') !! a = Some o /\ ts_confs (core s') = <[conf s' := c]> (ts_confs (core s)) /\
         ts_confs (core s) !! conf s' = None /\ pattern_of (conf_priv c) = bytes "Nishad" /\
         flags_of (conf_priv c) = 1 /\
         one_more (ts_owner o) (ts_mods (core s)) (ts_mods (core s'))) /\
      exists s2, runs fini s' tt s2 /\ hooked s2 = false /\
        ts_confs (core s2) = ts_confs (core s) /\
        same_refs (ts_mods (core s)) (ts_mods (core s2)).
Proof.
  intros W L.
  destruct (textsearch_prepare_exec cm loader (core s) (cstring "kmp") (bytes "kmp")
    (cstring "Nishad") 6 gfp 1 W eq_refl ltac:(vm_compute; split; [reflexivity|discriminate]) L)
    as (p & c1 & out & E & W1 & _ & P).
  pose proof (zoom_done coreL _ s _ _ _ E) as Z. simpl in Z.
  unfold init, runs. setoid_rewrite exec_bind_printk.
  setoid_rewrite (exec_bind _ _ _ _ _ _ Z). setoid_rewrite exec_bind_write. simpl.
  destruct (IS_ERR p) eqn:Ep.
  - destruct P as (C & R & Why). eexists _, _. split; [by eexists|]. simpl. rewrite Ep.
    split_and!; done.
  - destruct P as (F & a & o & c & Ra & Eo & Ea & [Pc Fc] & C & R).
    set (s1 := Nfm c1 p (eustate s) (if err =? 0 then true else hooked s)).
    exists err, s1. split.
    { unfold nf_register_net_hook, s1. destruct (err =? 0); kexec; by eexists. }
    simpl. rewrite Ep. split; [done|]. split; [done|]. split.
    { exists c, a, o. split_and!; done. }
    destruct (textsearch_destroy_exec c1 p c a o) as (h & D & Eh);
      [by rewrite C, lookup_insert_eq|done..|].
    eexists. split.
    { unfold fini, fini_destroy. rewrite exec_bind_assoc, exec_bind_printk, exec_bind_assoc.
      rewrite exec_bind_read. simpl.
      rewrite (exec_bind _ _ _ _ _ _ (zoom_done coreL _ s1 _ _ _ D)). by eexists. }
    simpl. split; [done|]. split; [|by apply same_refs_put].
    apply map_eq. intros q. destruct (decide (p = q)) as [<-|N].
    + by rewrite lookup_delete_eq.
    + rewrite lookup_delete_ne, Eh, C by done. by apply lookup_insert_ne.
Qed.

(** The exit destroys the configuration while the hook is still registered:
    a packet that is sent between its two calls makes the hook use the
    configuration after it was freed. *)
Theorem fini_window s c a o :
  ts_confs (core s) !! conf s = Some c -> conf_ops c = Some a -> ts_mem (core s) !! a = Some o ->
  exists s1, runs fini_destroy s tt s1 /\ hooked s1 = hooked s /\
    forall fuel data, eudyptula_hook skb_find_text textsearch_next fuel data s1 = Undef UseAfterFree.
Proof.
  intros E Ea Eo. destruct (textsearch_destroy_exec (core s) (conf s) c a o E Ea Eo) as (h & D & _).
  eexists. split.
  { unfold fini_destroy, runs. rewrite exec_bind_printk, exec_bind_read. simpl.
    rewrite (zoom_done coreL _ s _ _ _ D). by eexists. }
  split; [done|]. intros fuel data. unfold eudyptula_hook. rewrite exec_bind_read.
  apply exec_bind_undef. apply zoom_undef. unfold load_conf. rewrite exec_bind_read. simpl.
  by rewrite lookup_delete_eq.
Qed.
End NetfilterTheorems.

(** ** Witnesses *)

(** A search that finds the name, a continuation that ends at once, and the
    module before it is loaded, on a core with "kmp". *)
Definition find_name (data : list byte) (c : ts_config (@priv naive_algo)) : Z :=
  search_from (naive_case (conf_priv c) (n_pattern (conf_priv c))) (naive_case (conf_priv c) data) 0.
Definition no_next (c : ts_config (@priv naive_algo)) (st : ts_state) : Z * ts_state := (UINT_MAX, st).
Definition zero_state : ts_state := TsState 0 (LinearState 0 []).
Definition kmp_nfm : nfm := Nfm kmp_ts 0 zero_state false.
Definition conf_nfm : nfm := Nfm conf_ts 1 zero_state true.

Definition name_conf : ts_config (@priv naive_algo) := TsConfig (Some 100) None (Naive (bytes "Nishad") 1).

Lemma hook_reports_witness :
  eudyptula_hook find_name no_next 1 (bytes "I am Nishad.") conf_nfm =
    Done NF_ACCEPT conf_nfm
      [Printk "the pos is %d" [ArgZ 5]; Printk "Nishad Kamdar at %d" [ArgZ 5];
       Printk "Packet received of length %d" [ArgZ 12]].
Proof.
  exact (hook_reports find_name no_next conf_nfm name_conf
    [] zero_state 1 eq_refl
    (continues_end no_next name_conf zero_state eq_refl)
    (le_n 1) (bytes "I am Nishad.")).
Defined.

Lemma init_fini_witness : exists v s', runs (init true no_loader 0xcc0 0) kmp_nfm v s'.
Proof.
  destruct (init_fini true no_loader 0xcc0 0 kmp_nfm kmp_ts_wf no_loader_ok) as (v & s' & R & _).
  exists v, s'. exact R.
Defined.

Lemma fini_window_witness :
  exists s1, runs fini_destroy conf_nfm tt s1 /\ hooked s1 = true /\
    eudyptula_hook find_name no_next 1 [] s1 = Undef UseAfterFree.
Proof.
  destruct (fini_window find_name no_next conf_nfm name_conf
    100 kmp_ops eq_refl eq_refl eq_refl) as (s1 & R & Hk & U).
  exists s1. split; [exact R|]. split; [exact Hk|exact (U 1%nat [])].
Defined.
