(* ===== verification/TestTs.v ===== *)
(** * The text search test module (Task_19/test_ts.c)

    An earlier form of the netfilter module, whose init function does not
    compile and never registers the hook. The hook and the exit are complete:
    each call of the hook continues a search with a state of its own, which it
    sets to zero, where netfilter.c keeps one for all packets. *)

From Stdlib Require Import ZArith Lia Strings.Byte.
From stdpp Require Import base strings gmap sets numbers list.
From S2P Require Import Prelude.
From S2P Require Import CString.
From S2P Require Import Kernel.
From S2P Require Import KernelInst.
From S2P Require Import TextSearch.
From S2P Require Import Netfilter.

Module TestTs.
Section TestTs.
Context `{KList Z} `{ModuleRefs Z} `{Mutex} `{ErrPtr} `{!TsAlgo}.

(** The module's static and the text search core. *)
Record tsm := Tsm { core : ts; conf : Z }.

Definition coreL : lens tsm ts := Lens core (fun x s => Tsm x (conf s)).
Definition confL : lens tsm Z := Lens conf (fun x s => Tsm (core s) x).

(** As in Netfilter.v. *)
Variable skb_find_text : list byte -> ts_config priv -> Z.
Variable textsearch_next : ts_config priv -> ts_state -> Z * ts_state.

Definition MY_ID : string := "Nishad Kamdar".

(** memset(&eustate, 0, sizeof(struct ts_state)). *)
Definition zeroed : ts_state := TsState 0 (LinearState 0 []).

(** The loop of the hook, on its own state: pos is an int, which the
    comparison with UINT_MAX converts back. *)
Fixpoint report (fuel : nat) (pos : Z) (eustate : ts_state) : M tsm unit :=
  if u32 pos =? UINT_MAX then mret tt else
  match fuel with
  | O => undef OutOfFuel
  | S f =>
      printk "Nishad Kamdar at %d" [ArgZ pos] ;;
      p ← kread confL;
      c ← zoom coreL (load_conf p);
      (let r := textsearch_next c eustate in report f (s32 r.1) r.2)
  end.

Definition eudyptula_hook (fuel : nat) (data : list byte) : M tsm Z :=
  p ← kread confL;
  c ← zoom coreL (load_conf p);
  report fuel (s32 (skb_find_text data c)) zeroed ;;
  mret NF_ACCEPT.

Definition fini : M tsm unit := p ← kread confL; zoom coreL (textsearch_destroy p).

(** What it prints for a list of positions. *)
Definition lines (l : list Z) : list kmsg :=
  map (fun p => Printk "Nishad Kamdar at %d" [ArgZ (s32 p)]) l.
End TestTs.

Arguments Tsm {_ _ _ _} _ _.
Arguments core {_ _ _ _} _.
Arguments conf {_ _ _ _} _.
End TestTs.

Import TestTs.

(** ** Lemmas *)

Section TestTsFacts.
Context `{KListOk Z} `{ModuleRefsOk Z} `{MutexOk} `{ErrPtrOk} `{!TsAlgo} `{!TsAlgoOk}.
Variable skb_find_text : list byte -> ts_config priv -> Z.
Variable textsearch_next : ts_config priv -> ts_state -> Z * ts_state.

(** The positions are unsigned ints. *)
Hypothesis positions : forall c st, 0 <= (textsearch_next c st).1 < two32.
Implicit Types s : tsm.

Lemma test_conf_exec s c :
  ts_confs (core s) !! conf s = Some c -> zoom coreL (load_conf (conf s)) s = Done c s [].
Proof.
  intros E. unfold zoom, load_conf. simpl. rewrite exec_bind_read. simpl. rewrite E. by destruct s.
Qed.

Lemma test_report_exec s c pos l st st' fuel :
  ts_confs (core s) !! conf s = Some c -> 0 <= pos < two32 -> pos <> UINT_MAX ->
  continues textsearch_next c st l st' -> (length l < fuel)%nat ->
  report textsearch_next fuel (s32 pos) st s = Done tt s (lines (pos :: l)).
Proof.
  intros E B N C. revert pos B N fuel. induction C as [st U|st l st' N' C IH]; intros pos B N fuel L;
    (destruct fuel as [|fuel]; simpl in L; [lia|]);
    simpl; rewrite u32_s32, (proj2 (Z.eqb_neq pos UINT_MAX) N), exec_bind_printk by done;
    rewrite exec_bind_read; simpl; rewrite (exec_bind _ _ _ _ _ _ (test_conf_exec s c E)), tell_nil;
    pose proof (positions c st) as B'.
  - rewrite U. by destruct fuel; simpl.
  - by rewrite (IH _ B' N' fuel) by lia.
Qed.
End TestTsFacts.

(** ** Theorems *)

Section TestTsTheorems.
Context `{KListOk Z} `{ModuleRefsOk Z} `{MutexOk} `{ErrPtrOk} `{!TsAlgo} `{!TsAlgoOk}.
Variable skb_find_text : list byte -> ts_config priv -> Z.
Variable textsearch_next : ts_config priv -> ts_state -> Z * ts_state.
Implicit Types s : tsm.

(** The hook accepts every packet, changes nothing, and reports the first match
    and then what the continuation of a zeroed state gives: what it reports
    depends on the packet and on no packet before it, unlike the hook of
    netfilter.c, though past the first match it is still the same for every
    packet. The loop ends although pos is signed. *)
Theorem test_hook_reports s c l st fuel :
  (forall c st, 0 <= (textsearch_next c st).1 < two32) ->
  ts_confs (core s) !! conf s = Some c ->
  continues textsearch_next c zeroed l st -> (length l < fuel)%nat ->
  forall data, let pos := skb_find_text data c in
    0 <= pos < two32 ->
    eudyptula_hook skb_find_text textsearch_next fuel data s =
      Done NF_ACCEPT s (if pos =? UINT_MAX then [] else lines (pos :: l)).
Proof.
  intros P E C L data pos B.
  unfold eudyptula_hook. rewrite exec_bind_read. simpl.
  rewrite (exec_bind _ _ _ _ _ _ (test_conf_exec s c E)), tell_nil. fold pos.
  destruct (Z.eqb_spec pos UINT_MAX) as [U|N].
  - rewrite U. by destruct fuel.
  - rewrite (exec_bind _ _ _ _ _ _ (test_report_exec _ P s c pos l zeroed st fuel E B N C L)).
    unfold mret, M_ret. simpl. by rewrite app_nil_r.
Qed.

(** The exit gives the configuration and the reference back. *)
Theorem test_fini s c a o :
  ts_confs (core s) !! conf s = Some c -> conf_ops c = Some a -> ts_mem (core s) !! a = Some o ->
  exists s', fini s = Done tt s' [] /\ ts_confs (core s') !! conf s = None /\
    (forall q, q <> conf s -> ts_confs (core s') !! q = ts_confs (core s) !! q) /\
    ts_mods (core s') = module_put (ts_owner o) (ts_mods (core s)).
Proof.
  intros E Ea Eo. destruct (textsearch_destroy_exec (core s) (conf s) c a o E Ea Eo) as (h & D & Eh).
  eexists. split.
  { unfold fini. rewrite exec_bind_read. simpl. exact (zoom_done coreL _ s _ _ _ D). }
  simpl. split; [apply lookup_delete_eq|split; [|done]].
  intros q Nq. rewrite lookup_delete_ne by done. by apply Eh.
Qed.
End TestTsTheorems.

(** ** Witnesses *)

Lemma test_hook_reports_witness :
  eudyptula_hook find_name no_next 1 (bytes "I am Nishad.") (Tsm conf_ts 1) =
    Done NF_ACCEPT (Tsm conf_ts 1) [Printk "Nishad Kamdar at %d" [ArgZ 5]].
Proof.
  refine (test_hook_reports find_name no_next (Tsm conf_ts 1) name_conf [] zeroed 1 _ eq_refl
    (continues_end no_next name_conf zeroed eq_refl) (le_n 1) (bytes "I am Nishad.") _).
  - intros c st. simpl. unfold UINT_MAX, two32. lia.
  - change (0 <= 5 < two32). unfold two32. lia.
Defined.
