(* ===== verification/Streams.v ===== *)
(** * Streams of tokens (Task_17/kthreads/prod_cons/prod-cons.c)

    A stream is a bounded buffer with three counting semaphores. [put] and
    [get] are sequences of atomic steps, so that any number of threads can
    interleave them; the queue is external (queue_a.h) and a parameter. *)

From Stdlib Require Import ZArith Lia Strings.Byte.
From stdpp Require Import base strings gmap sets numbers list.
From S2P Require Import Prelude.
From S2P Require Import Kernel.
From S2P Require Import KernelInst.

(** ** The queue (queue_a.h) *)

Class Queue (V : Type) := {
  queue : Type;
  items : queue -> list V;
  init_queue : queue;
  enqueue : queue -> V -> queue;
  dequeue : queue -> option (V * queue);   (* None: the queue is empty *)
  nelem : queue -> Z;
}.

Class QueueOk (V : Type) `{Queue V} : Prop := {
  items_init : items init_queue = [];
  items_enqueue : forall q v, items (enqueue q v) = items q ++ [v];
  dequeue_cons : forall q v l, items q = v :: l ->
    exists q', dequeue q = Some (v, q') /\ items q' = l;
  nelem_items : forall q, nelem q = Z.of_nat (length (items q));
}.

Definition BUFFER_SIZE : Z := 5.

Section Stream.
Context `{Semaphore} `{Queue V}.

(** ** A stream and its operations *)

Record stream := Stream {
  empty : semaphore;
  full : semaphore;
  smutex : semaphore;
  buffer : queue;
}.

Definition set_empty x s := Stream x (full s) (smutex s) (buffer s).
Definition set_full x s := Stream (empty s) x (smutex s) (buffer s).
Definition set_smutex x s := Stream (empty s) (full s) x (buffer s).
Definition set_buffer x s := Stream (empty s) (full s) (smutex s) x.

(** The part of init_stream that is about the stream. *)
Definition new_stream : stream :=
  Stream (sema_init BUFFER_SIZE) (sema_init 0) (sema_init 1) init_queue.

(** down_interruptible takes a semaphore that is available; otherwise it
    sleeps, unless a signal is pending, which makes it return -EINTR. *)
Definition down_interruptible (signal : bool) (s : semaphore) : option (Z * semaphore) :=
  match down s with
  | Some s' => Some (0, s')
  | None => if signal then Some (- EINTR, s) else None
  end.

(** A thread inside put or get: before each of its steps, and at its return. *)
Inductive call :=
| PutEmpty (value : V)              (* if (down_interruptible(empty)) return -1; *)
| PutMutex (value : V)              (* if (down_interruptible(mutex)) return -1; *)
| PutEnqueue (value : V)            (* enqueue(q, value); *)
| PutUpMutex                        (* up(mutex); *)
| PutUpFull                         (* up(full); *)
| PutReturned (r : Z)
| GetFull                           (* if (down_interruptible(full)) return NULL; *)
| GetMutex                          (* if (down_interruptible(mutex)) return NULL; *)
| GetDequeue                        (* ret = dequeue(q); *)
| GetUpMutex (ret : V)              (* up(mutex); *)
| GetUpEmpty (ret : V)              (* up(empty); *)
| GetReturned (r : option V).

Inductive outcome :=
| Moves (c : call) (s : stream)
| Sleeps
| Undefined.       (* dequeue of an empty queue, or a step after the return *)

(** One step of a call. *)
Definition put_step (signal : bool) (c : call) (s : stream) : outcome :=
  match c with
  | PutEmpty v =>
      match down_interruptible signal (empty s) with
      | None => Sleeps
      | Some (r, e) => if negb (r =? 0) then Moves (PutReturned (-1)) s
                       else Moves (PutMutex v) (set_empty e s)
      end
  | PutMutex v =>
      match down_interruptible signal (smutex s) with
      | None => Sleeps
      | Some (r, m) => if negb (r =? 0) then Moves (PutReturned (-1)) s
                       else Moves (PutEnqueue v) (set_smutex m s)
      end
  | PutEnqueue v => Moves PutUpMutex (set_buffer (enqueue (buffer s) v) s)
  | PutUpMutex => Moves PutUpFull (set_smutex (up (smutex s)) s)
  | PutUpFull => Moves (PutReturned 0) (set_full (up (full s)) s)
  | _ => Undefined
  end.

Definition get_step (signal : bool) (c : call) (s : stream) : outcome :=
  match c with
  | GetFull =>
      match down_interruptible signal (full s) with
      | None => Sleeps
      | Some (r, f) => if negb (r =? 0) then Moves (GetReturned None) s
                       else Moves GetMutex (set_full f s)
      end
  | GetMutex =>
      match down_interruptible signal (smutex s) with
      | None => Sleeps
      | Some (r, m) => if negb (r =? 0) then Moves (GetReturned None) s
                       else Moves GetDequeue (set_smutex m s)
      end
  | GetDequeue =>
      match dequeue (buffer s) with
      | Some (v, q) => Moves (GetUpMutex v) (set_buffer q s)
      | None => Undefined
      end
  | GetUpMutex v => Moves (GetUpEmpty v) (set_smutex (up (smutex s)) s)
  | GetUpEmpty v => Moves (GetReturned (Some v)) (set_empty (up (empty s)) s)
  | _ => Undefined
  end.

Definition is_put (c : call) : bool :=
  match c with
  | PutEmpty _ | PutMutex _ | PutEnqueue _ | PutUpMutex | PutUpFull | PutReturned _ => true
  | _ => false
  end.

Definition returned (c : call) : bool :=
  match c with PutReturned _ | GetReturned _ => true | _ => false end.

Definition call_step (signal : bool) (c : call) (s : stream) : outcome :=
  if is_put c then put_step signal c s else get_step signal c s.

(** A call run by the only running thread. *)
Fixpoint run_call (fuel : nat) (signal : bool) (c : call) (s : stream) : outcome :=
  if returned c then Moves c s else
  match fuel with
  | O => Undefined
  | S n => match call_step signal c s with
           | Moves c' s' => run_call n signal c' s'
           | o => o
           end
  end.

Definition put (signal : bool) (value : V) (s : stream) : outcome :=
  run_call 5 signal (PutEmpty value) s.
Definition get (signal : bool) (s : stream) : outcome :=
  run_call 5 signal GetFull s.

(** ** Many threads on one stream *)

(** The threads inside a call, and four history variables the code does not
    have: the values that went through the buffer, in order, at each end, and
    how many slots and tokens an interrupted call took and did not give back. *)
Record system := System {
  str : stream;
  threads : gmap Z call;
  sent : list V;
  received : list V;
  lost_slots : Z;
  lost_tokens : Z;
}.

(** What a step adds to the histories. *)
Definition sent_by (c c' : call) : list V :=
  match c, c' with PutEnqueue v, PutUpMutex => [v] | _, _ => [] end.
Definition received_by (c c' : call) : list V :=
  match c, c' with GetDequeue, GetUpMutex v => [v] | _, _ => [] end.
Definition slot_lost (c c' : call) : Z :=
  match c, c' with PutMutex _, PutReturned _ => 1 | _, _ => 0 end.
Definition token_lost (c c' : call) : Z :=
  match c, c' with GetMutex, GetReturned _ => 1 | _, _ => 0 end.

Definition move (t : Z) (c c' : call) (s' : stream) (y : system) : system :=
  System s' (<[t := c']> (threads y)) (sent y ++ sent_by c c') (received y ++ received_by c c')
    (lost_slots y + slot_lost c c') (lost_tokens y + token_lost c c').

Definition with_threads (ts : gmap Z call) (y : system) : system :=
  System (str y) ts (sent y) (received y) (lost_slots y) (lost_tokens y).

Inductive stream_step : system -> system -> Prop :=
| thread_puts y t v :
    threads y !! t = None -> stream_step y (with_threads (<[t := PutEmpty v]> (threads y)) y)
| thread_gets y t :
    threads y !! t = None -> stream_step y (with_threads (<[t := GetFull]> (threads y)) y)
| thread_moves y t signal c c' s' :
    threads y !! t = Some c -> call_step signal c (str y) = Moves c' s' ->
    stream_step y (move t c c' s' y)
| thread_returns y t c :
    threads y !! t = Some c -> returned c = true ->
    stream_step y (with_threads (delete t (threads y)) y).

Definition new_system (y : system) : Prop :=
  y = System new_stream ∅ [] [] 0 0.

(** ** The accounts *)

(** A slot taken and its value not yet in the buffer; a value in the buffer
    that [full] does not count yet, or no longer; a slot not given back yet;
    a thread that holds the mutex. *)
Definition w_slot (c : call) : Z :=
  match c with PutMutex _ | PutEnqueue _ => 1 | _ => 0 end.
Definition w_item (c : call) : Z :=
  match c with PutUpMutex | PutUpFull | GetMutex | GetDequeue => 1 | _ => 0 end.
Definition w_freed (c : call) : Z :=
  match c with GetUpMutex _ | GetUpEmpty _ => 1 | _ => 0 end.
Definition w_mutex (c : call) : Z :=
  match c with PutEnqueue _ | PutUpMutex | GetDequeue | GetUpMutex _ => 1 | _ => 0 end.

Definition nitems (y : system) : Z := Z.of_nat (length (items (buffer (str y)))).

Record stream_inv (y : system) : Prop := {
  inv_nonneg : 0 <= sem_count (empty (str y)) /\ 0 <= sem_count (full (str y)) /\
    0 <= sem_count (smutex (str y)) /\ 0 <= lost_slots y /\ 0 <= lost_tokens y;
  inv_mutex : sem_count (smutex (str y)) + msum w_mutex (threads y) = 1;
  inv_full : nitems y =
    sem_count (full (str y)) + msum w_item (threads y) + lost_tokens y;
  inv_empty : sem_count (empty (str y)) + msum w_slot (threads y) + nitems y +
    msum w_freed (threads y) + lost_slots y = BUFFER_SIZE;
  inv_fifo : sent y = received y ++ items (buffer (str y));
}.
End Stream.

Arguments Stream {_ _ _} _ _ _ _.
Arguments call V : clear implicits.
Arguments outcome {_} V {_}.
Arguments stream {_} V {_}.
Arguments system {_} V {_}.

(** ** Lemmas *)

Section StreamFacts.
Context `{SemaphoreOk} `{!Queue V} `{!QueueOk V}.
Implicit Types (s : stream V) (c : call V) (y : system V).

Lemma down_interruptible_Some signal m r m' :
  down_interruptible signal m = Some (r, m') ->
  (r = 0 /\ 0 < sem_count m /\ sem_count m' = sem_count m - 1) \/
  (r = - EINTR /\ signal = true /\ m' = m /\ sem_count m <= 0).
Proof.
  unfold down_interruptible. destruct (down m) as [m1|] eqn:E.
  - intros [= <- <-]. left. by apply down_Some in E as [].
  - destruct signal; [|done]. intros [= <- <-]. right. by apply down_None in E.
Qed.

Lemma down_interruptible_ok signal m :
  0 < sem_count m -> exists m', down_interruptible signal m = Some (0, m') /\
    sem_count m' = sem_count m - 1.
Proof.
  intros P. unfold down_interruptible. destruct (down m) as [m'|] eqn:E.
  - exists m'. by apply down_Some in E as [].
  - apply down_None in E. lia.
Qed.

Lemma down_interruptible_None signal m :
  down_interruptible signal m = None <-> sem_count m <= 0 /\ signal = false.
Proof.
  unfold down_interruptible. destruct (down m) as [m'|] eqn:E.
  - apply down_Some in E as []. split; [done|]. lia.
  - apply down_None in E. destruct signal; naive_solver.
Qed.

(** What one step moves from one account to another. *)
Definition nbuf (s : stream V) : Z := Z.of_nat (length (items (buffer s))).

Record moved (c c' : call V) (s s' : stream V) : Prop := {
  moved_nonneg : (0 <= sem_count (empty s) -> 0 <= sem_count (empty s')) /\
    (0 <= sem_count (full s) -> 0 <= sem_count (full s')) /\
    (0 <= sem_count (smutex s) -> 0 <= sem_count (smutex s'));
  moved_mutex : sem_count (smutex s') + w_mutex c' = sem_count (smutex s) + w_mutex c;
  moved_full : nbuf s' - sem_count (full s') - w_item c' - token_lost c c' =
    nbuf s - sem_count (full s) - w_item c;
  moved_empty : sem_count (empty s') + w_slot c' + nbuf s' + w_freed c' + slot_lost c c' =
    sem_count (empty s) + w_slot c + nbuf s + w_freed c;
  moved_items : items (buffer s) ++ sent_by c c' = received_by c c' ++ items (buffer s');
}.

Ltac unmoved := split; unfold nbuf; simpl; rewrite ?app_nil_r; try done; try lia.

Lemma call_step_moved signal c s c' s' :
  (c = GetDequeue -> items (buffer s) <> []) -> call_step signal c s = Moves c' s' ->
  moved c c' s s'.
Proof.
  intros Hd. unfold call_step. destruct c; simpl; try done; intros E.
  1, 2, 6, 7: destruct (down_interruptible signal _) as [[r m]|] eqn:Ed; [|done];
    apply down_interruptible_Some in Ed as [(-> & P & Ec)|(-> & _ & -> & P)];
    simpl in E; injection E as <- <-; unmoved.
  - injection E as <- <-. unmoved; rewrite ?items_enqueue, ?length_app; simpl; try done; lia.
  - injection E as <- <-. unmoved; rewrite ?up_count; lia.
  - injection E as <- <-. unmoved; rewrite up_count; lia.
  - destruct (items (buffer s)) as [|v l] eqn:Ei; [by destruct Hd|].
    destruct (dequeue_cons _ _ _ Ei) as (q & Eq & El). rewrite Eq in E.
    injection E as <- <-. unmoved; rewrite ?Ei, El; simpl; rewrite ?app_nil_r; try done; lia.
  - injection E as <- <-. unmoved; rewrite ?up_count; lia.
  - injection E as <- <-. unmoved; rewrite up_count; lia.
Qed.

Lemma new_system_inv y : new_system y -> stream_inv y.
Proof.
  intros ->. split; unfold nitems; simpl;
    rewrite ?sema_init_count, ?msum_empty, ?items_init; unfold BUFFER_SIZE; simpl; lia || done.
Qed.

(** A thread that starts or ends a call carries no account. *)
Lemma stream_inv_threads y ts :
  stream_inv y ->
  (forall w, w ∈ [w_slot; w_item; w_freed; w_mutex] -> msum w ts = msum w (threads y)) ->
  stream_inv (with_threads ts y).
Proof.
  intros [N M F E Q] W. split; unfold nitems in *; simpl; try done; rewrite ?W; try done; set_solver.
Qed.

Lemma w_nonneg w c : w ∈ [@w_slot V; w_item; w_freed; w_mutex] -> 0 <= w c.
Proof. rewrite !elem_of_cons. intros [->|[->|[->|[->|?%elem_of_nil]]]]; destruct c; simpl; done. Qed.

Lemma stream_inv_dequeue y t :
  stream_inv y -> threads y !! t = Some GetDequeue -> items (buffer (str y)) <> [].
Proof.
  intros I E Z. pose proof (inv_full _ I) as F. unfold nitems in F. rewrite Z in F.
  pose proof (msum_ge w_item (threads y) t GetDequeue (fun c => w_nonneg w_item c ltac:(set_solver)) E).
  pose proof (inv_nonneg _ I). simpl in *. lia.
Qed.

(** So no step of a call is undefined. *)
Lemma stream_inv_defined y t signal c :
  stream_inv y -> threads y !! t = Some c -> returned c = false ->
  call_step signal c (str y) <> Undefined.
Proof.
  intros I Et Rt. unfold call_step. destruct c; simpl; try done;
    try (destruct (down_interruptible _ _) as [[r m]|]; [by case_match|done]).
  pose proof (stream_inv_dequeue y t I Et) as D.
  destruct (items (buffer (str y))) as [|v l] eqn:Ei; [done|].
  by destruct (dequeue_cons _ _ _ Ei) as (q & -> & _).
Qed.

Lemma stream_step_inv y y' : stream_inv y -> stream_step y y' -> stream_inv y'.
Proof.
  intros I St. destruct St as [y t v E|y t E|y t signal c c' s' E Es|y t c E R].
  - apply stream_inv_threads; [done|]. intros w Hw. rewrite msum_insert by done.
    rewrite !elem_of_cons in Hw. destruct Hw as [->|[->|[->|[->|?%elem_of_nil]]]]; done.
  - apply stream_inv_threads; [done|]. intros w Hw. rewrite msum_insert by done.
    rewrite !elem_of_cons in Hw. destruct Hw as [->|[->|[->|[->|?%elem_of_nil]]]]; done.
  - destruct (call_step_moved signal c (str y) c' s') as [N M F Em Q];
      [intros ->; by apply (stream_inv_dequeue y t)|done|].
    pose proof I as [N0 M0 F0 E0 Q0].
    assert (0 <= slot_lost c c' /\ 0 <= token_lost c c') as L by (destruct c, c'; simpl; lia).
    split; unfold nitems, nbuf in *; simpl.
    + split_and!; try apply N; try apply N0; lia.
    + rewrite (msum_update _ _ _ c) by done. lia.
    + rewrite (msum_update _ _ _ c) by done. lia.
    + rewrite !(msum_update _ _ _ c) by done. lia.
    + by rewrite Q0, <- app_assoc, Q, app_assoc.
  - apply stream_inv_threads; [done|]. intros w Hw. rewrite (msum_delete w (threads y) t c) by done.
    rewrite !elem_of_cons in Hw.
    destruct Hw as [->|[->|[->|[->|?%elem_of_nil]]]]; try done; destruct c; done.
Qed.

Lemma stream_reachable_inv y : reachable new_system stream_step y -> stream_inv y.
Proof. apply reachable_inv; [apply new_system_inv|intros; by eapply stream_step_inv]. Qed.

(** *** Who can move *)

(** Past the first semaphore, or a getter, or a putter, in front of it. *)
Definition w_inside c : Z := match c with PutEmpty _ | GetFull => 0 | _ => 1 end.
Definition w_putter c : Z := match c with PutEmpty _ => 1 | _ => 0 end.
Definition w_getter c : Z := match c with GetFull => 1 | _ => 0 end.

Definition can_move (c : call V) (s : stream V) : Prop :=
  returned c = true \/ exists c' s', call_step false c s = Moves c' s'.

Lemma holder_can_move y t c :
  stream_inv y -> threads y !! t = Some c -> 0 < w_mutex c -> can_move c (str y).
Proof.
  intros I E W. right. unfold call_step. destruct c; simpl in *; try lia; eauto.
  pose proof (stream_inv_dequeue y t I E) as D.
  destruct (items (buffer (str y))) as [|v l] eqn:Ei; [done|].
  destruct (dequeue_cons _ _ _ Ei) as (q & -> & _). eauto.
Qed.

Lemma inside_can_move c s :
  0 < w_inside c -> w_mutex c = 0 -> 0 < sem_count (smutex s) -> can_move c s.
Proof.
  intros W M P. unfold can_move, call_step. destruct c; simpl in *; try lia; eauto;
    destruct (down_interruptible_ok false (smutex s) P) as (m & -> & _); eauto.
Qed.

Lemma putter_can_move c s : 0 < w_putter c -> 0 < sem_count (empty s) -> can_move c s.
Proof.
  intros W P. right. unfold call_step. destruct c; simpl in *; try lia.
  destruct (down_interruptible_ok false (empty s) P) as (m & -> & _). eauto.
Qed.

Lemma getter_can_move c s : 0 < w_getter c -> 0 < sem_count (full s) -> can_move c s.
Proof.
  intros W P. right. unfold call_step. destruct c; simpl in *; try lia.
  destruct (down_interruptible_ok false (full s) P) as (m & -> & _). eauto.
Qed.

Lemma w_binary w c : w ∈ [@w_inside; w_putter; w_getter; w_mutex] -> w c = 0 \/ w c = 1.
Proof. rewrite !elem_of_cons. intros [->|[->|[->|[->|?%elem_of_nil]]]]; destruct c; simpl; lia. Qed.

(** Either some thread weighs, or none does. *)
Lemma msum_some w (ts : gmap Z (call V)) :
  w ∈ [@w_inside; w_putter; w_getter; w_mutex] ->
  (exists t c, ts !! t = Some c /\ 0 < w c) \/ (forall t c, ts !! t = Some c -> w c = 0).
Proof.
  intros Hw. destruct (decide (0 < msum w ts)) as [P|P]; [left; by apply msum_pos|right].
  intros t c E. pose proof (msum_ge w ts t c) as G.
  destruct (w_binary w c Hw); [done|]. exfalso. apply P.
  enough (w c <= msum w ts) by lia. apply G; [|done].
  intros a. destruct (w_binary w a Hw); lia.
Qed.

(** Whoever is inside a call: someone can move, or all wait for a slot, or all
    wait for a token. *)
Lemma stream_unstuck y :
  stream_inv y -> lost_slots y + lost_tokens y < BUFFER_SIZE ->
  (exists t c, threads y !! t = Some c /\
     (returned c = true \/ exists c' s', call_step false c (str y) = Moves c' s')) \/
  (forall t c, threads y !! t = Some c -> exists v, c = PutEmpty v) \/
  (forall t c, threads y !! t = Some c -> c = GetFull).
Proof.
  intros I L. pose proof I as [N M F E _].
  destruct (msum_some w_mutex (threads y)) as [(t & c & Et & W)|Nm]; [set_solver| |].
  { left. exists t, c. split; [done|]. by apply (holder_can_move y t c). }
  destruct (msum_some w_inside (threads y)) as [(t & c & Et & W)|Ni]; [set_solver| |].
  { left. exists t, c. split; [done|]. apply inside_can_move; [done|by eapply Nm|].
    rewrite msum_zero in M by done. lia. }
  assert (forall w t c, w ∈ [@w_slot V; w_item; w_freed] -> threads y !! t = Some c -> w c = 0) as Z.
  { intros w t c Hw Et. pose proof (Ni t c Et) as Z. rewrite !elem_of_cons in Hw.
    destruct Hw as [->|[->|[->|?%elem_of_nil]]]; try done; by destruct c. }
  rewrite (msum_zero w_item) in F by (intros; eapply Z; [set_solver|done]).
  rewrite (msum_zero w_slot), (msum_zero w_freed) in E by (intros; eapply Z; [set_solver|done]).
  destruct (msum_some w_putter (threads y)) as [(t & c & Et & W)|Np]; [set_solver| |].
  2: { right. right. intros t c Et. pose proof (Ni t c Et). pose proof (Np t c Et).
       by destruct c. }
  destruct (msum_some w_getter (threads y)) as [(t' & c' & Et' & W')|Ng]; [set_solver| |].
  2: { right. left. intros t' c' Et'. pose proof (Ni t' c' Et'). pose proof (Ng t' c' Et').
       destruct c'; try done. by eexists. }
  left. destruct (decide (0 < sem_count (empty (str y)))).
  - exists t, c. split; [done|]. by apply putter_can_move.
  - exists t', c'. split; [done|]. apply getter_can_move; [done|]. lia.
Qed.
End StreamFacts.

(** ** Theorems *)

Section StreamTheorems.
Context `{SemaphoreOk} `{!Queue V} `{!QueueOk V}.
Implicit Types (s : stream V) (c : call V) (y : system V).

(** C5: whatever threads put and get, in whatever interleaving and however
    often they are interrupted: no get dequeues from an empty buffer, so no
    step is undefined; the buffer never holds more than BUFFER_SIZE values;
    and at most one thread is between the two operations on the mutex. *)
Theorem stream_safe y :
  reachable new_system stream_step y ->
  (forall t signal c, threads y !! t = Some c -> returned c = false ->
     call_step signal c (str y) <> Undefined) /\
  nitems y <= BUFFER_SIZE /\
  (forall t1 t2 c1 c2, threads y !! t1 = Some c1 -> threads y !! t2 = Some c2 ->
     w_mutex c1 = 1 -> w_mutex c2 = 1 -> t1 = t2).
Proof.
  intros I%stream_reachable_inv. pose proof I as [N M F E _]. split_and!.
  - intros t signal c Et Rt. by apply (stream_inv_defined y t).
  - assert (forall w, w ∈ [@w_slot V; w_item; w_freed; w_mutex] -> 0 <= msum w (threads y)) as W.
    { intros w Hw. apply msum_nonneg. intros; by apply w_nonneg. }
    pose proof (W w_slot ltac:(set_solver)). pose proof (W w_freed ltac:(set_solver)). lia.
  - intros t1 t2 c1 c2 E1 E2 W1 W2. destruct (decide (t1 = t2)) as [|D]; [done|].
    pose proof (msum_ge_two w_mutex (threads y) t1 t2 c1 c2
      (fun c => w_nonneg w_mutex c ltac:(set_solver)) D E1 E2) as G.
    lia.
Qed.


(** An interrupted call that was waiting for the mutex returns without
    giving back the slot or the token it took: when no call is in progress,
    [empty] and [full] are short by exactly the calls that were so
    interrupted, so the stream has that many slots fewer for good. *)
Theorem stream_leak y :
  reachable new_system stream_step y -> threads y = ∅ ->
  sem_count (full (str y)) = nitems y - lost_tokens y /\
  sem_count (empty (str y)) = BUFFER_SIZE - nitems y - lost_slots y /\
  sem_count (smutex (str y)) = 1.
Proof.
  intros I%stream_reachable_inv T. destruct I as [_ M F E _].
  rewrite T, msum_empty in *. rewrite msum_empty in E. lia.
Qed.

(** No deadlock among put and get: in a reachable state in which fewer
    than BUFFER_SIZE calls lost what they took, either some thread can move
    without a signal, or all threads inside a call are in put, waiting for a
    slot, or all are in get, waiting for a token. *)
Theorem stream_no_deadlock y :
  reachable new_system stream_step y -> lost_slots y + lost_tokens y < BUFFER_SIZE ->
  (exists t c, threads y !! t = Some c /\
     (returned c = true \/ exists c' s', call_step false c (str y) = Moves c' s')) \/
  (forall t c, threads y !! t = Some c -> exists v, c = PutEmpty v) \/
  (forall t c, threads y !! t = Some c -> c = GetFull).
Proof. intros R. by apply stream_unstuck, stream_reachable_inv. Qed.

(** A put that nothing interrupts appends its value and moves one unit from
    [empty] to [full]; on a full stream it sleeps, or, with a signal pending,
    returns -1 and changes nothing. *)
Theorem put_correct signal v s :
  0 < sem_count (smutex s) ->
  if decide (0 < sem_count (empty s)) then
    exists s', put signal v s = Moves (PutReturned 0) s' /\
      items (buffer s') = items (buffer s) ++ [v] /\
      sem_count (empty s') = sem_count (empty s) - 1 /\
      sem_count (full s') = sem_count (full s) + 1 /\
      sem_count (smutex s') = sem_count (smutex s)
  else put signal v s = if signal then Moves (PutReturned (-1)) s else Sleeps.
Proof.
  intros M. unfold put, run_call, call_step. simpl. case_decide as E.
  - destruct (down_interruptible_ok signal (empty s) E) as (e & -> & Ce). simpl.
    destruct (down_interruptible_ok signal (smutex s) M) as (m & -> & Cm). simpl.
    eexists. split; [done|]. simpl. rewrite items_enqueue, !up_count. split_and!; [done|lia..].
  - unfold down_interruptible. destruct (down (empty s)) as [e|] eqn:Ed.
    + apply down_Some in Ed as []. lia.
    + by destruct signal.
Qed.

(** A get that nothing interrupts returns the oldest value and moves one
    unit from [full] to [empty]; on an empty stream it sleeps, or, with a
    signal pending, returns NULL, which the callers dereference. *)
Theorem get_correct signal s :
  0 < sem_count (smutex s) -> sem_count (full s) <= nbuf s ->
  if decide (0 < sem_count (full s)) then
    exists v l s', items (buffer s) = v :: l /\ get signal s = Moves (GetReturned (Some v)) s' /\
      items (buffer s') = l /\
      sem_count (full s') = sem_count (full s) - 1 /\
      sem_count (empty s') = sem_count (empty s) + 1 /\
      sem_count (smutex s') = sem_count (smutex s)
  else get signal s = if signal then Moves (GetReturned None) s else Sleeps.
Proof.
  intros M B. unfold get, run_call, call_step, nbuf in *. simpl. case_decide as E.
  - destruct (items (buffer s)) as [|v l] eqn:Ei; [simpl in B; lia|].
    destruct (down_interruptible_ok signal (full s) E) as (f & -> & Cf). simpl.
    destruct (down_interruptible_ok signal (smutex s) M) as (m & -> & Cm). simpl.
    destruct (dequeue_cons _ _ _ Ei) as (q & -> & Eq). simpl.
    do 3 eexists. split; [done|]. split; [done|]. simpl. rewrite !up_count.
    split_and!; [done|lia..].
  - unfold down_interruptible. destruct (down (full s)) as [f|] eqn:Ed.
    + apply down_Some in Ed as []. lia.
    + by destruct signal.
Qed.
End StreamTheorems.

(** ** Witnesses *)

(** Lists are a queue. *)
#[export] Instance list_queue : Queue Z := {|
  queue := list Z;
  items q := q;
  init_queue := [];
  enqueue q v := q ++ [v];
  dequeue q := match q with [] => None | v :: l => Some (v, l) end;
  nelem q := Z.of_nat (length q);
|}.

#[export] Instance list_queue_ok : QueueOk Z.
Proof. split; simpl; intros; subst; eauto. Qed.

Definition idle : system Z := System new_stream ∅ [] [] 0 0.

Lemma idle_reachable : reachable new_system stream_step idle.
Proof. by apply reachable_init. Qed.

(** Thread 1 is about to get; nothing has been put. *)
Definition getting : system Z := with_threads (<[1 := GetFull]> ∅) idle.

Lemma getting_reachable : reachable new_system stream_step getting.
Proof.
  apply (reachable_step _ _ idle); [apply idle_reachable|].
  apply thread_gets. reflexivity.
Qed.

Lemma stream_safe_witness :
  call_step true (GetFull : call Z) (str getting) <> Undefined /\ nitems getting <= BUFFER_SIZE.
Proof.
  destruct (stream_safe getting getting_reachable) as (S & B & _).
  split; [apply (S 1); reflexivity|exact B].
Defined.


Lemma stream_leak_witness : sem_count (empty (str idle)) = 5.
Proof.
  destruct (stream_leak idle idle_reachable eq_refl) as (_ & E & _). rewrite E. reflexivity.
Defined.

Lemma stream_no_deadlock_witness :
  (exists t c, threads getting !! t = Some c /\
     (returned c = true \/ exists c' s', call_step false c (str getting) = Moves c' s')) \/
  (forall t c, threads getting !! t = Some c -> exists v, c = PutEmpty v) \/
  (forall t c, threads getting !! t = Some c -> c = GetFull).
Proof. exact (stream_no_deadlock getting getting_reachable eq_refl). Defined.

Lemma put_correct_witness :
  exists s', put false 7 (str idle) = Moves (PutReturned 0) s' /\ items (buffer s') = [7].
Proof.
  pose proof (put_correct false 7 (str idle) eq_refl) as P.
  rewrite decide_True in P by reflexivity. destruct P as (s' & E & I & _). by exists s'.
Defined.

Lemma get_correct_witness : get true (str idle) = Moves (GetReturned None) (str idle).
Proof.
  assert (sem_count (full (str idle)) <= nbuf (str idle)) as B by reflexivity.
  exact (get_correct true (str idle) eq_refl B).
Defined.
