(* ===== verification/ProdCons.v ===== *)
(** * The network of streams (Task_17/kthreads/prod_cons/prod-cons.c)

    The global streams and argument blocks of the module, its initialisation
    and its exit. The threads it starts run the functions of the same names,
    which use [put] and [get] of Streams.v. *)

From Stdlib Require Import ZArith Lia Strings.Byte.
From stdpp Require Import base strings gmap sets numbers list.
From S2P Require Import Prelude.
From S2P Require Import Kernel.
From S2P Require Import KernelInst.
From S2P Require Import Streams.

(** ** Data *)

(** The global variables of type Stream and Args, and the thread functions. *)
Inductive sname := suc1 | suc2 | tms1 | tms2 | mrg.
Inductive aname := suc1_args | suc2_args | tms1_args | tms2_args | mrg_args | cons_args.
Inductive tfun := successor | times | merge | consumer.

#[export] Instance sname_eq_dec : EqDecision sname.
Proof. solve_decision. Defined.
#[export] Instance aname_eq_dec : EqDecision aname.
Proof. solve_decision. Defined.

Record Args := MkArgs { self : option sname; prod : option sname }.

Definition mult1 : Z := 3.
Definition mult2 : Z := 5.

Section ProdCons.
Context `{Semaphore} `{Queue V}.

(** A Stream: its links, and its semaphores and buffer once initialised. *)
Record node := Node {
  snext : option sname;
  sargs : option Z;
  sid : Z;
  contents : option (stream V);
}.

Record net := Net {
  idcnt : Z;
  nodes : sname -> node;
  argv : aname -> Args;
  running : list (tfun * aname);
}.

(** The globals when the module is loaded. *)
Definition initial_net : net :=
  Net 1 (fun _ => Node None None 0 None) (fun _ => MkArgs None None) [].

(** A field of a global is written through a pointer to it. *)
Definition set_node (x : sname) (f : node -> node) : M net unit :=
  n ← kget;
  kput (Net (idcnt n) (fun y => if decide (y = x) then f (nodes n y) else nodes n y)
    (argv n) (running n)).

Definition set_args (x : aname) (f : Args -> Args) : M net unit :=
  n ← kget;
  kput (Net (idcnt n) (nodes n)
    (fun y => if decide (y = x) then f (argv n y) else argv n y) (running n)).

(** idcnt++ *)
Definition next_id : M net Z :=
  n ← kget;
  kput (Net (s32 (idcnt n + 1)) (nodes n) (argv n) (running n)) ;;
  mret (idcnt n).

(** ** Operations *)

Definition init_stream (args : aname) (slf : option sname) (data : option Z) : M net unit :=
  match slf with
  | Some x =>
      i ← next_id;
      set_node x (fun _ => Node None data i (Some new_stream))
  | None => mret tt
  end ;;
  set_args args (fun _ => MkArgs slf None).

Definition connect (arg : aname) (s : sname) : M net unit :=
  n ← kget;
  set_node s (fun x => Node (prod (argv n arg)) (sargs x) (sid x) (contents x)) ;;
  set_args arg (fun a => MkArgs (self a) (Some s)).

(** kthread_create makes a task, or fails; wake_up_process starts it. *)
Variable kthread_create : tfun -> aname -> option (tfun * aname).

Definition wake_up_process (task : option (tfun * aname)) : M net unit :=
  match task with
  | None => undef NullDeref
  | Some t =>
      n ← kget;
      kput (Net (idcnt n) (nodes n) (argv n) (running n ++ [t]))
  end.

Definition init_module : M net Z :=
  printk "--------------------------------------------" [] ;;
  init_stream suc1_args (Some suc1) None ;;
  init_stream suc2_args (Some suc2) None ;;
  init_stream tms1_args (Some tms1) (Some mult1) ;;
  connect tms1_args suc1 ;;
  init_stream tms2_args (Some tms2) (Some mult2) ;;
  connect tms2_args suc2 ;;
  init_stream mrg_args (Some mrg) None ;;
  connect mrg_args tms1 ;;
  connect mrg_args tms2 ;;
  init_stream cons_args None None ;;
  connect cons_args mrg ;;
  let s1 := kthread_create successor suc1_args in
  let s2 := kthread_create successor suc2_args in
  let t1 := kthread_create times tms1_args in
  let t2 := kthread_create times tms2_args in
  let m1 := kthread_create merge mrg_args in
  let c1 := kthread_create consumer cons_args in
  wake_up_process s1 ;;
  wake_up_process s2 ;;
  wake_up_process t1 ;;
  wake_up_process t2 ;;
  wake_up_process m1 ;;
  wake_up_process c1 ;;
  printk "Module up and running!" [] ;;
  mret 0.

(** destroy_queue releases the queue of a stream. *)
Definition kill_stream (s : sname) : M net unit :=
  set_node s (fun x => Node (snext x) (sargs x) (sid x) None).

(** The number of elements a stream's queue says it holds. *)
Definition buffer_size (s : sname) : M net Z :=
  n ← kget;
  match contents (nodes n s) with
  | Some c => mret (nelem (buffer c))
  | None => undef UseAfterFree
  end.

Definition cleanup_module : M net unit :=
  printk "Final buffer sizes:" [] ;;
  n ← buffer_size suc1; printk "  succ 1: %d" [ArgZ n] ;;
  n ← buffer_size suc2; printk "  succ 2: %d" [ArgZ n] ;;
  n ← buffer_size tms1; printk "  tmes 1: %d" [ArgZ n] ;;
  n ← buffer_size tms2; printk "  tmes 2: %d" [ArgZ n] ;;
  n ← buffer_size mrg; printk "  merge:  %d" [ArgZ n] ;;
  kill_stream suc1 ;;
  kill_stream suc2 ;;
  kill_stream tms1 ;;
  kill_stream tms2 ;;
  kill_stream mrg ;;
  printk "Closing down successfully" [].

(** The input list of a thread: its prod, and from there by next. *)
Fixpoint follow (fuel : nat) (n : net) (cur : option sname) : list sname :=
  match cur, fuel with
  | Some x, S f => x :: follow f n (snext (nodes n x))
  | _, _ => []
  end.

(** There are five streams, so no list without a cycle is longer. *)
Definition inputs (n : net) (a : aname) : list sname := follow 5 n (prod (argv n a)).
End ProdCons.

Arguments node {_} V {_}.
Arguments net {_} V {_}.

(** ** Theorems *)

Section ProdConsTheorems.
Context `{Semaphore} `{!Queue V}.
Implicit Types n : net V.

(** Streams that do not lead to [s] are followed as before. *)
Lemma follow_set_node fuel n n' s cur :
  (forall x, x <> s -> nodes n' x = nodes n x) -> s ∉ follow fuel n cur ->
  follow fuel n' cur = follow fuel n cur.
Proof.
  intros E. revert cur. induction fuel as [|f IH]; intros [x|]; simpl; try done.
  rewrite not_elem_of_cons. intros [D N]. rewrite E by congruence. f_equal. by apply IH.
Qed.

Lemma take_follow fuel n cur : follow fuel n cur = take fuel (follow (S fuel) n cur).
Proof.
  revert cur. induction fuel as [|f IH]; intros [x|]; try done. simpl. f_equal. apply IH.
Qed.

(** The state and the messages a computation ends with. *)
Definition final {S A} (r : res S A) (s : S) : S :=
  match r with Done _ s' _ => s' | Undef _ => s end.
Definition output {S A} (r : res S A) : list kmsg :=
  match r with Done _ _ o => o | Undef _ => [] end.

Lemma done_final {S} (r : res S Z) s a :
  match r with Done b _ _ => b =? a | Undef _ => false end = true ->
  r = Done a (final r s) (output r).
Proof. destruct r as [b s' o|u]; [|done]. by intros ->%Z.eqb_eq. Qed.

(** Connect puts the stream at the front of the thread's input list, not at
    its end, when it is not on that list already. *)
Theorem connect_prepends n a s :
  s ∉ inputs n a -> (length (inputs n a) < 5)%nat ->
  exists n', connect a s n = Done tt n' [] /\ inputs n' a = s :: inputs n a /\
    (forall b, b <> a -> argv n' b = argv n b) /\ (forall x, x <> s -> nodes n' x = nodes n x).
Proof.
  intros N L. eexists. split; [reflexivity|].
  match goal with |- inputs ?m a = _ /\ _ => set (n' := m) end.
  assert (forall x, x <> s -> nodes n' x = nodes n x) as En.
  { intros x D. simpl. by rewrite decide_False. }
  assert (prod (argv n' a) = Some s) as Ea by (simpl; by rewrite decide_True).
  assert (snext (nodes n' s) = prod (argv n a)) as Es by (simpl; by rewrite decide_True).
  split_and!; [|intros b D; simpl; by rewrite decide_False|done].
  unfold inputs in *. rewrite Ea.
  change (follow 5 n' (Some s)) with (s :: follow 4 n' (snext (nodes n' s))).
  rewrite Es, (follow_set_node 4 n n' s).
  - f_equal. rewrite (take_follow 4), take_ge; [done|lia].
  - done.
  - intros Hs. apply N. rewrite (take_follow 4) in Hs.
    apply elem_of_take in Hs as (i & Hi & _). by eapply list_elem_of_lookup_2.
Qed.

(** Loading the module builds the network: two successors, each feeding a
    multiplier with its own factor, both multipliers feeding the merge, the
    second one first, and the merge feeding the consumer; the streams are
    numbered 1 to 5, empty and with all their slots, and the six threads run. *)
Theorem init_module_network kthread_create :
  (forall f a, kthread_create f a = Some (f, a)) ->
  exists n out, @init_module _ V _ kthread_create initial_net = Done 0 n out /\
    running n = [(successor, suc1_args); (successor, suc2_args); (times, tms1_args);
                 (times, tms2_args); (merge, mrg_args); (consumer, cons_args)] /\
    (forall x, contents (nodes n x) = Some new_stream) /\
    map (fun x => sid (nodes n x)) [suc1; suc2; tms1; tms2; mrg] = [1; 2; 3; 4; 5] /\
    map (fun x => sargs (nodes n x)) [suc1; suc2; tms1; tms2; mrg] =
      [None; None; Some 3; Some 5; None] /\
    map (fun a => self (argv n a)) [suc1_args; suc2_args; tms1_args; tms2_args; mrg_args; cons_args]
      = [Some suc1; Some suc2; Some tms1; Some tms2; Some mrg; None] /\
    map (inputs n) [suc1_args; suc2_args; tms1_args; tms2_args; mrg_args; cons_args] =
      [[]; []; [suc1]; [suc2]; [tms2; tms1]; [mrg]].
Proof.
  intros K. assert (init_module kthread_create (@initial_net _ V _) =
    init_module (fun f a => Some (f, a)) initial_net) as ->.
  { unfold init_module. by rewrite !K. }
  set (r := init_module _ _).
  exists (final r initial_net), (output r). split; [apply done_final; vm_compute; reflexivity|].
  split_and!; try (intros []); vm_compute; reflexivity.
Qed.

(** Unloading the module prints how many values each stream still holds and
    destroys the five queues; unloading it twice would use one that is gone. *)
Theorem cleanup_module_sizes `{!QueueOk V} n (st : sname -> stream V) :
  (forall x, contents (nodes n x) = Some (st x)) ->
  exists n', cleanup_module n = Done tt n'
      (Printk "Final buffer sizes:" [] ::
       zip_with (fun f x => Printk f [ArgZ (Z.of_nat (length (items (buffer (st x)))))])
         ["  succ 1: %d"; "  succ 2: %d"; "  tmes 1: %d"; "  tmes 2: %d"; "  merge:  %d"]
         [suc1; suc2; tms1; tms2; mrg] ++ [Printk "Closing down successfully" []]) /\
    (forall x, contents (nodes n' x) = None) /\ argv n' = argv n /\ running n' = running n /\
    cleanup_module n' = Undef UseAfterFree.
Proof.
  intros C.
  assert (forall x, buffer_size x n = Done (Z.of_nat (length (items (buffer (st x))))) n []) as B.
  { intros x. unfold buffer_size. kexec. by rewrite C, nelem_items. }
  eexists. split.
  - unfold cleanup_module. rewrite exec_bind_printk.
    do 5 (rewrite (exec_bind _ _ _ _ _ _ (B _)), tell_nil, exec_bind_printk). reflexivity.
  - split_and!; [by intros []|done..].
Qed.

(** The result of kthread_create is not checked: if one of the threads
    cannot be created, loading the module follows the bad pointer. *)
Theorem init_module_no_thread kthread_create f a n :
  kthread_create f a = None ->
  (f, a) ∈ [(successor, suc1_args); (successor, suc2_args); (times, tms1_args);
            (times, tms2_args); (merge, mrg_args); (consumer, cons_args)] ->
  @init_module _ V _ kthread_create n = Undef NullDeref.
Proof.
  intros E Hin. unfold init_module. rewrite !elem_of_cons in Hin.
  destruct Hin as [[= -> ->]|[[= -> ->]|[[= -> ->]|[[= -> ->]|[[= -> ->]|[[= -> ->]|[]%elem_of_nil]]]]]];
    rewrite E;
    repeat match goal with |- context [kthread_create ?g ?b] =>
      destruct (kthread_create g b); [|reflexivity] end; reflexivity.
Qed.
End ProdConsTheorems.

(** ** Witnesses *)

Definition fresh_net : net Z := initial_net.

Lemma connect_prepends_witness :
  exists n, connect mrg_args tms1 fresh_net = Done tt n [] /\ inputs n mrg_args = [tms1].
Proof.
  destruct (connect_prepends fresh_net mrg_args tms1) as (n & E & I & _);
    [apply not_elem_of_nil|simpl; lia|]. exists n. split; [exact E|exact I].
Defined.

Lemma init_module_network_witness :
  exists n out, init_module (fun f a => Some (f, a)) fresh_net = Done 0 n out /\
    inputs n mrg_args = [tms2; tms1].
Proof.
  destruct (init_module_network (V := Z) (fun f a => Some (f, a)) ltac:(reflexivity))
    as (n & out & E & _ & _ & _ & _ & _ & I).
  exists n, out. split; [exact E|]. injection I. intros _ X _ _ _ _. exact X.
Defined.

Lemma init_module_no_thread_witness :
  init_module (fun f a => if decide (a = mrg_args) then None else Some (f, a)) fresh_net
    = Undef NullDeref.
Proof.
  apply (init_module_no_thread _ merge mrg_args fresh_net); [reflexivity|].
  do 4 apply list_elem_of_further. apply list_elem_of_here.
Defined.

Lemma cleanup_module_sizes_witness :
  exists n' out, cleanup_module
    (Net 1 (fun _ => Node None None 0 (Some new_stream)) (fun _ => MkArgs None None) [] : net Z)
    = Done tt n' out /\ cleanup_module n' = Undef UseAfterFree.
Proof.
  destruct (cleanup_module_sizes
    (Net 1 (fun _ => Node None None 0 (Some new_stream)) (fun _ => MkArgs None None) [] : net Z)
    (fun _ => new_stream) (fun _ => eq_refl)) as (n' & E & _ & _ & _ & U).
  do 2 eexists. split; [exact E|exact U].
Defined.
