(* ===== verification/Threads.v ===== *)
(** * The threads of the network (Task_17/kthreads/prod_cons/prod-cons.c)

    The four thread functions, each as the code between two calls of [put] or
    [get], and the machine in which the six threads of the module interleave:
    one step of it is that code up to the next call, one atomic step inside a
    call, or the return from a call. The streams are those of Streams.v, with
    pointers for values; what the pointers point to is in [mem]. *)

From Stdlib Require Import ZArith Lia Strings.Byte.
From stdpp Require Import base strings gmap sets numbers list.
From S2P Require Import Prelude.
From S2P Require Import Kernel.
From S2P Require Import KernelInst.
From S2P Require Import Streams.
From S2P Require Import ProdCons.

(** ** Control points *)

(** A pointer to an int; NULL is 0. *)
Abbreviation ptr := Z (only parsing).

(** Where a thread stands when it is not inside a call, with its variables;
    the streams it works on it reads from its argument block. *)
Inductive point :=
| SEntry                      (* successor *)
| SLoop (i : Z)               (* the body of the loop *)
| SNext (i : Z)               (* i++ *)
| TEntry                      (* times *)
| TLoop                       (* msleep(100); value = get(prod) *)
| TGot (value : ptr)          (* after the get *)
| MEntry                      (* merge: a = get(s1) *)
| MFirst (a : ptr)            (* b = get(s2) *)
| MSecond (a b : ptr)         (* the first printk *)
| MLoop (a b : ptr)           (* if ( *a < *b ) *)
| MPutA (b : ptr)             (* a = get(s1) *)
| MGotA (a b : ptr)           (* the printk after it *)
| MPutB (a : ptr)             (* b = get(s2) *)
| MGotB (a b : ptr)           (* the printk after it *)
| CLoop (i : Z)               (* consumer: i < 10 *)
| CGot (i : Z) (value : ptr). (* after the get *)

(** What a thread inside a call does with its result. *)
Inductive cont :=
| KSuc (i : Z)                (* put(self, value); in successor *)
| KTmsGet                     (* value = get(prod); in times *)
| KTmsPut                     (* put(self, value); in times *)
| KMrgFirst                   (* int *a = get(s1); *)
| KMrgSecond (a : ptr)        (* int *b = get(s2); *)
| KMrgPutA (b : ptr)          (* put(self, a); *)
| KMrgGetA (b : ptr)          (* a = get(s1); *)
| KMrgPutB (a : ptr)          (* put(self, b); *)
| KMrgGetB (a : ptr)          (* b = get(s2); *)
| KCon (i : Z).               (* value = get(prod); in consumer *)

Inductive tstate :=
| At (p : point)
| In (x : sname) (k : cont)
| Finished (r : Z).

(** What the code up to a call, or up to a loop's end, comes to. *)
Inductive action :=
| Goto (p : point)
| Calls (x : sname) (c : call ptr) (k : cont)
| Exits (r : Z).

(** The task of each thread. *)
Definition tid (t : aname) : Z :=
  match t with
  | suc1_args => 1 | suc2_args => 2 | tms1_args => 3 | tms2_args => 4
  | mrg_args => 5 | cons_args => 6
  end.

Section Threads.
Context `{Semaphore} `{Queue Z}.

(** ** The state *)

Record shared := Shared {
  globals : net Z;
  strs : sname -> system Z;
  mem : gmap Z Z;
}.

Definition globalsL : lens shared (net Z) :=
  Lens globals (fun x s => Shared x (strs s) (mem s)).
Definition memL : lens shared (gmap Z Z) :=
  Lens mem (fun x s => Shared (globals s) (strs s) x).

Record nstate := Nstate {
  shr : shared;
  ths : aname -> tstate;
  log : list kmsg;
}.

(** ** Memory *)

(** vmalloc(sizeof(int)): NULL, or the address of an object not in use. *)
Variable vmalloc : gmap Z Z -> ptr.

Definition load (p : ptr) : M shared Z :=
  h ← kread memL;
  if p =? 0 then undef NullDeref else
  match h !! p with Some v => mret v | None => undef UseAfterFree end.

Definition store (p : ptr) (v : Z) : M shared unit :=
  load p ;; h ← kread memL; kwrite memL (<[p := v]> h).

(** The new object holds no value yet; the model gives it 0. *)
Definition vmalloc_int : M shared ptr :=
  h ← kread memL;
  (if vmalloc h =? 0 then mret tt else kwrite memL (<[vmalloc h := 0]> h)) ;;
  mret (vmalloc h).

(** vfree(NULL) does nothing. *)
Definition vfree (p : ptr) : M shared unit :=
  if p =? 0 then mret tt else
  load p ;; h ← kread memL; kwrite memL (delete p h).

(** ** The fields the threads read *)

(** The stream a pointer leads to, when it is used. *)
Definition nonnull (o : option sname) : M shared sname :=
  match o with Some x => mret x | None => undef NullDeref end.

Definition self_of (t : aname) : M shared sname :=
  n ← kread globalsL; nonnull (self (argv n t)).
Definition prod_of (t : aname) : M shared sname :=
  n ← kread globalsL; nonnull (prod (argv n t)).
Definition next_of (x : sname) : M shared sname :=
  n ← kread globalsL; nonnull (snext (nodes n x)).
Definition id_of (x : sname) : M shared Z :=
  n ← kread globalsL; mret (sid (nodes n x)).
Definition arg_of (x : sname) : M shared Z :=
  n ← kread globalsL;
  match sargs (nodes n x) with Some m => mret m | None => undef NullDeref end.
Definition nelem_of (x : sname) : M shared Z := fun s =>
  Done (nelem (buffer (str (strs s x)))) s [].

(** Signed arithmetic that must not overflow. *)
Definition checked (z : Z) : M shared Z :=
  if bool_decide (int_range z) then mret z else undef SignedOverflow.

(** ** The thread functions *)

(** msleep only lets time pass; the threads can be delayed at every step. *)
Definition successor_code (t : aname) (p : point) : M shared action :=
  match p with
  | SEntry => slf ← self_of t; mret (Goto (SLoop 1))
  | SLoop i =>
      slf ← self_of t;
      id ← id_of slf; n ← nelem_of slf;
      printk "Successor(%d) (buff:%d): sending %d" [ArgZ id; ArgZ n; ArgZ i] ;;
      value ← vmalloc_int;
      store value i ;;
      mret (Calls slf (PutEmpty value) (KSuc i))
  | SNext i => j ← checked (i + 1); mret (Goto (SLoop j))
  | _ => mret (Exits 0)
  end.

Definition times_code (t : aname) (p : point) : M shared action :=
  match p with
  | TEntry =>
      slf ← self_of t; prd ← prod_of t;
      id ← id_of slf; pid ← id_of prd;
      printk "  Times(%d) connected to Successor (%d)" [ArgZ id; ArgZ pid] ;;
      mret (Goto TLoop)
  | TLoop => prd ← prod_of t; mret (Calls prd GetFull KTmsGet)
  | TGot value =>
      slf ← self_of t; prd ← prod_of t;
      id ← id_of slf; n1 ← nelem_of slf; v ← load value; pid ← id_of prd; n2 ← nelem_of prd;
      printk "  Times(%d) (buff:%d): got %d from Successor %d (buff:%d)"
        [ArgZ id; ArgZ n1; ArgZ v; ArgZ pid; ArgZ n2] ;;
      v ← load value; m ← arg_of slf; w ← checked (v * m);
      store value w ;;
      mret (Calls slf (PutEmpty value) KTmsPut)
  | _ => mret (Exits 0)
  end.

(** The printk after each get of merge, from the stream [s]. *)
Definition merge_got (slf s : sname) (p : ptr) : M shared unit :=
  id ← id_of slf; n ← nelem_of slf; v ← load p; sd ← id_of s; ns ← nelem_of s;
  printk "Merge(%d) (buff:%d): got %d from Times (%d) (buff:%d)"
    [ArgZ id; ArgZ n; ArgZ v; ArgZ sd; ArgZ ns].

Definition merge_code (t : aname) (p : point) : M shared action :=
  slf ← self_of t; s1 ← prod_of t; s2 ← next_of s1;
  match p with
  | MEntry => mret (Calls s1 GetFull KMrgFirst)
  | MFirst a => mret (Calls s2 GetFull (KMrgSecond a))
  | MSecond a b =>
      id ← id_of slf; d1 ← id_of s1; d2 ← id_of s2;
      printk "Merge(%d) connected to Times (%d) and (%d)" [ArgZ id; ArgZ d1; ArgZ d2] ;;
      mret (Goto (MLoop a b))
  | MLoop a b =>
      va ← load a; vb ← load b;
      if va <? vb then mret (Calls slf (PutEmpty a) (KMrgPutA b))
      else mret (Calls slf (PutEmpty b) (KMrgPutB a))
  | MPutA b => mret (Calls s1 GetFull (KMrgGetA b))
  | MGotA a b => merge_got slf s1 a ;; mret (Goto (MLoop a b))
  | MPutB a => mret (Calls s2 GetFull (KMrgGetB a))
  | MGotB a b => merge_got slf s2 b ;; mret (Goto (MLoop a b))
  | _ => mret (Exits 0)
  end.

Definition consumer_code (t : aname) (p : point) : M shared action :=
  match p with
  | CLoop i =>
      if i <? 10 then prd ← prod_of t; mret (Calls prd GetFull (KCon i))
      else mret (Exits 0)
  | CGot i value =>
      v ← load value;
      printk "Consumer: got %d <---" [ArgZ v] ;;
      vfree value ;;
      j ← checked (i + 1);
      mret (Goto (CLoop j))
  | _ => mret (Exits 0)
  end.

Definition code (t : aname) (p : point) : M shared action :=
  match p with
  | SEntry | SLoop _ | SNext _ => successor_code t p
  | TEntry | TLoop | TGot _ => times_code t p
  | CLoop _ | CGot _ _ => consumer_code t p
  | _ => merge_code t p
  end.

(** The result of a call: successor, times and merge ignore that of put. *)
Definition result (c : call ptr) : ptr :=
  match c with GetReturned (Some p) => p | _ => 0 end.

Definition resume (k : cont) (r : ptr) : point :=
  match k with
  | KSuc i => SNext i
  | KTmsGet => TGot r
  | KTmsPut => TLoop
  | KMrgFirst => MFirst r
  | KMrgSecond a => MSecond a r
  | KMrgPutA b => MPutA b
  | KMrgGetA b => MGotA r b
  | KMrgPutB a => MPutB a
  | KMrgGetB a => MGotB a r
  | KCon i => CGot i r
  end.

Definition entry (f : tfun) : point :=
  match f with
  | successor => SEntry | times => TEntry | merge => MEntry | consumer => CLoop 0
  end.

(** ** The machine *)

Definition set_str (x : sname) (y : system Z) (s : shared) : shared :=
  Shared (globals s) (upd (strs s) x y) (mem s).

Definition calling (x : sname) (t : aname) (c : call ptr) (s : shared) : shared :=
  set_str x (with_threads (<[tid t := c]> (threads (strs s x))) (strs s x)) s.

Definition perform (t : aname) (a : action) (h : shared) (s : nstate) : nstate :=
  match a with
  | Goto p => Nstate h (upd (ths s) t (At p)) (log s)
  | Calls x c k => Nstate (calling x t c h) (upd (ths s) t (In x k)) (log s)
  | Exits r => Nstate h (upd (ths s) t (Finished r)) (log s)
  end.

(** One step of thread [t]; [signal] says whether a signal is pending for it.
    [None]: it sleeps, or is finished. *)
Definition nstep (signal : bool) (t : aname) (s : nstate) : option (res nstate unit) :=
  match ths s t with
  | Finished _ => None
  | At p =>
      Some (match code t p (shr s) with
            | Done a h out => Done tt (perform t a h s) out
            | Undef u => Undef u
            end)
  | In x k =>
      let y := strs (shr s) x in
      match threads y !! tid t with
      | None => None
      | Some c =>
          if returned c then
            let y' := with_threads (delete (tid t) (threads y)) y in
            Some (Done tt (Nstate (set_str x y' (shr s))
              (upd (ths s) t (At (resume k (result c)))) (log s)) [])
          else match call_step signal c (str y) with
               | Moves c' s' =>
                   Some (Done tt (Nstate (set_str x (move (tid t) c c' s' y) (shr s))
                     (ths s) (log s)) [])
               | Sleeps => None
               | Undefined => Some (Undef OutOfBounds)
               end
      end
  end.

Definition logging (out : list kmsg) (s : nstate) : nstate :=
  Nstate (shr s) (ths s) (log s ++ out).

(** Any thread may be the next to move. Signals are pending only where
    [signals] allows them: a kernel thread ignores them unless it asks for
    them, and these do not. *)
Definition net_step (signals : bool) (s s' : nstate) : Prop :=
  exists t signal s1 out, (signal = true -> signals = true) /\
    nstep signal t s = Some (Done tt s1 out) /\ s' = logging out s1.

(** ** The start *)

Definition thread_of (l : list (tfun * aname)) (t : aname) : tstate :=
  match list_find (fun p => p.2 = t) l with
  | Some (_, (f, _)) => At (entry f)
  | None => Finished 0
  end.

(** The module is loaded and its threads are about to run. *)
Definition start (n : net Z) : nstate :=
  Nstate
    (Shared n
       (fun x => System (default new_stream (contents (nodes n x))) ∅ [] [] 0 0) ∅)
    (thread_of (running n)) [].

Definition started (s : nstate) : Prop :=
  exists n out, init_module (fun f a => Some (f, a)) initial_net = Done 0 n out /\
    s = start n.

(** The steps of a schedule, for threads no signal reaches; threads that
    cannot move are passed over. *)
Fixpoint schedule (fuel : nat) (l cur : list aname) (s : nstate) : res nstate unit :=
  match fuel with
  | O => Done tt s []
  | S f =>
      match cur with
      | [] => schedule f l l s
      | t :: cur =>
          match nstep false t s with
          | None => schedule f l cur s
          | Some (Undef u) => Undef u
          | Some (Done _ s' out) => schedule f l cur (logging out s')
          end
      end
  end.
End Threads.

Arguments nstate {_ _}.
Arguments shared {_ _}.
