(* ===== verification/NetSpec.v ===== *)
(** * What the network of streams computes

    An abstract network for prod-cons.c: six threads that exchange numbers over
    bounded first-in first-out channels, one value at a time. [hist] is all
    that was ever put into a channel and [taken] how much of it was taken.
    Network.v shows that the module's threads implement it. *)

From Stdlib Require Import ZArith Lia Strings.Byte.
From stdpp Require Import base strings gmap sets numbers list.
From S2P Require Import Prelude.
From S2P Require Import Kernel.
From S2P Require Import KernelInst.
From S2P Require Import Streams.
From S2P Require Import ProdCons.

(** ** The threads *)

(** A successor with the next number and the value it is putting; a multiplier
    with the value it got and the one it is putting; the merge with the heads
    of its two inputs, and which of them it has chosen to put, the first on
    [true]; the consumer with how many values it printed and the one it got. *)
Inductive athread (V : Type) :=
| ASuc (i : Z) (out : option V)
| ATms (inp out : option V)
| AMrg (a b : option V) (pick : option bool)
| ACon (i : Z) (inp : option V).
Arguments ASuc {V} i out.
Arguments ATms {V} inp out.
Arguments AMrg {V} a b pick.
Arguments ACon {V} i inp.

(** The channel a thread puts into, and those it takes from. *)
Definition out_of (t : aname) : sname :=
  match t with
  | suc1_args => suc1 | suc2_args => suc2 | tms1_args => tms1 | tms2_args => tms2
  | mrg_args | cons_args => mrg
  end.
Definition in_of (t : aname) : sname :=
  match t with
  | suc1_args | tms1_args => suc1 | suc2_args | tms2_args => suc2
  | mrg_args => tms2 | cons_args => mrg
  end.
Definition in2 : sname := tms1.
Definition factor (t : aname) : Z := match t with tms1_args => mult1 | _ => mult2 end.

Record spec := Spec {
  hist : sname -> list Z;
  taken : sname -> nat;
  ath : aname -> athread Z;
  shown : list Z;
}.

Definition set_ath (t : aname) (s : athread Z) (a : spec) : spec :=
  Spec (hist a) (taken a) (upd (ath a) t s) (shown a).

Definition can_put (x : sname) (a : spec) : Prop :=
  Z.of_nat (length (hist a x)) < Z.of_nat (taken a x) + BUFFER_SIZE.
Definition aput (x : sname) (v : Z) (a : spec) : spec :=
  Spec (upd (hist a) x (hist a x ++ [v])) (taken a) (ath a) (shown a).
Definition atake (x : sname) (a : spec) : spec :=
  Spec (hist a) (upd (taken a) x (S (taken a x))) (ath a) (shown a).
Definition next_value (x : sname) (a : spec) : option Z := hist a x !! taken a x.

(** The consumer takes ten values. *)
Inductive spec_step : spec -> spec -> Prop :=
| suc_number a t i :
    ath a t = ASuc i None -> spec_step a (set_ath t (ASuc i (Some i)) a)
| suc_put a t i v :
    ath a t = ASuc i (Some v) -> can_put (out_of t) a ->
    spec_step a (set_ath t (ASuc (i + 1) None) (aput (out_of t) v a))
| tms_take a t v :
    ath a t = ATms None None -> next_value (in_of t) a = Some v ->
    spec_step a (set_ath t (ATms (Some v) None) (atake (in_of t) a))
| tms_multiply a t v :
    ath a t = ATms (Some v) None ->
    spec_step a (set_ath t (ATms None (Some (v * factor t))) a)
| tms_put a t v :
    ath a t = ATms None (Some v) -> can_put (out_of t) a ->
    spec_step a (set_ath t (ATms None None) (aput (out_of t) v a))
| mrg_take_first a t v b :
    ath a t = AMrg None b None -> next_value (in_of t) a = Some v ->
    spec_step a (set_ath t (AMrg (Some v) b None) (atake (in_of t) a))
| mrg_take_second a t v x :
    ath a t = AMrg x None None -> next_value in2 a = Some v ->
    spec_step a (set_ath t (AMrg x (Some v) None) (atake in2 a))
| mrg_compare a t x y :
    ath a t = AMrg (Some x) (Some y) None ->
    spec_step a (set_ath t (AMrg (Some x) (Some y) (Some (x <? y))) a)
| mrg_put_first a t x y :
    ath a t = AMrg (Some x) (Some y) (Some true) -> can_put (out_of t) a ->
    spec_step a (set_ath t (AMrg None (Some y) None) (aput (out_of t) x a))
| mrg_put_second a t x y :
    ath a t = AMrg (Some x) (Some y) (Some false) -> can_put (out_of t) a ->
    spec_step a (set_ath t (AMrg (Some x) None None) (aput (out_of t) y a))
| con_take a t i v :
    ath a t = ACon i None -> i < 10 -> next_value (in_of t) a = Some v ->
    spec_step a (set_ath t (ACon i (Some v)) (atake (in_of t) a))
| con_show a t i v :
    ath a t = ACon i (Some v) ->
    spec_step a (Spec (hist a) (taken a) (upd (ath a) t (ACon (i + 1) None)) (shown a ++ [v])).

Definition initial_athread (t : aname) : athread Z :=
  match t with
  | suc1_args | suc2_args => ASuc 1 None
  | tms1_args | tms2_args => ATms None None
  | mrg_args => AMrg None None None
  | cons_args => ACon 0 None
  end.

Definition initial_spec (a : spec) : Prop :=
  a = Spec (fun _ => []) (fun _ => 0%nat) initial_athread [].

(** ** The values *)

(** How much of its inputs the merge has used for its first [n] outputs, and
    the [k]-th value of each channel. *)
Definition multiple (m : Z) (k : nat) : Z := (Z.of_nat k + 1) * m.

Fixpoint used (n : nat) : nat * nat :=
  match n with
  | O => (0%nat, 0%nat)
  | S n =>
      let p := used n in
      if multiple mult2 p.1 <? multiple mult1 p.2 then (S p.1, p.2) else (p.1, S p.2)
  end.

Definition merged (n : nat) : Z :=
  let p := used n in Z.min (multiple mult2 p.1) (multiple mult1 p.2).

Definition value (x : sname) (k : nat) : Z :=
  match x with
  | suc1 | suc2 => Z.of_nat k + 1
  | tms1 => multiple mult1 k
  | tms2 => multiple mult2 k
  | mrg => merged k
  end.

(** ** The invariant *)

Definition count {V} (o : option V) : nat := match o with Some _ => 1 | None => 0 end.
Definition is_value (x : sname) (k : nat) (o : option Z) : Prop :=
  forall v, o = Some v -> v = value x k.

Definition thread_inv (a : spec) (t : aname) : Prop :=
  let n := length (hist a (out_of t)) in
  match t, ath a t with
  | (suc1_args | suc2_args), ASuc i out =>
      i = Z.of_nat n + 1 /\ is_value (out_of t) n out
  | (tms1_args | tms2_args), ATms inp out =>
      taken a (in_of t) = (n + count inp + count out)%nat /\
      (inp = None \/ out = None) /\
      is_value (in_of t) n inp /\ is_value (out_of t) n out
  | mrg_args, AMrg x y pick =>
      taken a tms2 = ((used n).1 + count x)%nat /\ taken a tms1 = ((used n).2 + count y)%nat /\
      is_value tms2 (used n).1 x /\ is_value tms1 (used n).2 y /\
      (forall d, pick = Some d -> count x = 1%nat /\ count y = 1%nat /\
         d = (multiple mult2 (used n).1 <? multiple mult1 (used n).2))
  | cons_args, ACon i inp =>
      0 <= i <= 10 /\ Z.of_nat (taken a mrg) = i + Z.of_nat (count inp) /\
      (inp <> None -> i < 10) /\ is_value mrg (Z.to_nat i) inp /\
      shown a = map merged (seq 0 (Z.to_nat i))
  | _, _ => False
  end.

Record spec_inv (a : spec) : Prop := {
  inv_hist : forall x k v, hist a x !! k = Some v -> v = value x k;
  inv_taken : forall x, (taken a x <= length (hist a x))%nat;
  inv_capacity : forall x, Z.of_nat (length (hist a x)) <= Z.of_nat (taken a x) + BUFFER_SIZE;
  inv_threads : forall t, thread_inv a t;
}.

(** ** Lemmas *)

Section SpecFacts.
Implicit Types a : spec.

(** A put of the right value, and a take, keep what is about the channels. *)
Definition chan_inv a : Prop :=
  (forall x k v, hist a x !! k = Some v -> v = value x k) /\
  (forall x, (taken a x <= length (hist a x))%nat) /\
  (forall x, Z.of_nat (length (hist a x)) <= Z.of_nat (taken a x) + BUFFER_SIZE).

Lemma chan_inv_put a x v :
  chan_inv a -> can_put x a -> v = value x (length (hist a x)) -> chan_inv (aput x v a).
Proof.
  intros (H & T & C) P ->. unfold can_put in P. split_and!; intros y; simpl;
    (destruct (decide (y = x)) as [->|D]; [rewrite upd_eq|rewrite upd_ne by done; auto]).
  - intros k v [[_ E]|[-> <-]]%lookup_snoc_Some; [by apply H|done].
  - rewrite length_app. simpl. specialize (T x). lia.
  - rewrite length_app. simpl. lia.
Qed.

Lemma chan_inv_take a x v :
  chan_inv a -> next_value x a = Some v -> chan_inv (atake x a) /\ v = value x (taken a x).
Proof.
  intros (H & T & C) E. unfold next_value in E. split; [|by apply H].
  apply lookup_lt_Some in E. split_and!; intros y; simpl;
    (destruct (decide (y = x)) as [->|D]; [rewrite ?upd_eq|rewrite ?upd_ne by done; auto]); auto.
  specialize (C x). lia.
Qed.

Lemma used_step n :
  used (S n) = if multiple mult2 (used n).1 <? multiple mult1 (used n).2
               then (S (used n).1, (used n).2) else ((used n).1, S (used n).2).
Proof. done. Qed.

Lemma is_value_None x k : is_value x k None.
Proof. intros v. done. Qed.

Lemma is_value_Some x k v : is_value x k (Some v) <-> v = value x k.
Proof. unfold is_value. split; [by intros H; apply H|congruence]. Qed.

Lemma spec_inv_split a : spec_inv a <-> chan_inv a /\ forall t, thread_inv a t.
Proof. split; [intros [H T C I]; by split|intros [(H & T & C) I]; by split]. Qed.

Lemma initial_spec_inv a : initial_spec a -> spec_inv a.
Proof.
  intros ->. split; simpl; [done|done|by unfold BUFFER_SIZE|].
  intros [| | | | |]; simpl; split_and!; try done; try apply is_value_None; try lia; by left.
Qed.
End SpecFacts.

#[global] Arguments multiple : simpl never.

Section SpecSteps.
Implicit Types a : spec.

(** The thread that moves is of the kind its state says. *)
Ltac kinds t Ht := destruct t; unfold thread_inv in Ht; simpl in Ht;
  match goal with E : ath _ _ = _ |- _ => rewrite E in Ht end; try done.

(** The invariants of all threads after a step; those that did not move look
    at nothing that changed. *)
Ltac threads I :=
  let u := fresh "u" in
  intros u; specialize (I u); destruct u; unfold thread_inv, in2 in *; simpl in *;
  rewrite ?upd_eq, ?upd_ne by done; rewrite ?upd_eq, ?upd_ne in I by done; simpl in *;
  try exact I.

(** What a channel holds, and how much of it was taken. *)
Lemma spec_step_chan a a' : spec_inv a -> spec_step a a' -> chan_inv a'.
Proof.
  rewrite spec_inv_split. intros [C I] St.
  destruct St as [a t i E|a t i v E P|a t v E N|a t v E|a t v E P|a t v b E N|a t v x E N
    |a t x y E|a t x y E P|a t x y E P|a t i v E L N|a t i v E]; pose proof (I t) as Ht;
    try exact C.
  - apply (chan_inv_put a); [done|done|]. kinds t Ht; by apply Ht.
  - by apply (chan_inv_take a (in_of t) v).
  - apply (chan_inv_put a); [done|done|]. kinds t Ht; by apply Ht.
  - by apply (chan_inv_take a (in_of t) v).
  - by apply (chan_inv_take a in2 v).
  - kinds t Ht. destruct Ht as (T1 & T2 & V1 & V2 & Pk).
    destruct (Pk true eq_refl) as (_ & _ & Lt). rewrite is_value_Some in V1, V2.
    simpl in V1, V2. apply (chan_inv_put a); [done|done|]. simpl. unfold merged. subst x.
    symmetry in Lt. apply Z.ltb_lt in Lt. lia.
  - kinds t Ht. destruct Ht as (T1 & T2 & V1 & V2 & Pk).
    destruct (Pk false eq_refl) as (_ & _ & Lt). rewrite is_value_Some in V1, V2.
    simpl in V1, V2. apply (chan_inv_put a); [done|done|]. simpl. unfold merged. subst y.
    symmetry in Lt. apply Z.ltb_ge in Lt. lia.
  - by apply (chan_inv_take a (in_of t) v).
Qed.

(** What each thread holds: the one that moved, and the others, which look at
    nothing that changed. *)
Lemma spec_step_threads a a' : spec_inv a -> spec_step a a' -> forall t, thread_inv a' t.
Proof.
  rewrite spec_inv_split. intros [C I] St.
  destruct St as [a t i E|a t i v E P|a t v E N|a t v E|a t v E P|a t v b E N|a t v x E N
    |a t x y E|a t x y E P|a t x y E P|a t i v E L N|a t i v E]; pose proof (I t) as Ht;
    try pose proof (chan_inv_take a _ v C N) as [_ V];
    kinds t Ht; threads I; rewrite ?length_app; cbn [length] in *.
  all: try (rewrite is_value_Some; simpl; lia).
  all: try (split; [lia|apply is_value_None]).
  1,2: destruct Ht as (T & _ & _ & O); rewrite is_value_Some;
    (split_and!; [lia|by right|simpl; lia|done]).
  1,2: destruct Ht as (T & _ & W & O); rewrite is_value_Some in W; rewrite is_value_Some;
    (split_and!; [lia|by left|apply is_value_None|]); rewrite W; simpl; unfold multiple; lia.
  1,2: split_and!; [lia|by left|apply is_value_None..].
  6: destruct Ht as (B & T & _ & _ & S); rewrite is_value_Some;
    (split_and!; [lia..|done|rewrite V; simpl; f_equal; lia|done]).
  6: destruct Ht as (B & T & L & W & S); specialize (L ltac:(done)); rewrite is_value_Some in W;
    (split_and!; [lia..|done|apply is_value_None|]); rewrite S, W;
    replace (Z.to_nat (i + 1)) with (Z.to_nat i + 1)%nat by lia; by rewrite seq_app, map_app.
  all: destruct Ht as (T1 & T2 & V1 & V2 & Pk).
  - rewrite is_value_Some. split_and!; [lia|done|rewrite V; simpl; f_equal; lia|done|done].
  - rewrite is_value_Some. split_and!; [done|lia|done|rewrite V; simpl; f_equal; lia|done].
  - split_and!; try done. intros d [= <-]. rewrite is_value_Some in V1, V2. by subst.
  - destruct (Pk true eq_refl) as (_ & _ & Lt). rewrite (Nat.add_1_r (length (hist a mrg))).
    rewrite used_step, <- Lt. split_and!; [simpl; lia..|apply is_value_None|done|done].
  - destruct (Pk false eq_refl) as (_ & _ & Lt). rewrite (Nat.add_1_r (length (hist a mrg))).
    rewrite used_step, <- Lt. split_and!; [simpl; lia..|done|apply is_value_None|done].
Qed.

Lemma spec_step_inv a a' : spec_inv a -> spec_step a a' -> spec_inv a'.
Proof.
  intros I St. apply spec_inv_split.
  split; [by eapply spec_step_chan|by eapply spec_step_threads].
Qed.

Lemma spec_reachable_inv a : reachable initial_spec spec_step a -> spec_inv a.
Proof. apply reachable_inv; [apply initial_spec_inv|intros; by eapply spec_step_inv]. Qed.
End SpecSteps.

(** ** Consequences *)

Lemma used_sum n : ((used n).1 + (used n).2)%nat = n.
Proof.
  induction n as [|n IH]; [done|]. rewrite used_step.
  destruct (_ <? _); simpl in *; lia.
Qed.

(** Every thread takes at most a few values more than it put, and the consumer
    takes ten. *)
Lemma spec_counts a :
  spec_inv a ->
  (taken a mrg <= 10)%nat /\
  (taken a tms1 + taken a tms2 <= length (hist a mrg) + 2)%nat /\
  (taken a suc1 <= length (hist a tms1) + 1)%nat /\
  (taken a suc2 <= length (hist a tms2) + 1)%nat.
Proof.
  intros A. pose proof (inv_threads _ A) as I.
  pose proof (I cons_args) as Hc. pose proof (I mrg_args) as Hm.
  pose proof (I tms1_args) as H1. pose proof (I tms2_args) as H2.
  unfold thread_inv in *. simpl in *.
  destruct (ath a cons_args) as [| | |i inp]; try done.
  destruct (ath a mrg_args) as [| |x y pk|]; try done.
  destruct (ath a tms1_args) as [|p1 o1| |]; try done.
  destruct (ath a tms2_args) as [|p2 o2| |]; try done.
  destruct Hc as (Bi & Ti & Li & _). destruct Hm as (Ta & Tb & _).
  destruct H1 as (T1 & N1 & _). destruct H2 as (T2 & N2 & _).
  pose proof (used_sum (length (hist a mrg))).
  assert (count x <= 1 /\ count y <= 1)%nat by (destruct x, y; simpl; lia).
  split_and!.
  - destruct inp; simpl in *; [specialize (Li ltac:(done))|]; lia.
  - lia.
  - destruct N1, p1, o1; simplify_eq; simpl in *; lia.
  - destruct N2, p2, o2; simplify_eq; simpl in *; lia.
Qed.

(** So the threads before the consumer never get far. *)
Lemma spec_bounds a :
  spec_inv a -> (forall t i o, ath a t = ASuc i o -> 1 <= i <= 30) /\
  (forall t v o, ath a t = ATms (Some v) o -> 1 <= v <= 30).
Proof.
  intros A. pose proof (spec_counts a A) as (C0 & C1 & C2 & C3).
  pose proof (inv_capacity a A) as C. unfold BUFFER_SIZE in C.
  pose proof (C mrg). pose proof (C tms1). pose proof (C tms2). pose proof (C suc1).
  pose proof (C suc2).
  split; intros t v o E; pose proof (inv_threads _ A t) as I; unfold thread_inv in I;
    destruct t; rewrite E in I; try done; simpl in I.
  1, 2: lia.
  all: destruct I as (_ & _ & V & _); rewrite is_value_Some in V; simpl in V; lia.
Qed.

(** Nor does any channel. *)
Lemma spec_total a :
  spec_inv a ->
  (length (hist a suc1) + length (hist a suc2) + length (hist a tms1) + length (hist a tms2) +
   length (hist a mrg) + taken a suc1 + taken a suc2 + taken a tms1 + taken a tms2 +
   taken a mrg <= 140)%nat.
Proof.
  intros A. pose proof (spec_counts a A) as (C0 & C1 & C2 & C3).
  pose proof (inv_capacity a A) as C. unfold BUFFER_SIZE in C.
  pose proof (C mrg). pose proof (C tms1). pose proof (C tms2). pose proof (C suc1).
  pose proof (C suc2). lia.
Qed.

(** The ten values the consumer prints. *)
Definition ten : list Z := [3; 5; 6; 9; 10; 12; 15; 15; 18; 20].

Lemma merged_ten : map merged (seq 0 10) = ten.
Proof. by vm_compute. Qed.

Lemma spec_shown a :
  spec_inv a -> exists k, shown a = take k ten /\
    forall i, ath a cons_args = ACon i None -> k = Z.to_nat i.
Proof.
  intros [_ _ _ I]. pose proof (I cons_args) as H. unfold thread_inv in H.
  destruct (ath a cons_args) as [| | |i inp]; try done.
  destruct H as (B & _ & _ & _ & ->). exists (Z.to_nat i). split; [|by intros j [= <-]].
  rewrite <- merged_ten, firstn_map, take_seq. f_equal. f_equal. lia.
Qed.
