(* ===== verification/Network.v ===== *)
(** * The module's threads implement the abstract network

    The relation between the machine of Threads.v and the network of NetSpec.v,
    its preservation by every step, and what follows for the module: no
    crash, no deadlock, termination, and the numbers the consumer prints. *)

From Stdlib Require Import ZArith Lia Strings.Byte.
From stdpp Require Import base strings gmap sets numbers list.
From S2P Require Import Prelude.
From S2P Require Import Kernel.
From S2P Require Import KernelInst.
From S2P Require Import Streams.
From S2P Require Import ProdCons.
From S2P Require Import Threads.
From S2P Require Import NetSpec.

(** ** What a thread holds *)

(** The pointer a call is putting, until it is in the buffer, and the pointer
    it has got, from when it is out of it. *)
Definition putting (c : call Z) : option Z :=
  match c with PutEmpty v | PutMutex v | PutEnqueue v => Some v | _ => None end.
Definition got (c : call Z) : option Z :=
  match c with
  | GetUpMutex v | GetUpEmpty v => Some v
  | GetReturned (Some v) => Some v
  | _ => None
  end.

Definition view_point (p : point) : athread Z :=
  match p with
  | SEntry => ASuc 1 None
  | SLoop i => ASuc i None
  | SNext i => ASuc (i + 1) None
  | TEntry | TLoop => ATms None None
  | TGot v => ATms (Some v) None
  | MEntry => AMrg None None None
  | MFirst a => AMrg (Some a) None None
  | MSecond a b | MLoop a b | MGotA a b | MGotB a b => AMrg (Some a) (Some b) None
  | MPutA b => AMrg None (Some b) None
  | MPutB a => AMrg (Some a) None None
  | CLoop i => ACon i None
  | CGot i v => ACon i (Some v)
  end.

Definition view_call (k : cont) (c : call Z) : athread Z :=
  match k with
  | KSuc i => match putting c with Some v => ASuc i (Some v) | None => ASuc (i + 1) None end
  | KTmsGet => ATms (got c) None
  | KTmsPut => ATms None (putting c)
  | KMrgFirst => AMrg (got c) None None
  | KMrgSecond a => AMrg (Some a) (got c) None
  | KMrgPutA b => AMrg (putting c) (Some b) (if putting c then Some true else None)
  | KMrgGetA b => AMrg (got c) (Some b) None
  | KMrgPutB a => AMrg (Some a) (putting c) (if putting c then Some false else None)
  | KMrgGetB a => AMrg (Some a) (got c) None
  | KCon i => ACon i (got c)
  end.

Definition opt {A} (o : option A) : list A := match o with Some a => [a] | None => [] end.

Definition held (v : athread Z) : list Z :=
  match v with
  | ASuc _ o => opt o
  | ATms i o => opt i ++ opt o
  | AMrg a b _ => opt a ++ opt b
  | ACon _ i => opt i
  end.

(** The stream a call is on, and whether it is a put. *)
Definition place_of (t : aname) (k : cont) : sname * bool :=
  match k with
  | KSuc _ | KTmsPut | KMrgPutA _ | KMrgPutB _ => (out_of t, true)
  | KMrgSecond _ | KMrgGetB _ => (in2, false)
  | KTmsGet | KMrgFirst | KMrgGetA _ | KCon _ => (in_of t, false)
  end.

(** ** Pointers and the values they stand for *)

Definition points (h : gmap Z Z) (p v : Z) : Prop := p <> 0 /\ h !! p = Some v.

Definition athread_rel (h : gmap Z Z) (v w : athread Z) : Prop :=
  match v, w with
  | ASuc i o, ASuc j u => i = j /\ option_Forall2 (points h) o u
  | ATms i o, ATms j u => option_Forall2 (points h) i j /\ option_Forall2 (points h) o u
  | AMrg a b p, AMrg c d q =>
      option_Forall2 (points h) a c /\ option_Forall2 (points h) b d /\ p = q
  | ACon i o, ACon j u => i = j /\ option_Forall2 (points h) o u
  | _, _ => False
  end.

Definition places : Type := sname + aname.

#[export] Instance places_eq_dec : EqDecision places.
Proof. solve_decision. Defined.

(** The pointers in the buffers and those the threads hold. *)
Definition own (bufs : sname -> list Z) (views : aname -> athread Z) (pl : places) : list Z :=
  match pl with inl x => bufs x | inr t => held (views t) end.

(** Buffers and threads that stand for an abstract network: related value by
    value, every object being in one place and no pointer in two. *)
Record Rel (h : gmap Z Z) (bufs : sname -> list Z) (views : aname -> athread Z) (a : spec)
  : Prop := {
  rel_bufs : forall x, Forall2 (points h) (bufs x) (drop (taken a x) (hist a x));
  rel_views : forall t, athread_rel h (views t) (ath a t);
  rel_nodup : forall x t, NoDup (bufs x ++ held (views t));
  rel_apart : forall pl pl' p, p ∈ own bufs views pl -> p ∈ own bufs views pl' -> pl = pl';
  rel_live : forall p, is_Some (h !! p) -> exists pl, p ∈ own bufs views pl;
}.

(** ** Lemmas on the relation *)

Section RelFacts.
Implicit Types (h : gmap Z Z) (a : spec) (bufs : sname -> list Z) (views : aname -> athread Z).

Lemma points_frame h h' p v : h' !! p = h !! p -> points h p v -> points h' p v.
Proof. unfold points. by intros ->. Qed.

Lemma option_points_frame h h' o u :
  (forall p, p ∈ opt o -> h' !! p = h !! p) ->
  option_Forall2 (points h) o u -> option_Forall2 (points h') o u.
Proof.
  intros E F. revert E. destruct F as [p v P|]; intros E; constructor.
  eapply points_frame; [|done]. apply E. by left.
Qed.

Lemma list_points_frame h h' l u :
  (forall p, p ∈ l -> h' !! p = h !! p) -> Forall2 (points h) l u -> Forall2 (points h') l u.
Proof.
  intros E F. revert E. induction F as [|p v l u P F IH]; intros E; constructor.
  - eapply points_frame; [|done]. apply E. by left.
  - apply IH. intros. apply E. by right.
Qed.

Lemma athread_rel_frame h h' v w :
  (forall p, p ∈ held v -> h' !! p = h !! p) -> athread_rel h v w -> athread_rel h' v w.
Proof.
  intros E. destruct v, w; simpl in *; try done; intros; destruct_and?; split_and?; try done;
    (eapply option_points_frame; [|done]); intros; apply E; set_solver.
Qed.

Lemma list_points_live h l u p : Forall2 (points h) l u -> p ∈ l -> p <> 0 /\ is_Some (h !! p).
Proof.
  intros F. induction F as [|q v l u [N E] F IH]; [by intros ?%elem_of_nil|].
  intros [->|Hp]%elem_of_cons; [eauto|auto].
Qed.

Lemma option_points_live h o u p :
  option_Forall2 (points h) o u -> p ∈ opt o -> p <> 0 /\ is_Some (h !! p).
Proof.
  intros [q v [N E]|]; simpl; [|by intros ?%elem_of_nil].
  rewrite list_elem_of_singleton. intros ->. eauto.
Qed.

Lemma athread_rel_live h v w p :
  athread_rel h v w -> p ∈ held v -> p <> 0 /\ is_Some (h !! p).
Proof.
  destruct v, w; simpl; try done; intros R; destruct_and?; rewrite ?elem_of_app; intros Hp;
    repeat match goal with H : _ \/ _ |- _ => destruct H as [H|H] end;
    eauto using option_points_live.
Qed.

Lemma own_live h bufs views a pl p :
  Rel h bufs views a -> p ∈ own bufs views pl -> p <> 0 /\ is_Some (h !! p).
Proof.
  intros R. destruct pl as [x|t]; simpl; intros Hp.
  - eapply list_points_live; [apply (rel_bufs _ _ _ _ R)|done].
  - eapply athread_rel_live; [apply (rel_views _ _ _ _ R)|done].
Qed.

(** A step changes what one buffer and one thread hold, and the objects they
    held or that were not in use. *)
Section Update.
Variables (h h' : gmap Z Z) (bufs : sname -> list Z) (views : aname -> athread Z).
Variables (bufs' : sname -> list Z) (views' : aname -> athread Z).
Variables (a a' : spec) (x : sname) (t : aname).
#[local] Abbreviation before := (bufs x ++ held (views t)).
#[local] Abbreviation after := (bufs' x ++ held (views' t)).
Hypothesis R : Rel h bufs views a.
Hypothesis Ec : forall y, y <> x -> hist a' y = hist a y /\ taken a' y = taken a y.
Hypothesis Et : forall u, u <> t -> ath a' u = ath a u.
Hypothesis Eb : forall y, y <> x -> bufs' y = bufs y.
Hypothesis Ev : forall u, u <> t -> views' u = views u.
Hypothesis Eh : forall p, p ∉ before -> is_Some (h !! p) -> h' !! p = h !! p.
Hypothesis Fb : Forall2 (points h') (bufs' x) (drop (taken a' x) (hist a' x)).
Hypothesis Fv : athread_rel h' (views' t) (ath a' t).
Hypothesis ND : NoDup after.
Hypothesis Sub : forall p, p ∈ after -> p ∈ before \/ h !! p = None.
Hypothesis Liv : forall p, is_Some (h' !! p) ->
  p ∈ after \/ (is_Some (h !! p) /\ p ∉ before).

(** The other places hold what they held, apart from these two. *)
Definition other (pl : sname + aname) : Prop := pl <> inl x /\ pl <> inr t.

Lemma own_other pl : other pl -> own bufs' views' pl = own bufs views pl.
Proof.
  intros [N1 N2]. destruct pl as [y|u]; simpl; [apply Eb; congruence|].
  f_equal. apply Ev. congruence.
Qed.

Lemma apart_before pl p : other pl -> p ∈ own bufs views pl -> p ∉ before.
Proof.
  intros [N1 N2] Hp [Hx|Hx]%elem_of_app.
  - by rewrite (rel_apart _ _ _ _ R pl (inl x) p Hp Hx) in N1.
  - by rewrite (rel_apart _ _ _ _ R pl (inr t) p Hp Hx) in N2.
Qed.

Lemma apart_after pl p : other pl -> p ∈ own bufs views pl -> p ∉ after.
Proof.
  intros N Hp Hx. destruct (Sub p Hx) as [Hx'|Hx']; [by eapply apart_before|].
  destruct (own_live _ _ _ _ _ _ R Hp) as [_ [v E]]. congruence.
Qed.

Lemma other_frame pl p : other pl -> p ∈ own bufs views pl -> h' !! p = h !! p.
Proof. intros N Hp. apply Eh; [by eapply apart_before|]. by eapply own_live. Qed.

Lemma update_nodup y u : NoDup (bufs' y ++ held (views' u)).
Proof.
  pose proof (rel_nodup _ _ _ _ R) as RN.
  destruct (decide (y = x)) as [->|N1], (decide (u = t)) as [->|N2]; [done|..].
  - apply NoDup_app in ND as (N & _ & _). rewrite Ev by done.
    apply NoDup_app. split; [done|]. split.
    + intros p Hp Hu. apply (apart_after (inr u) p); [split; congruence|done|].
      apply elem_of_app. by left.
    + specialize (RN x u). by apply NoDup_app in RN as (_ & _ & ?).
  - apply NoDup_app in ND as (_ & _ & N). rewrite Eb by done.
    apply NoDup_app. split; [|split; [|done]].
    + specialize (RN y t). by apply NoDup_app in RN as (? & _ & _).
    + intros p Hp Hu. apply (apart_after (inl y) p); [split; congruence|done|].
      apply elem_of_app. by right.
  - by rewrite Eb, Ev.
Qed.

Lemma update_apart pl pl' p :
  p ∈ own bufs' views' pl -> p ∈ own bufs' views' pl' -> pl = pl'.
Proof.
  assert (forall pl pl', pl = inl x \/ pl = inr t -> other pl' ->
    p ∈ own bufs' views' pl -> p ∈ own bufs' views' pl' -> False) as D.
  { intros q q' Hq N H1 H2. rewrite own_other in H2 by done.
    apply (apart_after q' p N H2), elem_of_app. destruct Hq as [-> | ->]; [by left|by right]. }
  assert (p ∈ bufs' x -> p ∈ held (views' t) -> False) as D'.
  { intros H1 H2. apply NoDup_app in ND as (_ & N & _). by eapply N. }
  intros H1 H2.
  destruct (decide (pl = inl x \/ pl = inr t)) as [C|C],
    (decide (pl' = inl x \/ pl' = inr t)) as [C'|C'].
  - destruct C as [-> | ->], C' as [-> | ->]; try done; exfalso; by eapply D'.
  - exfalso. apply (D pl pl' C); [split; naive_solver|done|done].
  - exfalso. apply (D pl' pl C'); [split; naive_solver|done|done].
  - rewrite own_other in H1, H2 by (split; naive_solver). by apply (rel_apart _ _ _ _ R _ _ p).
Qed.

Lemma update_owned p : is_Some (h' !! p) -> exists pl, p ∈ own bufs' views' pl.
Proof.
  intros Hp. destruct (Liv p Hp) as [[Hx|Ht]%elem_of_app|[Hh N]].
  - by exists (inl x).
  - by exists (inr t).
  - destruct (rel_live _ _ _ _ R p Hh) as [pl Hpl]. exists pl.
    rewrite elem_of_app in N.
    rewrite own_other; [done|split; intros ->; tauto].
Qed.

Lemma Rel_update : Rel h' bufs' views' a'.
Proof.
  split; [| |apply update_nodup|apply update_apart|apply update_owned].
  - intros y. destruct (decide (y = x)) as [->|N]; [done|].
    pose proof (Ec y N) as [-> ->]. rewrite Eb by done.
    eapply list_points_frame; [|apply R]. intros p Hp.
    apply (other_frame (inl y)); [split; congruence|done].
  - intros u. destruct (decide (u = t)) as [->|N]; [done|].
    rewrite Et, Ev by done. eapply athread_rel_frame; [|apply R].
    intros p Hp. apply (other_frame (inr u)); [split; congruence|done].
Qed.
End Update.

(** The same for one thread and no buffer. *)
Lemma Rel_thread h h' bufs views bufs' views' a a' t :
  Rel h bufs views a ->
  (forall y, hist a' y = hist a y /\ taken a' y = taken a y) ->
  (forall u, u <> t -> ath a' u = ath a u) ->
  (forall y, bufs' y = bufs y) -> (forall u, u <> t -> views' u = views u) ->
  (forall p, p ∉ held (views t) -> is_Some (h !! p) -> h' !! p = h !! p) ->
  athread_rel h' (views' t) (ath a' t) ->
  NoDup (held (views' t)) ->
  (forall p, p ∈ held (views' t) -> p ∈ held (views t) \/ h !! p = None) ->
  (forall p, is_Some (h' !! p) ->
     p ∈ held (views' t) \/ (is_Some (h !! p) /\ p ∉ held (views t))) ->
  Rel h' bufs' views' a'.
Proof.
  intros R Ec Et Eb Ev Eh Fv ND Sub Liv. pose proof R as [RB RV RN RA RL].
  assert (forall p, p ∈ bufs suc1 -> p ∉ held (views t)) as D.
  { specialize (RN suc1 t). apply NoDup_app in RN as (_ & N & _). intros p Hp. by apply N. }
  apply (Rel_update h h' bufs views bufs' views' a a' suc1 t); try done; try (intros; auto; done).
  - intros p Hp. apply Eh. intros Hh. apply Hp, elem_of_app. by right.
  - destruct (Ec suc1) as [-> ->]. rewrite Eb. eapply list_points_frame; [|apply RB].
    intros p Hp. apply Eh; [by apply D|].
    by apply (own_live h bufs views a (inl suc1) p R Hp).
  - rewrite Eb. apply NoDup_app. split_and!; [|intros p Hp Hh|done].
    + specialize (RN suc1 t). by apply NoDup_app in RN as (? & _ & _).
    + destruct (Sub p Hh) as [Hh'|E]; [by apply (D p)|].
      destruct (own_live h bufs views a (inl suc1) p R Hp) as [_ [v Ev']]. congruence.
  - intros p. rewrite Eb, !elem_of_app. intros [Hp|Hp]; [by left; left|].
    destruct (Sub p Hp); [left; by right|by right].
  - intros p Hp. rewrite Eb, !elem_of_app. destruct (Liv p Hp) as [|[]]; [by left; right|].
    destruct (decide (p ∈ bufs suc1)); [by left; left|right; tauto].
Qed.

(** The next value of a channel is what the first pointer of its buffer
    stands for, and there is room for a put as long as there is in the buffer. *)
Lemma Rel_next h bufs views a x p l :
  Rel h bufs views a -> bufs x = p :: l ->
  exists v, next_value x a = Some v /\ points h p v /\
    Forall2 (points h) l (drop (S (taken a x)) (hist a x)).
Proof.
  intros R E. pose proof (rel_bufs _ _ _ _ R x) as F. rewrite E in F.
  destruct (drop (taken a x) (hist a x)) as [|v u] eqn:D; [by apply Forall2_cons_nil_inv in F|].
  apply Forall2_cons in F as [P F]. exists v. split; [|split; [done|]].
  - unfold next_value. rewrite <- (Nat.add_0_r (taken a x)), <- lookup_drop, D. done.
  - rewrite <- Nat.add_1_r, <- drop_drop, D. done.
Qed.

Lemma Rel_room h bufs views a x :
  Rel h bufs views a -> (taken a x <= length (hist a x))%nat ->
  Z.of_nat (length (bufs x)) < BUFFER_SIZE -> can_put x a.
Proof.
  intros R T L. pose proof (Forall2_length _ _ _ (rel_bufs _ _ _ _ R x)) as E.
  rewrite length_drop in E. unfold can_put. lia.
Qed.

(** The pointer a thread was putting is at the end of the buffer. *)
Lemma Rel_put h bufs views bufs' views' a t x p v w :
  Rel h bufs views a -> (taken a x <= length (hist a x))%nat -> points h p v ->
  held (views t) ≡ₚ p :: held (views' t) -> athread_rel h (views' t) w ->
  bufs' x = bufs x ++ [p] -> (forall y, y <> x -> bufs' y = bufs y) ->
  (forall u, u <> t -> views' u = views u) ->
  Rel h bufs' views' (set_ath t w (aput x v a)).
Proof.
  intros R T P Eh Fv Ex Eb Ev.
  assert (bufs' x ++ held (views' t) ≡ₚ bufs x ++ held (views t)) as Ep.
  { rewrite Ex, Eh, <- app_assoc. done. }
  apply (Rel_update h h bufs views bufs' views' a _ x t); simpl; try done.
  - intros y N. by rewrite upd_ne.
  - intros u N. by rewrite upd_ne.
  - rewrite upd_eq, Ex, drop_app_le by done. apply Forall2_app; [apply R|].
    by constructor.
  - by rewrite upd_eq.
  - rewrite Ep. apply R.
  - intros q. rewrite Ep. by left.
  - intros q Hq. rewrite Ep. destruct (decide (q ∈ bufs x ++ held (views t))); auto.
Qed.

(** The first pointer of a buffer is with the thread that got it. *)
Lemma Rel_take h bufs views bufs' views' a t x p w :
  Rel h bufs views a ->
  held (views' t) ≡ₚ p :: held (views t) -> athread_rel h (views' t) w ->
  bufs x = p :: bufs' x -> (forall y, y <> x -> bufs' y = bufs y) ->
  (forall u, u <> t -> views' u = views u) ->
  Rel h bufs' views' (set_ath t w (atake x a)).
Proof.
  intros R Eh Fv Ex Eb Ev.
  destruct (Rel_next _ _ _ _ _ _ _ R Ex) as (v & _ & _ & F).
  assert (bufs' x ++ held (views' t) ≡ₚ bufs x ++ held (views t)) as Ep.
  { rewrite Ex, Eh. simpl. by rewrite <- Permutation_middle. }
  apply (Rel_update h h bufs views bufs' views' a _ x t); simpl; try done.
  - intros y N. by rewrite upd_ne.
  - intros u N. by rewrite upd_ne.
  - by rewrite upd_eq.
  - by rewrite upd_eq.
  - rewrite Ep. apply R.
  - intros q. rewrite Ep. by left.
  - intros q Hq. rewrite Ep. destruct (decide (q ∈ bufs x ++ held (views t))); auto.
Qed.
End RelFacts.

(** ** Steps of the abstract network *)

Section RelSteps.
Implicit Types (h : gmap Z Z) (a : spec) (bufs : sname -> list Z) (views : aname -> athread Z).

(** What a thread stands for, from what it holds. *)
Ltac stands R t E :=
  pose proof (rel_views _ _ _ _ R t) as Rt; rewrite E in Rt; simpl in Rt;
  match type of Rt with context [ath ?a t] => destruct (ath a t) eqn:?; try done end;
  destruct_and?; simplify_eq;
  repeat match goal with
  | H : option_Forall2 _ (Some _) _ |- _ => inversion H; subst; clear H
  | H : option_Forall2 _ None _ |- _ => inversion H; subst; clear H
  end.

Lemma view_put h bufs views bufs' views' a t k x p :
  Rel h bufs views a -> place_of t k = (x, true) ->
  views t = view_call k (PutEnqueue p) -> views' t = view_call k PutUpMutex ->
  bufs' x = bufs x ++ [p] -> (forall y, y <> x -> bufs' y = bufs y) ->
  (forall u, u <> t -> views' u = views u) ->
  (taken a x <= length (hist a x))%nat -> Z.of_nat (length (bufs x)) < BUFFER_SIZE ->
  exists a', spec_step a a' /\ Rel h bufs' views' a' /\ taken a' = taken a /\ shown a' = shown a.
Proof.
  intros R P E E' Ex Eb Ev T L. pose proof (Rel_room _ _ _ _ _ R T L) as C.
  destruct k; simpl in P, E, E'; simplify_eq; stands R t E;
    (eexists; split; [constructor; eassumption|]; split; [|done]);
    (eapply Rel_put; try eassumption; rewrite E'; [rewrite E|]; simpl;
     [try reflexivity; apply perm_swap|]; split_and?; repeat first [assumption | constructor]).
Qed.

Lemma view_take h bufs views bufs' views' a t k x p :
  Rel h bufs views a -> place_of t k = (x, false) -> (forall i, k = KCon i -> i < 10) ->
  views t = view_call k GetDequeue -> views' t = view_call k (GetUpMutex p) ->
  bufs x = p :: bufs' x -> (forall y, y <> x -> bufs' y = bufs y) ->
  (forall u, u <> t -> views' u = views u) ->
  exists a', spec_step a a' /\ Rel h bufs' views' a' /\
    taken a' = upd (taken a) x (S (taken a x)) /\ shown a' = shown a.
Proof.
  intros R P B E E' Ex Eb Ev. destruct (Rel_next _ _ _ _ _ _ _ R Ex) as (v & N & Pv & _).
  destruct k; simpl in P, E, E'; simplify_eq; stands R t E;
    (eexists; split; [econstructor; eauto; fail|]; split; [|done]);
    (eapply Rel_take; try eassumption; rewrite E'; [rewrite E|]; simpl;
     [try reflexivity; apply perm_swap|]; split_and?; repeat first [assumption | constructor]).
Qed.

(** Objects other than [p] do not change when [p] is stored to. *)
Ltac elsewhere := intros q Hq; rewrite ?elem_of_app, ?list_elem_of_singleton in Hq; intros _;
  rewrite ?lookup_insert_ne, ?lookup_delete_ne by (intros ->; apply Hq; auto); done.

Lemma view_number h bufs views bufs' views' a t i p :
  Rel h bufs views a -> views t = ASuc i None -> views' t = ASuc i (Some p) ->
  (forall y, bufs' y = bufs y) -> (forall u, u <> t -> views' u = views u) ->
  p <> 0 -> h !! p = None ->
  exists a', spec_step a a' /\ Rel (<[p := i]> h) bufs' views' a' /\
    taken a' = taken a /\ shown a' = shown a.
Proof.
  intros R E E' Eb Ev N Hp. stands R t E.
  eexists. split; [by eapply suc_number|]. split; [|done].
  apply (Rel_thread h _ bufs views bufs' views' a _ t); rewrite ?E, ?E'; simpl; try done.
  - intros u Nu. by rewrite upd_ne.
  - intros q _ [v Hq]. rewrite lookup_insert_ne; [done|congruence].
  - rewrite upd_eq. split; [done|]. constructor. split; [done|apply lookup_insert_eq].
  - apply NoDup_singleton.
  - intros q ->%list_elem_of_singleton. by right.
  - intros q Hq. rewrite list_elem_of_singleton. destruct (decide (q = p)) as [->|D]; [by left|].
    right. rewrite lookup_insert_ne in Hq by done. split; [done|apply not_elem_of_nil].
Qed.

Lemma view_multiply h bufs views bufs' views' a t p v :
  Rel h bufs views a -> views t = ATms (Some p) None -> views' t = ATms None (Some p) ->
  (forall y, bufs' y = bufs y) -> (forall u, u <> t -> views' u = views u) ->
  h !! p = Some v ->
  exists a', spec_step a a' /\ Rel (<[p := v * factor t]> h) bufs' views' a' /\
    taken a' = taken a /\ shown a' = shown a.
Proof.
  intros R E E' Eb Ev Hp. stands R t E.
  match goal with H : points _ _ _ |- _ => destruct H as [N Hp'] end.
  rewrite Hp in Hp'. injection Hp' as <-.
  eexists. split; [by eapply tms_multiply|]. split; [|done].
  apply (Rel_thread h _ bufs views bufs' views' a _ t); rewrite ?E, ?E'; simpl; try done.
  - intros u Nu. by rewrite upd_ne.
  - elsewhere.
  - rewrite upd_eq. split; constructor. split; [done|apply lookup_insert_eq].
  - apply NoDup_singleton.
  - intros q Hq. by left.
  - intros q Hq. rewrite list_elem_of_singleton. destruct (decide (q = p)) as [->|D]; [by left|].
    right. by rewrite lookup_insert_ne in Hq.
Qed.

Lemma view_compare h bufs views bufs' views' a t p q v w :
  Rel h bufs views a -> views t = AMrg (Some p) (Some q) None ->
  views' t = AMrg (Some p) (Some q) (Some (v <? w)) ->
  (forall y, bufs' y = bufs y) -> (forall u, u <> t -> views' u = views u) ->
  h !! p = Some v -> h !! q = Some w ->
  exists a', spec_step a a' /\ Rel h bufs' views' a' /\ taken a' = taken a /\ shown a' = shown a.
Proof.
  intros R E E' Eb Ev Hp Hq. pose proof (rel_nodup _ _ _ _ R suc1 t) as ND.
  apply NoDup_app in ND as (_ & _ & ND). rewrite E in ND. stands R t E.
  repeat match goal with H : points _ _ _ |- _ => destruct H as [? ?] end. simplify_eq.
  eexists. split; [by eapply mrg_compare|]. split; [|done].
  apply (Rel_thread h _ bufs views bufs' views' a _ t); rewrite ?E, ?E'; simpl; try done.
  - intros u Nu. by rewrite upd_ne.
  - rewrite upd_eq. split_and!; [by constructor..|done].
  - intros r Hr. by left.
  - intros r Hr. destruct (decide (r ∈ [p; q])); auto.
Qed.

Lemma view_show h bufs views bufs' views' a t i p v :
  Rel h bufs views a -> views t = ACon i (Some p) -> views' t = ACon (i + 1) None ->
  (forall y, bufs' y = bufs y) -> (forall u, u <> t -> views' u = views u) ->
  h !! p = Some v ->
  exists a', spec_step a a' /\ Rel (delete p h) bufs' views' a' /\
    taken a' = taken a /\ shown a' = shown a ++ [v].
Proof.
  intros R E E' Eb Ev Hp. stands R t E.
  match goal with H : points _ _ _ |- _ => destruct H as [N Hp'] end.
  rewrite Hp in Hp'. injection Hp' as <-.
  eexists. split; [by eapply con_show|]. split; [|done].
  apply (Rel_thread h _ bufs views bufs' views' a _ t); rewrite ?E, ?E'; simpl; try done.
  - intros u Nu. by rewrite upd_ne.
  - elsewhere.
  - rewrite upd_eq. split; [done|constructor].
  - constructor.
  - by intros q ?%elem_of_nil.
  - intros q Hq. right. rewrite list_elem_of_singleton.
    destruct (decide (q = p)) as [->|D]; [by rewrite lookup_delete_eq in Hq; destruct Hq|].
    by rewrite lookup_delete_ne in Hq.
Qed.

(** Only what the buffers and threads hold matters. *)
Lemma Rel_ext h bufs views bufs' views' a :
  Rel h bufs views a -> (forall y, bufs' y = bufs y) -> (forall u, views' u = views u) ->
  Rel h bufs' views' a.
Proof.
  intros [RB RV RN RA RL] Eb Ev.
  assert (forall pl, own bufs' views' pl = own bufs views pl) as Eo
    by (intros [y|u]; simpl; by rewrite ?Eb, ?Ev).
  split; intros *; rewrite ?Eb, ?Ev, ?Eo; auto; [apply RA|].
  intros Hp. destruct (RL p Hp) as [pl Hpl]. exists pl. by rewrite Eo.
Qed.
End RelSteps.

(** ** The relation with the machine *)

(** The links of the globals once the module is loaded. *)
Record wired `{Semaphore} `{!Queue Z} (n : net Z) : Prop := {
  wired_self : forall t, t <> cons_args -> self (argv n t) = Some (out_of t);
  wired_prod : forall t, t <> suc1_args -> t <> suc2_args -> prod (argv n t) = Some (in_of t);
  wired_next : snext (nodes n tms2) = Some in2;
  wired_args : forall t, t = tms1_args \/ t = tms2_args ->
    sargs (nodes n (out_of t)) = Some (factor t);
}.

(** The format of the line the consumer prints, and the numbers it printed. *)
Definition consumer_fmt : string := "Consumer: got %d <---".
Definition shown_by (m : kmsg) : option Z :=
  if decide (fmt m = consumer_fmt) then
    match kargs m with [ArgZ v] => Some v | _ => None end
  else None.
Definition shown_of (l : list kmsg) : list Z := omap shown_by l.

Section Sim.
Context `{Semaphore} `{!Queue Z}.

Definition bufs (s : nstate) (x : sname) : list Z := items (buffer (str (strs (shr s) x))).

Definition view_in (ys : sname -> system Z) (th : aname -> tstate) (t : aname) : athread Z :=
  match th t with
  | At p => view_point p
  | In x k => match threads (ys x) !! tid t with
              | Some c => view_call k c
              | None => ACon 0 None
              end
  | Finished _ => ACon 10 None
  end.

Definition views (s : nstate) : aname -> athread Z := view_in (strs (shr s)) (ths s).

(** The calls inside the streams are those of the threads, and no call was
    interrupted. *)
Record calls_ok (ys : sname -> system Z) (th : aname -> tstate) : Prop := {
  co_reach : forall x, reachable new_system stream_step (ys x);
  co_lost : forall x, lost_slots (ys x) = 0 /\ lost_tokens (ys x) = 0;
  co_in : forall t x k, th t = In x k -> exists c, threads (ys x) !! tid t = Some c /\
    place_of t k = (x, is_put c) /\ c <> GetReturned None /\ (forall i, k = KCon i -> i < 10);
  co_of : forall x j c, threads (ys x) !! j = Some c -> exists t k, j = tid t /\ th t = In x k;
}.

Record Sim (s : nstate) (a : spec) : Prop := {
  sim_wired : wired (globals (shr s));
  sim_calls : calls_ok (strs (shr s)) (ths s);
  sim_rel : Rel (mem (shr s)) (bufs s) (views s) a;
  sim_taken : forall x, length (received (strs (shr s) x)) = taken a x;
  sim_shown : shown_of (log s) = shown a;
}.
End Sim.

Section Calls.
Context `{SemaphoreOk} `{!Queue Z} `{!QueueOk Z}.
Implicit Types (ys : sname -> system Z) (th : aname -> tstate).

Lemma tid_inj t u : tid t = tid u -> t = u.
Proof. by destruct t, u. Qed.

Lemma co_outside ys th t x :
  calls_ok ys th -> (forall x k, th t <> In x k) -> threads (ys x) !! tid t = None.
Proof.
  intros C N. destruct (threads (ys x) !! tid t) as [c|] eqn:E; [|done].
  apply (co_of _ _ C) in E as (u & k & ->%tid_inj & E). by apply N in E.
Qed.

Lemma view_other ys ys' th th' u :
  th' u = th u -> (forall x, threads (ys' x) !! tid u = threads (ys x) !! tid u) ->
  view_in ys' th' u = view_in ys th u.
Proof. unfold view_in. intros -> E. destruct (th u); [done| |done]. by rewrite E. Qed.

(** The threads of one stream after a change at [tid t] are for the others
    what they were. *)
Lemma upd_threads ys x y' t u :
  (forall j, j <> tid t -> threads y' !! j = threads (ys x) !! j) -> u <> t ->
  forall x', threads (upd ys x y' x') !! tid u = threads (ys x') !! tid u.
Proof.
  intros E N x'. destruct (decide (x' = x)) as [->|D]; [|by rewrite upd_ne].
  rewrite upd_eq. apply E. by intros ?%tid_inj.
Qed.

Lemma co_goto ys th t st :
  calls_ok ys th -> (forall x k, th t <> In x k) -> (forall x k, st <> In x k) ->
  calls_ok ys (upd th t st).
Proof.
  intros [CR CL CI CO] N N'. split; try done.
  - intros u x k. destruct (decide (u = t)) as [->|D]; [|rewrite upd_ne by done; apply CI].
    rewrite upd_eq. by intros ?%N'.
  - intros x j c E. destruct (CO x j c E) as (u & k & -> & Eu). exists u, k. split; [done|].
    rewrite upd_ne; [done|]. intros ->. by apply N in Eu.
Qed.

(** A change of one stream by a step of thread [t], which is inside it after. *)
Lemma co_inside ys th x y' t k c :
  calls_ok ys th -> stream_step (ys x) y' -> lost_slots y' = 0 /\ lost_tokens y' = 0 ->
  (forall j, j <> tid t -> threads y' !! j = threads (ys x) !! j) ->
  threads y' !! tid t = Some c -> (forall x' k', th t = In x' k' -> x' = x) ->
  place_of t k = (x, is_put c) -> c <> GetReturned None -> (forall i, k = KCon i -> i < 10) ->
  calls_ok (upd ys x y') (upd th t (In x k)).
Proof.
  intros [CR CL CI CO] St L Ej Et Nx P R B. split.
  - intros x'. destruct (decide (x' = x)) as [->|D]; [rewrite upd_eq|by rewrite upd_ne].
    by apply (reachable_step _ _ (ys x)).
  - intros x'. destruct (decide (x' = x)) as [->|D]; [by rewrite upd_eq|by rewrite upd_ne].
  - intros u x' k'. destruct (decide (u = t)) as [->|D].
    + rewrite upd_eq. intros [= <- <-]. exists c. by rewrite upd_eq.
    + rewrite upd_ne by done. intros E. rewrite (upd_threads _ _ _ t) by done. by apply CI.
  - intros x' j c' E. destruct (decide (j = tid t)) as [->|D].
    + exists t. destruct (decide (x' = x)) as [->|D'].
      * exists k. by rewrite upd_eq.
      * rewrite upd_ne in E by done. apply CO in E as (u & k' & <-%tid_inj & E).
        by apply Nx in E.
    + assert (threads (ys x') !! j = Some c') as E'.
      { destruct (decide (x' = x)) as [->|D']; [|by rewrite upd_ne in E].
        rewrite upd_eq in E. by rewrite <- Ej. }
      apply CO in E' as (u & k' & -> & Eu). exists u, k'. split; [done|].
      rewrite upd_ne; [done|congruence].
Qed.

Lemma co_return ys th x t k p c :
  calls_ok ys th -> th t = In x k -> threads (ys x) !! tid t = Some c -> returned c = true ->
  calls_ok (upd ys x (with_threads (delete (tid t) (threads (ys x))) (ys x)))
    (upd th t (At p)).
Proof.
  intros [CR CL CI CO] Et E R. split.
  - intros x'. destruct (decide (x' = x)) as [->|D]; [rewrite upd_eq|by rewrite upd_ne].
    apply (reachable_step _ _ (ys x)); [done|]. by eapply thread_returns.
  - intros x'. destruct (decide (x' = x)) as [->|D]; [rewrite upd_eq; apply CL|by rewrite upd_ne].
  - intros u x' k'. destruct (decide (u = t)) as [->|D]; [by rewrite upd_eq|].
    rewrite upd_ne by done. intros Eu.
    rewrite (upd_threads _ _ _ t); [by apply CI| |done].
    intros j N. simpl. by rewrite lookup_delete_ne.
  - intros x' j c' Ej.
    assert (threads (ys x') !! j = Some c' /\ (j = tid t -> x' <> x)) as [E' N].
    { destruct (decide (x' = x)) as [->|D]; [|by rewrite upd_ne in Ej].
      rewrite upd_eq in Ej. simpl in Ej. apply lookup_delete_Some in Ej as [? ?]. by split. }
    apply CO in E' as (u & k' & -> & Eu). exists u, k'. split; [done|].
    rewrite upd_ne; [done|]. intros ->. apply N; [done|congruence].
Qed.
End Calls.

(** ** One step of the machine *)

Section Steps.
Context `{SemaphoreOk} `{!Queue Z} `{!QueueOk Z}.
Implicit Types (s : nstate) (a : spec).

(** What a thread holds after the code up to its next call. *)
Definition view_action (act : action) : athread Z :=
  match act with
  | Goto p => view_point p
  | Calls x c k => view_call k c
  | Exits _ => ACon 10 None
  end.

Definition act_ok (t : aname) (act : action) : Prop :=
  match act with
  | Calls x c k => place_of t k = (x, is_put c) /\
      (c = GetFull \/ exists v, c = PutEmpty v) /\ (forall i, k = KCon i -> i < 10)
  | _ => True
  end.

Definition with_mem (m : gmap Z Z) (h : shared) : shared := Shared (globals h) (strs h) m.

Lemma shown_of_app l l' : shown_of (l ++ l') = shown_of l ++ shown_of l'.
Proof. apply omap_app. Qed.

Lemma call_starts (ys : sname -> system Z) x t c :
  threads (ys x) !! tid t = None -> c = GetFull \/ (exists v, c = PutEmpty v) ->
  stream_step (ys x) (with_threads (<[tid t := c]> (threads (ys x))) (ys x)).
Proof. intros E [->|[v ->]]; by constructor. Qed.

(** The buffers and threads after a thread's own code. *)
Lemma perform_bufs s t act m x : bufs (perform t act (with_mem m (shr s)) s) x = bufs s x.
Proof.
  unfold bufs. destruct act as [p|y c k|r]; simpl; try done.
  destruct (decide (x = y)) as [->|N]; [by rewrite upd_eq|by rewrite upd_ne].
Qed.

Lemma perform_views s t act m u :
  views (perform t act (with_mem m (shr s)) s) u = upd (views s) t (view_action act) u.
Proof.
  destruct (decide (u = t)) as [->|N].
  - rewrite upd_eq. unfold views, view_in. destruct act as [p|y c k|r]; simpl; rewrite !upd_eq;
      simpl; rewrite ?lookup_insert_eq; done.
  - rewrite upd_ne by done. apply view_other; destruct act as [p|y c k|r]; simpl;
      rewrite ?upd_ne by done; try done.
    intros x. apply (upd_threads _ _ _ t); [|done]. intros j Nj. simpl.
    by rewrite lookup_insert_ne.
Qed.

Lemma sim_perform s a a' t p act m out :
  Sim s a -> ths s t = At p -> act_ok t act ->
  Rel m (bufs s) (upd (views s) t (view_action act)) a' ->
  taken a' = taken a -> shown a' = shown a ++ shown_of out ->
  Sim (logging out (perform t act (with_mem m (shr s)) s)) a'.
Proof.
  intros [W C R T S] E Ok R' T' S'.
  assert (forall x k, ths s t <> In x k) as N by (by rewrite E).
  split.
  - by destruct act.
  - destruct act as [q|x c k|r]; simpl; [by apply co_goto| |by apply co_goto].
    destruct Ok as (P & Ec & B). unfold with_mem. simpl.
    pose proof (co_outside _ _ t x C N) as O.
    apply (co_inside _ _ _ _ _ _ c); try done.
    + by apply call_starts.
    + apply C.
    + intros j Nj. simpl. by rewrite lookup_insert_ne.
    + apply lookup_insert_eq.
    + intros x' k' Ek. by apply N in Ek.
    + by destruct Ec as [->|[v ->]].
  - replace (mem _) with m by (by destruct act).
    apply (Rel_ext m (bufs s) (upd (views s) t (view_action act))); [done|..].
    + apply perform_bufs.
    + apply perform_views.
  - rewrite T'. intros x. rewrite <- T. destruct act as [q|y c k|r]; simpl; try done.
    destruct (decide (x = y)) as [->|D]; [by rewrite upd_eq|by rewrite upd_ne].
  - simpl. rewrite S', <- S. destruct act; apply shown_of_app.
Qed.
End Steps.

(** ** The code between two calls *)

Section Code.
Context `{SemaphoreOk} `{!Queue Z} `{!QueueOk Z}.
Variable vmalloc : gmap Z Z -> Z.
Hypothesis vmalloc_fresh : forall h, vmalloc h <> 0 /\ h !! vmalloc h = None.
Implicit Types (s : nstate) (a : spec) (sh : shared).

Lemma self_of_ok sh t :
  wired (globals sh) -> t <> cons_args -> self_of t sh = Done (out_of t) sh [].
Proof. intros W N. unfold self_of. kexec. by rewrite wired_self. Qed.

Lemma prod_of_ok sh t :
  wired (globals sh) -> t <> suc1_args -> t <> suc2_args -> prod_of t sh = Done (in_of t) sh [].
Proof. intros W N N'. unfold prod_of. kexec. by rewrite wired_prod. Qed.

Lemma next_of_ok sh : wired (globals sh) -> next_of tms2 sh = Done in2 sh [].
Proof. intros W. unfold next_of. kexec. by rewrite wired_next. Qed.

Lemma arg_of_ok sh t :
  wired (globals sh) -> t = tms1_args \/ t = tms2_args ->
  arg_of (out_of t) sh = Done (factor t) sh [].
Proof. intros W N. unfold arg_of. kexec. by rewrite wired_args. Qed.

Lemma id_of_ok sh x : id_of x sh = Done (sid (nodes (globals sh) x)) sh [].
Proof. done. Qed.

Lemma nelem_of_ok sh x : nelem_of x sh = Done (nelem (buffer (str (strs sh x)))) sh [].
Proof. done. Qed.

Lemma load_ok sh p v : points (mem sh) p v -> load p sh = Done v sh [].
Proof.
  intros [N E]. unfold load. kexec. rewrite (proj2 (Z.eqb_neq p 0) N), E. done.
Qed.

Lemma store_ok sh p v w :
  points (mem sh) p v -> store p w sh = Done tt (with_mem (<[p := w]> (mem sh)) sh) [].
Proof. intros P. unfold store. by rewrite (exec_bind _ _ _ _ _ _ (load_ok _ _ _ P)). Qed.

Lemma vfree_ok sh p v :
  points (mem sh) p v -> vfree p sh = Done tt (with_mem (delete p (mem sh)) sh) [].
Proof.
  intros P. unfold vfree. destruct (Z.eqb_spec p 0) as [->|]; [by destruct P|].
  by rewrite (exec_bind _ _ _ _ _ _ (load_ok _ _ _ P)).
Qed.

Lemma vmalloc_int_ok sh :
  vmalloc_int vmalloc sh =
    Done (vmalloc (mem sh)) (with_mem (<[vmalloc (mem sh) := 0]> (mem sh)) sh) [].
Proof.
  unfold vmalloc_int. kexec. destruct (Z.eqb_spec (vmalloc (mem sh)) 0) as [E|]; [|done].
  by destruct (vmalloc_fresh (mem sh)).
Qed.

Lemma checked_ok sh z : int_range z -> checked z sh = Done z sh [].
Proof. intros R. unfold checked. by rewrite bool_decide_true. Qed.

Lemma with_mem_id sh : with_mem (mem sh) sh = sh.
Proof. by destruct sh. Qed.

(** The code of thread [t] at [p] comes to an action that the abstract network
    follows, or does not see. *)
Definition code_ok s a t p : Prop := exists act m out a',
  code vmalloc t p (shr s) = Done act (with_mem m (shr s)) out /\
  (a' = a \/ spec_step a a') /\
  Sim (logging out (perform t act (with_mem m (shr s)) s)) a'.

Lemma code_silent s a t p act out :
  Sim s a -> ths s t = At p -> act_ok t act -> view_action act = view_point p ->
  shown_of out = [] -> code vmalloc t p (shr s) = Done act (shr s) out -> code_ok s a t p.
Proof.
  intros I E Ok V O C. exists act, (mem (shr s)), out, a. rewrite with_mem_id.
  split; [done|]. split; [by left|]. rewrite <- (with_mem_id (shr s)) at 1.
  apply (sim_perform s a a t p); try done.
  - apply (Rel_ext _ (bufs s) (views s)); [apply I|done|]. intros u.
    destruct (decide (u = t)) as [->|N]; [|by rewrite upd_ne].
    rewrite upd_eq, V. unfold views, view_in. by rewrite E.
  - by rewrite O, app_nil_r.
Qed.

(** Which thread runs which code. *)
Lemma code_thread s a t p :
  Sim s a -> spec_inv a -> ths s t = At p ->
  match p with
  | SEntry | SLoop _ | SNext _ => t = suc1_args \/ t = suc2_args
  | TEntry | TLoop | TGot _ => t = tms1_args \/ t = tms2_args
  | CLoop _ | CGot _ _ => t = cons_args
  | _ => t = mrg_args
  end.
Proof.
  intros I A E. pose proof (rel_views _ _ _ _ (sim_rel _ _ I) t) as R.
  unfold views, view_in in R. rewrite E in R. pose proof (inv_threads _ A t) as T.
  unfold thread_inv in T. revert R T.
  destruct t, (ath a _), p; simpl; try done; auto.
Qed.

(** What the thread at [p] holds, by the abstract thread. *)
Lemma code_view s a t p :
  Sim s a -> ths s t = At p ->
  views s t = view_point p /\ athread_rel (mem (shr s)) (view_point p) (ath a t).
Proof.
  intros I E. assert (views s t = view_point p) as V by (unfold views, view_in; by rewrite E).
  split; [done|]. rewrite <- V. apply I.
Qed.

(** [run E] takes the step of a computation that [E] gives. *)
Local Ltac run E := rewrite (exec_bind _ _ _ _ _ _ E), tell_nil; cbv beta.

Lemma successor_code_ok s a t p :
  Sim s a -> spec_inv a -> ths s t = At p ->
  (p = SEntry \/ (exists i, p = SLoop i) \/ exists i, p = SNext i) -> code_ok s a t p.
Proof.
  intros I A E Hp. pose proof (code_thread _ _ _ _ I A E) as Ht.
  pose proof (sim_wired _ _ I) as W. destruct (code_view _ _ _ _ I E) as [V R].
  assert (t = suc1_args \/ t = suc2_args) as Ht'
    by (destruct Hp as [->|[[i ->]|[i ->]]]; done).
  assert (t <> cons_args) as Nc by naive_solver.
  assert (out_of t = in_of t) as Eo by (destruct Ht' as [-> | ->]; done).
  pose proof (self_of_ok _ _ W Nc) as Slf. clear Ht.
  destruct Hp as [->|[[i ->]|[i ->]]].
  - apply (code_silent s a t _ (Goto (SLoop 1)) []); try done. simpl. by run Slf.
  - destruct (vmalloc_fresh (mem (shr s))) as [N F].
    set (q := vmalloc (mem (shr s))) in *.
    destruct (view_number (mem (shr s)) (bufs s) (views s) (bufs s)
      (upd (views s) t (ASuc i (Some q))) a t i q) as (a' & St & R' & T & S);
      try done; try apply I; [by rewrite upd_eq|intros; by rewrite upd_ne|].
    do 4 eexists. split; [|split; [right; exact St|]].
    + simpl. run Slf. run (id_of_ok (shr s) (out_of t)). run (nelem_of_ok (shr s) (out_of t)).
      rewrite exec_bind_printk. run (vmalloc_int_ok (shr s)).
      run (store_ok (with_mem (<[q := 0]> (mem (shr s))) (shr s)) q 0 i
        (conj N (lookup_insert_eq _ _ _))).
      unfold with_mem. simpl. rewrite insert_insert_eq. reflexivity.
    + apply (sim_perform s a a' t (SLoop i)); try done.
      * simpl. split; [done|]. split; [right; by eexists|]. done.
      * by rewrite S, app_nil_r.
  - simpl in R. destruct (ath a t) eqn:Ea; try done. destruct R as [<- _].
    destruct (spec_bounds a A) as [B _]. specialize (B _ _ _ Ea).
    apply (code_silent s a t _ (Goto (SLoop (i + 1))) []); try done. simpl.
    by run (checked_ok (shr s) (i + 1) ltac:(unfold int_range; lia)).
Qed.

Lemma times_code_ok s a t p :
  Sim s a -> spec_inv a -> ths s t = At p ->
  (p = TEntry \/ p = TLoop \/ exists v, p = TGot v) -> code_ok s a t p.
Proof.
  intros I A E Hp. pose proof (code_thread _ _ _ _ I A E) as Ht.
  pose proof (sim_wired _ _ I) as W. destruct (code_view _ _ _ _ I E) as [V R].
  assert (t = tms1_args \/ t = tms2_args) as Ht'
    by (destruct Hp as [->|[->|[v ->]]]; done).
  assert (self_of t (shr s) = Done (out_of t) (shr s) []) as Slf
    by (apply self_of_ok; [done|]; naive_solver).
  assert (prod_of t (shr s) = Done (in_of t) (shr s) []) as Prd
    by (apply prod_of_ok; [done|..]; naive_solver).
  pose proof (arg_of_ok _ _ W Ht') as Arg. clear Ht.
  destruct Hp as [->|[->|[q ->]]].
  - eapply (code_silent s a t _ (Goto TLoop)); try done; [|simpl; run Slf; run Prd; reflexivity].
    done.
  - apply (code_silent s a t _ (Calls (in_of t) GetFull KTmsGet) []); try done.
    + simpl. split; [done|]. split; [by left|done].
    + simpl. by run Prd.
  - simpl in R. destruct (ath a t) as [|[v|] [|]| |] eqn:Ea; try done;
      destruct R as [P O]; inversion P as [? ? P'|]; subst; inversion O.
    destruct (spec_bounds a A) as [_ B]. specialize (B _ _ _ Ea).
    assert (int_range (v * factor t)) as Rg.
    { unfold int_range. destruct Ht' as [-> | ->]; simpl; unfold mult1, mult2; lia. }
    destruct (view_multiply (mem (shr s)) (bufs s) (views s) (bufs s)
      (upd (views s) t (ATms None (Some q))) a t q v) as (a' & St & R' & T & S);
      try done; [apply I|by rewrite upd_eq|intros; by rewrite upd_ne|by destruct P'|].
    do 4 eexists. split; [|split; [right; exact St|]].
    + simpl. run Slf. run Prd. run (id_of_ok (shr s) (out_of t)).
      run (nelem_of_ok (shr s) (out_of t)). run (load_ok _ _ _ P').
      run (id_of_ok (shr s) (in_of t)). run (nelem_of_ok (shr s) (in_of t)).
      rewrite exec_bind_printk. run (load_ok _ _ _ P'). run Arg.
      run (checked_ok (shr s) _ Rg). run (store_ok _ _ _ (v * factor t) P'). reflexivity.
    + apply (sim_perform s a a' t (TGot q)); try done.
      * simpl. split; [done|]. split; [right; by eexists|]. done.
      * by rewrite S, app_nil_r.
Qed.

Lemma merge_got_ok sh slf st p v :
  points (mem sh) p v ->
  exists out, merge_got slf st p sh = Done tt sh out /\ shown_of out = [].
Proof.
  intros P. eexists. split.
  - unfold merge_got. run (id_of_ok sh slf). run (nelem_of_ok sh slf). run (load_ok _ _ _ P).
    run (id_of_ok sh st). run (nelem_of_ok sh st). reflexivity.
  - done.
Qed.

(** The pointers at the head of merge. *)
Local Ltac links Slf Prd Nxt :=
  unfold code, merge_code; cbv beta iota; run Slf; run Prd; run Nxt.

Lemma merge_code_ok s a t p :
  Sim s a -> spec_inv a -> ths s t = At p -> t = mrg_args -> code_ok s a t p.
Proof.
  intros I A E ->. pose proof (code_thread _ _ _ _ I A E) as Ht.
  pose proof (sim_wired _ _ I) as W. destruct (code_view _ _ _ _ I E) as [V R].
  assert (self_of mrg_args (shr s) = Done mrg (shr s) []) as Slf by (by apply self_of_ok).
  assert (prod_of mrg_args (shr s) = Done tms2 (shr s) []) as Prd by (by apply prod_of_ok).
  pose proof (next_of_ok _ W) as Nxt. simpl in *.
  assert (forall x k, place_of mrg_args k = (x, false) -> (forall i, k <> KCon i) ->
    code vmalloc mrg_args p (shr s) = Done (Calls x GetFull k) (shr s) [] ->
    view_call k GetFull = view_point p -> code_ok s a mrg_args p) as Get.
  { intros x k P K C Vk. apply (code_silent s a mrg_args p (Calls x GetFull k) []); try done.
    simpl. split; [done|]. split; [by left|]. intros i ->. by destruct (K i). }
  destruct p; try done; try (by destruct Ht); simpl in R; clear Ht;
    (destruct (ath a mrg_args) as [| |x y pk|] eqn:Ea; try done; destruct R as (Ra & Rb & Rp)).
  - apply (Get tms2 KMrgFirst); try done. links Slf Prd Nxt. reflexivity.
  - apply (Get in2 (KMrgSecond a0)); try done. links Slf Prd Nxt. reflexivity.
  - eapply (code_silent s a mrg_args _ (Goto (MLoop a0 b))); try done;
      [|links Slf Prd Nxt; reflexivity]. done.
  - inversion Ra as [? v Pv|]; inversion Rb as [? w Pw|]; subst.
    set (act := if v <? w then Calls mrg (PutEmpty a0) (KMrgPutA b)
                else Calls mrg (PutEmpty b) (KMrgPutB a0)).
    assert (view_action act = AMrg (Some a0) (Some b) (Some (v <? w))) as Va
      by (unfold act; by destruct (v <? w)).
    destruct (view_compare (mem (shr s)) (bufs s) (views s) (bufs s)
      (upd (views s) mrg_args (view_action act)) a mrg_args a0 b v w) as (a' & St & R' & T & S);
      try done; [apply I|intros; by rewrite upd_ne|by destruct Pv|by destruct Pw|].
    exists act, (mem (shr s)), [], a'. rewrite with_mem_id. split; [|split; [by right|]].
    + links Slf Prd Nxt. run (load_ok _ _ _ Pv). run (load_ok _ _ _ Pw).
      unfold act. by destruct (v <? w).
    + rewrite <- (with_mem_id (shr s)) at 1. apply (sim_perform s a a' mrg_args (MLoop a0 b)); try done.
      * unfold act. destruct (v <? w); simpl; (split; [done|]; split; [right; by eexists|done]).
      * by rewrite S, app_nil_r.
  - apply (Get tms2 (KMrgGetA b)); try done. links Slf Prd Nxt. reflexivity.
  - inversion Ra as [? v Pv|]; subst.
    destruct (merge_got_ok (shr s) mrg tms2 a0 v Pv) as (out & Em & O).
    apply (code_silent s a mrg_args _ (Goto (MLoop a0 b)) out); try done.
    links Slf Prd Nxt. rewrite (exec_bind _ _ _ _ _ _ Em). simpl. by rewrite app_nil_r.
  - apply (Get in2 (KMrgGetB a0)); try done. links Slf Prd Nxt. reflexivity.
  - inversion Rb as [? v Pv|]; subst.
    destruct (merge_got_ok (shr s) mrg in2 b v Pv) as (out & Em & O).
    apply (code_silent s a mrg_args _ (Goto (MLoop a0 b)) out); try done.
    links Slf Prd Nxt. rewrite (exec_bind _ _ _ _ _ _ Em). simpl. by rewrite app_nil_r.
Qed.

Lemma consumer_code_ok s a t p :
  Sim s a -> spec_inv a -> ths s t = At p ->
  ((exists i, p = CLoop i) \/ exists i v, p = CGot i v) -> code_ok s a t p.
Proof.
  intros I A E Hp. pose proof (code_thread _ _ _ _ I A E) as Ht.
  pose proof (sim_wired _ _ I) as W. destruct (code_view _ _ _ _ I E) as [V R].
  assert (t = cons_args) as -> by (destruct Hp as [[i ->]|(i & v & ->)]; done). clear Ht.
  pose proof (inv_threads _ A cons_args) as B. unfold thread_inv in B.
  destruct Hp as [[i ->]|(i & q & ->)]; simpl in R;
    (destruct (ath a cons_args) as [| | |j inp] eqn:Ea; try done; destruct R as [<- R]);
    destruct B as (B & _ & Bi & _).
  - destruct (Z.ltb_spec i 10) as [L|L].
    + apply (code_silent s a _ _ (Calls mrg GetFull (KCon i)) []); try done.
      * simpl. split; [done|]. split; [by left|]. by intros j [= <-].
      * simpl. rewrite (proj2 (Z.ltb_lt i 10) L).
        assert (prod_of cons_args (shr s) = Done mrg (shr s) []) as Prd by (by apply prod_of_ok).
        by run Prd.
    + apply (code_silent s a _ _ (Exits 0) []); try done.
      * simpl. f_equal. lia.
      * simpl. by rewrite (proj2 (Z.ltb_ge i 10) L).
  - inversion R as [? v P|]; subst. specialize (Bi ltac:(done)).
    destruct (view_show (mem (shr s)) (bufs s) (views s) (bufs s)
      (upd (views s) cons_args (ACon (i + 1) None)) a cons_args i q v) as (a' & St & R' & T & S);
      try done; [apply I|intros; by rewrite upd_ne|by destruct P|].
    do 4 eexists. split; [|split; [right; exact St|]].
    + simpl. run (load_ok _ _ _ P). rewrite exec_bind_printk. run (vfree_ok _ _ _ P).
      run (checked_ok (with_mem (delete q (mem (shr s))) (shr s)) (i + 1)
        ltac:(unfold int_range; lia)). reflexivity.
    + by apply (sim_perform s a a' cons_args (CGot i q)).
Qed.

(** The code of every thread, wherever it stands. *)
Lemma code_step s a t p : Sim s a -> spec_inv a -> ths s t = At p -> code_ok s a t p.
Proof.
  intros I A E. pose proof (code_thread _ _ _ _ I A E) as Ht.
  destruct p; simpl in Ht;
    first [ apply successor_code_ok; eauto; fail | apply times_code_ok; eauto; fail
          | apply consumer_code_ok; eauto; fail | by apply merge_code_ok ].
Qed.

(** ** The steps inside a call, and the return from it *)

(** A step of a call that is not interrupted loses nothing; unless it is the
    one on the buffer, neither the buffer nor what the thread holds changes. *)
Lemma call_step_kept (y : stream Z) c y' c' :
  call_step false c y = Moves c' y' ->
  is_put c' = is_put c /\ c' <> GetReturned None /\ slot_lost c c' = 0 /\ token_lost c c' = 0 /\
  match c with
  | PutEnqueue p => c' = PutUpMutex /\ items (buffer y') = items (buffer y) ++ [p]
  | GetDequeue => exists p, c' = GetUpMutex p /\
      (items (buffer y) <> [] -> items (buffer y) = p :: items (buffer y'))
  | _ => items (buffer y') = items (buffer y) /\ putting c' = putting c /\ got c' = got c
  end.
Proof.
  unfold call_step. destruct c; simpl; try done; intros E;
    try (destruct (down_interruptible false _) as [[r m]|] eqn:Ed; [|done];
      apply down_interruptible_Some in Ed as [(-> & _ & _)|(_ & [=] & _)]; simpl in E);
    try (injection E as <- <-; split_and!; done).
  - injection E as <- <-. split_and!; try done. apply items_enqueue.
  - destruct (dequeue (buffer y)) as [[v q]|] eqn:Ed; [|done]. injection E as <- <-.
    split_and!; try done. exists v. split; [done|]. simpl. intros N.
    destruct (items (buffer y)) as [|u l] eqn:Ei; [done|].
    destruct (dequeue_cons _ _ _ Ei) as (q' & Eq & El). congruence.
Qed.

Lemma stream_inv_enqueue (y : system Z) j p :
  stream_inv y -> threads y !! j = Some (PutEnqueue p) -> nitems y < BUFFER_SIZE.
Proof.
  intros I E. pose proof I as [N _ _ Em _].
  pose proof (msum_ge w_slot (threads y) j (PutEnqueue p)
    (fun c => w_nonneg w_slot c ltac:(set_solver)) E) as G.
  pose proof (msum_nonneg w_freed (threads y)
    (fun _ c _ => w_nonneg w_freed c ltac:(set_solver))). simpl in G. lia.
Qed.

Lemma co_ext ys th th' : calls_ok ys th -> (forall t, th' t = th t) -> calls_ok ys th'.
Proof.
  intros [CR CL CI CO] E. split; try done.
  - intros t x k. rewrite E. apply CI.
  - intros x j c Ej. destruct (CO x j c Ej) as (t & k & ? & ?). exists t, k. by rewrite E.
Qed.

Lemma received_by_length (c c' : call Z) :
  length (received_by c c') =
    match c, c' with GetDequeue, GetUpMutex _ => 1%nat | _, _ => 0%nat end.
Proof. by destruct c, c'. Qed.

(** The state after a step of a call. *)
Definition moved_state s t x c c' y' : nstate :=
  Nstate (set_str x (move (tid t) c c' y' (strs (shr s) x)) (shr s)) (ths s) (log s).

Section Move.
Context (s : nstate) (a : spec) (t : aname) (x : sname) (k : cont) (c c' : call Z) (y' : stream Z).
Hypothesis I : Sim s a.
Hypothesis Et : ths s t = In x k.
Hypothesis Ec : threads (strs (shr s) x) !! tid t = Some c.
Hypothesis Es : call_step false c (str (strs (shr s) x)) = Moves c' y'.

Lemma moved_calls : calls_ok (strs (shr (moved_state s t x c c' y'))) (ths s).
Proof.
  pose proof (sim_calls _ _ I) as C.
  destruct (call_step_kept _ _ _ _ Es) as (P & N & L1 & L2 & _).
  destruct (co_in _ _ C _ _ _ Et) as (d & Ed & Pl & _ & B). rewrite Ec in Ed. injection Ed as <-.
  apply (co_ext _ (upd (ths s) t (In x k))).
  - apply (co_inside _ _ _ _ _ _ c'); try done.
    + by eapply thread_moves.
    + simpl. pose proof (co_lost _ _ C x). lia.
    + intros j Nj. simpl. by rewrite lookup_insert_ne.
    + apply lookup_insert_eq.
    + intros x' k' E'. rewrite Et in E'. congruence.
    + by rewrite P.
  - intros u. destruct (decide (u = t)) as [->|D]; [by rewrite upd_eq|by rewrite upd_ne].
Qed.

Lemma moved_bufs z :
  bufs (moved_state s t x c c' y') z = if decide (z = x) then items (buffer y') else bufs s z.
Proof.
  unfold bufs. simpl. case_decide as D; [subst; by rewrite upd_eq|by rewrite upd_ne].
Qed.

Lemma moved_view : views (moved_state s t x c c' y') t = view_call k c'.
Proof.
  unfold views, view_in. simpl. rewrite Et, upd_eq. simpl. by rewrite lookup_insert_eq.
Qed.

Lemma moved_views u : u <> t -> views (moved_state s t x c c' y') u = views s u.
Proof.
  intros N. apply view_other; [done|]. simpl. apply (upd_threads _ _ _ t); [|done].
  intros j Nj. simpl. by rewrite lookup_insert_ne.
Qed.

Lemma held_view : views s t = view_call k c.
Proof. unfold views, view_in. by rewrite Et, Ec. Qed.

(** What the abstract network has to do for the move. *)
Lemma sim_moved a' :
  Rel (mem (shr s)) (bufs (moved_state s t x c c' y')) (views (moved_state s t x c c' y')) a' ->
  (forall z, taken a' z =
     (taken a z + if decide (z = x) then length (received_by c c') else 0)%nat) ->
  shown a' = shown a -> Sim (moved_state s t x c c' y') a'.
Proof.
  intros R T S. split.
  - apply I.
  - apply moved_calls.
  - done.
  - intros z. rewrite T, <- (sim_taken _ _ I z). simpl.
    case_decide as D; [subst; rewrite upd_eq|rewrite upd_ne by done; lia].
    simpl. by rewrite length_app.
  - rewrite S. apply I.
Qed.

(** A move that the abstract network does not see. *)
Lemma sim_silent :
  items (buffer y') = items (buffer (str (strs (shr s) x))) /\
    putting c' = putting c /\ got c' = got c ->
  c <> GetDequeue -> Sim (moved_state s t x c c' y') a.
Proof.
  intros (Ki & Kp & Kg) N. apply sim_moved; [|intros z|done].
  - apply (Rel_ext _ (bufs s) (views s)); [apply I|intros z|intros u].
    + rewrite moved_bufs. case_decide; [subst; by rewrite Ki|done].
    + destruct (decide (u = t)) as [->|D]; [|by apply moved_views].
      rewrite moved_view, held_view. unfold view_call. by rewrite Kp, Kg.
  - rewrite received_by_length. case_decide; [|lia]. destruct c; try done; lia.
Qed.
End Move.

Lemma sim_move s a t x k c c' y' :
  Sim s a -> spec_inv a -> ths s t = In x k -> threads (strs (shr s) x) !! tid t = Some c ->
  call_step false c (str (strs (shr s) x)) = Moves c' y' ->
  exists a', (a' = a \/ spec_step a a') /\ Sim (moved_state s t x c c' y') a'.
Proof.
  intros I A Et Ec Es. pose proof (sim_calls _ _ I) as C.
  destruct (call_step_kept _ _ _ _ Es) as (_ & _ & _ & _ & K).
  destruct (co_in _ _ C _ _ _ Et) as (d & Ed & Pl & _ & B). rewrite Ec in Ed. injection Ed as <-.
  pose proof (stream_reachable_inv _ (co_reach _ _ C x)) as SI.
  pose proof (held_view s t x k c Et Ec) as V.
  pose proof (moved_view s t x k c c' y' Et) as V'.
  pose proof (moved_views s t x c c' y') as Vo.
  pose proof (moved_bufs s t x c c' y') as Bf.
  assert (bufs (moved_state s t x c c' y') x = items (buffer y')) as Bx
    by (by rewrite Bf, decide_True).
  assert (forall z, z <> x -> bufs (moved_state s t x c c' y') z = bufs s z) as Bo
    by (intros z N; by rewrite Bf, decide_False).
  destruct c as [| |p| | | | | | | | |];
    [| |destruct K as [-> Ki] | | | | | |destruct K as (p & -> & Ki)| | |];
    try (exists a; split; [by left|]; by apply (sim_silent s a t x k)).
  - destruct (view_put (mem (shr s)) (bufs s) (views s) (bufs (moved_state s t x (PutEnqueue p) PutUpMutex y'))
      (views (moved_state s t x (PutEnqueue p) PutUpMutex y')) a t k x p)
      as (a' & St & R' & T & S); try done.
    + apply I.
    + by rewrite Bx, Ki.
    + apply A.
    + by apply (stream_inv_enqueue _ (tid t) p).
    + exists a'. split; [by right|]. apply (sim_moved s a t x k); try done.
      intros z. rewrite T. case_decide; simpl; lia.
  - destruct (view_take (mem (shr s)) (bufs s) (views s) (bufs (moved_state s t x GetDequeue (GetUpMutex p) y'))
      (views (moved_state s t x GetDequeue (GetUpMutex p) y')) a t k x p)
      as (a' & St & R' & T & S); try done.
    + apply I.
    + rewrite Bx. apply Ki. by apply (stream_inv_dequeue _ (tid t)).
    + exists a'. split; [by right|]. apply (sim_moved s a t x k); try done.
      intros z. rewrite T. case_decide as D; simpl; [subst; rewrite upd_eq; lia|].
      rewrite upd_ne by done. lia.
Qed.

Lemma resume_view t k c x :
  returned c = true -> place_of t k = (x, is_put c) -> c <> GetReturned None ->
  view_point (resume k (result c)) = view_call k c.
Proof. destruct c as [| | | | |r| | | | | |[p|]]; try done; destruct k; simpl; congruence. Qed.

Lemma net_return s a t x k c :
  Sim s a -> ths s t = In x k -> threads (strs (shr s) x) !! tid t = Some c -> returned c = true ->
  Sim (Nstate (set_str x (with_threads (delete (tid t) (threads (strs (shr s) x)))
         (strs (shr s) x)) (shr s)) (upd (ths s) t (At (resume k (result c)))) (log s)) a.
Proof.
  intros I Et Ec R. pose proof (sim_calls _ _ I) as C.
  destruct (co_in _ _ C _ _ _ Et) as (d & Ed & Pl & N & _). rewrite Ec in Ed. injection Ed as <-.
  split; simpl; try apply I.
  - by apply (co_return _ _ _ _ k _ c).
  - apply (Rel_ext _ (bufs s) (views s)); [apply I| |].
    + intros y. unfold bufs. simpl.
      destruct (decide (y = x)) as [->|D]; [by rewrite upd_eq|by rewrite upd_ne].
    + intros u. destruct (decide (u = t)) as [->|D].
      * rewrite (held_view s t x k c) by done. unfold views, view_in. simpl. rewrite upd_eq.
        by eapply resume_view.
      * apply view_other; simpl; [by rewrite upd_ne|].
        apply (upd_threads _ _ _ t); [|done]. intros j Nj. simpl. by rewrite lookup_delete_ne.
  - intros y. destruct (decide (y = x)) as [->|D]; [rewrite upd_eq|rewrite upd_ne by done];
      apply (sim_taken _ _ I).
Qed.

Lemma sim_quiet s a : Sim s a -> Sim (logging [] s) a.
Proof. intros [W C R T S]. split; try done. simpl. by rewrite app_nil_r. Qed.

(** No step of a thread is undefined, and the abstract network follows each. *)
Lemma nstep_sim s a t :
  Sim s a -> spec_inv a ->
  match nstep vmalloc false t s with
  | None => True
  | Some (Undef _) => False
  | Some (Done _ s' out) => exists a', (a' = a \/ spec_step a a') /\ Sim (logging out s') a'
  end.
Proof.
  intros I A. unfold nstep. destruct (ths s t) as [p|x k|r] eqn:Et; [| |done].
  - destruct (code_step s a t p I A Et) as (act & m & out & a' & -> & St & I'). by exists a'.
  - destruct (threads (strs (shr s) x) !! tid t) as [c|] eqn:Ec; [|done].
    destruct (returned c) eqn:R.
    + exists a. split; [by left|]. by apply sim_quiet, (net_return s a t x k c).
    + destruct (call_step false c (str (strs (shr s) x))) as [c' y'| |] eqn:Es; [|done|].
      * destruct (sim_move s a t x k c c' y') as (a' & St & I'); try done.
        exists a'. split; [done|]. by apply sim_quiet in I'.
      * pose proof (stream_reachable_inv _ (co_reach _ _ (sim_calls _ _ I) x)) as SI.
        by apply (stream_inv_defined _ (tid t) false c SI Ec R).
Qed.

Lemma net_step_sim s s' a :
  Sim s a -> spec_inv a -> net_step vmalloc false s s' ->
  exists a', (a' = a \/ spec_step a a') /\ Sim s' a'.
Proof.
  intros I A (t & signal & s1 & out & Sg & E & ->).
  assert (signal = false) as -> by (destruct signal; [by discriminate Sg|done]).
  pose proof (nstep_sim s a t I A) as N. by rewrite E in N.
Qed.

(** The globals that loading the module makes. *)
Definition loaded : net Z := final (init_module (fun f x => Some (f, x)) initial_net) initial_net.

Lemma started_loaded s : started s -> s = start loaded.
Proof. intros (n & out & E & ->). unfold loaded. by rewrite E. Qed.

Lemma loaded_wired : wired loaded.
Proof.
  split; [intros []|intros []| |intros t [-> | ->]]; intros; try done; vm_compute; reflexivity.
Qed.

Lemma loaded_contents x : contents (nodes loaded x) = Some new_stream.
Proof. destruct x; vm_compute; reflexivity. Qed.

Lemma loaded_threads t :
  thread_of (running loaded) t =
    At (match t with
        | suc1_args | suc2_args => SEntry
        | tms1_args | tms2_args => TEntry
        | mrg_args => MEntry
        | cons_args => CLoop 0
        end).
Proof. destruct t; vm_compute; reflexivity. Qed.

Lemma loaded_views t : views (start loaded) t = match t with
  | suc1_args | suc2_args => ASuc 1 None
  | tms1_args | tms2_args => ATms None None
  | mrg_args => AMrg None None None
  | cons_args => ACon 0 None
  end.
Proof.
  unfold views, view_in. change (ths (start loaded) t) with (thread_of (running loaded) t).
  rewrite loaded_threads. by destruct t.
Qed.

Lemma loaded_bufs x : bufs (start loaded) x = [].
Proof.
  unfold bufs, start. cbn [shr strs str]. rewrite loaded_contents. apply items_init.
Qed.

Lemma started_sim s : started s -> exists a, initial_spec a /\ Sim s a.
Proof.
  intros ->%started_loaded. eexists. split; [reflexivity|]. split.
  - apply loaded_wired.
  - split; cbn [start shr strs].
    + intros x. apply reachable_init. unfold new_system. by rewrite loaded_contents.
    + done.
    + intros t x k. change (ths (start loaded) t) with (thread_of (running loaded) t).
      by rewrite loaded_threads.
    + intros x j c. cbn [threads]. by rewrite lookup_empty.
  - split.
    + intros x. rewrite loaded_bufs. constructor.
    + intros t. rewrite loaded_views. destruct t; simpl; repeat constructor.
    + intros x t. rewrite loaded_bufs, loaded_views. destruct t; constructor.
    + intros pl pl' p Hp. exfalso. revert Hp. destruct pl as [x|t]; cbn [own].
      * rewrite loaded_bufs. apply not_elem_of_nil.
      * rewrite loaded_views. destruct t; apply not_elem_of_nil.
    + intros p [v Hv]. change ((∅ : gmap Z Z) !! p = Some v) in Hv. by rewrite lookup_empty in Hv.
  - done.
  - done.
Qed.

Lemma net_reachable_sim s :
  reachable started (net_step vmalloc false) s ->
  exists a, reachable initial_spec spec_step a /\ Sim s a.
Proof.
  intros R. pattern s. revert s R. apply reachable_inv.
  - intros s0 (a & Ia & I)%started_sim. exists a. auto with kernel.
  - intros s1 s2 (a & Ra & I) St.
    destruct (net_step_sim s1 s2 a I (spec_reachable_inv a Ra) St) as (a' & [->|Sa] & I').
    + by exists a.
    + exists a'. split; [by apply (reachable_step _ _ a)|done].
Qed.
End Code.
