(* ===== verification/NetLive.v ===== *)
(** * What the network of threads does in the end

    The theorems about the machine of Threads.v: from the relation with the
    abstract network (Network.v), from the streams (Streams.v) that no thread
    is left waiting, and from a measure that every step increases that every
    execution ends. *)

From Stdlib Require Import ZArith Lia Strings.Byte.
From stdpp Require Import base strings gmap sets numbers list.
From S2P Require Import Prelude.
From S2P Require Import Kernel.
From S2P Require Import KernelInst.
From S2P Require Import Streams.
From S2P Require Import ProdCons.
From S2P Require Import Threads.
From S2P Require Import NetSpec.
From S2P Require Import Network.

(** ** The measure *)

(** How far a thread is in its code since its last step on a buffer. *)
Definition point_idx (p : point) : Z :=
  match p with SLoop _ | TLoop | MLoop _ _ | CLoop _ => 5 | _ => 4 end.

Definition call_idx (c : call Z) : Z :=
  match c with
  | PutUpMutex | GetUpMutex _ => 1
  | PutUpFull | GetUpEmpty _ => 2
  | PutReturned _ | GetReturned _ => 3
  | PutEmpty _ | GetFull => 6
  | PutMutex _ | GetMutex => 7
  | PutEnqueue _ | GetDequeue => 8
  end.

Definition act_idx (act : action) : Z :=
  match act with Goto p => point_idx p | Calls _ c _ => call_idx c | Exits _ => 9 end.

Definition all_threads (f : aname -> Z) : Z :=
  f suc1_args + f suc2_args + f tms1_args + f tms2_args + f mrg_args + f cons_args.
Definition all_streams (f : sname -> Z) : Z := f suc1 + f suc2 + f tms1 + f tms2 + f mrg.

Section Measure.
Context `{Semaphore} `{!Queue Z}.

Definition idx_in (ys : sname -> system Z) (th : aname -> tstate) (t : aname) : Z :=
  match th t with
  | At p => point_idx p
  | In x k => match threads (ys x) !! tid t with Some c => call_idx c | None => 0 end
  | Finished _ => 9
  end.

(** The steps on the buffer of a stream. *)
Definition events (y : system Z) : Z := Z.of_nat (length (sent y) + length (received y)).

Definition measure (s : nstate) : Z :=
  8 * all_streams (fun x => events (strs (shr s) x)) +
  all_threads (idx_in (strs (shr s)) (ths s)).
End Measure.

(** ** Every step increases the measure *)

Section Increase.
Context `{SemaphoreOk} `{!Queue Z} `{!QueueOk Z}.
Variable vmalloc : gmap Z Z -> Z.
Implicit Types (s : nstate).

Lemma all_threads_change f g t :
  (forall u, u <> t -> g u = f u) -> all_threads g = all_threads f + g t - f t.
Proof.
  intros E. unfold all_threads.
  destruct t; rewrite ?(E suc1_args), ?(E suc2_args), ?(E tms1_args), ?(E tms2_args),
    ?(E mrg_args), ?(E cons_args) by done; lia.
Qed.

Lemma all_streams_change f g x :
  (forall y, y <> x -> g y = f y) -> all_streams g = all_streams f + g x - f x.
Proof.
  intros E. unfold all_streams.
  destruct x; rewrite ?(E suc1), ?(E suc2), ?(E tms1), ?(E tms2), ?(E mrg) by done; lia.
Qed.

Lemma idx_other ys ys' th th' u :
  th' u = th u -> (forall x, threads (ys' x) !! tid u = threads (ys x) !! tid u) ->
  idx_in ys' th' u = idx_in ys th u.
Proof. unfold idx_in. intros -> E. destruct (th u); [done| |done]. by rewrite E. Qed.

(** A thread moves, and with it at most one stream. *)
Lemma measure_change s s' t x :
  (forall y, y <> x -> strs (shr s') y = strs (shr s) y) ->
  (forall u, u <> t -> ths s' u = ths s u) ->
  (forall j, j <> tid t -> threads (strs (shr s') x) !! j = threads (strs (shr s) x) !! j) ->
  measure s' = measure s +
    8 * (events (strs (shr s') x) - events (strs (shr s) x)) +
    (idx_in (strs (shr s')) (ths s') t - idx_in (strs (shr s)) (ths s) t).
Proof.
  intros Ex Et Ej. unfold measure.
  rewrite (all_threads_change (idx_in (strs (shr s)) (ths s)) _ t).
  - rewrite (all_streams_change (fun y => events (strs (shr s) y)) _ x); [lia|].
    intros y N. by rewrite Ex.
  - intros u N. apply idx_other; [by apply Et|]. intros y.
    destruct (decide (y = x)) as [->|D]; [|by rewrite Ex].
    apply Ej. by intros ?%tid_inj.
Qed.

Lemma code_idx t p : ensures (code vmalloc t p) (fun act => point_idx p < act_idx act).
Proof.
  destruct p; simpl; unfold merge_code; by kensures.
Qed.

Lemma call_step_idx c (y : stream Z) c' y' :
  call_step false c y = Moves c' y' ->
  call_idx c < call_idx c' + 8 * Z.of_nat (length (sent_by c c') + length (received_by c c')).
Proof.
  unfold call_step. destruct c; simpl; try done; intros E;
    try (destruct (down_interruptible false _) as [[r m]|] eqn:Ed; [|done];
      apply down_interruptible_Some in Ed as [(-> & _ & _)|(_ & [=] & _)]; simpl in E);
    try (injection E as <- <-; simpl; lia).
  destruct (dequeue (buffer y)) as [[v q]|]; [|done]. injection E as <- <-. simpl. lia.
Qed.

Hypothesis vmalloc_fresh : forall h, vmalloc h <> 0 /\ h !! vmalloc h = None.

(** The code between two calls. *)
Lemma perform_measure s t p act m :
  ths s t = At p -> point_idx p < act_idx act ->
  measure s < measure (perform t act (with_mem m (shr s)) s).
Proof.
  intros E L. set (s' := perform _ _ _ _).
  assert (exists x, (forall y, y <> x -> strs (shr s') y = strs (shr s) y) /\
    (forall j, j <> tid t -> threads (strs (shr s') x) !! j = threads (strs (shr s) x) !! j) /\
    events (strs (shr s') x) = events (strs (shr s) x)) as (x & Ex & Ej & Ee).
  { unfold s'. destruct act as [q|x c k|r]; [by exists suc1| |by exists suc1].
    exists x. simpl. rewrite upd_eq. split_and!; [intros; by rewrite upd_ne| |done].
    intros j N. simpl. by rewrite lookup_insert_ne. }
  rewrite (measure_change s s' t x), Ee; [|done| |done].
  - unfold idx_in at 2. rewrite E. enough (idx_in (strs (shr s')) (ths s') t = act_idx act) by lia.
    unfold s', idx_in. destruct act as [q|y c k|r]; simpl; rewrite !upd_eq; simpl;
      rewrite ?lookup_insert_eq; done.
  - intros u N. unfold s'. destruct act; simpl; by rewrite upd_ne.
Qed.

(** A step inside a call, or the return from it. *)
Lemma stream_measure s t x k c y' st :
  ths s t = In x k -> threads (strs (shr s) x) !! tid t = Some c ->
  (forall j, j <> tid t -> threads y' !! j = threads (strs (shr s) x) !! j) ->
  call_idx c + 8 * events (strs (shr s) x) <
    8 * events y' + idx_in (upd (strs (shr s)) x y') (upd (ths s) t st) t ->
  measure s < measure (Nstate (set_str x y' (shr s)) (upd (ths s) t st) (log s)).
Proof.
  intros Et Ec Ej L. set (s' := Nstate _ _ _).
  rewrite (measure_change s s' t x).
  - unfold idx_in at 2. rewrite Et, Ec. simpl in *. rewrite upd_eq. lia.
  - intros z N. simpl. by rewrite upd_ne.
  - intros u N. simpl. by rewrite upd_ne.
  - intros j N. simpl. rewrite upd_eq. by apply Ej.
Qed.

Lemma measure_ext s s' :
  (forall t, ths s' t = ths s t) -> shr s' = shr s -> measure s' = measure s.
Proof.
  intros E Es. unfold measure, all_threads, idx_in. by rewrite Es, !E.
Qed.

Lemma nstep_measure s a t s1 out :
  Sim s a -> spec_inv a -> nstep vmalloc false t s = Some (Done tt s1 out) ->
  measure s < measure (logging out s1).
Proof.
  intros I A. change (measure (logging out s1)) with (measure s1). unfold nstep.
  destruct (ths s t) as [p|x k|r] eqn:Et; [| |done].
  - destruct (code_step vmalloc vmalloc_fresh s a t p I A Et) as (act & m & o & a' & E & _).
    pose proof (code_idx t p (shr s)) as L. rewrite E in *. intros [= <- <-].
    by apply (perform_measure s t p).
  - destruct (threads (strs (shr s) x) !! tid t) as [c|] eqn:Ec; [|done].
    destruct (returned c) eqn:R.
    + intros [= <- <-]. apply (stream_measure s t x k c); try done.
      * intros j N. simpl. by rewrite lookup_delete_ne.
      * unfold idx_in, events. rewrite upd_eq. simpl.
        destruct c; try done; destruct k; simpl; lia.
    + destruct (call_step false c (str (strs (shr s) x))) as [c' y'| |] eqn:Es; [|done|done].
      intros [= <- <-]. set (y := move _ _ _ _ _).
      rewrite (measure_ext (Nstate (set_str x y (shr s)) (upd (ths s) t (In x k)) (log s)) (Nstate _ _ _)).
      * apply (stream_measure s t x k c); try done.
        -- intros j N. simpl. by rewrite lookup_insert_ne.
        -- unfold idx_in, events. rewrite !upd_eq. simpl. rewrite lookup_insert_eq, !length_app.
           pose proof (call_step_idx _ _ _ _ Es). lia.
      * intros u. simpl. destruct (decide (u = t)) as [->|D]; [by rewrite upd_eq|by rewrite upd_ne].
      * done.
Qed.
End Increase.

(** ** Theorems *)

Section NetTheorems.
Context `{SemaphoreOk} `{!Queue Z} `{!QueueOk Z}.
Variable vmalloc : gmap Z Z -> Z.
Hypothesis vmalloc_fresh : forall h, vmalloc h <> 0 /\ h !! vmalloc h = None.
Implicit Types (s : nstate) (a : spec).

Local Abbreviation executed := (reachable started (net_step vmalloc false)).

Lemma sim_events s a x :
  Sim s a -> spec_inv a ->
  events (strs (shr s) x) = Z.of_nat (length (hist a x) + taken a x).
Proof.
  intros I A. pose proof (stream_reachable_inv _ (co_reach _ _ (sim_calls _ _ I) x)) as SI.
  pose proof (inv_fifo _ SI) as F.
  pose proof (Forall2_length _ _ _ (rel_bufs _ _ _ _ (sim_rel _ _ I) x)) as L.
  rewrite length_drop in L. unfold bufs in L. pose proof (inv_taken _ A x).
  unfold events. rewrite F, length_app, (sim_taken _ _ I x). lia.
Qed.

Lemma idx_bounds ys th t : 0 <= idx_in ys th t <= 9.
Proof.
  unfold idx_in. destruct (th t) as [p|x k|r]; [by destruct p| |done].
  destruct (threads (ys x) !! tid t) as [c|]; [by destruct c|done].
Qed.

Lemma measure_nonneg s : 0 <= measure s.
Proof.
  unfold measure, all_streams, all_threads, events.
  pose proof (fun t => idx_bounds (strs (shr s)) (ths s) t) as B.
  pose proof (B suc1_args). pose proof (B suc2_args). pose proof (B tms1_args).
  pose proof (B tms2_args). pose proof (B mrg_args). pose proof (B cons_args). lia.
Qed.

Lemma measure_bound s a : Sim s a -> spec_inv a -> measure s <= 1200.
Proof.
  intros I A. unfold measure, all_streams, all_threads.
  rewrite !(sim_events s a) by done. pose proof (spec_total a A).
  pose proof (fun t => idx_bounds (strs (shr s)) (ths s) t) as B.
  pose proof (B suc1_args). pose proof (B suc2_args). pose proof (B tms1_args).
  pose proof (B tms2_args). pose proof (B mrg_args). pose proof (B cons_args). lia.
Qed.

Lemma nsteps_measure k s0 s :
  executed s0 -> nsteps (net_step vmalloc false) k s0 s -> measure s0 + Z.of_nat k <= measure s.
Proof.
  intros R St. induction St as [s|k s0 s1 s St _ IH]; [lia|].
  pose proof (reachable_step _ _ _ _ R St) as R1. specialize (IH R1).
  apply net_reachable_sim in R as (a & Ra & I); [|done].
  destruct St as (t & signal & s2 & out & Sg & E & ->).
  assert (signal = false) as -> by (destruct signal; [by discriminate Sg|done]).
  pose proof (nstep_measure vmalloc vmalloc_fresh _ a t s2 out I (spec_reachable_inv a Ra) E). lia.
Qed.

(** *** Nobody is left waiting *)

(** The kinds of call each thread makes. *)
Lemma in_place s a t x k :
  Sim s a -> spec_inv a -> ths s t = In x k ->
  match t with
  | suc1_args | suc2_args => place_of t k = (out_of t, true)
  | tms1_args | tms2_args => place_of t k = (out_of t, true) \/ place_of t k = (in_of t, false)
  | mrg_args => place_of t k = (mrg, true) \/ place_of t k = (tms2, false) \/
      place_of t k = (tms1, false)
  | cons_args => place_of t k = (mrg, false)
  end.
Proof.
  intros I A E. pose proof (rel_views _ _ _ _ (sim_rel _ _ I) t) as R.
  pose proof (inv_threads _ A t) as T. destruct (co_in _ _ (sim_calls _ _ I) _ _ _ E) as (c & Ec & _).
  rewrite (held_view s t x k c E Ec) in R. unfold thread_inv in T. revert R T.
  destruct t, k, (ath a _); simpl; auto; destruct (putting c); done.
Qed.

(** When no thread can move, all calls in a stream are puts or all are gets. *)
Lemma stuck_same s a t t' x k k' :
  Sim s a -> (forall u, nstep vmalloc false u s = None) ->
  ths s t = In x k -> ths s t' = In x k' -> (place_of t k).2 = (place_of t' k').2.
Proof.
  intros I N E E'. pose proof (sim_calls _ _ I) as C.
  pose proof (co_lost _ _ C x) as [L1 L2].
  destruct (co_in _ _ C _ _ _ E) as (c & Ec & P & _ & _).
  destruct (co_in _ _ C _ _ _ E') as (c' & Ec' & P' & _ & _). rewrite P, P'. simpl.
  destruct (stream_unstuck (strs (shr s) x)) as [(j & d & Ej & M)|[W|W]].
  - by apply stream_reachable_inv, C.
  - by rewrite L1, L2.
  - exfalso. destruct (co_of _ _ C _ _ _ Ej) as (u & ku & -> & Eu).
    specialize (N u). unfold nstep in N. rewrite Eu, Ej in N.
    destruct (returned d); [done|]. destruct M as [[=]|(d' & y' & Ed)]. by rewrite Ed in N.
  - destruct (W _ _ Ec) as [v ->], (W _ _ Ec') as [v' ->]. done.
  - by rewrite (W _ _ Ec), (W _ _ Ec').
Qed.

Lemma stuck_finished s a :
  Sim s a -> spec_inv a -> (forall u, nstep vmalloc false u s = None) ->
  exists r, ths s cons_args = Finished r.
Proof.
  intros I A N. destruct (ths s cons_args) as [p|x k|r] eqn:Ec; [| |by exists r].
  { specialize (N cons_args). unfold nstep in N. by rewrite Ec in N. }
  exfalso.
  assert (forall t, t <> cons_args -> exists k, ths s t = In (place_of t k).1 k) as All.
  { intros t Nt. destruct (ths s t) as [p|z kt|r] eqn:Et.
    - specialize (N t). unfold nstep in N. by rewrite Et in N.
    - exists kt. destruct (co_in _ _ (sim_calls _ _ I) _ _ _ Et) as (c & _ & -> & _). done.
    - pose proof (rel_views _ _ _ _ (sim_rel _ _ I) t) as R. unfold views, view_in in R.
      rewrite Et in R. pose proof (inv_threads _ A t) as T. unfold thread_inv in T. revert R T.
      by destruct t, (ath a _). }
  assert (ths s cons_args = In (place_of cons_args k).1 k) as Ec'.
  { destruct (co_in _ _ (sim_calls _ _ I) _ _ _ Ec) as (c & _ & P & _). by rewrite P. }
  pose proof (fun t t' k k' z => stuck_same s a t t' z k k' I N) as Same.
  pose proof (fun t k z => in_place s a t z k I A) as Pl.
  destruct (All mrg_args) as [km Em]; [done|]. destruct (All tms1_args) as [k1 E1]; [done|].
  destruct (All tms2_args) as [k2 E2]; [done|]. destruct (All suc1_args) as [j1 F1]; [done|].
  destruct (All suc2_args) as [j2 F2]; [done|].
  pose proof (Pl _ _ _ Ec') as Pc. pose proof (Pl _ _ _ F1) as P3. pose proof (Pl _ _ _ F2) as P4.
  simpl in Pc, P3, P4. rewrite Pc in Ec'. rewrite P3 in F1. rewrite P4 in F2.
  destruct (Pl _ _ _ Em) as [Pm|[Pm|Pm]]; rewrite Pm in Em; simpl in *.
  - specialize (Same _ _ _ _ _ Em Ec'). rewrite Pm, Pc in Same. done.
  - destruct (Pl _ _ _ E2) as [P2|P2]; rewrite P2 in E2; simpl in *.
    + specialize (Same _ _ _ _ _ Em E2). by rewrite Pm, P2 in Same.
    + specialize (Same _ _ _ _ _ F2 E2). by rewrite P4, P2 in Same.
  - destruct (Pl _ _ _ E1) as [P1|P1]; rewrite P1 in E1; simpl in *.
    + specialize (Same _ _ _ _ _ Em E1). by rewrite Pm, P1 in Same.
    + specialize (Same _ _ _ _ _ F1 E1). by rewrite P3, P1 in Same.
Qed.

(** *** The properties *)

(** C1: the module implements the abstract network: whatever the order in which
    its threads run, as long as vmalloc gives memory and no signal comes, its
    state is one of the abstract network's, in which the same values have been
    put into each stream and taken from it, each pointer in a buffer leads to
    its value, and the consumer has printed the same numbers. *)
Theorem net_refines s :
  executed s ->
  exists a, reachable initial_spec spec_step a /\ shown_of (log s) = shown a /\
    forall x, length (received (strs (shr s) x)) = taken a x /\
      Forall2 (points (mem (shr s))) (items (buffer (str (strs (shr s) x))))
        (drop (taken a x) (hist a x)).
Proof.
  intros (a & Ra & I)%net_reachable_sim; [|done]. exists a. split; [done|].
  split; [apply I|]. intros x. split; [apply I|apply (rel_bufs _ _ _ _ (sim_rel _ _ I))].
Qed.

(** C3: as long as vmalloc, whose result the code does not check, always gives
    memory, and no signal interrupts a thread that waits for a semaphore, no
    thread ever does anything undefined: no NULL pointer and no freed object is
    used, no product or counter overflows, no empty buffer is dequeued from. *)
Theorem net_safe s t u : executed s -> nstep vmalloc false t s <> Some (Undef u).
Proof.
  intros (a & Ra & I)%net_reachable_sim E; [|done].
  pose proof (nstep_sim vmalloc vmalloc_fresh s a t I (spec_reachable_inv a Ra)) as N.
  by rewrite E in N.
Qed.

(** C9: with memory for every vmalloc and without signals, no object is lost and
    none is shared: each one that vmalloc gave and
    vfree has not taken back is in exactly one place, a buffer or the hands of
    a thread, and is there once. *)
Theorem net_memory s :
  executed s ->
  (forall p, is_Some (mem (shr s) !! p) <-> exists pl, p ∈ own (bufs s) (views s) pl) /\
  (forall pl pl' p, p ∈ own (bufs s) (views s) pl -> p ∈ own (bufs s) (views s) pl' -> pl = pl') /\
  (forall x t, NoDup (bufs s x ++ held (views s t))).
Proof.
  intros (a & _ & [_ _ R _ _])%net_reachable_sim; [|done]. split_and!; [|apply R..].
  intros p. split; [apply R|]. intros [pl Hp]. by apply (own_live _ _ _ _ _ _ R Hp).
Qed.

(** C4: with memory for every vmalloc and without signals, the consumer prints the numbers 3, 5, 6, 9, 10, 12, 15, 15, 18, 20 in
    that order: at any time a first part of them, and all ten when it is
    done. *)
Theorem net_consumer s :
  executed s ->
  exists k, shown_of (log s) = take k ten /\
    ((exists r, ths s cons_args = Finished r) -> k = 10%nat).
Proof.
  intros (a & Ra & I)%net_reachable_sim; [|done]. pose proof (spec_reachable_inv a Ra) as A.
  destruct (spec_shown a A) as (k & E & K). exists k. rewrite (sim_shown _ _ I).
  split; [done|]. intros [r Er].
  pose proof (rel_views _ _ _ _ (sim_rel _ _ I) cons_args) as R.
  unfold views, view_in in R. rewrite Er in R. simpl in R.
  destruct (ath a cons_args) as [| | |i inp] eqn:Ea; try done.
  destruct R as [<- R]. inversion R; subst. by rewrite (K 10).
Qed.

(** C8: with memory for every vmalloc and without signals, the network does not
    run for ever: the buffers are bounded and the
    consumer takes ten values, so that no execution has more than 1200
    steps. *)
Theorem net_terminates k s0 s :
  started s0 -> nsteps (net_step vmalloc false) k s0 s -> Z.of_nat k <= 1200.
Proof.
  intros S St.
  assert (executed s0) as R0 by auto with kernel.
  assert (executed s) as (a & Ra & I)%net_reachable_sim; [| |done].
  { exists s0. split; [done|]. by eapply rtc_nsteps_2. }
  pose proof (nsteps_measure k s0 s R0 St). pose proof (measure_nonneg s0).
  pose proof (measure_bound s a I (spec_reachable_inv a Ra)). lia.
Qed.

(** C2: it does not stop early either, with memory for every vmalloc and without
    signals: when no thread can move, the consumer
    has returned and printed its ten numbers. *)
Theorem net_completes s :
  executed s -> (forall s', ~ net_step vmalloc false s s') ->
  (exists r, ths s cons_args = Finished r) /\ shown_of (log s) = ten.
Proof.
  intros (a & Ra & I)%net_reachable_sim N; [|done]. pose proof (spec_reachable_inv a Ra) as A.
  assert (forall t, nstep vmalloc false t s = None) as St.
  { intros t. pose proof (nstep_sim vmalloc vmalloc_fresh s a t I A) as Nt.
    destruct (nstep vmalloc false t s) as [[[] s' out|u]|] eqn:E; [|done|done].
    exfalso. apply (N (logging out s')). by exists t, false, s', out. }
  destruct (stuck_finished s a I A St) as [r Er]. split; [by exists r|].
  destruct (spec_shown a A) as (k & E & K). rewrite (sim_shown _ _ I), E.
  pose proof (rel_views _ _ _ _ (sim_rel _ _ I) cons_args) as R.
  unfold views, view_in in R. rewrite Er in R. simpl in R.
  destruct (ath a cons_args) as [| | |i inp] eqn:Ea; try done.
  destruct R as [<- R]. inversion R; subst. by rewrite (K 10).
Qed.

(** Only the consumer ever returns: the other five threads are still inside
    the module's code when there is nothing left for them to do, and nothing
    stops them when the module is unloaded. *)
Theorem net_threads_stay s t r :
  executed s -> ths s t = Finished r -> t = cons_args.
Proof.
  intros (a & Ra & I)%net_reachable_sim E; [|done].
  pose proof (rel_views _ _ _ _ (sim_rel _ _ I) t) as R. unfold views, view_in in R.
  rewrite E in R. pose proof (inv_threads _ (spec_reachable_inv a Ra) t) as T.
  unfold thread_inv in T. revert R T. by destruct t, (ath a _).
Qed.
End NetTheorems.

(** ** A signal *)

(** The machine with counting integers, lists and the first free address. *)
Abbreviation demo_net := (@start Z_semaphore list_queue loaded).

(** A thread's step, for building an execution. *)
Definition one (signal : bool) (t : aname) (s : @nstate Z_semaphore list_queue) : nstate :=
  match nstep above signal t s with
  | Some (Done _ s' out) => logging out s'
  | _ => s
  end.

Lemma one_step signals signal t s :
  (signal = true -> signals = true) ->
  match nstep above signal t s with Some (Done _ _ _) => true | _ => false end = true ->
  net_step above signals s (one signal t s).
Proof.
  intros Sg. unfold one. destruct (nstep above signal t s) as [[[] s' out|]|] eqn:E; [|done..].
  intros _. by exists t, signal, s', out.
Qed.

Lemma demo_started : started demo_net.
Proof.
  eexists _, _. split; [|reflexivity]. unfold loaded. apply done_final. vm_compute. reflexivity.
Qed.

(** The first multiplier starts, and is interrupted while it waits for its
    first value. *)
Definition interrupted : @nstate Z_semaphore list_queue :=
  one false tms1_args (one true tms1_args (one false tms1_args (one false tms1_args demo_net))).

(** The threads do not survive a signal: get returns NULL when its wait is
    interrupted, and the multiplier uses the result unchecked. *)
Theorem net_interrupted :
  exists s : @nstate Z_semaphore list_queue,
    reachable started (net_step above true) s /\
    nstep above false tms1_args s = Some (Undef NullDeref).
Proof.
  exists interrupted. split; [|vm_compute; reflexivity]. unfold interrupted.
  do 4 (eapply reachable_step; [|apply one_step; [done|vm_compute; reflexivity]]).
  apply reachable_init, demo_started.
Qed.

(** ** Witnesses *)

(** A schedule only takes steps of the machine. *)
Lemma schedule_steps `{Semaphore} `{!Queue Z} vmalloc fuel l cur (s s' : nstate) out :
  schedule vmalloc fuel l cur s = Done tt s' out -> rtc (net_step vmalloc false) s s'.
Proof.
  revert cur s. induction fuel as [|f IH]; intros cur s; simpl; [by intros [= <- <-]|].
  destruct cur as [|t cur]; [intros R; by eapply IH|].
  destruct (nstep vmalloc false t s) as [[[] s1 o|]|] eqn:E; [|done|intros R; by eapply IH].
  intros R. eapply rtc_l; [|by eapply IH]. by exists t, false, s1, o.
Qed.

Lemma above_ok (h : gmap Z Z) : above h <> 0 /\ h !! above h = None.
Proof. pose proof (above_pos h). split; [lia|apply above_None]. Qed.

Definition all_names : list aname :=
  [suc1_args; suc2_args; tms1_args; tms2_args; mrg_args; cons_args].

(** The state after a number of turns of a round robin. *)
Definition after (n : nat) : @nstate Z_semaphore list_queue :=
  final (schedule above n all_names all_names demo_net) demo_net.

Definition went (n : nat) : bool :=
  match schedule above n all_names all_names demo_net with Done _ _ _ => true | Undef _ => false end.

Lemma after_reachable n : went n = true -> reachable started (net_step above false) (after n).
Proof.
  unfold went, after. intros W. exists demo_net. split; [apply demo_started|].
  destruct (schedule _ _ _ _ _) as [[] s o|] eqn:E; [|done]. by apply schedule_steps in E.
Qed.

Lemma after_100 : reachable started (net_step above false) (after 100).
Proof. apply after_reachable. vm_compute. reflexivity. Qed.

Lemma after_3000 : reachable started (net_step above false) (after 3000).
Proof. apply after_reachable. vm_compute. reflexivity. Qed.

Lemma stuck_none (s : @nstate Z_semaphore list_queue) t :
  forallb (fun t => match nstep above false t s with None => true | Some _ => false end)
    all_names = true -> nstep above false t s = None.
Proof.
  intros F. rewrite forallb_forall in F. specialize (F t).
  destruct (nstep above false t s); [|done]. discriminate F. destruct t; simpl; tauto.
Qed.

Lemma after_3000_stuck s' : ~ net_step above false (after 3000) s'.
Proof.
  intros (t & signal & s1 & out & Sg & E & _).
  destruct signal; [by discriminate Sg|].
  rewrite stuck_none in E; [done|]. vm_compute. reflexivity.
Qed.

Lemma net_refines_witness :
  exists a, reachable initial_spec spec_step a /\ shown_of (log (after 100)) = shown a.
Proof.
  destruct (net_refines above above_ok (after 100) after_100) as (a & R & S & _).
  exists a. split; [exact R|exact S].
Defined.

Lemma net_safe_witness : nstep above false mrg_args (after 100) <> Some (Undef UseAfterFree).
Proof. exact (net_safe above above_ok (after 100) mrg_args UseAfterFree after_100). Defined.

Lemma net_memory_witness :
  is_Some (mem (shr (after 100)) !! 1) <->
    exists pl, 1 ∈ own (bufs (after 100)) (views (after 100)) pl.
Proof. destruct (net_memory above above_ok (after 100) after_100) as (L & _). exact (L 1). Defined.

Lemma net_consumer_witness : exists k, shown_of (log (after 100)) = take k ten.
Proof.
  destruct (net_consumer above above_ok (after 100) after_100) as (k & E & _).
  exists k. exact E.
Defined.

Lemma net_terminates_witness : Z.of_nat 1 <= 1200.
Proof.
  apply (net_terminates above above_ok 1 demo_net (one false tms1_args demo_net) demo_started).
  apply nsteps_once, one_step; [discriminate|vm_compute; reflexivity].
Defined.

Lemma net_completes_witness : shown_of (log (after 3000)) = [3; 5; 6; 9; 10; 12; 15; 15; 18; 20].
Proof.
  exact (proj2 (net_completes above above_ok (after 3000) after_3000 after_3000_stuck)).
Defined.

Lemma net_threads_stay_witness :
  match ths (after 3000) cons_args with Finished _ => true | _ => false end = true /\
  (forall r, ths (after 3000) mrg_args <> Finished r).
Proof.
  split; [vm_compute; reflexivity|]. intros r E.
  discriminate (net_threads_stay above above_ok (after 3000) mrg_args r after_3000 E).
Defined.
