(* ===== verification/Sysfs.v ===== *)
(** * The sysfs module (Task_9/sysfs/my_sysfs.c)

    Three attributes under /sys/kernel/eudyptula: [id], [jiffies] and [foo].
    A show callback prints into a page that sysfs provides, a store callback
    copies from one with strncpy. The mutex that guards [foo] is never
    initialised: mutex_init is commented out. *)

From Stdlib Require Import ZArith Lia Strings.Byte.
From stdpp Require Import base strings gmap sets numbers list.
From stdpp Require Import pretty.
From S2P Require Import Prelude.
From S2P Require Import CString.
From S2P Require Import Kernel.
From S2P Require Import KernelInst.
From S2P Require Import MiscDev.

(** ** The attributes *)

Section Sysfs.
Context `{Mutex}.

(** What a static mutex is before mutex_init: [None] where using it is an
    error (a debugging kernel, or one whose mutex is not all zeroes when
    free), otherwise the mutex that a zeroed structure is. *)
Variable zero_mutex : option mutex.

Record sysm := Sysm {
  sys_input : list byte;
  sys_page : list byte;
  sys_lock : option mutex;
}.

Definition sys_inputL : lens sysm (list byte) :=
  Lens sys_input (fun b s => Sysm b (sys_page s) (sys_lock s)).
Definition sys_pageL : lens sysm (list byte) :=
  Lens sys_page (fun b s => Sysm (sys_input s) b (sys_lock s)).
Definition sys_lockL : lens sysm (option mutex) :=
  Lens sys_lock (fun l s => Sysm (sys_input s) (sys_page s) l).

(** The module's data when it is loaded. *)
Definition sys_initial : sysm :=
  Sysm (replicate 4096 x00) (replicate 4096 x00) zero_mutex.

(** sprintf(buf, "%s\n", src): the string, a newline and a NUL from the start
    of [buf]; the value is the number of characters. *)
Definition sprintf_line (buf src : list byte) : M sysm (Z * list byte) :=
  match string_in src with
  | None => undef OutOfBounds
  | Some str =>
      match splice 0 (str ++ [x0a; x00]) buf with
      | None => undef OutOfBounds
      | Some buf' => mret (Z.of_nat (length str) + 1, buf')
      end
  end.

Definition id_show (buf : list byte) : M sysm (Z * list byte) :=
  sprintf_line buf author_id.

Definition id_store (buf : list byte) (count : Z) : M sysm Z :=
  input ← kread sys_inputL;
  match strncpy input buf (Z.to_nat count) with
  | None => undef OutOfBounds
  | Some input =>
      kwrite sys_inputL input ;;
      match strncmp author_id input 13 with
      | None => undef OutOfBounds
      | Some c =>
          if negb (c =? 0)
          then printk "incorrect value written" [] ;; mret (-1)
          else printk "correct value written" [] ;; mret (s32 count)
      end
  end.

(** [jiffies] is the kernel's tick counter, printed with %lu. *)
Definition jiffies_show (jiffies : Z) (buf : list byte) : M sysm (Z * list byte) :=
  sprintf_line buf (cstring (pretty (Z.to_N (u64 jiffies)))).

(** The lock, taken by the only running task. *)
Definition sys_lock_interruptible : M sysm Z :=
  l ← kread sys_lockL;
  match l with
  | None => undef UninitLock
  | Some m =>
      match mutex_lock m with
      | Some m' => kwrite sys_lockL (Some m') ;; mret 0
      | None => mret (- EINTR)
      end
  end.

Definition sys_unlock : M sysm unit :=
  l ← kread sys_lockL;
  match l with
  | None => undef UninitLock
  | Some m =>
      if mutex_is_locked m then kwrite sys_lockL (Some (mutex_unlock m)) else undef UninitLock
  end.

Definition foo_show (buf : list byte) : M sysm (Z * list byte) :=
  e ← sys_lock_interruptible;
  if negb (e =? 0) then mret (- ERESTARTSYS, buf) else
  p ← kread sys_pageL;
  retval ← sprintf_line buf p;
  sys_unlock ;;
  mret retval.

Definition foo_store (buf : list byte) (count : Z) : M sysm Z :=
  e ← sys_lock_interruptible;
  if negb (e =? 0) then mret (- ERESTARTSYS) else
  p ← kread sys_pageL;
  match strncpy p buf (Z.to_nat count) with
  | None => undef OutOfBounds
  | Some p =>
      kwrite sys_pageL p ;;
      (let retval := s64 count in
       sys_unlock ;; mret retval)
  end.

(** What sysfs passes to store: at most a page, and the byte after the data is
    a NUL. *)
Definition store_ok (buf : list byte) (count : Z) : Prop :=
  0 <= count <= 4096 /\ count < Z.of_nat (length buf) /\ buf !! Z.to_nat count = Some x00.

Definition sys_wf (s : sysm) : Prop :=
  length (sys_input s) = 4096%nat /\ length (sys_page s) = 4096%nat.
End Sysfs.

Arguments Sysm {_} _ _ _.
Arguments sys_input {_} _.
Arguments sys_page {_} _.
Arguments sys_lock {_} _.

(** ** Initialisation *)

(** Kobjects as the module uses them: the files of each directory. *)
Class SysfsCore := {
  score : Type;
  kobject : Type;
  kobj_files : score -> kobject -> option (gset string);
  kobject_create_and_add : string -> score -> option kobject * score;
  sysfs_create_file : kobject -> string -> score -> Z * score;
  kobject_put : option kobject -> score -> score;
}.

(** A failing call leaves nothing; the last reference removes the directory
    with its files; kobject_put(NULL) does nothing. *)
Class SysfsCoreOk `{SysfsCore} : Prop := {
  kobj_create_Some : forall n c k c', kobject_create_and_add n c = (Some k, c') ->
    kobj_files c k = None /\ kobj_files c' k = Some ∅ /\
    (forall j, j <> k -> kobj_files c' j = kobj_files c j);
  kobj_create_None : forall n c c', kobject_create_and_add n c = (None, c') -> c' = c;
  create_file_zero : forall k n c c' fs, sysfs_create_file k n c = (0, c') ->
    kobj_files c k = Some fs ->
    kobj_files c' k = Some ({[n]} ∪ fs) /\
    (forall j, j <> k -> kobj_files c' j = kobj_files c j);
  create_file_error : forall k n c e c', sysfs_create_file k n c = (e, c') -> e <> 0 -> c' = c;
  kobject_put_Some : forall k c,
    kobj_files (kobject_put (Some k) c) k = None /\
    (forall j, j <> k -> kobj_files (kobject_put (Some k) c) j = kobj_files c j);
  kobject_put_None : forall c, kobject_put None c = c;
}.

Section SysfsInit.
Context `{SysfsCore}.

Record smod := Smod {
  kcore : score;
  my_kobject_root : option kobject;
}.

Definition create_root (n : string) : M smod unit := fun s =>
  let r := kobject_create_and_add n (kcore s) in
  Done tt (Smod r.2 r.1) [].

Definition create_attr (k : kobject) (n : string) : M smod Z := fun s =>
  let r := sysfs_create_file k n (kcore s) in
  Done r.1 (Smod r.2 (my_kobject_root s)) [].

Definition put_root : M smod unit := fun s =>
  Done tt (Smod (kobject_put (my_kobject_root s) (kcore s)) (my_kobject_root s)) [].

Definition clear_root : M smod unit := fun s => Done tt (Smod (kcore s) None) [].

(** The label FAIL. *)
Definition my_sysfs_fail : M smod Z :=
  put_root ;; clear_root ;; mret (- ENOENT).

Definition my_sysfs_init : M smod Z :=
  printk "my_sysfs init" [] ;;
  create_root "eudyptula" ;;
  s ← kget;
  match my_kobject_root s with
  | None => mret (- ENOMEM)
  | Some root =>
      file_a ← create_attr root "id";
      if negb (file_a =? 0) then my_sysfs_fail else
      file_b ← create_attr root "jiffies";
      if negb (file_b =? 0) then my_sysfs_fail else
      file_c ← create_attr root "foo";
      if negb (file_c =? 0) then my_sysfs_fail else
      mret 0
  end.

Definition my_sysfs_exit : M smod unit :=
  printk "my_sysfs_exit" [] ;; put_root.
End SysfsInit.

Arguments Smod {_} _ _.
Arguments kcore {_} _.
Arguments my_kobject_root {_} _.

(** ** Theorems *)

Section SysfsTheorems.
Context `{MutexOk}.
Implicit Types s : sysm.

(** On what sysfs passes, id_store stays inside its buffer and leaves there
    what strncpy stores; it returns the count when the buffer then starts with
    the id and -1 otherwise, and keeps the sizes of the module's data. *)
Theorem id_store_correct s buf count :
  sys_wf s -> store_ok buf count ->
  exists v, runs (id_store buf count) s v
      (Sysm (stored (sys_input s) buf (Z.to_nat count)) (sys_page s) (sys_lock s)) /\
    v = (if holds_author (stored (sys_input s) buf (Z.to_nat count)) then count else -1) /\
    length (stored (sys_input s) buf (Z.to_nat count)) = 4096%nat.
Proof.
  intros [W1 W2] (C & L & _). unfold runs, id_store.
  rewrite exec_bind_read. change (view sys_inputL s) with (sys_input s).
  rewrite strncpy_stored by lia. rewrite exec_bind_write.
  assert (length (stored (sys_input s) buf (Z.to_nat count)) = length (sys_input s)) as Ls
    by (apply stored_length; lia).
  destruct (compare_author (stored (sys_input s) buf (Z.to_nat count))) as (c & -> & Hc); [lia|].
  eexists. split; [|split; [done|lia]].
  destruct (Z.eqb_spec c 0) as [E|E]; simpl; rewrite exec_bind_printk.
  - apply Hc in E. rewrite E. rewrite s32_id by (unfold int_range; lia). kdone.
  - destruct (holds_author _); [by destruct E; apply Hc|]. kdone.
Qed.

Lemma exec_sys_lock m s :
  sys_lock s = Some m -> mutex_is_locked m = false ->
  exists m', sys_lock_interruptible s = Done 0 (set sys_lockL (Some m') s) [] /\
    mutex_is_locked m' = true.
Proof.
  intros E U. destruct (mutex_lock_free m U) as (m' & Em & L). exists m'. split; [|done].
  unfold sys_lock_interruptible. kexec. rewrite E, Em. by kexec.
Qed.

Lemma foo_show_exec m s buf :
  sys_lock s = Some m -> mutex_is_locked m = false ->
  match string_in (sys_page s) ≫= fun str => splice 0 (str ++ [x0a; x00]) buf with
  | Some buf' => exists str m', string_in (sys_page s) = Some str /\
      foo_show buf s = Done (Z.of_nat (length str) + 1, buf') (set sys_lockL (Some m') s) [] /\
      mutex_is_locked m' = false
  | None => foo_show buf s = Undef OutOfBounds
  end.
Proof.
  intros E U. destruct (exec_sys_lock m s E U) as (m1 & El & L1).
  unfold foo_show, sprintf_line. rewrite (exec_bind _ _ _ _ _ _ El), tell_nil. simpl.
  rewrite exec_bind_read. simpl.
  destruct (string_in (sys_page s)) as [str|]; simpl; [|done].
  destruct (splice 0 (str ++ [x0a; x00]) buf) as [buf'|]; [|done].
  exists str, (mutex_unlock m1). split; [done|]. split; [|apply mutex_unlock_unlocked].
  unfold sys_unlock. rewrite exec_bind_ret. kexec. by rewrite L1.
Qed.

Lemma foo_store_exec m s buf count :
  sys_lock s = Some m -> mutex_is_locked m = false -> sys_wf s -> store_ok buf count ->
  exists m', foo_store buf count s =
      Done count (Sysm (sys_input s) (stored (sys_page s) buf (Z.to_nat count)) (Some m')) [] /\
    mutex_is_locked m' = false.
Proof.
  intros E U [W1 W2] (C & L & _). destruct (exec_sys_lock m s E U) as (m1 & El & L1).
  exists (mutex_unlock m1). split; [|apply mutex_unlock_unlocked].
  unfold foo_store. rewrite (exec_bind _ _ _ _ _ _ El), tell_nil. simpl.
  rewrite exec_bind_read. simpl.
  rewrite strncpy_stored by lia. unfold sys_unlock. kexec. rewrite L1. kexec. by rewrite s64_id by lia.
Qed.

(** C39: where a zeroed mutex works, what foo_store stored, without a NUL in
    it, foo_show shows, followed by what was left of the old page, as long as
    the two are at most 4094 bytes: strncpy copies no NUL after a count of
    bytes without one. The bytes shown, a newline and a NUL are at the start
    of the page that was passed, foo_show returns their number without the
    NUL, and the lock is free again. *)
Theorem foo_store_show m s data count out tl :
  sys_lock s = Some m -> mutex_is_locked m = false -> sys_wf s -> store_ok data count ->
  x00 ∉ take (Z.to_nat count) data -> length out = 4096%nat ->
  string_in (drop (Z.to_nat count) (sys_page s)) = Some tl ->
  count + Z.of_nat (length tl) <= 4094 ->
  exists s1 out' s2, foo_store data count s = Done count s1 [] /\
    foo_show out s1 = Done (count + Z.of_nat (length tl) + 1, out') s2 [] /\
    slice 0 (count + Z.of_nat (length tl) + 2) out' =
      Some (take (Z.to_nat count) data ++ tl ++ [x0a; x00]) /\
    sys_page s2 = sys_page s1 /\
    exists m2, sys_lock s2 = Some m2 /\ mutex_is_locked m2 = false.
Proof.
  intros E U W St N Lo T B. pose proof St as (C & L & _). pose proof W as [W1 W2].
  destruct (foo_store_exec m s data count E U W St) as (m1 & E1 & U1).
  set (s1 := Sysm _ _ _) in E1.
  assert (string_in (sys_page s1) = Some (take (Z.to_nat count) data ++ tl)) as Es.
  { apply string_in_stored; try done; lia. }
  pose proof (foo_show_exec m1 s1 out eq_refl U1) as X. rewrite Es in X. simpl in X.
  assert (length (take (Z.to_nat count) data) = Z.to_nat count) as Lt by (rewrite length_take; lia).
  destruct (splice 0 ((take (Z.to_nat count) data ++ tl) ++ [x0a; x00]) out) as [out'|] eqn:Esp.
  2: { unfold splice in Esp. rewrite !length_app in Esp. simpl in Esp. case_decide; [done|lia]. }
  destruct X as (str & m2 & [= <-] & E2 & U2). exists s1, out', (set sys_lockL (Some m2) s1).
  rewrite length_app, Lt in E2.
  replace (Z.of_nat (Z.to_nat count + length tl) + 1) with (count + Z.of_nat (length tl) + 1)
    in E2 by lia.
  split; [done|]. split; [done|]. split; [|split; [done|by exists m2]].
  apply slice_splice in Esp. rewrite !length_app, Lt in Esp. simpl in Esp.
  rewrite <- app_assoc in Esp. rewrite <- Esp. f_equal. lia.
Qed.

(** Foo_show does not limit what it prints: when the page holds no NUL, or
    a string of 4095 characters, it leaves the page it reads or the one it
    prints to; a single store of a whole page without a NUL is enough. *)
Theorem foo_show_overflow m s data out :
  sys_lock s = Some m -> mutex_is_locked m = false -> sys_wf s ->
  store_ok data 4096 -> x00 ∉ take 4096 data -> length out = 4096%nat ->
  exists s1, foo_store data 4096 s = Done 4096 s1 [] /\ foo_show out s1 = Undef OutOfBounds.
Proof.
  intros E U W St N Lo. pose proof St as (C & L & _). pose proof W as [W1 W2].
  destruct (foo_store_exec m s data 4096 E U W St) as (m1 & E1 & U1).
  eexists. split; [exact E1|]. set (s1 := Sysm _ _ _).
  pose proof (foo_show_exec m1 s1 out eq_refl U1) as X.
  assert (string_in (sys_page s1) = None) as Es; [|by rewrite Es in X].
  simpl. unfold stored. change (Z.to_nat 4096) with 4096%nat.
  rewrite (proj2 (strlen_None _) N). unfold string_in.
  rewrite (proj2 (strlen_None _)); [done|].
  rewrite (drop_ge (sys_page s)) by lia. by rewrite app_nil_r.
Qed.
End SysfsTheorems.

(** Where using a mutex before mutex_init is an error, neither callback of
    foo can ever be used: the module never initialises its lock. *)
Theorem foo_lock_uninitialised `{Mutex} buf count :
  foo_show buf (sys_initial None) = Undef UninitLock /\
  foo_store buf count (sys_initial None) = Undef UninitLock.
Proof. done. Qed.

Section SysfsInitTheorems.
Context `{SysfsCoreOk}.
Implicit Types s : smod.

Definition unchanged (c c' : score) : Prop := forall k, kobj_files c' k = kobj_files c k.
Definition outside (k : kobject) (c c' : score) : Prop :=
  forall j, j <> k -> kobj_files c' j = kobj_files c j.

(** What creating one file in the module's directory does. *)
Lemma create_attr_step c c1 root n e c2 fs :
  outside root c c1 -> kobj_files c1 root = Some fs -> sysfs_create_file root n c1 = (e, c2) ->
  outside root c c2 /\ (e = 0 -> kobj_files c2 root = Some ({[n]} ∪ fs)).
Proof.
  intros O F E. destruct (decide (e = 0)) as [->|D].
  - destruct (create_file_zero _ _ _ _ _ E F) as [F' O']. split; [|done].
    intros j Dj. by rewrite O', O.
  - pose proof (create_file_error _ _ _ _ _ E D) as ->. done.
Qed.

Lemma put_restores `{!EqDecision kobject} c c' root :
  kobj_files c root = None -> outside root c c' ->
  unchanged c (kobject_put (Some root) c').
Proof.
  intros N O k. destruct (kobject_put_Some root c') as [P1 P2].
  destruct (decide (k = root)) as [->|D]; [congruence|]. by rewrite P2, O.
Qed.

Lemma exec_create_root {B} n (f : unit -> M smod B) s :
  (create_root n ≫= f) s =
    f tt (Smod (kobject_create_and_add n (kcore s)).2 (kobject_create_and_add n (kcore s)).1).
Proof. unfold create_root, mbind, M_bind. simpl. by destruct (f _ _). Qed.

Lemma exec_create_attr {B} k n (f : Z -> M smod B) s :
  (create_attr k n ≫= f) s =
    f (sysfs_create_file k n (kcore s)).1
      (Smod (sysfs_create_file k n (kcore s)).2 (my_kobject_root s)).
Proof. unfold create_attr, mbind, M_bind. simpl. by destruct (f _ _). Qed.

(** Loading the module either creates the directory with exactly the files
    id, jiffies and foo and returns 0, or returns an error with every directory
    as it was and no dangling root; and unloading it after a success leaves
    every directory as it was before the load. *)
Theorem my_sysfs_init_exit `{!EqDecision kobject} s :
  exists v s', runs my_sysfs_init s v s' /\
    ((v = 0 /\ exists root, my_kobject_root s' = Some root /\
        kobj_files (kcore s) root = None /\
        kobj_files (kcore s') root = Some {["id"; "jiffies"; "foo"]} /\
        outside root (kcore s) (kcore s') /\
        exists s'', runs my_sysfs_exit s' tt s'' /\ unchanged (kcore s) (kcore s'')) \/
     ((v = - ENOMEM \/ v = - ENOENT) /\ my_kobject_root s' = None /\
        unchanged (kcore s) (kcore s'))).
Proof.
  assert (forall root c, kobj_files (kcore s) root = None -> outside root (kcore s) c ->
    (- ENOENT = - ENOMEM \/ - ENOENT = - ENOENT) /\ None = @None kobject /\
    unchanged (kcore s) (kobject_put (Some root) c)) as Fail.
  { intros root c N O. split; [by right|split; [done|by apply put_restores]]. }
  unfold runs, my_sysfs_init. kexec. rewrite exec_create_root. kexec.
  destruct (kobject_create_and_add "eudyptula" (kcore s)) as [[root|] c1] eqn:E1; simpl.
  2: { apply kobj_create_None in E1 as ->.
       eexists _, _. split; [kdone|]. right. split; [by left|done]. }
  apply kobj_create_Some in E1 as (N & F1 & O1). rewrite exec_create_attr. simpl.
  destruct (sysfs_create_file root "id" c1) as [e2 c2] eqn:E2.
  destruct (create_attr_step _ _ _ _ _ _ _ O1 F1 E2) as [O2 F2].
  simpl. destruct (Z.eqb_spec e2 0) as [D2|D2]; simpl;
    [|eexists _, _; split; [kdone|]; right; by apply Fail].
  rewrite exec_create_attr. simpl.
  destruct (sysfs_create_file root "jiffies" c2) as [e3 c3] eqn:E3.
  destruct (create_attr_step _ _ _ _ _ _ _ O2 (F2 D2) E3) as [O3 F3].
  simpl. destruct (Z.eqb_spec e3 0) as [D3|D3]; simpl;
    [|eexists _, _; split; [kdone|]; right; by apply Fail].
  rewrite exec_create_attr. simpl.
  destruct (sysfs_create_file root "foo" c3) as [e4 c4] eqn:E4.
  destruct (create_attr_step _ _ _ _ _ _ _ O3 (F3 D3) E4) as [O4 F4].
  simpl. destruct (Z.eqb_spec e4 0) as [D4|D4]; simpl;
    [|eexists _, _; split; [kdone|]; right; by apply Fail].
  eexists _, _. split; [kdone|]. left. split; [done|]. exists root. split; [done|].
  split; [done|]. split; [simpl; rewrite F4 by done; f_equal; set_solver|]. split; [done|].
  eexists. split; [by eexists|]. by apply put_restores.
Qed.
End SysfsInitTheorems.

(** ** Witnesses *)

Definition demo_sys : sysm :=
  Sysm (replicate 4096 x00) (replicate 4096 x00) (Some mutex_new).

(** What a process wrote, and the NUL that sysfs puts behind it. *)
Definition sys_buf (data : list byte) : list byte := data ++ [x00].

Lemma demo_sys_wf : sys_wf demo_sys.
Proof. split; apply length_replicate. Qed.

Lemma id_store_correct_witness :
  exists v s', runs (id_store (sys_buf (bytes "Nishad Kamdar")) 13) demo_sys v s'.
Proof.
  destruct (id_store_correct demo_sys (sys_buf (bytes "Nishad Kamdar")) 13 demo_sys_wf)
    as (v & R & _); [by split_and!|]. eexists _, _. exact R.
Defined.

Lemma foo_store_show_witness :
  exists s1 out s2, foo_store (sys_buf (bytes "abc")) 3 demo_sys = Done 3 s1 [] /\
    foo_show (replicate 4096 x00) s1 = Done (4, out) s2 [] /\
    slice 0 5 out = Some (bytes "abc" ++ [x0a; x00]).
Proof.
  destruct (foo_store_show mutex_new demo_sys (sys_buf (bytes "abc")) 3 (replicate 4096 x00) []
    eq_refl eq_refl demo_sys_wf) as (s1 & out & s2 & E1 & E2 & S & _);
    [by split_and!|vm_compute; set_solver|apply length_replicate|reflexivity|simpl; lia|].
  exists s1, out, s2. split; [exact E1|split; [exact E2|exact S]].
Defined.

Lemma foo_show_overflow_witness :
  exists s1, foo_store (sys_buf (replicate 4096 x61)) 4096 demo_sys = Done 4096 s1 [] /\
    foo_show (replicate 4096 x00) s1 = Undef OutOfBounds.
Proof.
  apply (foo_show_overflow (mutex_new : @mutex bool_mutex)); [reflexivity|reflexivity|apply demo_sys_wf| | |].
  - by split_and!.
  - unfold sys_buf. rewrite take_app_le by (rewrite length_replicate; lia).
    rewrite take_ge by (rewrite length_replicate; lia).
    intros [E _]%elem_of_replicate. discriminate.
  - apply length_replicate.
Defined.

(** One directory, and an optional file name that is refused. *)
#[export] Instance one_dir : SysfsCore := {|
  score := option (gset string);
  kobject := unit;
  kobj_files c _ := c;
  kobject_create_and_add n c :=
    match c with None => (Some tt, Some ∅) | Some _ => (None, c) end;
  sysfs_create_file k n c := (0, (fun fs => {[n]} ∪ fs) <$> c);
  kobject_put k c := match k with Some _ => None | None => c end;
|}.

#[export] Instance one_dir_ok : SysfsCoreOk.
Proof.
  split; simpl.
  - intros n c [] c' E. destruct c; simplify_eq. split_and!; try done. by intros [].
  - intros n c c' E. by destruct c; simplify_eq.
  - intros [] n c c' fs [= <-] ->. split; [done|]. by intros [].
  - intros [] n c e c' [= <- <-] D. done.
  - intros [] c. split; [done|]. by intros [].
  - done.
Qed.

Definition no_dir : @score one_dir := None.

Lemma my_sysfs_init_exit_witness : exists v s', runs my_sysfs_init (Smod no_dir None) v s'.
Proof.
  destruct (my_sysfs_init_exit (Smod no_dir None)) as (v & s' & R & _).
  by exists v, s'.
Defined.
