(* ===== verification/MiscDev17.v ===== *)
(** * The misc device with a waiting thread (Task_17/misc_device/misc_dev.c)

    The device of Task_6 without its read handler, printing with printk, and a
    kernel thread that sleeps on the wait queue until it is stopped. The write
    handler is the one of MiscDev.v; here are the thread, the step relation in
    which it runs beside misc_exit, and the module's initialisation. *)

From Stdlib Require Import ZArith Lia Strings.Byte.
From stdpp Require Import base strings gmap sets numbers list.
From S2P Require Import Prelude.
From S2P Require Import CString.
From S2P Require Import Kernel.
From S2P Require Import KernelInst.
From S2P Require Import MiscDev.

Module Waiter.

(** ** The handlers *)

Section Handlers.
Context `{UserMem}.
Definition simple_dev_open : M dev Z := simple_dev_open Info.
Definition simple_dev_write (rodata_writable : bool) : Z -> Z -> M dev Z :=
  simple_dev_write rodata_writable Info.
End Handlers.

(** ** The thread *)

(** Where kthread_fn stands; it falls off its end without a return value. *)
Inductive pc :=
| Prepare          (* wait: prepare_to_wait(...) *)
| CheckStop        (* if (!kthread_should_stop()) *)
| Schedule         (* schedule() *)
| Awakened         (* if (kthread_should_stop()) ... else goto wait *)
| Returned.

#[export] Instance pc_eq_dec : EqDecision pc.
Proof. solve_decision. Defined.

(** The thread and what the scheduler knows of it. *)
Record task := Task { at_pc : pc; runnable : bool; should_stop : bool }.

(** One step; [None]: it sleeps, or has returned. *)
Definition kthread_fn (t : task) : option (task * list kmsg) :=
  match at_pc t with
  | Prepare => Some (Task CheckStop false (should_stop t), [])
  | CheckStop =>
      if negb (should_stop t)
      then Some (Task Schedule (runnable t) (should_stop t), [Printk "Kthread going to sleep" []])
      else Some (Task Awakened (runnable t) (should_stop t), [])
  | Schedule =>
      if runnable t then Some (Task Awakened (runnable t) (should_stop t), []) else None
  | Awakened =>
      if should_stop t
      then Some (Task Returned (runnable t) (should_stop t), [Printk "Kthread stop funtion called" []])
      else Some (Task Prepare (runnable t) (should_stop t), [])
  | Returned => None
  end.

(** ** The thread beside misc_exit *)

(** misc_exit: not called; before kthread_stop; inside it, before it sets the
    flag, between that and the wake-up, and waiting for the thread to end;
    before misc_deregister; at its end. *)
Inductive epc := NotCalled | SetFlag | WakeUp | Waiting | Deregister | Unloaded.

Record module := Module { thread : task; exiting : epc }.

(** A task that was started is about to enter its function, and runs. *)
Definition started : module := Module (Task Prepare true false) NotCalled.
Definition initial (m : module) : Prop := m = started.

Definition with_flag (t : task) : task := Task (at_pc t) (runnable t) true.
Definition woken (t : task) : task := Task (at_pc t) true (should_stop t).

(** kthread_stop sets the flag, wakes the task, and waits until it has ended;
    anything else in the kernel may wake it as well. *)
Inductive step : module -> module -> Prop :=
| thread_step m t out : kthread_fn (thread m) = Some (t, out) -> step m (Module t (exiting m))
| wake m : step m (Module (woken (thread m)) (exiting m))
| exit_called m : exiting m = NotCalled -> step m (Module (thread m) SetFlag)
| stop_flag m : exiting m = SetFlag -> step m (Module (with_flag (thread m)) WakeUp)
| stop_wake m : exiting m = WakeUp -> step m (Module (woken (thread m)) Waiting)
| stop_waited m :
    exiting m = Waiting -> at_pc (thread m) = Returned -> step m (Module (thread m) Deregister)
| deregistered m : exiting m = Deregister -> step m (Module (thread m) Unloaded).

(** A number of steps of the thread, nothing else moving. *)
Fixpoint alone (n : nat) (t : task) : option (task * list kmsg) :=
  match n with
  | O => Some (t, [])
  | S n => '(t1, o1) ← kthread_fn t; '(t2, o2) ← alone n t1; Some (t2, o1 ++ o2)
  end.

(** ** Initialisation and exit *)

Section Init.
Context {core : Type}.
Variable misc_register : M core Z.
Variable misc_deregister : M core unit.
Variable minor : core -> Z.

(** The pointer kthread_run returns is the module's eudyptula_thread. *)
Variable kthread_run : Z.
Variable kthread_stop : Z -> M core Z.

Definition misc_init : M core Z :=
  error ← misc_register;
  if negb (error =? 0) then printk "can't misc_register" [] ;; mret error else
  c ← kget;
  printk "misc device initialized! minor number is %i" [ArgZ (minor c)] ;;
  (if negb (kthread_run =? 0) then printk "Kthread Created Successfully..." []
   else printk "Cannot create kthread" []) ;;
  mret 0.

Definition misc_exit : M core unit :=
  printk "See you later." [] ;;
  kthread_stop kthread_run ;;
  misc_deregister.
End Init.

(** ** Lemmas *)

(** Whether the stop flag is set, and whether the wake-up is over. *)
Definition flagged (e : epc) : bool :=
  match e with NotCalled | SetFlag => false | _ => true end.
Definition waited_for (e : epc) : bool :=
  match e with Waiting | Deregister | Unloaded => true | _ => false end.
Definition joined (e : epc) : bool :=
  match e with Deregister | Unloaded => true | _ => false end.

Record inv (m : module) : Prop := {
  inv_flag : should_stop (thread m) = flagged (exiting m);
  inv_awake : waited_for (exiting m) = true -> at_pc (thread m) = Schedule ->
    runnable (thread m) = true;
  inv_joined : joined (exiting m) = true -> at_pc (thread m) = Returned;
  inv_returned : at_pc (thread m) = Returned -> should_stop (thread m) = true;
}.

Lemma inv17_initial m : initial m -> inv m.
Proof. by intros ->. Qed.

(** What a step of the thread keeps. *)
Lemma kthread_fn_kept t t' out :
  kthread_fn t = Some (t', out) ->
  at_pc t <> Returned /\ should_stop t' = should_stop t /\
  (at_pc t' = Schedule -> should_stop t = false) /\
  (at_pc t' = Returned -> should_stop t = true).
Proof.
  unfold kthread_fn. destruct t as [p r s]. simpl.
  destruct p, s, r; simpl; intros E; simplify_eq; done.
Qed.

Lemma waited_flagged e : waited_for e = true -> flagged e = true.
Proof. by destruct e. Qed.

Lemma inv17_step m m' : inv m -> step m m' -> inv m'.
Proof.
  intros [F A J R] St. destruct St as [m t out E|m|m E|m E|m E|m E P|m E]; simpl in *.
  - destruct (kthread_fn_kept _ _ _ E) as (N & S & Sc & Re). split; simpl.
    + congruence.
    + intros W P. apply waited_flagged in W. specialize (Sc P). congruence.
    + intros Jo. destruct N. by apply J.
    + intros P. rewrite S. by apply Re.
  - split; simpl; auto.
  - rewrite E in *. by split.
  - rewrite E in *. split; simpl; done.
  - rewrite E in *. split; simpl; done.
  - rewrite E in *. split; simpl; done.
  - rewrite E in *. split; simpl; auto.
Qed.

Lemma reachable_inv17 m : reachable initial step m -> inv m.
Proof. apply reachable_inv; [apply inv17_initial|intros; by eapply inv17_step]. Qed.
End Waiter.

Import Waiter.

(** ** Theorems *)

(** C31: no wake-up is lost: in whatever order the thread, misc_exit and anyone
    who wakes the thread take their steps, a thread that kthread_stop waits
    for is not asleep; it returns only when it was told to; and when
    misc_exit is past kthread_stop it has returned, so that no thread is left
    in code that is unloaded. *)
Theorem kthread17_stop_safe m :
  reachable initial step m ->
  (exiting m = Waiting -> at_pc (thread m) = Returned \/ is_Some (kthread_fn (thread m))) /\
  (at_pc (thread m) = Returned -> should_stop (thread m) = true) /\
  (exiting m = Deregister \/ exiting m = Unloaded -> at_pc (thread m) = Returned).
Proof.
  intros [F A J R]%reachable_inv17. split_and!; [|done|].
  - intros E. rewrite E in *. destruct (thread m) as [p r s]. simpl in *. subst.
    destruct p; simpl; eauto. right. rewrite A by done. eauto.
  - intros [E|E]; apply J; by rewrite E.
Qed.

(** The thread ends when it is told to: once kthread_stop waits for it, at
    most four of its own steps take it to its end, the last of which prints
    that it was stopped. *)
Theorem kthread17_stops m :
  reachable initial step m -> exiting m = Waiting -> at_pc (thread m) <> Returned ->
  exists n t, (n <= 4)%nat /\
    alone n (thread m) = Some (t, [Printk "Kthread stop funtion called" []]) /\
    at_pc t = Returned.
Proof.
  intros [F A J R]%reachable_inv17 E N. rewrite E in *.
  destruct (thread m) as [p r s]. simpl in *. subst. destruct p; try done.
  - exists 3%nat, (Task Returned false true). split; [lia|done].
  - exists 2%nat, (Task Returned r true). split; [lia|done].
  - rewrite A by done. exists 2%nat, (Task Returned true true). split; [lia|done].
  - exists 1%nat, (Task Returned r true). split; [lia|done].
Qed.

(** Loading the module passes on the error of misc_register and then starts
    nothing; otherwise it returns 0 whatever kthread_run returned, and says
    that the thread was created when that was an error pointer, which is not
    NULL. *)
Theorem misc_init17_correct `{ErrPtrOk} {core : Type} (reg : M core Z) minor e task c c' r o :
  reg c = Done r c' o -> -4095 <= e < 0 -> task = ERR_PTR e -> ERR_PTR e <> 0 ->
  if r =? 0 then
    misc_init reg minor task c = Done 0 c' (o ++
      [Printk "misc device initialized! minor number is %i" [ArgZ (minor c')];
       Printk "Kthread Created Successfully..." []])
  else misc_init reg minor task c = Done r c' (o ++ [Printk "can't misc_register" []]).
Proof.
  intros E He -> N. unfold misc_init. rewrite (exec_bind _ _ _ _ _ _ E).
  destruct (Z.eqb_spec r 0) as [->|D]; simpl; [|done].
  by rewrite (proj2 (Z.eqb_neq _ _) N).
Qed.

(** ** Witnesses *)

(** The thread sleeps when misc_exit is called, and is woken. *)
Definition asleep : task := Task Schedule false false.
Definition stopping17 : module := Module (woken (with_flag asleep)) Waiting.

Lemma stopping17_reachable : reachable initial step stopping17.
Proof.
  exists started. split; [reflexivity|].
  eapply rtc_l; [eapply thread_step; reflexivity|].
  eapply rtc_l; [eapply thread_step; reflexivity|].
  eapply rtc_l; [apply exit_called; reflexivity|].
  eapply rtc_l; [apply stop_flag; reflexivity|].
  eapply rtc_l; [apply stop_wake; reflexivity|]. apply rtc_refl.
Qed.

Lemma kthread17_stop_safe_witness :
  at_pc (thread stopping17) = Returned \/ is_Some (kthread_fn (thread stopping17)).
Proof. exact (proj1 (kthread17_stop_safe stopping17 stopping17_reachable) eq_refl). Defined.

Lemma kthread17_stops_witness :
  exists n t, (n <= 4)%nat /\
    alone n (thread stopping17) = Some (t, [Printk "Kthread stop funtion called" []]).
Proof.
  destruct (kthread17_stops stopping17 stopping17_reachable eq_refl) as (n & t & L & E & _);
    [discriminate|]. exists n, t. split; [exact L|exact E].
Defined.

Lemma misc_init17_correct_witness :
  exists out, misc_init (fun c : unit => Done 0 c []) (fun _ => 58) (ERR_PTR (-12)) tt
    = Done 0 tt out.
Proof.
  eexists. apply (misc_init17_correct (fun c : unit => Done 0 c []) (fun _ => 58) (-12)
    (ERR_PTR (-12)) tt tt 0 []); [reflexivity|lia|reflexivity|]. vm_compute. discriminate.
Defined.
