(* ===== verification/MiscDev18.v ===== *)
(** * The misc device with a kernel thread (Task_18/misc_device/misc_dev.c)

    Each write makes an identity from the buffer and wakes a kernel thread,
    which takes identities off the list and prints them. The list functions
    are those of Identity.v with kmalloc; the file, its buffer and the process
    are those of MiscDev.v. *)

From Stdlib Require Import ZArith Lia Strings.Byte.
From stdpp Require Import base strings gmap sets numbers list.
From S2P Require Import Prelude.
From S2P Require Import CString.
From S2P Require Import Kernel.
From S2P Require Import KernelInst.
From S2P Require Import MiscDev.
From S2P Require Import Identity.

(** ** Data *)

(** Where kthread_fn stands. *)
Inductive kpc :=
| KAlloc                      (* wait: temp1 = kmalloc(...) *)
| KPrepare                    (* prepare_to_wait *)
| KCheckStop                  (* if (!kthread_should_stop()) *)
| KSchedule                   (* schedule() *)
| KAwakened                   (* after the if *)
| KGet                        (* *temp1 = identity_get() *)
| KTimeout                    (* wait_event_interruptible_timeout *)
| KPrint                      (* the two lines, kfree, goto wait *)
| KReturned (r : option Z).   (* None: the end of the function *)

#[export] Instance kpc_eq_dec : EqDecision kpc.
Proof. solve_decision. Defined.

(** The thread: its static temp1, and what the scheduler knows of it. *)
Record task := Task {
  at_pc : kpc;
  temp1 : option Z;
  runnable : bool;
  should_stop : bool;
}.

(** KERN_INFO, which two calls of printk pass as their format. *)
Definition KERN_INFO : string := "6".

Section MiscDev18.
Context `{KList Z} `{ObjAlloc} `{UserMem} `{ErrPtr}.
Variable freed_readable : bool.
Variable rodata_writable : bool.
Variable dbg : bool.

Record dev18 := Dev18 {
  ids : kll;
  id_get : identity;
  file : dev;
  id_count : Z;
  eudyptula_thread : Z;
  thread : task;
}.

Definition idsL : lens dev18 kll :=
  Lens ids (fun x s => Dev18 x (id_get s) (file s) (id_count s) (eudyptula_thread s) (thread s)).
Definition id_getL : lens dev18 identity :=
  Lens id_get (fun x s => Dev18 (ids s) x (file s) (id_count s) (eudyptula_thread s) (thread s)).
Definition fileL : lens dev18 dev :=
  Lens file (fun x s => Dev18 (ids s) (id_get s) x (id_count s) (eudyptula_thread s) (thread s)).
Definition id_countL : lens dev18 Z :=
  Lens id_count (fun x s => Dev18 (ids s) (id_get s) (file s) x (eudyptula_thread s) (thread s)).
Definition eudyptula_threadL : lens dev18 Z :=
  Lens eudyptula_thread (fun x s => Dev18 (ids s) (id_get s) (file s) (id_count s) x (thread s)).
Definition threadL : lens dev18 task :=
  Lens thread (fun x s => Dev18 (ids s) (id_get s) (file s) (id_count s) (eudyptula_thread s) x).

(** ** The list *)

Definition identity_create : list byte -> Z -> M dev18 Z :=
  fun nm i => zoom idsL (identity_create Kmalloc nm i).
Definition identity_find : Z -> M dev18 (option Z) :=
  fun i => zoom idsL (identity_find freed_readable i).
Definition identity_destroy : Z -> M dev18 unit :=
  fun i => zoom idsL (identity_destroy freed_readable i).

(** The body of the loop of identity_get, and its move to the next entry. *)
Definition get_entry (a : Z) : M dev18 (option unit) :=
  o ← zoom idsL (load a);
  kwrite id_getL o ;;
  zoom idsL (l ← kread listL; kwrite listL (list_del_entry a l)) ;;
  zoom idsL (free a) ;;
  mret None.

Definition get_next (a : Z) : M dev18 (option Z) := zoom idsL (load_next freed_readable a).

(** The structure is returned by value. *)
Definition identity_get : M dev18 identity :=
  k ← kread idsL;
  walk get_next (length (entries (my_id_list k))) (list_first (my_id_list k)) get_entry ;;
  kread id_getL.

(** ** The device *)

(** wake_up_process and kthread_stop follow the pointer they are given, which
    kthread_run may have made an error; a task that has returned is gone. *)
Definition live_task (s : dev18) : option ub :=
  if (eudyptula_thread s =? 0) || IS_ERR (eudyptula_thread s) then Some NullDeref
  else match at_pc (thread s) with KReturned _ => Some UseAfterFree | _ => None end.

Definition wake_up_process : M dev18 unit :=
  s ← kget;
  match live_task s with
  | Some u => undef u
  | None => kwrite threadL (Task (at_pc (thread s)) (temp1 (thread s)) true (should_stop (thread s)))
  end.

Definition kthread_stop : M dev18 unit :=
  s ← kget;
  match live_task s with
  | Some u => undef u
  | None => kwrite threadL (Task (at_pc (thread s)) (temp1 (thread s)) true true)
  end.

Definition simple_dev_open : M dev18 Z :=
  printk "eudyptula opened" [] ;; mret 0.

Definition simple_dev_write (buf count : Z) : M dev18 Z :=
  pos ← kread (lens_compose fileL f_posL);
  printk "misc_dev: Device file is written at offset = %i, written bytes count = %u"
    [ArgZ (s32 pos); ArgZ (u32 count)] ;;
  if 19 <=? pos then mret 0 else
  let count := if 19 <? u64 (pos + count) then u64 (19 - pos) else count in
  zoom fileL (store_const rodata_writable count) ;;
  r ← copy_from_user (lens_compose fileL umL) (lens_compose fileL user_inputL) pos buf count;
  if negb (r =? 0) then mret (- EFAULT) else
  (let retval := s64 count in
   kwrite (lens_compose fileL f_posL) (s64 (u64 (pos + count))) ;;
   input ← kread (lens_compose fileL user_inputL);
   n ← kread id_countL;
   identity_create input (s32 n) ;;
   kwrite id_countL (u64 (n + 1)) ;;
   wake_up_process ;;
   mret retval).

(** ** The kernel thread *)

Definition set_task (pc : kpc) (t : option Z) (r : bool) : M dev18 unit :=
  s ← kget; kwrite threadL (Task pc t r (should_stop (thread s))).

Definition goto (pc : kpc) : M dev18 unit :=
  s ← kget; set_task pc (temp1 (thread s)) (runnable (thread s)).

Definition print_identity (o : identity) : M dev18 unit :=
  match string_in (name o) with
  | None => undef OutOfBounds
  | Some nm =>
      printk "temp->name = %s" [ArgS nm] ;;
      printk "temp->id = %d" [ArgZ (id o)]
  end.

(** One step of kthread_fn; [woken] is what the wait with a timeout returns.
    [None]: the thread sleeps, or has returned. *)
Definition kthread_step (woken : Z) (s : dev18) : option (res dev18 unit) :=
  let t := thread s in
  match at_pc t with
  | KAlloc => Some ((a ← zoom idsL (alloc Kmalloc);
      match a with
      | None => goto (KReturned (Some (- ENOMEM)))
      | Some p => set_task KPrepare (Some p) (runnable t)
      end) s)
  | KPrepare => Some (set_task KCheckStop (temp1 t) false s)
  | KCheckStop => Some ((if should_stop t then goto KAwakened else
      printk "Kthread going to sleep" [] ;; goto KSchedule) s)
  | KSchedule => if runnable t then Some (goto KAwakened s) else None
  | KAwakened => Some ((printk "Kthread awakened" [] ;;
      if should_stop t
      then printk "Kthread stop funtion called" [] ;; goto (KReturned None)
      else goto KGet) s)
  | KGet => Some ((o ← identity_get;
      match temp1 t with
      | None => undef NullDeref
      | Some p => zoom idsL (update p (fun _ => o))
      end ;;
      printk "process going to 5sec interruptible sleep" [] ;; goto KTimeout) s)
  | KTimeout => Some ((if woken <? 0
      then printk KERN_INFO [ArgS (bytes "process interrupted")] ;;
           goto (KReturned (Some (- ERESTARTSYS)))
      else printk KERN_INFO [ArgS (bytes "process woken up")] ;;
           set_task KPrint (temp1 t) true) s)
  | KPrint => Some (match temp1 t with
      | None => undef NullDeref
      | Some p =>
          o ← zoom idsL (load p);
          print_identity o ;;
          zoom idsL (free p) ;;
          goto KAlloc
      end s)
  | KReturned _ => None
  end.

(** ** Initialisation and exit *)

Section Init.
Variable misc_register : M dev18 Z.
Variable misc_deregister : M dev18 unit.
Variable minor : dev18 -> Z.
Variable kthread_run : Z.

Definition misc_init : M dev18 Z :=
  error ← misc_register;
  if negb (error =? 0) then printk "can't misc_register" [] ;; mret error else
  s ← kget;
  printk "misc device initialized! minor number is %i" [ArgZ (minor s)] ;;
  kwrite eudyptula_threadL kthread_run ;;
  (if negb (kthread_run =? 0) then printk "Kthread Created Successfully..." []
   else printk "Cannot create kthread" []) ;;
  zoom idsL (create_all Kmalloc dbg) ;;
  o ← identity_get;
  print_identity o ;;
  temp ← identity_find 3;
  pr_debug dbg (nm ← zoom idsL (name_arg temp); mret (Printk "id 3 = %s" [ArgS nm])) ;;
  temp ← identity_find 42;
  (if bool_decide (temp = None) then klog (Debug dbg) "id 42 not found" [] else mret tt) ;;
  zoom idsL (destroy_all freed_readable) ;;
  mret 0.

(** for (i = 0; i < id_count; i++) identity_destroy(i); [fuel] is the number
    of iterations left. *)
Fixpoint destroy_upto (fuel : nat) (i : Z) : M dev18 unit :=
  n ← kread id_countL;
  if u64 i <? n then
    match fuel with
    | O => undef OutOfFuel
    | S f => identity_destroy i ;; destroy_upto f (s32 (i + 1))
    end
  else mret tt.

Definition misc_exit : M dev18 unit :=
  n ← kread id_countL;
  destroy_upto (Z.to_nat n) 0 ;;
  printk "List destroyed." [] ;;
  printk "See you later." [] ;;
  kthread_stop ;;
  misc_deregister.
End Init.
End MiscDev18.

Arguments Dev18 {_ _} _ _ _ _ _ _.
Arguments ids {_ _} _.
Arguments id_get {_ _} _.
Arguments file {_ _} _.
Arguments id_count {_ _} _.
Arguments eudyptula_thread {_ _} _.
Arguments thread {_ _} _.

(** ** What holds between calls *)

(** Nothing is ever stored past the first 19 bytes of the buffer, so it always
    holds a string that fits a name. *)
Definition input_wf (b : list byte) : Prop :=
  length b = 4096%nat /\ drop 19 b = replicate 4077 x00.

Record dev18_wf `{KList Z} `{UserMem} `{ErrPtr} (s : dev18) : Prop := {
  wf_ids : kll_wf (ids s);
  wf_input : input_wf (user_input (file s));
  wf_task : live_task s = None;
}.

(** ** Lemmas *)

Section MiscDev18Facts.
Context `{KListOk Z} `{ObjAllocOk} `{UserMemOk} `{ErrPtrOk}.
Implicit Types s : dev18.

Lemma exec_get_entry {B} a o (k : option unit -> M dev18 B) s :
  heap (ids s) !! a = Some o ->
  (get_entry a ≫= k) s =
    k None (Dev18 (Kll (delete a (heap (ids s))) (list_del_entry a (my_id_list (ids s)))
                    (kll_cache (ids s)))
              o (file s) (id_count s) (eudyptula_thread s) (thread s)).
Proof.
  intros E. rewrite (exec_bind _ _ _ None (Dev18 (Kll (delete a (heap (ids s)))
    (list_del_entry a (my_id_list (ids s))) (kll_cache (ids s)))
    o (file s) (id_count s) (eudyptula_thread s) (thread s)) []); [by rewrite tell_nil|].
  unfold get_entry, zoom, load, free, mbind, M_bind, kread, kwrite, mret, M_ret. simpl.
  rewrite E. simpl. rewrite E. done.
Qed.

(** identity_get where freed entries can still be read: it takes every entry
    off the list and frees it, and keeps a copy of the last one. *)
Lemma get_walk `{!KListStale Z} q fuel s :
  NoDup (entries (my_id_list (ids s))) -> entries (my_id_list (ids s)) = q ->
  (length q <= fuel)%nat -> (forall a, a ∈ q -> is_Some (heap (ids s) !! a)) ->
  exists k o, walk (get_next true) fuel (head q) get_entry s =
      Done None (Dev18 k o (file s) (id_count s) (eudyptula_thread s) (thread s)) [] /\
    entries (my_id_list k) = [] /\
    (forall a, heap k !! a = if decide (a ∈ q) then None else heap (ids s) !! a) /\
    o = default (id_get s) (last (omap (fun a => heap (ids s) !! a) q)).
Proof.
  revert s fuel. induction q as [|a q IH]; intros s fuel N E F L.
  - exists (ids s), (id_get s). split_and!; [destruct fuel; by destruct s|done| |done].
    intros b. rewrite decide_False; [done|apply not_elem_of_nil].
  - destruct fuel as [|fuel]; simpl in F; [lia|]. simpl.
    destruct (L a) as [o Eo]; [by left|]. rewrite (exec_get_entry a o) by done.
    set (s1 := Dev18 _ _ _ _ _ _).
    assert (entries (my_id_list (ids s1)) = q) as E1 by (by apply (entries_del a _ [] q)).
    pose proof N as N'. rewrite E in N'. apply NoDup_cons in N' as [Na Nq].
    rewrite (exec_bind _ _ _ (head q) s1 []).
    2: { unfold get_next. rewrite (zoom_done _ _ _ (head q) (ids s1) []); [done|].
         unfold load_next. rewrite exec_bind_get, orb_true_r. unfold mret, M_ret.
         do 2 f_equal. by apply (list_next_deleted a _ [] q). }
    rewrite tell_nil.
    destruct (IH s1 fuel) as (k & o' & Ew & Ek & Eh & Eo'); [by rewrite E1|done|lia| |].
    { intros b Hb. simpl. rewrite lookup_delete_ne by congruence. apply L. by right. }
    assert (forall b, b ∈ q -> heap (ids s1) !! b = heap (ids s) !! b) as Hq.
    { intros b Hb. simpl. rewrite lookup_delete_ne by congruence. done. }
    exists k, o'. split; [exact Ew|]. split; [done|]. split.
    + intros b. rewrite Eh. simpl. destruct (decide (b = a)) as [->|D].
      * rewrite (decide_True (P := a ∈ a :: q)) by left. rewrite lookup_delete_eq.
        by case_decide.
      * rewrite lookup_delete_ne by done. apply decide_ext. set_solver.
    + rewrite Eo'. simpl. rewrite Eo. simpl.
      rewrite (list_omap_ext (fun b => heap (ids s1) !! b) (fun b => heap (ids s) !! b) q q).
      * match goal with |- _ = default _ (last (o :: ?l)) =>
          change (omap _ q) with l; rewrite (last_cons o l); by destruct (last l) end.
      * apply Forall_Forall2_diag, Forall_forall. apply Hq.
Qed.

(** Where freed memory must not be read, identity_get is defined on an empty
    list only, of which it returns what it returned last. *)
Lemma identity_get_strict s :
  kll_wf (ids s) ->
  identity_get false s =
    match entries (my_id_list (ids s)) with
    | [] => Done (id_get s) s []
    | _ :: _ => Undef UseAfterFree
    end.
Proof.
  intros W. unfold identity_get. rewrite exec_bind_read. change (view idsL s) with (ids s).
  rewrite list_first_entry. destruct (entries (my_id_list (ids s))) as [|a q] eqn:E; [done|].
  destruct (wf_live_is_Some _ a W) as [o Eo]; [rewrite E; by left|].
  apply exec_bind_undef. simpl. rewrite (exec_get_entry a o) by done.
  apply exec_bind_undef. unfold get_next. apply zoom_undef. unfold load_next.
  rewrite exec_bind_get. simpl. by rewrite lookup_delete_eq.
Qed.

Lemma identity_get_exec `{!KListStale Z} s :
  kll_wf (ids s) ->
  exists k, identity_get true s =
      Done (default (id_get s) (last (contents (ids s))))
        (Dev18 k (default (id_get s) (last (contents (ids s)))) (file s) (id_count s)
           (eudyptula_thread s) (thread s)) [] /\
    entries (my_id_list k) = [] /\
    (forall a, heap k !! a =
       if decide (a ∈ entries (my_id_list (ids s))) then None else heap (ids s) !! a).
Proof.
  intros W. destruct (get_walk (entries (my_id_list (ids s)))
    (length (entries (my_id_list (ids s)))) s) as (k & o & Ew & Ek & Eh & Eo);
    [apply W|done|done|by intros a Ha; apply wf_live_is_Some|].
  exists k. unfold identity_get. rewrite exec_bind_read. change (view idsL s) with (ids s).
  rewrite list_first_entry, (exec_bind _ _ _ _ _ _ Ew). simpl. by rewrite Eo.
Qed.
End MiscDev18Facts.

(** ** Theorems *)

Section MiscDev18Theorems.
Context `{KListOk Z} `{ObjAllocOk} `{UserMemOk} `{ErrPtrOk}.
Implicit Types s : dev18.

Lemma input_wf_string b : input_wf b -> exists k, strlen b = Some k /\ (k < 20)%nat.
Proof.
  intros [L D]. assert (b !! 19%nat = Some x00) as E.
  { change (b !! (19 + 0)%nat = Some x00). by rewrite <- lookup_drop, D. }
  destruct (strlen_is_Some b 19 E) as (k & Ek & Hk). exists k. split; [done|lia].
Qed.

Lemma input_wf_splice off bs b b' :
  input_wf b -> 0 <= off -> off + Z.of_nat (length bs) <= 19 -> splice off bs b = Some b' ->
  input_wf b'.
Proof.
  intros [L D] P B E. split; [by rewrite (splice_length _ _ _ _ E)|]. rewrite <- D.
  apply list_eq. intros i. rewrite !lookup_drop. apply (splice_lookup_ne _ _ _ _ _ E). lia.
Qed.

(** An operation that leaves alone the live objects that are not on the list. *)
Definition keeps (k k' : kll) : Prop :=
  forall p o, heap k !! p = Some o -> p ∉ entries (my_id_list k) ->
    heap k' !! p = Some o /\ p ∉ entries (my_id_list k').

(** What a write does not touch. *)
Definition write18_frame s s' : Prop :=
  id_get s' = id_get s /\ keeps (ids s) (ids s') /\
  at_pc (thread s') = at_pc (thread s) /\ temp1 (thread s') = temp1 (thread s).

Lemma keeps_refl k : keeps k k.
Proof. done. Qed.

(** What the creation of an identity does to the list. *)
Lemma create_keeps k nm n i :
  kll_wf k -> strlen nm = Some n -> (n < 20)%nat -> int_range i ->
  exists v k', Identity.identity_create Kmalloc nm i k = Done v k' [] /\ kll_wf k' /\
    keeps k k' /\
    (obj_alloc Kmalloc (heap k) = None /\ k' = k \/
     exists o, contents k' = o :: contents k /\ id o = i /\
       string_in (name o) = string_in nm).
Proof.
  intros W En Hn R.
  pose proof (identity_create_exec Kmalloc k nm n i W En ltac:(unfold two64; lia) R ltac:(done)) as X.
  destruct (obj_alloc Kmalloc (heap k)) as [[a o0]|] eqn:Al.
  - rewrite decide_True in X by done.
    destruct X as (o & k' & E & Eh & _ & El & Na & Wo & So & Ei & _).
    destruct (created_list_wf k k' a o W Eh El Na Wo) as [W' C].
    pose proof (obj_alloc_fresh _ _ _ _ Al) as Fr.
    exists 0, k'. split; [done|]. split; [done|]. split.
    { intros p x Ep Np. rewrite Eh, El. rewrite lookup_insert_ne by congruence.
      split; [done|]. apply not_elem_of_cons. split; [congruence|done]. }
    right. exists o. split_and!; [done..|].
    rewrite So. unfold string_in. by rewrite En.
  - exists (- ENOMEM), k. split_and!; [done..|]. by left.
Qed.

(** From the buffer, which always holds a name that fits. *)
Lemma create_from_input k input i :
  kll_wf k -> input_wf input ->
  exists v k', Identity.identity_create Kmalloc input (s32 i) k = Done v k' [] /\ kll_wf k' /\
    keeps k k' /\
    (obj_alloc Kmalloc (heap k) = None /\ k' = k \/
     exists o, contents k' = o :: contents k /\ id o = s32 i /\
       string_in (name o) = string_in input).
Proof.
  intros W I. destruct (input_wf_string input I) as (n & En & Hn).
  exact (create_keeps k input n (s32 i) W En Hn (s32_range i)).
Qed.

(** The three outcomes of the write handler. *)
Definition write18_outcome s buf count v s' : Prop :=
  let p := f_pos (file s) in
  ((19 <= p /\ v = 0 /\ s' = s) \/
   (p < 19 /\ v = - EFAULT /\ uread (um (file s)) buf (Z.to_nat (Z.min count (19 - p))) = None /\
    ids s' = ids s /\ f_pos (file s') = p /\ thread s' = thread s) \/
   (p < 19 /\ v = Z.min count (19 - p) /\ f_pos (file s') = p + v /\
    slice p v (user_input (file s')) = uread (um (file s)) buf (Z.to_nat v) /\
    runnable (thread s') = true /\ id_count s' = u64 (id_count s + 1) /\
    (obj_alloc Kmalloc (heap (ids s)) = None /\ ids s' = ids s \/
     exists o, contents (ids s') = o :: contents (ids s) /\ id o = s32 (id_count s) /\
       string_in (name o) = string_in (user_input (file s'))))).

Lemma write18_runs s buf count :
  dev18_wf s -> vfs_ok (f_pos (file s)) count ->
  exists v s', runs (simple_dev_write true buf count) s v s' /\ dev18_wf s' /\
    write18_frame s s' /\ write18_outcome s buf count v s'.
Proof.
  intros [Wk Wi Wt] V. pose proof V as (P0 & C0 & B0).
  unfold runs, simple_dev_write. kexec. zcase.
  { eexists _, s. split; [kdone|]. split; [by split|]. split; [done|]. by left. }
  rewrite clamp_count by (done || lia). set (n := Z.min _ _).
  assert (0 <= n <= 19 - f_pos (file s)) as Hn by lia.
  rewrite (exec_bind _ _ _ tt s []).
  2: { unfold zoom, store_const. rewrite andb_false_r. simpl. by destruct s. }
  rewrite tell_tell. simpl app.
  destruct Wi as [Li Di].
  destruct (copy_from_user_fits (lens_compose fileL umL) (lens_compose fileL user_inputL)
    (f_pos (file s)) buf n s) as (b & Eb & Lb & Sb & Er); [lia|lia|simpl; lia|].
  rewrite (exec_bind _ _ _ _ _ _ Er). simpl in Eb, Sb.
  assert (input_wf b) as Wb.
  { apply (input_wf_splice _ _ _ _ (conj Li Di) P0) in Eb; [done|].
    rewrite user_bytes_length. lia. }
  set (c := user_bytes (um (file s)) buf (Z.to_nat n)) in *.
  change (user_bytes (view (lens_compose fileL umL) s) buf (Z.to_nat n)) with c.
  destruct (decide (c.2 = O)) as [Z|Z].
  2: { destruct (Z.eqb_spec (Z.of_nat c.2) 0); [lia|]. simpl.
       eexists _, _. split; [kdone|]. split; [by split|]. split; [done|]. right. left.
       split_and!; [done|done| |done|done|done]. fold n.
       destruct (uread _ buf _) as [bs|] eqn:Eu; [|done].
       apply user_bytes_complete in Eu. destruct Z. unfold c. by rewrite Eu. }
  rewrite Z. simpl. kexec. cint.
  destruct (create_from_input (ids s) b (id_count s) Wk Wb) as (e & k & Ec & Wk' & Kp & D).
  set (s1 := Dev18 _ _ _ _ _ _).
  rewrite (exec_bind _ _ _ e (set idsL k s1) []) by (by apply zoom_done).
  kexec. rewrite (exec_bind _ _ _ tt (Dev18 k (id_get s)
    (Dev b (f_pos (file s) + n) (um (file s))) (u64 (id_count s + 1)) (eudyptula_thread s)
    (Task (at_pc (thread s)) (temp1 (thread s)) true (should_stop (thread s)))) []).
  2: { cint. unfold wake_up_process. kexec. unfold live_task in *. simpl. by rewrite Wt. }
  eexists _, _. split; [kdone|]. split; [by split|]. split; [by split_and!|].
  right. right. simpl.
  split_and!; [done|done|done| |done|done|done].
  rewrite Sb. symmetry. by apply user_bytes_ok.
Qed.

(** C20: on every position and count the VFS lets through, the write handler
    keeps to the first 19 bytes of the buffer, so that what it passes to
    identity_create is always a string that fits a name. It reports the end of
    the file, or a fault, of memory the process cannot read, with the list and the position left alone; or else the
    position advances by the bytes stored, the thread is woken, the number of
    identities goes up by one, and, memory permitting, the list has one new
    identity in front with that number and the buffer for a name. *)
Theorem simple_dev_write18_correct s buf count :
  dev18_wf s -> vfs_ok (f_pos (file s)) count ->
  exists v s', runs (simple_dev_write true buf count) s v s' /\ dev18_wf s' /\
    let p := f_pos (file s) in
    ((19 <= p /\ v = 0 /\ s' = s) \/
     (p < 19 /\ v = - EFAULT /\ uread (um (file s)) buf (Z.to_nat (Z.min count (19 - p))) = None /\
      ids s' = ids s /\ f_pos (file s') = p /\ thread s' = thread s) \/
     (p < 19 /\ v = Z.min count (19 - p) /\ f_pos (file s') = p + v /\
      slice p v (user_input (file s')) = uread (um (file s)) buf (Z.to_nat v) /\
      runnable (thread s') = true /\ id_count s' = u64 (id_count s + 1) /\
      (obj_alloc Kmalloc (heap (ids s)) = None /\ ids s' = ids s \/
       exists o, contents (ids s') = o :: contents (ids s) /\ id o = s32 (id_count s) /\
         string_in (name o) = string_in (user_input (file s'))))).
Proof.
  intros W V. destruct (write18_runs s buf count W V) as (v & s' & R & W' & _ & O). eauto.
Qed.

(** Identity_get, where freed entries can still be read, empties the list
    and frees every entry, and returns the one that was created first; from an
    empty list it returns what it returned last. *)
Theorem identity_get_drains `{!KListStale Z} s :
  kll_wf (ids s) ->
  exists o s', identity_get true s = Done o s' [] /\
    contents (ids s') = [] /\ id_get s' = o /\
    o = default (id_get s) (last (contents (ids s))) /\
    (forall a, a ∈ entries (my_id_list (ids s)) -> heap (ids s') !! a = None).
Proof.
  intros W. destruct (identity_get_exec s W) as (k & E & Ek & Eh).
  do 2 eexists. split; [exact E|]. split_and!; [|done|done|].
  - unfold contents. simpl. by rewrite Ek.
  - intros a Ha. simpl. by rewrite Eh, decide_True.
Qed.

(** The thread does not look at the list before it sleeps: from the label
    wait, unless it is to stop or memory is short, three steps take it to a
    sleep that only the next write can end, however many identities the list
    holds. *)
Theorem kthread_sleeps_on_work fr s a o :
  at_pc (thread s) = KAlloc -> should_stop (thread s) = false ->
  obj_alloc Kmalloc (heap (ids s)) = Some (a, o) ->
  exists s1 s2 s3 out,
    kthread_step fr 0 s = Some (Done tt s1 []) /\
    kthread_step fr 0 s1 = Some (Done tt s2 []) /\
    kthread_step fr 0 s2 = Some (Done tt s3 out) /\
    kthread_step fr 0 s3 = None /\
    my_id_list (ids s3) = my_id_list (ids s).
Proof.
  intros P N A. destruct s as [k g f c e [pc tp r st]]. simpl in *. subst pc st.
  set (k' := Kll (<[a := o]> (heap k)) (my_id_list k) (kll_cache k)).
  assert (alloc Kmalloc k = Done (Some a) k' []) as Ea by (unfold alloc; kexec; by rewrite A).
  do 4 eexists. split_and!.
  - unfold kthread_step, zoom, mbind, M_bind. simpl. rewrite Ea. reflexivity.
  - reflexivity.
  - reflexivity.
  - reflexivity.
  - reflexivity.
Qed.

Lemma contents_wf k o : kll_wf k -> o ∈ contents k -> identity_wf o.
Proof.
  intros W (a & Ha & E)%list_elem_of_omap. destruct (wf_live _ W a Ha) as (o' & E' & Wo).
  congruence.
Qed.

Lemma drained_nothing k i : entries (my_id_list k) = [] -> with_id k i = [].
Proof. intros E. unfold with_id. by rewrite E. Qed.

(** Loading the module on an empty list, with memory for everything and a
    thread that starts: the four identities it creates are all taken off the
    list again by its one call of identity_get, which returns the first,
    number 1. So the search for number 3 finds nothing: where pr_debug prints,
    its name is read through NULL; otherwise loading succeeds with the list
    empty. *)
Theorem misc_init18_drains `{!KListStale Z} dbg reg minor task s :
  entries (my_id_list (ids s)) = [] -> (forall h, obj_alloc Kmalloc h <> None) ->
  reg s = Done 0 s [] -> task <> 0 ->
  if (dbg : bool) then misc_init true dbg reg minor task s = Undef NullDeref
  else exists s', runs (misc_init true dbg reg minor task) s 0 s' /\
    contents (ids s') = [] /\ id (id_get s') = 1 /\ eudyptula_thread s' = task.
Proof.
  intros E A R T. unfold misc_init, runs. rewrite (exec_bind _ _ _ _ _ _ R), tell_nil. simpl.
  kexec. destruct (Z.eqb_spec task 0) as [|_]; [done|]. simpl negb. cbn iota. kexec.
  destruct (create_all_exec Kmalloc dbg (ids s) (empty_wf _ E) A ltac:(done))
    as (oG & oD & oB & oA & k1 & E1 & W1 & _ & L1 & I1 & _).
  set (s1 := Dev18 (ids s) _ _ _ _ _).
  rewrite (exec_bind _ _ _ tt (set idsL k1 s1) []) by (by apply zoom_done).
  destruct (identity_get_exec (set idsL k1 s1) W1) as (k2 & E2 & N2 & _).
  simpl in E2. rewrite L1 in E2.
  replace (contents (ids s)) with (@nil identity) in E2 by (unfold contents; by rewrite E).
  simpl in E2. rewrite (exec_bind _ _ _ _ _ _ E2).
  assert (identity_wf oA) as WA.
  { apply (contents_wf k1); [done|]. rewrite L1. set_solver. }
  assert (kll_wf k2) as W2 by (by apply empty_wf).
  set (s2 := Dev18 k2 _ _ _ _ _).
  assert (forall i, identity_find true i s2 = Done None s2 []) as F.
  { intros i. unfold identity_find. rewrite (zoom_done _ _ _ None k2 []); [done|].
    change (view idsL s2) with k2.
    rewrite (identity_find_exec true k2 i W2). by rewrite drained_nothing. }
  destruct (destroy_all_exec k2 W2) as (k3 & E3 & _ & L3).
  assert (contents k2 = []) as C2 by (unfold contents; by rewrite N2).
  rewrite C2, !filter_nil in L3.
  assert (exists out, print_identity oA s2 = Done tt s2 out) as [outp Ep].
  { destruct WA as (_ & [n En] & _). unfold print_identity, string_in. rewrite En. simpl.
    by eexists. }
  rewrite (exec_bind _ _ _ _ _ _ Ep), (exec_bind _ _ _ _ _ _ (F 3)).
  destruct dbg; simpl.
  - done.
  - rewrite exec_bind_ret, (exec_bind _ _ _ _ _ _ (F 42)). simpl.
    rewrite exec_bind_ret.
    rewrite (exec_bind _ _ _ tt (set idsL k3 s2) []) by (by apply zoom_done).
    exists (set idsL k3 s2). split; [kdone|]. by split_and!.
Qed.
End MiscDev18Theorems.

(** ** Witnesses *)

(** The task is at address 64; nothing is on the list; the process wrote its
    data at 1000. *)
Definition no_ids : @kll seq_klist := Kll ∅ (LIST_HEAD : @klist Z seq_klist) None.
Definition demo18 : @dev18 seq_klist map_umem :=
  Dev18 no_ids (Identity (replicate 20 x00) 0 false) (demo_dev [] 0 "Carol") 7 64
    (Task KAlloc None true false).

Lemma demo18_wf : dev18_wf demo18.
Proof.
  split; [by apply empty_wf| |done]. split; vm_compute; reflexivity.
Qed.

Lemma simple_dev_write18_correct_witness :
  exists v s', runs (@simple_dev_write seq_klist next_alloc map_umem err_ptr64 true 1000 5)
    demo18 v s' /\ dev18_wf s'.
Proof.
  pose (A := next_alloc). assert (@ObjAllocOk A) as O by apply next_alloc_ok.
  destruct (simple_dev_write18_correct demo18 1000 5 demo18_wf) as (v & s' & R & W & _);
    [unfold vfs_ok; simpl; lia|]. exists v, s'. split; [exact R|exact W].
Defined.

(** Bob alone on the list. *)
Definition bob18 : @dev18 seq_klist map_umem :=
  Dev18 bob_kll (id_get demo18) (file demo18) 7 64 (Task KAlloc None true false).

Lemma identity_get_drains_witness :
  exists o s', identity_get true bob18 = Done o s' [] /\ contents (ids s') = [] /\ o = bob.
Proof.
  pose (A := next_alloc). assert (@ObjAllocOk A) as O by apply next_alloc_ok.
  destruct (identity_get_drains bob18 bob_kll_wf) as (o & s' & E & C & _ & Eo & _).
  exists o, s'. split; [exact E|split; [exact C|rewrite Eo; reflexivity]].
Defined.

Lemma kthread_sleeps_on_work_witness :
  exists s3, @kthread_step seq_klist next_alloc map_umem true 0 s3 = None /\
    my_id_list (ids s3) = my_id_list (ids bob18).
Proof.
  pose (A := next_alloc). assert (@ObjAllocOk A) as O by apply next_alloc_ok.
  assert (@obj_alloc A Kmalloc (heap (ids bob18)) = Some (above (heap (ids bob18)),
    Identity (replicate 20 x00) 0 false)) as E by reflexivity.
  destruct (kthread_sleeps_on_work true bob18 _ _ eq_refl eq_refl E)
    as (s1 & s2 & s3 & out & _ & _ & _ & S & L). exists s3. split; [exact S|exact L].
Defined.

Lemma misc_init18_drains_witness :
  exists s', runs (@misc_init seq_klist next_alloc map_umem true false (fun s => Done 0 s [])
    (fun _ => 57) 64) demo18 0 s' /\ contents (ids s') = [].
Proof.
  pose (A := next_alloc). assert (@ObjAllocOk A) as O by apply next_alloc_ok.
  assert (forall h, obj_alloc Kmalloc h <> None) as Al by (intros h; simpl; discriminate).
  destruct (misc_init18_drains false (fun s => Done 0 s []) (fun _ => 57) 64 demo18 eq_refl Al eq_refl
    ltac:(discriminate)) as (s' & R & C & _). exists s'. split; [exact R|exact C].
Defined.
