(* ===== verification/MiscDev18Type.v ===== *)
(** * Type safety of the misc device with a kernel thread (Task_18)

    The states the module's data can be in, as a type, and a proof that writes,
    the steps of the kernel thread and what misc_init and misc_exit do, in any
    order, stay in that type, and that they do nothing undefined but read the
    entry a traversal has just freed. Each operation is one step here;
    Writers18.v and Exit18.v cut them. *)

From Stdlib Require Import ZArith Lia Strings.Byte.
From stdpp Require Import base strings gmap sets numbers list.
From S2P Require Import Prelude.
From S2P Require Import CString.
From S2P Require Import Kernel.
From S2P Require Import KernelInst.
From S2P Require Import MiscDev.
From S2P Require Import Identity.
From S2P Require Import MiscDev18.

(** ** The type *)

Section Typed.
Context `{KList Z} `{ObjAlloc} `{UserMem} `{ErrPtr}.

(** The object temp1 points to at each point of the thread: none, one that
    was only allocated, or one that holds an identity. It is never on the
    list. *)
Definition owns (k : kll) (t : option Z) (P : identity -> Prop) : Prop :=
  exists p o, t = Some p /\ (p ∉ entries (my_id_list k)) /\ heap k !! p = Some o /\ P o.

Definition temp_ok (pc : kpc) (k : kll) (t : option Z) : Prop :=
  match pc with
  | KAlloc | KReturned _ => True
  | KPrepare | KCheckStop | KSchedule | KAwakened | KGet => owns k t (fun _ => True)
  | KTimeout | KPrint => owns k t identity_wf
  end.

Record typed (s : dev18) : Prop := {
  t_ids : kll_wf (ids s);
  t_input : input_wf (user_input (file s));
  t_get : identity_wf (id_get s);
  t_temp : temp_ok (at_pc (thread s)) (ids s) (temp1 (thread s));
}.

(** The names and numbers misc_init creates identities for. *)
Definition init_names : list (string * Z) := [("Alice", 1); ("Bob", 2); ("Dave", 3); ("Gena", 4)].

(** A step of the thread; a write of some process to its open file, while the
    task exists; what misc_init does once the thread runs: creating the
    identities, taking them off the list, and destroying those with one number,
    as misc_exit does too; and misc_exit telling the task to stop while it
    exists. Each is one step, and freed memory is not to be read. *)
Inductive dstep (s s' : dev18) : Prop :=
| thread_steps w out : kthread_step false w s = Some (Done tt s' out) -> dstep s s'
| process_writes m pos buf count v s1 :
    live_task s = None -> vfs_ok pos count ->
    s1 = set fileL (Dev (user_input (file s)) pos m) s ->
    runs (simple_dev_write true buf count) s1 v s' -> dstep s s'
| init_creates nm i v :
    (nm, i) ∈ init_names -> runs (identity_create (cstring nm) i) s v s' -> dstep s s'
| init_gets o : runs (identity_get false) s o s' -> dstep s s'
| module_destroys i : runs (identity_destroy false i) s tt s' -> dstep s s'
| exit_stops : live_task s = None -> runs kthread_stop s tt s' -> dstep s s'.

(** What the module does next is defined, but for the reads of a traversal that
    has just freed the entry it stands at: those of identity_get, which the
    thread and misc_init call, when the list has an entry, and those of
    identity_destroy when it has one with the number. *)
Definition stale_reads_only (s : dev18) : Prop :=
  (forall w r, kthread_step false w s = Some r ->
     if decide (at_pc (thread s) = KGet /\ entries (my_id_list (ids s)) <> [])
     then r = Undef UseAfterFree else exists s' out, r = Done tt s' out) /\
  (forall m pos buf count, live_task s = None -> vfs_ok pos count ->
     exists v s', runs (simple_dev_write true buf count)
       (set fileL (Dev (user_input (file s)) pos m) s) v s') /\
  (forall nm i, (nm, i) ∈ init_names ->
     exists v s', runs (identity_create (cstring nm) i) s v s') /\
  (if decide (entries (my_id_list (ids s)) <> [])
   then identity_get false s = Undef UseAfterFree
   else identity_get false s = Done (id_get s) s []) /\
  (forall i, if decide (i ∈ id <$> contents (ids s))
   then identity_destroy false i s = Undef UseAfterFree
   else identity_destroy false i s = Done tt s []) /\
  (live_task s = None -> exists s', runs kthread_stop s tt s').

(** When the module is loaded: static data, and a thread about to start. *)
Definition loaded18 (s : dev18) : Prop :=
  entries (my_id_list (ids s)) = [] /\ user_input (file s) = replicate 4096 x00 /\
  id_get s = Identity (replicate 20 x00) 0 false /\ at_pc (thread s) = KAlloc.
End Typed.

(** ** Lemmas *)

Section TypedFacts.
Context `{KListOk Z} `{ObjAllocOk} `{UserMemOk} `{ErrPtrOk}.
Implicit Types s : dev18.

Lemma owns_weaken k t (P Q : identity -> Prop) :
  (forall o, P o -> Q o) -> owns k t P -> owns k t Q.
Proof. intros PQ (p & o & ? & ? & ? & ?). exists p, o. auto. Qed.

Lemma temp_ok_keeps pc k k' t : keeps k k' -> temp_ok pc k t -> temp_ok pc k' t.
Proof.
  intros Kp. assert (forall P, owns k t P -> owns k' t P) as O.
  { intros P (p & o & -> & Np & Ep & Po). destruct (Kp p o Ep Np). by exists p, o. }
  destruct pc; simpl; auto.
Qed.

Lemma loaded_typed s : loaded18 s -> typed s.
Proof.
  intros (E & I & G & P). split.
  - by apply empty_wf.
  - rewrite I. split; reflexivity.
  - rewrite G. split; [reflexivity|]. split; [by exists O|]. unfold int_range; simpl; lia.
  - by rewrite P.
Qed.

(** A step that changes only where the thread stands. *)
Lemma typed_moves s pc r st :
  typed s -> temp_ok pc (ids s) (temp1 (thread s)) ->
  typed (set threadL (Task pc (temp1 (thread s)) r st) s).
Proof. by intros [? ? ? _] ?; split. Qed.

Definition steps_to (r : option (res dev18 unit)) : Prop :=
  match r with
  | None => True
  | Some r => exists s' out, r = Done tt s' out /\ typed s'
  end.

Lemma steps_goto pc s :
  typed s -> temp_ok pc (ids s) (temp1 (thread s)) -> steps_to (Some (goto pc s)).
Proof. intros T O. simpl. eexists _, _. split; [reflexivity|]. by apply typed_moves. Qed.

(** Allocating the object of temp1. *)
Lemma alloc_typed s w : typed s -> at_pc (thread s) = KAlloc -> steps_to (kthread_step false w s).
Proof.
  intros [W I G O] E. unfold kthread_step. rewrite E. simpl.
  assert (alloc Kmalloc (ids s) = match obj_alloc Kmalloc (heap (ids s)) with
    | Some (a, o) => Done (Some a) (Kll (<[a := o]> (heap (ids s))) (my_id_list (ids s))
                      (kll_cache (ids s))) []
    | None => Done None (ids s) [] end) as Ea.
  { unfold alloc. kexec. by destruct (obj_alloc Kmalloc (heap (ids s))) as [[a o]|]. }
  destruct (obj_alloc Kmalloc (heap (ids s))) as [[a o]|] eqn:Al.
  - pose proof (obj_alloc_fresh _ _ _ _ Al) as Fr.
    assert (forall b, b ∈ entries (my_id_list (ids s)) -> b <> a) as Na.
    { intros b Hb ->. destruct (wf_live_is_Some _ _ W Hb). congruence. }
    rewrite (exec_bind _ _ _ _ _ _ (zoom_done idsL _ s _ _ _ Ea)). simpl.
    eexists _, _. split; [reflexivity|]. split; simpl; [|done|done|].
    + split; simpl; [apply W|]. intros b Hb. rewrite lookup_insert_ne by (symmetry; by apply Na).
      by apply W.
    + exists a, o. simpl. split; [done|]. split; [intros Ha; by destruct (Na a Ha)|].
      by rewrite lookup_insert_eq.
  - rewrite (exec_bind _ _ _ _ _ _ (zoom_done idsL _ s _ _ _ Ea)). simpl.
    eexists _, _. split; [reflexivity|]. by split.
Qed.

(** Storing what identity_get returns, from an empty list, in *temp1. *)
Lemma get_typed s w :
  typed s -> at_pc (thread s) = KGet -> entries (my_id_list (ids s)) = [] ->
  steps_to (kthread_step false w s).
Proof.
  intros [W I G O] E Em. unfold kthread_step. rewrite E in *. simpl in *.
  destruct O as (p & o & Et & Np & Ep & _). rewrite Et.
  pose proof (identity_get_strict s W) as Eg. rewrite Em in Eg.
  rewrite (exec_bind _ _ _ _ _ _ Eg).
  set (k2 := Kll (<[p := id_get s]> (heap (ids s))) (my_id_list (ids s)) (kll_cache (ids s))).
  assert (update p (fun _ => id_get s) (ids s) = Done tt k2 []) as Eu.
  { unfold update. kexec. by rewrite Ep. }
  rewrite (exec_bind _ _ _ _ _ _ (zoom_done idsL _ s _ _ _ Eu)). simpl.
  eexists _, _. split; [reflexivity|]. split; simpl; [|done|done|].
  - by apply empty_wf.
  - exists p, (id_get s). simpl. by rewrite lookup_insert_eq.
Qed.

Lemma get_stale s w :
  typed s -> at_pc (thread s) = KGet -> entries (my_id_list (ids s)) <> [] ->
  kthread_step false w s = Some (Undef UseAfterFree).
Proof.
  intros [W _ _ _] E Em. unfold kthread_step. rewrite E. f_equal. apply exec_bind_undef.
  rewrite identity_get_strict by done. by destruct (entries _).
Qed.

(** Printing what *temp1 holds, and freeing it. *)
Lemma print_typed s w : typed s -> at_pc (thread s) = KPrint -> steps_to (kthread_step false w s).
Proof.
  intros [W I G O] E. unfold kthread_step. rewrite E in *. simpl in *.
  destruct O as (p & o & Et & Np & Ep & Wo). rewrite Et.
  assert (load p (ids s) = Done o (ids s) []) as El by (unfold load; kexec; by rewrite Ep).
  rewrite (exec_bind _ _ _ _ _ _ (zoom_done idsL _ s _ _ _ El)).
  set (s1 := set idsL (ids s) s).
  assert (exists out, print_identity o s1 = Done tt s1 out) as [out Eo].
  { destruct Wo as (_ & [n En] & _). unfold print_identity, string_in. rewrite En. simpl.
    by eexists. }
  rewrite (exec_bind _ _ _ _ _ _ Eo).
  set (k2 := Kll (delete p (heap (ids s))) (my_id_list (ids s)) (kll_cache (ids s))).
  assert (free p (ids s) = Done tt k2 []) as Ef by (unfold free; kexec; by rewrite Ep).
  rewrite (exec_bind _ _ _ _ _ _ (zoom_done idsL _ s1 _ _ _ Ef)). simpl.
  eexists _, _. split; [reflexivity|]. split; simpl; [|done|done|done].
  split; simpl; [apply W|]. intros b Hb. rewrite lookup_delete_ne by congruence. by apply W.
Qed.

(** Every other step of the thread keeps the type and goes right. *)
Lemma thread_typed s w :
  typed s -> (at_pc (thread s) = KGet -> entries (my_id_list (ids s)) = []) ->
  steps_to (kthread_step false w s).
Proof.
  intros T Em. destruct (at_pc (thread s)) eqn:E; [by apply alloc_typed| | | | |by apply get_typed; auto
    | |by apply print_typed|]; clear Em;
    unfold kthread_step; rewrite E; pose proof (t_temp _ T) as O; rewrite E in O; simpl in O.
  - simpl. eexists _, _. split; [reflexivity|]. by apply typed_moves.
  - destruct (should_stop (thread s)); [by apply steps_goto|].
    simpl. eexists _, _. split; [reflexivity|]. by apply typed_moves.
  - destruct (runnable (thread s)); [by apply steps_goto|done].
  - destruct (should_stop (thread s)); simpl; (eexists _, _; split; [reflexivity|]);
      by apply typed_moves.
  - destruct (w <? 0); simpl; (eexists _, _; split; [reflexivity|]); by apply typed_moves.
  - done.
Qed.

(** So does every write. *)
Lemma write_typed s m pos buf count :
  typed s -> live_task s = None -> vfs_ok pos count ->
  exists v s', runs (simple_dev_write true buf count)
    (set fileL (Dev (user_input (file s)) pos m) s) v s' /\ typed s'.
Proof.
  intros [W I G O] L V. set (s1 := set fileL _ s).
  assert (dev18_wf s1) as W1 by (by split).
  destruct (write18_runs s1 buf count W1 V) as (v & s' & R & [W' I' _] & (Eg & Kp & Ep & Et) & _).
  exists v, s'. split; [done|]. split; [done|done|by rewrite Eg|].
  rewrite Ep, Et. by apply (temp_ok_keeps _ (ids s1)).
Qed.

(** And what misc_init and misc_exit do. *)
Lemma create_typed s nm i :
  typed s -> (nm, i) ∈ init_names ->
  exists v s', runs (identity_create (cstring nm) i) s v s' /\ typed s'.
Proof.
  intros [W I G O] In.
  assert (exists n, strlen (cstring nm) = Some n /\ (n < 20)%nat /\ int_range i) as (n & En & Hn & R).
  { unfold init_names in In. repeat (apply elem_of_cons in In as [[= -> ->]|In];
      [eexists; split; [reflexivity|]; split; [lia|unfold int_range; lia]|]).
    by apply elem_of_nil in In. }
  destruct (create_keeps (ids s) (cstring nm) n i W En Hn R) as (v & k & E & Wk & Kp & _).
  exists v, (set idsL k s). split; [exists []; by apply (zoom_done idsL)|].
  split; simpl; [done..|]. by apply (temp_ok_keeps _ (ids s)).
Qed.

Lemma get_runs s o s' : typed s -> runs (identity_get false) s o s' -> s' = s.
Proof.
  intros [W _ _ _] [out E]. rewrite identity_get_strict in E by done.
  destruct (entries _); [by injection E|done].
Qed.

Lemma destroy_exec s i :
  typed s ->
  if decide (i ∈ id <$> contents (ids s))
  then identity_destroy false i s = Undef UseAfterFree
  else identity_destroy false i s = Done tt s [].
Proof.
  intros [W _ _ _]. pose proof (identity_destroy_strict_exec (ids s) i W) as E.
  pose proof (with_id_nil (ids s) i W) as [N1 N2].
  unfold identity_destroy, zoom. simpl. rewrite E. case_decide as D.
  - destruct (with_id (ids s) i); [|done].
    apply list_elem_of_fmap in D as (o & -> & Ho). by destruct (N1 eq_refl o Ho).
  - rewrite N2; [by destruct s|]. intros o Ho Ei. apply D, list_elem_of_fmap. by exists o.
Qed.

Lemma destroy_runs s i s' : typed s -> runs (identity_destroy false i) s tt s' -> s' = s.
Proof.
  intros T [out E]. pose proof (destroy_exec s i T) as X. case_decide; rewrite X in E; [done|].
  by injection E.
Qed.

Lemma stop_typed s :
  typed s -> live_task s = None -> exists s', runs kthread_stop s tt s' /\ typed s'.
Proof.
  intros T L. eexists. split; [exists []; unfold kthread_stop; kexec; rewrite L; reflexivity|].
  apply typed_moves; [done|]. apply T.
Qed.

Lemma typed_step s s' : typed s -> dstep s s' -> typed s'.
Proof.
  intros T [w out E|m pos buf count v s1 L V -> R|nm i v In R|o R|i R|L R].
  - assert (at_pc (thread s) = KGet -> entries (my_id_list (ids s)) = []) as Em.
    { intros P. destruct (entries (my_id_list (ids s))) eqn:El; [done|].
      by rewrite get_stale in E by (done || by rewrite El). }
    pose proof (thread_typed s w T Em) as X. rewrite E in X. destruct X as (s2 & o2 & E2 & T2).
    by injection E2 as -> ->.
  - destruct (write_typed s m pos buf count T L V) as (v2 & s2 & R2 & T2).
    by destruct (runs_det _ _ _ _ _ _ R R2) as [_ ->].
  - destruct (create_typed s nm i T In) as (v2 & s2 & R2 & T2).
    by destruct (runs_det _ _ _ _ _ _ R R2) as [_ ->].
  - by rewrite (get_runs s o s' T R).
  - by rewrite (destroy_runs s i s' T R).
  - destruct (stop_typed s T L) as (s2 & R2 & T2).
    by destruct (runs_det _ _ _ _ _ _ R R2) as [_ ->].
Qed.
End TypedFacts.

(** ** Theorems *)

Section TypedTheorems.
Context `{KListOk Z} `{ObjAllocOk} `{UserMemOk} `{ErrPtrOk}.
Implicit Types s : dev18.

End TypedTheorems.

(** ** Witnesses *)

Definition fresh18 : @dev18 seq_klist map_umem :=
  Dev18 no_ids (Identity (replicate 20 x00) 0 false) (Dev (replicate 4096 x00) 0 (mapped 1000 []))
    0 64 (Task KAlloc None true false).

