(* ===== verification/Writers18.v ===== *)
(** * Writers of the misc device that run at the same time (Task_18)

    MiscDev18.v runs the write handler as one step. The module has no lock, so
    on several processors writes interleave: here the handler is cut at every
    access to the buffer, the counter, the heap and the list, byte by byte, and
    any number of writers take turns. A writer alone does what the handler
    does; writers together mix up names and numbers, but never run into
    undefined behaviour. *)

From Stdlib Require Import ZArith Lia Strings.Byte.
From stdpp Require Import base strings gmap sets numbers list.
From S2P Require Import Prelude.
From S2P Require Import CString.
From S2P Require Import Kernel.
From S2P Require Import KernelInst.
From S2P Require Import MiscDev.
From S2P Require Import Identity.
From S2P Require Import MiscDev18.

(** ** One writer *)

(** Where a call of simple_dev_write stands. *)
Inductive wpc :=
| WCopy (pos : nat) (bs : list byte) (ok : bool)   (* copy_from_user, what is left of it *)
| WArg                                             (* the argument id_count *)
| WLen (i : Z) (k : nat)                           (* strlen(name), at byte k *)
| WAlloc (i : Z)                                   (* kmalloc *)
| WCpy (i a : Z) (k : nat)                         (* strcpy(temp_id->name, name), at byte k *)
| WFill (i a : Z)                                  (* temp_id->id, temp_id->busy *)
| WLink (a : Z)                                    (* list_add *)
| WInc                                             (* id_count++, the read *)
| WStore (n : Z)                                   (* and the store *)
| WWake                                            (* wake_up_process *)
| WEnd.

Section Writer.
Context `{KList Z} `{ObjAlloc} `{UserMem} `{ErrPtr}.

Definition inputL : lens dev18 (list byte) := lens_compose fileL user_inputL.

(** A byte of user_input, read and stored. *)
Definition load_input (k : nat) : M dev18 byte :=
  b ← kread inputL;
  match b !! k with Some c => mret c | None => undef OutOfBounds end.

Definition store_input (k : nat) (c : byte) : M dev18 unit :=
  b ← kread inputL;
  if decide (k < length b)%nat then kwrite inputL (<[k := c]> b) else undef OutOfBounds.

(** A byte of the new object's name. *)
Definition store_name (a : Z) (k : nat) (c : byte) : M dev18 unit :=
  o ← zoom idsL (load a);
  if decide (k < length (name o))%nat
  then zoom idsL (update a (fun o => Identity (<[k := c]> (name o)) (id o) (busy o)))
  else undef OutOfBounds.

(** One access; [None]: the call has returned. *)
Definition writer_step (w : wpc) : option (M dev18 wpc) :=
  match w with
  | WCopy _ [] ok => Some (mret (if ok then WArg else WEnd))
  | WCopy pos (c :: bs) ok => Some (store_input pos c ;; mret (WCopy (S pos) bs ok))
  | WArg => Some (n ← kread id_countL; mret (WLen (s32 n) 0))
  | WLen i k => Some (c ← load_input k;
      mret (if decide (c = x00)
            then if 20 <? u64 (Z.of_nat k + 1) then WInc else WAlloc i
            else WLen i (S k)))
  | WAlloc i => Some (p ← zoom idsL (alloc Kmalloc);
      mret (match p with None => WInc | Some a => WCpy i a 0 end))
  | WCpy i a k => Some (c ← load_input k;
      store_name a k c ;;
      mret (if decide (c = x00) then WFill i a else WCpy i a (S k)))
  | WFill i a => Some (
      zoom idsL (update a (fun o => Identity (name o) i (busy o))) ;;
      zoom idsL (update a (fun o => Identity (name o) (id o) false)) ;;
      mret (WLink a))
  | WLink a => Some (
      zoom idsL (l ← kread listL; kwrite listL (list_add a l)) ;;
      mret WInc)
  | WInc => Some (n ← kread id_countL; mret (WStore n))
  | WStore n => Some (kwrite id_countL (u64 (n + 1)) ;; mret WWake)
  | WWake => Some (wake_up_process ;; mret WEnd)
  | WEnd => None
  end.

(** The start of a call with the file at [pos] and the process's memory [m]:
    what it will copy, and what it will return. *)
Definition writer_start (m : umem) (pos buf count : Z) : wpc * Z :=
  if 19 <=? pos then (WEnd, 0) else
  let count := if 19 <? u64 (pos + count) then u64 (19 - pos) else count in
  let c := user_bytes m buf (Z.to_nat count) in
  if negb (Z.of_nat c.2 =? 0) then (WCopy (Z.to_nat pos) c.1 false, - EFAULT)
  else (WCopy (Z.to_nat pos) c.1 true, s64 count).

(** ** A writer alone, and writers together *)

Definition solo : wpc * dev18 -> wpc * dev18 -> Prop := turn writer_step.

Record wstate := WState { dev : dev18; writers : gmap nat wpc }.

Inductive wmove : wstate -> wstate -> Prop :=
| w_open d ws t m pos buf count :
    ws !! t = None -> vfs_ok pos count ->
    wmove (WState d ws) (WState d (<[t := (writer_start m pos buf count).1]> ws))
| w_step d ws t w w' d' :
    ws !! t = Some w -> solo (w, d) (w', d') ->
    wmove (WState d ws) (WState d' (<[t := w']> ws))
| w_close d ws t :
    ws !! t = Some WEnd -> wmove (WState d ws) (WState d (delete t ws)).

Definition no_writers (x : wstate) : Prop := dev18_wf (dev x) /\ writers x = ∅.

(** No writer's next access is undefined. *)
Definition writers_good (x : wstate) : Prop :=
  forall t w m, writers x !! t = Some w -> writer_step w = Some m ->
    exists w' d' out, m (dev x) = Done w' d' out.

(** ** The invariant *)

(** The object a writer has allocated and not yet put on the list. *)
Definition owned (w : wpc) : option Z :=
  match w with
  | WCpy _ a _ | WFill _ a | WLink a => Some a
  | _ => None
  end.

Definition private (d : dev18) (a : Z) (P : identity -> Prop) : Prop :=
  (a ∉ entries (my_id_list (ids d))) /\
  exists o, heap (ids d) !! a = Some o /\ length (name o) = 20%nat /\ P o.

Definition wpc_ok (d : dev18) (w : wpc) : Prop :=
  match w with
  | WCopy pos bs _ => (pos + length bs <= 19)%nat
  | WLen i k => int_range i /\ (k <= 19)%nat
  | WAlloc i => int_range i
  | WCpy i a k => int_range i /\ (k <= 19)%nat /\ private d a (fun _ => True)
  | WFill i a => int_range i /\ private d a (fun o => is_Some (strlen (name o)))
  | WLink a => private d a identity_wf
  | _ => True
  end.

(** What a step of a writer leaves to the others. *)
Record wframe (d d' : dev18) (w w' : wpc) : Prop := WFrame {
  wf_heap : forall a o, heap (ids d) !! a = Some o -> owned w <> Some a ->
    heap (ids d') !! a = Some o;
  wf_list : forall a, a ∈ entries (my_id_list (ids d')) ->
    a ∈ entries (my_id_list (ids d)) \/ owned w = Some a;
  wf_owned : forall a, owned w' = Some a -> owned w = Some a \/ heap (ids d) !! a = None;
}.

Record winv (x : wstate) : Prop := {
  wi_dev : dev18_wf (dev x);
  wi_pc : forall t w, writers x !! t = Some w -> wpc_ok (dev x) w;
  wi_own : forall t t' w w' a, writers x !! t = Some w -> writers x !! t' = Some w' ->
    owned w = Some a -> owned w' = Some a -> t = t';
}.
End Writer.

(** ** Lemmas *)

Section WriterFacts.
Context `{KListOk Z} `{ObjAllocOk} `{UserMemOk} `{ErrPtrOk}.
Implicit Types d : dev18.

Lemma input_wf_lookup b k : input_wf b -> (k <= 19)%nat ->
  exists c, b !! k = Some c /\ (c <> x00 -> (k < 19)%nat).
Proof.
  intros [L D] B. destruct (lookup_lt_is_Some_2 b k) as [c E]; [lia|]. exists c. split; [done|].
  intros N. destruct (decide (k = 19%nat)) as [->|]; [|lia]. destruct N.
  assert (b !! (19 + 0)%nat = Some x00) as X by by rewrite <- lookup_drop, D.
  simpl in X. congruence.
Qed.

Lemma input_wf_insert b k c : input_wf b -> (k < 19)%nat -> input_wf (<[k := c]> b).
Proof.
  intros [L D] B. split; [by rewrite length_insert|]. rewrite <- D. apply list_eq. intros i.
  rewrite !lookup_drop. apply list_lookup_insert_ne. lia.
Qed.

(** Storing to an object that is not on the list. *)
Lemma private_update d a o f (P Q : identity -> Prop) :
  dev18_wf d -> private d a P -> heap (ids d) !! a = Some o ->
  length (name (f o)) = 20%nat -> Q (f o) ->
  let d' := set idsL (Kll (<[a := f o]> (heap (ids d))) (my_id_list (ids d)) (kll_cache (ids d))) d in
  dev18_wf d' /\ private d' a Q.
Proof.
  intros [[N L] I T] [Na _] E Lf Qf d'. split; [split; [split|done|done]|].
  - done.
  - intros b Hb. simpl in *. rewrite lookup_insert_ne by congruence. by apply L.
  - split; [done|]. exists (f o). simpl. by rewrite lookup_insert_eq.
Qed.

Lemma frame_same d d' w w' :
  ids d' = ids d -> owned w' = owned w \/ owned w' = None -> wframe d d' w w'.
Proof.
  intros E O. split; [by rewrite E|rewrite E; by left|]. intros a Ea.
  destruct O as [O|O]; [left; congruence|congruence].
Qed.

Lemma frame_update d a o w w' :
  owned w = Some a -> owned w' = Some a ->
  wframe d (set idsL (Kll (<[a := o]> (heap (ids d))) (my_id_list (ids d)) (kll_cache (ids d))) d) w w'.
Proof.
  intros O O'. split; simpl.
  - intros b x Eb Nb. rewrite lookup_insert_ne; [done|congruence].
  - by left.
  - intros b Eb. left. congruence.
Qed.

Lemma exec_load_input {B} k c d (f : byte -> M dev18 B) :
  user_input (file d) !! k = Some c -> (load_input k ≫= f) d = f c d.
Proof.
  intros E. rewrite (exec_bind _ _ _ c d []); [apply tell_nil|]. unfold load_input.
  rewrite exec_bind_read. simpl. by rewrite E.
Qed.

Lemma exec_store_input {B} k c d (f : unit -> M dev18 B) :
  (k < length (user_input (file d)))%nat ->
  (store_input k c ≫= f) d = f tt (set inputL (<[k := c]> (user_input (file d))) d).
Proof.
  intros L. rewrite (exec_bind _ _ _ tt (set inputL (<[k := c]> (user_input (file d))) d) []).
  { apply tell_nil. }
  unfold store_input. rewrite exec_bind_read. simpl. by rewrite decide_True.
Qed.

Lemma exec_zoom_update {B} a o g d (f : unit -> M dev18 B) :
  heap (ids d) !! a = Some o ->
  (zoom idsL (update a g) ≫= f) d =
    f tt (set idsL (Kll (<[a := g o]> (heap (ids d))) (my_id_list (ids d)) (kll_cache (ids d))) d).
Proof.
  intros E. set (k := Kll _ _ _). rewrite (exec_bind _ _ _ tt (set idsL k d) []); [apply tell_nil|].
  apply zoom_done. simpl. unfold update. rewrite exec_bind_read. simpl. by rewrite E.
Qed.

Lemma exec_store_name {B} a k c o d (f : unit -> M dev18 B) :
  heap (ids d) !! a = Some o -> (k < length (name o))%nat ->
  (store_name a k c ≫= f) d =
    f tt (set idsL (Kll (<[a := Identity (<[k := c]> (name o)) (id o) (busy o)]> (heap (ids d)))
      (my_id_list (ids d)) (kll_cache (ids d))) d).
Proof.
  intros E L. unfold store_name. rewrite exec_bind_assoc.
  rewrite (exec_bind _ _ _ o d []), tell_nil.
  2: { unfold zoom, load. rewrite exec_bind_read. simpl. rewrite E. by destruct d. }
  rewrite decide_True by done. by rewrite (exec_zoom_update a o).
Qed.

(** What allocating does, whichever way it goes. *)
Lemma alloc_exec (k : kll) :
  alloc Kmalloc k = match obj_alloc Kmalloc (heap k) with
    | Some (a, o) => Done (Some a) (Kll (<[a := o]> (heap k)) (my_id_list k) (kll_cache k)) []
    | None => Done None k []
    end.
Proof. unfold alloc. kexec. by destruct (obj_alloc Kmalloc (heap k)) as [[a o]|]. Qed.

Definition woken (t : task) : task := Task (at_pc t) (temp1 t) true (should_stop t).

Lemma exec_wake {B} d (f : unit -> M dev18 B) :
  live_task d = None -> (wake_up_process ≫= f) d = f tt (set threadL (woken (thread d)) d).
Proof.
  intros T. rewrite (exec_bind _ _ _ tt (set threadL (woken (thread d)) d) []); [apply tell_nil|].
  unfold wake_up_process. by rewrite exec_bind_get, T.
Qed.

Definition step_good (d : dev18) (w : wpc) : Prop :=
  match writer_step w with
  | None => True
  | Some m => exists w' d' out, m d = Done w' d' out /\ dev18_wf d' /\ wpc_ok d' w' /\
      wframe d d' w w'
  end.

Lemma copy_good d pos bs ok : dev18_wf d -> wpc_ok d (WCopy pos bs ok) -> step_good d (WCopy pos bs ok).
Proof.
  intros W P. destruct bs as [|c bs]; simpl in *.
  - eexists _, d, _. split; [reflexivity|]. split; [done|]. split; [by destruct ok|].
    apply frame_same; [done|]. right. by destruct ok.
  - unfold step_good. simpl. rewrite exec_store_input by (destruct W as [_ [-> _] _]; lia).
    eexists _, _, _. split; [reflexivity|]. split; [|split].
    + destruct W as [Wk Wi Wt]. split; [done| |done]. apply input_wf_insert; [done|lia].
    + simpl. lia.
    + apply frame_same; [done|by left].
Qed.

Lemma len_good d i k : dev18_wf d -> wpc_ok d (WLen i k) -> step_good d (WLen i k).
Proof.
  intros W [R B]. destruct (input_wf_lookup _ k (wf_input _ W) B) as (c & E & L).
  unfold step_good. simpl. rewrite (exec_load_input k c) by done.
  eexists _, d, _. split; [reflexivity|]. split; [done|].
  destruct (decide (c = x00)) as [->|N].
  - destruct (20 <? _); (split; [done|]); apply frame_same; try done; by left.
  - split; [split; [done|specialize (L N); lia]|]. apply frame_same; [done|by left].
Qed.

Lemma walloc_good d i : dev18_wf d -> wpc_ok d (WAlloc i) -> step_good d (WAlloc i).
Proof.
  intros W R. unfold step_good. simpl. pose proof (alloc_exec (ids d)) as E.
  destruct (obj_alloc Kmalloc (heap (ids d))) as [[a o]|] eqn:Al.
  - set (k := Kll _ _ _) in E.
    rewrite (exec_bind _ _ _ _ _ _ (zoom_done idsL _ d _ _ _ E)), tell_nil.
    eexists _, _, _. split; [reflexivity|]. pose proof (obj_alloc_fresh _ _ _ _ Al) as Fr.
    assert (a ∉ entries (my_id_list (ids d))) as Na.
    { intros Ha. destruct (wf_live_is_Some _ a (wf_ids _ W) Ha). congruence. }
    destruct W as [[N L] Wi Wt]. split; [split; [split|done|done]|split].
    + done.
    + intros b Hb. simpl in *. rewrite lookup_insert_ne by congruence. by apply L.
    + split; [done|]. split; [lia|]. split; [done|]. exists o. simpl.
      rewrite lookup_insert_eq. by split; [|split; [apply (obj_alloc_size _ _ _ _ Al)|]].
    + split; simpl; [|by left|].
      * intros b x Eb _. rewrite lookup_insert_ne by congruence. done.
      * intros b [= <-]. by right.
  - rewrite (exec_bind _ _ _ _ _ _ (zoom_done idsL _ d _ _ _ E)), tell_nil.
    eexists _, _, _. split; [reflexivity|]. split; [destruct W; by split|]. split; [done|].
    apply frame_same; [done|by left].
Qed.

Lemma cpy_good d i a k : dev18_wf d -> wpc_ok d (WCpy i a k) -> step_good d (WCpy i a k).
Proof.
  intros W (R & B & P). destruct (input_wf_lookup _ k (wf_input _ W) B) as (c & E & L).
  pose proof P as (_ & o & Eo & Lo & _).
  unfold step_good. simpl. rewrite (exec_load_input k c) by done.
  rewrite (exec_store_name a k c o) by (done || lia).
  eexists _, _, _. split; [reflexivity|].
  set (f := fun o : identity => Identity (<[k := c]> (name o)) (id o) (busy o)).
  change (Identity (<[k := c]> (name o)) (id o) (busy o)) with (f o).
  assert (length (name (f o)) = 20%nat) as Lf by (simpl; by rewrite length_insert).
  destruct (decide (c = x00)) as [->|N].
  - destruct (private_update d a o f _ (fun o => is_Some (strlen (name o))) W P Eo Lf)
      as [W' P'].
    { destruct (strlen_is_Some (name (f o)) k) as (n & -> & _); [|by eexists].
      simpl. apply list_lookup_insert_eq. lia. }
    split; [exact W'|]. split; [done|]. by apply frame_update.
  - destruct (private_update d a o f _ (fun _ => True) W P Eo Lf I) as [W' P'].
    split; [exact W'|]. split; [split; [done|split; [specialize (L N); lia|done]]|].
    by apply frame_update.
Qed.

Lemma fill_good d i a : dev18_wf d -> wpc_ok d (WFill i a) -> step_good d (WFill i a).
Proof.
  intros W (R & P). pose proof P as (Na & o & Eo & Lo & So). unfold step_good. simpl.
  rewrite (exec_zoom_update a o) by done.
  set (f := fun o : identity => Identity (name o) i (busy o)).
  set (g := fun o : identity => Identity (name o) (id o) false).
  destruct (private_update d a o f _ (fun o => is_Some (strlen (name o)) /\ id o = i) W P Eo Lo)
    as [W1 P1]; [done|].
  set (d1 := set idsL _ d) in *. change (set idsL _ d) with d1.
  assert (heap (ids d1) !! a = Some (f o)) as E1 by apply lookup_insert_eq.
  rewrite (exec_zoom_update a (f o)) by done.
  destruct (private_update d1 a (f o) g _ identity_wf W1 P1 E1 Lo) as [W2 P2]; [by split_and!|].
  eexists _, _, _. split; [reflexivity|]. split; [exact W2|]. split; [exact P2|].
  split; simpl.
  - intros b x Eb Nb. rewrite !lookup_insert_ne by congruence. done.
  - by left.
  - by left.
Qed.

Lemma link_good d a : dev18_wf d -> wpc_ok d (WLink a) -> step_good d (WLink a).
Proof.
  intros W (Na & o & Eo & _ & Wo). unfold step_good. simpl.
  set (k := Kll (heap (ids d)) (list_add a (my_id_list (ids d))) (kll_cache (ids d))).
  rewrite (exec_bind _ _ _ tt (set idsL k d) []), tell_nil by (by apply zoom_done).
  eexists _, _, _. split; [reflexivity|].
  assert (entries (my_id_list k) = a :: entries (my_id_list (ids d))) as El by by apply entries_add.
  destruct (created_list_wf (ids d) k a o (wf_ids _ W)) as [W' _]; [by rewrite insert_id|done..|].
  split; [destruct W; by split|]. split; [done|]. split; simpl; [done| |done].
  intros b. rewrite entries_add by done. intros [->|Hb]%elem_of_cons; [by right|by left].
Qed.

(** Every step of a writer that stands where it can. *)
Lemma writer_step_good d w : dev18_wf d -> wpc_ok d w -> step_good d w.
Proof.
  intros W P. destruct w.
  - by apply copy_good.
  - eexists _, d, _. split; [reflexivity|]. split; [done|].
    split; [split; [apply s32_range|lia]|]. apply frame_same; [done|by left].
  - by apply len_good.
  - by apply walloc_good.
  - by apply cpy_good.
  - by apply fill_good.
  - by apply link_good.
  - eexists _, d, _. split; [reflexivity|]. split; [done|]. split; [done|].
    apply frame_same; [done|by left].
  - eexists _, _, _. split; [reflexivity|]. destruct W. split; [by split|]. split; [done|].
    apply frame_same; [done|by left].
  - destruct W as [Wk Wi Wt]. unfold step_good. simpl.
    rewrite exec_wake by done.
    eexists _, _, _. split; [reflexivity|]. split; [by split|]. split; [done|].
    apply frame_same; [done|by left].
  - done.
Qed.

(** The other writers stand where they can, still. *)
Lemma wpc_ok_frame d d' w w' v :
  wframe d d' w w' -> (forall a, owned v = Some a -> owned w <> Some a) ->
  wpc_ok d v -> wpc_ok d' v.
Proof.
  intros [Fh Fl _] D.
  assert (forall a P, owned v = Some a -> private d a P -> private d' a P) as Pr.
  { intros a P Ov (Na & o & Eo & X). split.
    - intros Ha. destruct (Fl a Ha) as [?|O]; [done|]. by apply (D a Ov).
    - exists o. split; [apply Fh; [done|by apply D]|done]. }
  destruct v; simpl; try done; intros P.
  - destruct P as (? & ? & ?). split_and!; try done. by apply Pr.
  - destruct P as (? & ?). split; [done|by apply Pr].
  - by apply Pr.
Qed.

Lemma owned_live d w a : wpc_ok d w -> owned w = Some a -> is_Some (heap (ids d) !! a).
Proof.
  intros P O. destruct w; try done; injection O as ->; simpl in P.
  - destruct P as (_ & _ & _ & o & E & _). by exists o.
  - destruct P as (_ & _ & o & E & _). by exists o.
  - destruct P as (_ & o & E & _). by exists o.
Qed.

Lemma start_ok m pos buf count d : vfs_ok pos count -> wpc_ok d (writer_start m pos buf count).1.
Proof.
  intros V. pose proof V as (P & C & B). unfold writer_start. zcase; [done|].
  rewrite clamp_count by (done || lia). set (n := Z.min _ _).
  assert (length (user_bytes m buf (Z.to_nat n)).1 = Z.to_nat n) as L by apply user_bytes_length.
  destruct (negb _); simpl; rewrite L; lia.
Qed.

Lemma start_complete m pos buf count bs :
  0 <= pos -> 0 <= count -> pos < 19 -> pos + count <= 19 ->
  uread m buf (Z.to_nat count) = Some bs ->
  writer_start m pos buf count = (WCopy (Z.to_nat pos) bs true, count) /\
  length bs = Z.to_nat count.
Proof.
  intros P C L B U. pose proof (user_bytes_complete _ _ _ _ U) as E.
  pose proof (user_bytes_length m buf (Z.to_nat count)) as Lb. rewrite E in Lb.
  split; [|done]. unfold writer_start. rewrite (proj2 (Z.leb_gt _ _)) by lia.
  rewrite clamp_count, Z.min_l, E by (unfold vfs_ok; lia). simpl. by cint.
Qed.

Lemma start_owned m pos buf count : owned (writer_start m pos buf count).1 = None.
Proof. unfold writer_start. zcase; [done|]. by destruct (negb _). Qed.

Lemma winv_step x x' : winv x -> wmove x x' -> winv x'.
Proof.
  intros [W P O] St. destruct St as [d ws t m pos buf count N V|d ws t w w' d' E So|d ws t E];
    simpl in *.
  - split; simpl; [done| |].
    + intros u v. rewrite lookup_insert. case_decide; [|apply P]. intros [= <-]. by apply start_ok.
    + intros u u' v v' a. rewrite !lookup_insert. pose proof (start_owned m pos buf count) as So.
      case_decide; [intros [= <-] _ X; congruence|].
      case_decide; [intros _ [= <-] _ X; congruence|]. apply O.
  - inversion So as [w0 m d0 w0' d0' out Ew Em]; subst.
    pose proof (writer_step_good d w W (P _ _ E)) as G. unfold step_good in G. rewrite Ew in G.
    destruct G as (w1 & e & out1 & Em' & We & Pe & Fr). rewrite Em in Em'. simplify_eq.
    split; simpl; [done| |].
    + intros u v. rewrite lookup_insert. case_decide as D; [by intros [= <-]|]. intros Ev.
      apply (wpc_ok_frame _ _ _ _ _ Fr); [|by apply (P u)]. intros a Ov Ow. by apply D, (O t u w v a).
    + assert (forall u v a, t <> u -> ws !! u = Some v -> owned w1 = Some a -> owned v <> Some a)
        as X.
      { intros u v a D Ev Ow Ov. destruct (wf_owned _ _ _ _ Fr a Ow) as [Oa|Na].
        - by apply D, (O t u w v a).
        - destruct (owned_live d v a (P u v Ev) Ov). congruence. }
      intros u u' v v' a. rewrite !lookup_insert.
      repeat case_decide; subst; intros; simplify_eq; try done.
      * exfalso. eapply (X u'); eassumption.
      * exfalso. eapply (X u); eassumption.
      * by apply (O u u' v v' a).
  - split; simpl; [done| |].
    + intros u v [_ Ev]%lookup_delete_Some. by apply (P u).
    + intros u u' v v' a [_ Ev]%lookup_delete_Some [_ Ev']%lookup_delete_Some. by apply O.
Qed.

Lemma winv_good x : winv x -> writers_good x.
Proof.
  intros [W P O] t w m E Ew. pose proof (writer_step_good (dev x) w W (P t w E)) as G.
  unfold step_good in G. rewrite Ew in G. destruct G as (w' & d' & out & Em & _). eauto.
Qed.

Lemma winv_reachable x : reachable no_writers wmove x -> winv x.
Proof.
  revert x. apply reachable_inv.
  - intros [d ws] [W E]. simpl in *. subst ws.
    split; simpl; [done|..]; intros t; intros; by rewrite lookup_empty in *.
  - apply winv_step.
Qed.
End WriterFacts.

(** ** A writer alone *)

Section Alone.
Context `{KListOk Z} `{ObjAllocOk} `{UserMemOk} `{ErrPtrOk}.
Implicit Types d : dev18.

(** One byte after the other is the bytes at once. *)
Lemma splice_cons (k : nat) c bs b :
  (k < length b)%nat ->
  splice (Z.of_nat k) (c :: bs) b = splice (Z.of_nat (S k)) bs (<[k := c]> b).
Proof.
  intros L. unfold splice. rewrite length_insert. simpl length.
  destruct (decide (0 <= Z.of_nat k /\ _)) as [D|D]; [rewrite decide_True by lia|by rewrite decide_False by lia].
  f_equal. rewrite !Nat2Z.id, (take_S_r _ _ c) by by apply list_lookup_insert_eq.
  rewrite take_insert_ge, drop_insert_lt by lia. rewrite <- app_assoc. simpl. do 3 f_equal.
  f_equal. lia.
Qed.

Lemma solo_copy pos bs ok d b' :
  splice (Z.of_nat pos) bs (user_input (file d)) = Some b' ->
  rtc solo (WCopy pos bs ok, d) (if ok then WArg else WEnd, set inputL b' d).
Proof.
  revert pos d. induction bs as [|c bs IH]; intros pos d E.
  - unfold splice in E. case_decide; [|done]. simpl in E. rewrite Nat.add_0_r, take_drop in E.
    injection E as <-. eapply (turn_once writer_step _ _ _ _ _ []); [reflexivity|].
    unfold mret, M_ret. f_equal. by destruct d as [? ? []].
  - assert (pos < length (user_input (file d)))%nat as L.
    { unfold splice in E. case_decide; [|done]. simpl in *. lia. }
    rewrite splice_cons in E by done. etransitivity.
    + eapply (turn_once writer_step); [reflexivity|]. rewrite exec_store_input by done. reflexivity.
    + exact (IH (S pos) (set inputL (<[pos := c]> (user_input (file d))) d) E).
Qed.

(** What is left of the string at byte [k]. *)
Lemma strlen_step b k l :
  strlen (drop k b) = Some l ->
  exists c, b !! k = Some c /\
    match l with
    | O => c = x00
    | S l => c <> x00 /\ strlen (drop (S k) b) = Some l
    end.
Proof.
  intros E. pose proof (strlen_lt _ _ E) as Lt. rewrite length_drop in Lt.
  destruct (lookup_lt_is_Some_2 b k) as [c Ec]; [lia|]. exists c. split; [done|].
  rewrite (drop_S _ _ _ Ec) in E. unfold strlen in E; fold strlen in E. case_decide; [by injection E as <-|].
  by apply fmap_Some in E as (m & Em & ->).
Qed.

Lemma solo_strlen i k l d :
  strlen (drop k (user_input (file d))) = Some l -> (k + l <= 19)%nat ->
  rtc solo (WLen i k, d) (WAlloc i, d).
Proof.
  revert k. induction l as [|l IH]; intros k E B; apply strlen_step in E as (c & Ec & X).
  - subst c. eapply (turn_once writer_step _ _ _ _ _ []); [reflexivity|]. rewrite (exec_load_input k x00) by done.
    rewrite decide_True, u64_id by (done || unfold two64; lia).
    rewrite (proj2 (Z.ltb_ge _ _)) by lia. done.
  - destruct X as [N E']. etransitivity; [|apply (IH (S k) E'); lia].
    eapply (turn_once writer_step _ _ _ _ _ []); [reflexivity|]. rewrite (exec_load_input k c) by done.
    by rewrite decide_False.
Qed.

(** The device with an object in its heap. *)
Definition with_object (a : Z) (o : identity) (d : dev18) : dev18 :=
  set idsL (Kll (<[a := o]> (heap (ids d))) (my_id_list (ids d)) (kll_cache (ids d))) d.

Lemma with_object_twice a o o' d : with_object a o' (with_object a o d) = with_object a o' d.
Proof. unfold with_object. simpl. by rewrite insert_insert_eq. Qed.

Definition renamed (nm : list byte) (o : identity) : identity := Identity nm (id o) (busy o).

Lemma solo_strcpy i a k l o d :
  heap (ids d) !! a = Some o -> (k + l < length (name o))%nat ->
  strlen (drop k (user_input (file d))) = Some l ->
  rtc solo (WCpy i a k, d) (WFill i a, with_object a (renamed
    (take k (name o) ++ take l (drop k (user_input (file d))) ++ x00 :: drop (S (k + l)) (name o)) o) d).
Proof.
  revert k o d. induction l as [|l IH]; intros k o d Eo B E; apply strlen_step in E as (c & Ec & X).
  - subst c. eapply (turn_once writer_step); [reflexivity|]. rewrite (exec_load_input k x00) by done.
    rewrite (exec_store_name a k x00 o) by (done || lia). rewrite decide_True by done.
    rewrite insert_take_drop, Nat.add_0_r by lia. reflexivity.
  - destruct X as [N E']. set (o1 := renamed (<[k := c]> (name o)) o). etransitivity.
    { eapply (turn_once writer_step _ _ _ (WCpy i a (S k)) (with_object a o1 d)); [reflexivity|].
      rewrite (exec_load_input k c) by done.
      rewrite (exec_store_name a k c o) by (done || lia). by rewrite decide_False. }
    replace (renamed _ o) with (renamed (take (S k) (name o1) ++
      take l (drop (S k) (user_input (file d))) ++ x00 :: drop (S (S k + l)) (name o1)) o1).
    + assert (S k + l < length (name o1))%nat as B1 by (simpl; rewrite length_insert; lia).
      pose proof (IH (S k) o1 (with_object a o1 d) (lookup_insert_eq _ _ _) B1 E') as R.
      by rewrite with_object_twice in R.
    + unfold renamed. simpl. rewrite (take_S_r _ _ c) by (apply list_lookup_insert_eq; lia).
      rewrite take_insert_ge, drop_insert_lt, (drop_S _ _ _ Ec) by lia.
      rewrite <- app_assoc. simpl. do 6 f_equal. lia.
Qed.

(** identity_create, cut into accesses. *)
Lemma solo_create i d :
  dev18_wf d ->
  exists e k, Identity.identity_create Kmalloc (user_input (file d)) i (ids d) = Done e k [] /\
    rtc solo (WLen i 0, d) (WInc, set idsL k d).
Proof.
  intros W. destruct (input_wf_string _ (wf_input _ W)) as (n & En & Hn).
  rewrite (identity_create_exact _ _ _ n) by (done || unfold two64; lia).
  rewrite decide_True by lia. pose proof (alloc_exec (ids d)) as Al.
  assert (rtc solo (WLen i 0, d) (WAlloc i, d)) as R1 by (by apply (solo_strlen i 0 n); [|lia]).
  destruct (obj_alloc Kmalloc (heap (ids d))) as [[a o]|] eqn:Eo.
  2: { exists (- ENOMEM), (ids d). split; [done|]. etransitivity; [exact R1|].
       eapply (turn_once writer_step); [reflexivity|].
       by rewrite (exec_bind _ _ _ _ _ _ (zoom_done idsL _ d _ _ _ Al)). }
  eexists _, _. split; [reflexivity|]. etransitivity; [exact R1|]. etransitivity.
  { eapply (turn_once writer_step _ _ _ (WCpy i a 0) (with_object a o d)); [reflexivity|].
    by rewrite (exec_bind _ _ _ _ _ _ (zoom_done idsL _ d _ _ _ Al)). }
  pose proof (obj_alloc_size _ _ _ _ Eo) as Sz. etransitivity.
  { apply (solo_strcpy i a 0 n o (with_object a o d)); [apply lookup_insert_eq|lia|done]. }
  rewrite with_object_twice, drop_0, take_0, Nat.add_0_l. simpl app.
  set (o1 := renamed _ o). etransitivity.
  { eapply (turn_once writer_step); [reflexivity|].
    rewrite (exec_zoom_update a o1) by apply lookup_insert_eq.
    by erewrite exec_zoom_update by apply lookup_insert_eq. }
  eapply (turn_once writer_step); [reflexivity|]. simpl. rewrite !insert_insert_eq.
  erewrite exec_bind by (by apply zoom_done). reflexivity.
Qed.

Lemma solo_tail d :
  live_task d = None ->
  rtc solo (WInc, d)
    (WEnd, set threadL (woken (thread d)) (set id_countL (u64 (id_count d + 1)) d)).
Proof.
  intros T. etransitivity.
  { eapply (turn_once writer_step _ _ d); [reflexivity|]. by rewrite exec_bind_read. }
  etransitivity.
  { eapply (turn_once writer_step (WStore _)); [reflexivity|]. by rewrite exec_bind_write. }
  eapply (turn_once writer_step WWake); [reflexivity|]. by rewrite exec_wake.
Qed.

(** A write that copies [bs]: up to strlen, and to the end. *)
Lemma solo_filled pos bs d :
  dev18_wf d -> (pos + length bs <= 19)%nat ->
  exists b, splice (Z.of_nat pos) bs (user_input (file d)) = Some b /\ dev18_wf (set inputL b d) /\
    rtc solo (WCopy pos bs true, d) (WLen (s32 (id_count d)) 0, set inputL b d).
Proof.
  intros [Wk Wi Wt] L. pose proof Wi as [Li _].
  destruct (splice (Z.of_nat pos) bs (user_input (file d))) as [b|] eqn:E;
    [|by rewrite splice_spec in E by lia].
  exists b. split; [done|]. split.
  { split; [done| |done]. apply (input_wf_splice (Z.of_nat pos) bs _ _ Wi); [lia|lia|done]. }
  etransitivity; [by apply (solo_copy _ _ true)|].
  eapply (turn_once writer_step WArg _ (set inputL b d)); [reflexivity|]. by rewrite exec_bind_read.
Qed.

Lemma solo_finish i d :
  dev18_wf d -> obj_alloc Kmalloc (heap (ids d)) <> None ->
  exists d' o, rtc solo (WLen (s32 i) 0, d) (WEnd, d') /\ dev18_wf d' /\ file d' = file d /\
    contents (ids d') = o :: contents (ids d) /\ id o = s32 i /\
    string_in (name o) = string_in (user_input (file d)) /\ id_count d' = u64 (id_count d + 1).
Proof.
  intros W A. destruct (solo_create (s32 i) d W) as (e & k & E & R). destruct W as [Wk Wi Wt].
  destruct (create_from_input (ids d) (user_input (file d)) i Wk Wi)
    as (e' & k' & E' & Wk' & _ & [[]|(o & C & I & N)]); [done|].
  rewrite E in E'. simplify_eq. eexists _, o. split.
  { etransitivity; [exact R|]. by apply (solo_tail (set idsL k' d)). }
  by split; [split|].
Qed.

(** A writer's steps, among the others. *)
Lemma solo_moves w d w' d' ws t :
  rtc solo (w, d) (w', d') -> ws !! t = Some w ->
  rtc wmove (WState d ws) (WState d' (<[t := w']> ws)).
Proof.
  intros R. remember (w, d) as x eqn:Ex. remember (w', d') as y eqn:Ey.
  revert w d ws Ex. induction R as [x|x [w1 d1] y S R IH]; intros w d ws Ex E.
  - rewrite Ex in Ey. injection Ey as -> ->. by rewrite insert_id.
  - subst x. eapply rtc_l; [by eapply w_step|]. rewrite <- (insert_insert_eq ws t w' w1).
    apply (IH Ey w1 d1); [done|]. apply lookup_insert_eq.
Qed.

Lemma write18_solo s buf count :
  dev18_wf s -> vfs_ok (f_pos (file s)) count ->
  let w := writer_start (um (file s)) (f_pos (file s)) buf count in
  exists s', runs (simple_dev_write true buf count) s w.2 s' /\
    rtc solo (w.1, s) (WEnd, set (lens_compose fileL f_posL) (f_pos (file s)) s').
Proof.
  intros W V w. pose proof V as (P0 & C0 & B0). subst w.
  unfold runs, simple_dev_write, writer_start. kexec. zcase.
  { exists s. split; [kdone|]. by destruct s as [? ? []]. }
  rewrite clamp_count by (done || lia). set (n := Z.min _ _).
  assert (0 <= n <= 19 - f_pos (file s)) as Hn by lia.
  rewrite (exec_bind _ _ _ tt s []).
  2: { unfold zoom, store_const. rewrite andb_false_r. simpl. by destruct s. }
  rewrite tell_tell. simpl app. destruct (wf_input _ W) as [Li Di].
  destruct (copy_from_user_fits (lens_compose fileL umL) (lens_compose fileL user_inputL)
    (f_pos (file s)) buf n s) as (b & Eb & Lb & Sb & Er); [lia|lia|simpl; lia|].
  rewrite (exec_bind _ _ _ _ _ _ Er). simpl in Eb.
  change (user_bytes (view (lens_compose fileL umL) s) buf (Z.to_nat n))
    with (user_bytes (um (file s)) buf (Z.to_nat n)).
  pose proof (user_bytes_length (um (file s)) buf (Z.to_nat n)) as Lc.
  set (c := user_bytes (um (file s)) buf (Z.to_nat n)) in *.
  assert (input_wf b) as Wb by (apply (input_wf_splice _ _ _ _ (wf_input _ W) P0) in Eb; [done|lia]).
  assert (splice (Z.of_nat (Z.to_nat (f_pos (file s)))) c.1 (user_input (file s)) = Some b) as Eb'
    by by rewrite Z2Nat.id.
  pose proof (fun ok => solo_copy _ _ ok s b Eb') as Cp.
  destruct (Z.of_nat c.2 =? 0); simpl.
  2: { eexists. split; [kdone|]. etransitivity; [apply (Cp false)|]. done. }
  kexec. cint. set (s1 := set inputL b s).
  destruct (solo_create (s32 (id_count s)) s1) as (e & k & Ec & Rc); [by destruct W; split|].
  unfold MiscDev18.identity_create. set (d := Dev18 _ _ _ _ _ _).
  rewrite (exec_bind _ _ _ _ _ _ (zoom_done idsL _ d e k [] Ec)), tell_nil.
  kexec. rewrite exec_wake by apply W. eexists. split; [kdone|].
  etransitivity; [apply (Cp true)|]. etransitivity.
  { eapply (turn_once writer_step _ _ s1); [reflexivity|]. by rewrite exec_bind_read. }
  etransitivity; [exact Rc|]. apply (solo_tail (set idsL k s1)), W.
Qed.
End Alone.

(** ** Theorems *)

Section WriterTheorems.
Context `{KListOk Z} `{ObjAllocOk} `{UserMemOk} `{ErrPtrOk}.

(** C11: however many writers there are and however their accesses interleave,
    none runs into undefined behaviour: strlen and strcpy read the buffer while
    others store to it, but a NUL stays at its twentieth byte, so the name that
    was measured and the one that is copied both end there at the latest, even
    when they differ. Every identity on the list is whole, and no two writers
    work on one object. *)
Theorem writers18_safe x :
  reachable no_writers wmove x ->
  writers_good x /\ kll_wf (ids (dev x)) /\ input_wf (user_input (file (dev x))) /\
  forall t t' w w' a, writers x !! t = Some w -> writers x !! t' = Some w' ->
    owned w = Some a -> owned w' = Some a -> t = t'.
Proof.
  intros I%winv_reachable. split; [by apply winv_good|]. destruct I as [[Wk Wi _] _ O]. done.
Qed.

(** C13: two writers at one position whose copies follow each other before
    either name is measured: the first reads the counter, the second runs from
    its copy to its end, the first goes on. Both succeed, but the list has two
    identities with the same number and the same name, the second's: what the
    first one wrote is nowhere, and the next number was never given out. *)
Theorem writers18_mixed_up d m1 m2 pos buf1 buf2 count bs1 bs2 :
  dev18_wf d -> 0 <= pos -> 0 <= count -> pos < 19 -> pos + count <= 19 ->
  uread m1 buf1 (Z.to_nat count) = Some bs1 -> uread m2 buf2 (Z.to_nat count) = Some bs2 ->
  (forall h, obj_alloc Kmalloc h <> None) ->
  exists d' o1 o2, rtc wmove (WState d ∅) (WState d' ∅) /\
    (writer_start m1 pos buf1 count).2 = count /\ (writer_start m2 pos buf2 count).2 = count /\
    contents (ids d') = o1 :: o2 :: contents (ids d) /\
    id o1 = s32 (id_count d) /\ id o2 = id o1 /\
    string_in (name o1) = string_in (name o2) /\
    string_in (name o2) = string_in (user_input (file d')) /\
    slice pos count (user_input (file d')) = Some bs2 /\
    id_count d' = u64 (id_count d + 2).
Proof.
  intros W P0 C0 P1 B U1 U2 A.
  destruct (start_complete m1 pos buf1 count bs1) as [S1 L1]; [done..|].
  destruct (start_complete m2 pos buf2 count bs2) as [S2 L2]; [done..|].
  destruct (solo_filled (Z.to_nat pos) bs1 d W ltac:(lia)) as (b1 & _ & W1 & R1).
  set (d1 := set inputL b1 d) in *.
  destruct (solo_filled (Z.to_nat pos) bs2 d1 W1 ltac:(lia)) as (b2 & E2 & W2 & R2).
  set (d2 := set inputL b2 d1) in *.
  destruct (solo_finish (id_count d) d2 W2 (A _)) as (d3 & o2 & R3 & W3 & F3 & C3 & I3 & N3 & K3).
  destruct (solo_finish (id_count d) d3 W3 (A _)) as (d4 & o1 & R4 & W4 & F4 & C4 & I4 & N4 & K4).
  exists d4, o1, o2. split.
  - assert (vfs_ok pos count) as V by (unfold vfs_ok; lia).
    eapply rtc_l; [by apply (w_open d ∅ 0 m1 pos buf1 count)|]. rewrite S1. simpl.
    etransitivity; [apply (solo_moves _ _ _ _ _ 0 R1), lookup_insert_eq|].
    eapply rtc_l; [by apply (w_open d1 _ 1 m2 pos buf2 count)|]. rewrite S2. simpl.
    etransitivity; [apply (solo_moves _ _ _ _ _ 1 R2), lookup_insert_eq|].
    etransitivity; [apply (solo_moves _ _ _ _ _ 1 R3), lookup_insert_eq|].
    etransitivity; [by apply (solo_moves _ _ _ _ _ 0 R4)|].
    eapply rtc_l; [by apply (w_close d4 _ 0)|].
    eapply rtc_l; [by apply (w_close d4 _ 1)|].
    by vm_compute.
  - rewrite S1, S2, C4, C3, I4, I3, N4, N3, F4, F3, K4, K3. split_and!; try done.
    + replace count with (Z.of_nat (length bs2)) by lia. rewrite Z2Nat.id in E2 by done.
      by apply (slice_splice _ _ _ _ E2).
    + simpl. unfold u64. rewrite Zplus_mod_idemp_l. f_equal. lia.
Qed.

(** C12: a writer that is not interrupted does to the device exactly what the
    handler of MiscDev18.v does in one step, with the same result, and can end
    in no other state: the cut into accesses loses and adds nothing. Only the
    file's position is kept apart, as each open file has its own. *)
Theorem write18_alone s buf count :
  dev18_wf s -> vfs_ok (f_pos (file s)) count ->
  let w := writer_start (um (file s)) (f_pos (file s)) buf count in
  exists s', runs (simple_dev_write true buf count) s w.2 s' /\
    forall d, rtc solo (w.1, s) (WEnd, d) <->
      d = set (lens_compose fileL f_posL) (f_pos (file s)) s'.
Proof.
  intros W V. destruct (write18_solo s buf count W V) as (s' & R & Q).
  exists s'. split; [done|]. intros d. split; [|by intros ->].
  intros R'. by injection (turn_ends writer_step _ (WEnd, d) (WEnd, _) eq_refl eq_refl R' Q).
Qed.
End WriterTheorems.

(** ** Witnesses *)

(** Two writes of five bytes, the first one stopped after its copy. *)
Definition two_writers : @wstate seq_klist map_umem :=
  WState demo18 (<[1%nat := (writer_start (um (file demo18)) 0 1000 5).1]>
    {[0%nat := (writer_start (um (file demo18)) 0 1000 5).1]}).

Lemma writers18_safe_witness :
  reachable no_writers (@wmove seq_klist next_alloc map_umem err_ptr64) two_writers /\
  @writers_good seq_klist next_alloc map_umem err_ptr64 two_writers.
Proof.
  pose (A := next_alloc). assert (@ObjAllocOk A) as O by apply next_alloc_ok.
  assert (vfs_ok 0 5) as V by (unfold vfs_ok; lia).
  assert (reachable no_writers (@wmove seq_klist next_alloc map_umem err_ptr64) two_writers) as R.
  { exists (WState demo18 ∅). split; [by split; [apply demo18_wf|]|].
    eapply rtc_l; [by apply (w_open demo18 ∅ 0 (um (file demo18)) 0 1000 5)|].
    eapply rtc_l; [|reflexivity].
    by apply (w_open demo18 _ 1 (um (file demo18)) 0 1000 5). }
  split; [exact R|]. destruct (writers18_safe two_writers R) as (G & _). exact G.
Defined.

Lemma writers18_mixed_up_witness :
  exists d' o1 o2, rtc (@wmove seq_klist next_alloc map_umem err_ptr64) (WState demo18 ∅) (WState d' ∅) /\
    contents (ids d') = [o1; o2] /\ string_in (name o1) = string_in (name o2).
Proof.
  pose (A := next_alloc). assert (@ObjAllocOk A) as O by apply next_alloc_ok.
  assert (forall h, obj_alloc Kmalloc h <> None) as Al by (intros h; simpl; discriminate).
  destruct (writers18_mixed_up demo18 (mapped 1000 (bytes "Carol")) (mapped 1000 (bytes "Trent"))
    0 1000 1000 5 (bytes "Carol") (bytes "Trent") demo18_wf ltac:(lia) ltac:(lia) ltac:(lia)
    ltac:(lia) eq_refl eq_refl Al) as (d' & o1 & o2 & R & _ & _ & C & _ & _ & N & _).
  exists d', o1, o2. split; [exact R|split; [exact C|exact N]].
Defined.

Lemma write18_alone_witness :
  exists s', runs (@simple_dev_write seq_klist next_alloc map_umem err_ptr64 true 1000 5)
    demo18 5 s'.
Proof.
  pose (A := next_alloc). assert (@ObjAllocOk A) as O by apply next_alloc_ok.
  destruct (write18_alone demo18 1000 5 demo18_wf) as (s' & R & _); [unfold vfs_ok; simpl; lia|].
  exists s'. exact R.
Defined.
