(* ===== verification/Exit18.v ===== *)
(** * The exit of the misc device against its kernel thread (Task_18)

    misc_exit takes the identities off the list before it stops the thread, and
    the thread, once woken, takes them off too. Both traversals are cut at
    every access to the list and the heap and take turns: alone each does what
    MiscDev18.v says, together they free an identity twice. *)

From Stdlib Require Import ZArith Lia Strings.Byte.
From stdpp Require Import base strings gmap sets numbers list.
From S2P Require Import Prelude.
From S2P Require Import CString.
From S2P Require Import Kernel.
From S2P Require Import KernelInst.
From S2P Require Import MiscDev.
From S2P Require Import Identity.
From S2P Require Import MiscDev18.

(** ** A traversal that takes entries *)

(** identity_get, and identity_destroy of a number. *)
Inductive walker := Getter | Destroyer (i : Z).

(** Where it stands. *)
Inductive tpc :=
| TFirst             (* the read of my_id_list.next *)
| TLoad (a : Z)      (* the copy of the entry, or the read of its number *)
| TDel (a : Z)       (* __list_del_entry *)
| TFree (a : Z)      (* kfree *)
| TNext (a : Z)      (* the read of id_str_ptr->mylist.next *)
| TEnd.

Definition cursor (p : option Z) : tpc :=
  match p with None => TEnd | Some a => TLoad a end.

(** Where misc_exit stands: the test of its loop, in identity_destroy(i), at
    kthread_stop, past it. *)
Inductive xpc := XTest (i : Z) | XWalk (i : Z) (p : tpc) | XStop | XGone.

Section Exit18.
Context `{KList Z} `{ObjAlloc} `{UserMem} `{ErrPtr}.
Variable freed_readable : bool.
Variable misc_deregister : M dev18 unit.

(** __list_del_entry follows the entry's own pointers. *)
Definition del_entry (a : Z) : M kll unit :=
  s ← kget;
  if bool_decide (is_Some (heap s !! a)) || freed_readable
  then l ← kread listL; kwrite listL (list_del_entry a l)
  else undef UseAfterFree.

Definition walker_step (w : walker) (p : tpc) : option (M dev18 tpc) :=
  match p with
  | TFirst => Some (k ← kread idsL; mret (cursor (list_first (my_id_list k))))
  | TLoad a => Some (o ← zoom idsL (load a);
      match w with
      | Getter => kwrite id_getL o ;; mret (TDel a)
      | Destroyer i => mret (if id o =? i then TDel a else TNext a)
      end)
  | TDel a => Some (zoom idsL (del_entry a) ;; mret (TFree a))
  | TFree a => Some (zoom idsL (free a) ;; mret (TNext a))
  | TNext a => Some (n ← get_next freed_readable a; mret (cursor n))
  | TEnd => None
  end.

Definition exit_step (x : xpc) : option (M dev18 xpc) :=
  match x with
  | XTest i => Some (n ← kread id_countL; mret (if u64 i <? n then XWalk i TFirst else XStop))
  | XWalk i p =>
      Some (match walker_step (Destroyer i) p with
            | None => mret (XTest (s32 (i + 1)))
            | Some m => p' ← m; mret (XWalk i p')
            end)
  | XStop => Some (printk "List destroyed." [] ;; printk "See you later." [] ;;
      kthread_stop ;; misc_deregister ;; mret XGone)
  | XGone => None
  end.

(** The thread in identity_get, and rmmod in misc_exit. *)
Record xstate := XState { xdev : dev18; getter : tpc; exiter : xpc }.

Inductive xmove : xstate -> xstate -> Prop :=
| x_get d p d' p' x :
    turn (walker_step Getter) (p, d) (p', d') -> xmove (XState d p x) (XState d' p' x)
| x_exit d p d' x x' :
    turn exit_step (x, d) (x', d') -> xmove (XState d p x) (XState d' p x').
End Exit18.

Arguments XState {_ _} _ _ _.
Arguments xdev {_ _} _.
Arguments getter {_ _} _.
Arguments exiter {_ _} _.

(** ** Lemmas *)

Section ExitFacts.
Context `{KListOk Z} `{ObjAllocOk} `{UserMemOk} `{ErrPtrOk}.
Variable fr : bool.
Implicit Types d : dev18.

(** A walk of the code is a traversal's turns, when each iteration is. *)
Lemma walk_turns {S R} (emb : S -> dev18) w nxt (body : Z -> M S (option R)) :
  (forall a s r s' o, body a s = Done r s' o ->
     r = None /\ rtc (turn (walker_step fr w)) (TLoad a, emb s) (TNext a, emb s')) ->
  (forall a s c s' o, nxt a s = Done c s' o ->
     rtc (turn (walker_step fr w)) (TNext a, emb s) (cursor c, emb s')) ->
  forall fuel cur s r s' o, walk nxt fuel cur body s = Done r s' o ->
    rtc (turn (walker_step fr w)) (cursor cur, emb s) (TEnd, emb s').
Proof.
  intros B N fuel. induction fuel as [|f IH]; intros [a|] s r s' o E; simpl in E.
  - done.
  - by injection E as _ -> _.
  - apply bind_Done in E as (x & s1 & o1 & o2 & E1 & E2). apply B in E1 as [-> R1].
    apply bind_Done in E2 as (c & s2 & o3 & o4 & E2 & E3).
    etransitivity; [exact R1|]. etransitivity; [by apply (N _ _ _ _ _ E2)|]. by eapply IH.
  - by injection E as _ -> _.
Qed.

(** An entry taken off the list and freed. *)
Definition without (a : Z) (d : dev18) : dev18 :=
  set idsL (Kll (delete a (heap (ids d))) (list_del_entry a (my_id_list (ids d)))
    (kll_cache (ids d))) d.

Lemma turn_del w a d o :
  heap (ids d) !! a = Some o ->
  rtc (turn (walker_step fr w)) (TDel a, d) (TNext a, without a d).
Proof.
  intros E. set (k := Kll (heap (ids d)) (list_del_entry a (my_id_list (ids d))) (kll_cache (ids d))).
  etransitivity.
  - eapply (turn_once (walker_step fr w) _ _ _ _ (set idsL k d)); [reflexivity|].
    rewrite (exec_bind _ _ _ tt (set idsL k d) []); [reflexivity|]. apply zoom_done. unfold del_entry.
    rewrite exec_bind_get, bool_decide_eq_true_2; [reflexivity|by exists o].
  - eapply (turn_once (walker_step fr w)); [reflexivity|].
    rewrite (exec_bind _ _ _ tt (without a d) []); [reflexivity|].
    unfold zoom, free. rewrite exec_bind_read. simpl. by rewrite E.
Qed.

Lemma turn_load w a d o :
  heap (ids d) !! a = Some o ->
  rtc (turn (walker_step fr w)) (TLoad a, d)
    match w with
    | Getter => (TDel a, set id_getL o d)
    | Destroyer i => (if id o =? i then TDel a else TNext a, d)
    end.
Proof.
  intros E. assert (zoom idsL (load a) d = Done o d []) as L.
  { unfold zoom, load. rewrite exec_bind_read. simpl. rewrite E. by destruct d. }
  destruct w; (eapply turn_once; [reflexivity|]); by rewrite (exec_bind _ _ _ _ _ _ L).
Qed.

Lemma turn_next w a d c d' o :
  get_next fr a d = Done c d' o ->
  rtc (turn (walker_step fr w)) (TNext a, d) (cursor c, d').
Proof. intros E. eapply turn_once; [reflexivity|]. by rewrite (exec_bind _ _ _ _ _ _ E). Qed.

Lemma turn_first w d :
  rtc (turn (walker_step fr w)) (TFirst, d) (cursor (list_first (my_id_list (ids d))), d).
Proof. eapply turn_once; [reflexivity|]. by rewrite exec_bind_read. Qed.

Lemma get_entry_turns a d r d' out :
  get_entry a d = Done r d' out ->
  r = None /\ rtc (turn (walker_step fr Getter)) (TLoad a, d) (TNext a, d').
Proof.
  unfold get_entry, zoom, load, free, mbind, M_bind, kread, kwrite, mret, M_ret. simpl.
  destruct (heap (ids d) !! a) as [o|] eqn:E; [|done]. simpl. rewrite E.
  intros [= <- <- _]. split; [done|]. etransitivity; [by apply (turn_load Getter a d o)|].
  by apply (turn_del Getter a (set id_getL o d) o).
Qed.

(** The device with another list of identities. *)
Definition on_list d (k : kll) : dev18 := set idsL k d.

Lemma destroy_entry_turns i a d k r k' out :
  destroy_entry i a k = Done r k' out ->
  r = None /\
  rtc (turn (walker_step fr (Destroyer i))) (TLoad a, on_list d k) (TNext a, on_list d k').
Proof.
  unfold destroy_entry, load, free, mbind, M_bind, kread, kwrite, mret, M_ret. simpl.
  destruct (heap k !! a) as [o|] eqn:E; [|done]. simpl.
  pose proof (turn_load (Destroyer i) a (on_list d k) o E) as L. simpl in L.
  destruct (id o =? i); simpl; [rewrite E|]; intros [= <- <- _].
  - split; [done|]. etransitivity; [exact L|]. by apply (turn_del _ a (on_list d k) o).
  - by split.
Qed.

(** A call of identity_get, of identity_destroy, and all of misc_exit. *)
Lemma get_turns d o d' out :
  identity_get fr d = Done o d' out -> rtc (turn (walker_step fr Getter)) (TFirst, d) (TEnd, d').
Proof.
  unfold identity_get. rewrite exec_bind_read.
  intros (r & d1 & o1 & o2 & E1 & [= _ -> _])%bind_Done.
  etransitivity; [apply turn_first|].
  by apply (walk_turns (fun s => s) Getter (get_next fr) get_entry get_entry_turns (turn_next Getter)
    _ _ _ _ _ _ E1).
Qed.

Lemma destroy_turns i d v d' out :
  identity_destroy fr i d = Done v d' out ->
  rtc (turn (walker_step fr (Destroyer i))) (TFirst, d) (TEnd, d').
Proof.
  unfold identity_destroy, zoom. simpl.
  destruct (Identity.identity_destroy fr i (ids d)) as [v' k' o|] eqn:E; [|done]. intros [= _ <- _].
  unfold Identity.identity_destroy in E. apply bind_Done in E as (r & k1 & o1 & o2 & E & [= _ -> _]).
  unfold list_for_each_entry in E. rewrite exec_bind_read in E.
  etransitivity; [apply turn_first|].
  replace d with (on_list d (ids d)) at 2 by by destruct d.
  apply (walk_turns (on_list d) (Destroyer i) (load_next fr) (destroy_entry i)
    (fun a k => destroy_entry_turns i a d k)) in E; [exact E|].
  intros a k c k2 o3 En. apply (turn_next _ _ _ _ _ o3). unfold get_next, zoom. simpl. by rewrite En.
Qed.

Lemma exit_walk_turns dereg i p d q d' :
  rtc (turn (walker_step fr (Destroyer i))) (p, d) (q, d') ->
  rtc (turn (exit_step fr dereg)) (XWalk i p, d) (XWalk i q, d').
Proof.
  apply (rtc_congruence (fun x : tpc * dev18 => (XWalk i x.1, x.2))).
  intros [] [] T. inversion T as [? m ? ? ? out E X]; subst.
  eapply turn_step; simpl; [rewrite E; reflexivity|]. by rewrite (exec_bind _ _ _ _ _ _ X).
Qed.

Lemma exit_loop_turns dereg fuel i d v d' out :
  destroy_upto fr fuel i d = Done v d' out ->
  rtc (turn (exit_step fr dereg)) (XTest i, d) (XStop, d').
Proof.
  revert i d v d' out. induction fuel as [|f IH]; intros i d v d' out E; simpl in E;
    rewrite exec_bind_read in E; simpl in E; destruct (u64 i <? id_count d) eqn:L; try done.
  - injection E as _ -> _. eapply turn_once; [reflexivity|]. rewrite exec_bind_read. simpl. by rewrite L.
  - apply bind_Done in E as (u & d1 & o1 & o2 & E1 & E2).
    etransitivity; [|by apply (IH (s32 (i + 1)) d1 _ _ _ E2)]. etransitivity.
    { eapply turn_once; [reflexivity|]. rewrite exec_bind_read. simpl. rewrite L. reflexivity. }
    etransitivity; [by eapply exit_walk_turns, destroy_turns|]. by eapply turn_once.
  - injection E as _ -> _. eapply turn_once; [reflexivity|]. rewrite exec_bind_read. simpl. by rewrite L.
Qed.

Lemma exit_turns dereg d v d' out :
  misc_exit fr dereg d = Done v d' out ->
  rtc (turn (exit_step fr dereg)) (XTest 0, d) (XGone, d').
Proof.
  unfold misc_exit. rewrite exec_bind_read.
  intros (u & d1 & o1 & o2 & E1 & E2)%bind_Done.
  etransitivity; [by apply (exit_loop_turns _ _ _ _ _ _ _ E1)|].
  rewrite exec_bind_printk, exec_bind_printk in E2.
  destruct ((kthread_stop ≫= fun _ => dereg) d1) as [v2 d2 o|] eqn:E; [|done].
  injection E2 as _ -> _. eapply turn_once; [reflexivity|].
  rewrite !exec_bind_printk, (exec_bind_two _ _ _ _ _ _ _ E). simpl. reflexivity.
Qed.

Lemma get_moves dereg x y y' :
  rtc (turn (walker_step fr Getter)) y y' ->
  rtc (xmove fr dereg) (XState y.2 y.1 x) (XState y'.2 y'.1 x).
Proof. apply (rtc_congruence (fun y => XState y.2 y.1 x)). intros [] [] T. by apply x_get. Qed.

Lemma exit_moves dereg p y y' :
  rtc (turn (exit_step fr dereg)) y y' ->
  rtc (xmove fr dereg) (XState y.2 p y.1) (XState y'.2 p y'.1).
Proof. apply (rtc_congruence (fun y => XState y.2 p y.1)). intros [] [] T. by apply x_exit. Qed.
End ExitFacts.

Section Race.
Context `{KListOk Z} `{!KListStale Z} `{ObjAllocOk} `{UserMemOk} `{ErrPtrOk}.
Implicit Types d : dev18.

(** identity_get, up to an entry of the list. *)
Lemma getter_reaches p a q d :
  NoDup (entries (my_id_list (ids d))) -> entries (my_id_list (ids d)) = p ++ a :: q ->
  (forall b, b ∈ p -> is_Some (heap (ids d) !! b)) ->
  exists d', rtc (turn (walker_step true Getter)) (cursor (head (p ++ a :: q)), d) (TLoad a, d') /\
    entries (my_id_list (ids d')) = a :: q /\ heap (ids d') !! a = heap (ids d) !! a /\
    id_count d' = id_count d.
Proof.
  revert d. induction p as [|b p IH]; intros d N E L; [by exists d|].
  destruct (L b) as [o Eo]; [by left|]. set (d1 := without b (set id_getL o d)).
  pose proof N as N'. rewrite E in N'. apply NoDup_cons in N' as [Nb Np].
  assert (entries (my_id_list (ids d1)) = p ++ a :: q) as E1 by (by apply (entries_del b _ [])).
  destruct (IH d1) as (d' & R & E' & Ha & Hc); [by rewrite E1|done| |].
  { intros c Hc. simpl. rewrite lookup_delete_ne; [apply L; by right|].
    intros ->. apply Nb, elem_of_app. by left. }
  exists d'. split; [|split; [done|split; [|done]]].
  - etransitivity; [by apply (turn_load true Getter b d o)|].
    etransitivity; [by apply (turn_del true Getter b (set id_getL o d) o)|].
    etransitivity; [|exact R]. apply (turn_next _ _ _ _ _ _ []). unfold get_next.
    rewrite (zoom_done _ _ _ (head (p ++ a :: q)) (ids d1) []); [done|].
    unfold load_next. rewrite exec_bind_get, orb_true_r. unfold mret, M_ret. do 2 f_equal. by apply (list_next_deleted b _ [] (p ++ a :: q)).
  - rewrite Ha. simpl. apply lookup_delete_ne. intros ->. apply Nb, elem_of_app. right. by left.
Qed.
End Race.

(** ** Theorems *)

Section ExitTheorems.
Context `{KListOk Z} `{ObjAllocOk} `{UserMemOk} `{ErrPtrOk}.
Implicit Types d : dev18.

(** C14: a traversal that is not interrupted is the function of MiscDev18.v: the
    thread's call of identity_get, and misc_exit from its first test to its
    return, end where those end and in no other state, wherever those are
    defined. *)
Theorem exit18_alone fr dereg d :
  (forall o d1 out, identity_get fr d = Done o d1 out ->
     forall d', rtc (turn (walker_step fr Getter)) (TFirst, d) (TEnd, d') <-> d' = d1) /\
  (forall v d1 out, misc_exit fr dereg d = Done v d1 out ->
     forall d', rtc (turn (exit_step fr dereg)) (XTest 0, d) (XGone, d') <-> d' = d1).
Proof.
  split.
  - intros o d1 out R%get_turns d'. split; [|by intros ->].
    intros R'. by injection (turn_ends _ _ (TEnd, d') (TEnd, d1) eq_refl eq_refl R' R).
  - intros v d1 out R%exit_turns d'. split; [|by intros ->].
    intros R'. by injection (turn_ends _ _ (XGone, d') (XGone, d1) eq_refl eq_refl R' R).
Qed.

(** C15: misc_exit walks the list while the thread may be in identity_get, which
    it stops only afterwards. Whenever the list has the identity number 0, which
    every first write leaves there, their accesses can interleave so that both
    find it, misc_exit frees it and the thread is about to free it again, even
    on a machine where the reads of freed memory the code makes all succeed. *)
Theorem exit18_double_free `{!KListStale Z} dereg d a o :
  kll_wf (ids d) -> a ∈ entries (my_id_list (ids d)) -> heap (ids d) !! a = Some o ->
  id o = 0 -> 0 < id_count d ->
  exists d' m, rtc (xmove true dereg) (XState d TFirst (XTest 0))
      (XState d' (TFree a) (XWalk 0 (TNext a))) /\
    walker_step true Getter (TFree a) = Some m /\ m d' = Undef UseAfterFree.
Proof.
  intros W Ha Eo Z P. pose proof Ha as (p & q & E)%list_elem_of_split.
  destruct (getter_reaches p a q d (wf_nodup _ W) E) as (d1 & R1 & E1 & Eo1 & Ec).
  { intros b Hb. apply wf_live_is_Some; [done|]. rewrite E. apply elem_of_app. by left. }
  rewrite Eo in Eo1. set (d2 := set id_getL o d1). set (d3 := without a d2).
  set (d4 := set idsL (Kll (heap (ids d3)) (list_del_entry a (my_id_list (ids d3)))
    (kll_cache (ids d3))) d3).
  exists d4. eexists. split_and!; [|reflexivity|].
  2: { apply exec_bind_undef, zoom_undef. unfold free. rewrite exec_bind_read. simpl.
       by rewrite lookup_delete_eq. }
  etransitivity; [apply (get_moves _ _ _ (TFirst, d)), turn_first|].
  rewrite list_first_entry, E. etransitivity; [apply (get_moves _ _ _ _ _ R1)|].
  etransitivity.
  { apply (exit_moves _ _ _ (XTest 0, d1) (XWalk 0 (TDel a), d1)). etransitivity.
    - eapply turn_once; [reflexivity|]. rewrite exec_bind_read. reflexivity.
    - simpl. rewrite Ec, u64_id, (proj2 (Z.ltb_lt _ _)) by (unfold two64; lia).
      etransitivity; [apply exit_walk_turns, turn_first|].
      rewrite list_first_entry, E1. apply exit_walk_turns.
      etransitivity; [by apply (turn_load true (Destroyer 0) a d1 o)|]. simpl. by rewrite Z. }
  etransitivity; [apply (get_moves _ _ _ (TLoad a, d1)); by apply (turn_load true Getter a d1 o)|].
  etransitivity.
  { apply (exit_moves _ _ _ (XWalk 0 (TDel a), d2)). apply exit_walk_turns.
    by apply (turn_del true _ a d2 o). }
  apply (get_moves _ _ _ (TDel a, d3) (TFree a, d4)). eapply turn_once; [reflexivity|].
  rewrite (exec_bind _ _ _ tt d4 []); [reflexivity|]. apply zoom_done. unfold del_entry.
  by rewrite exec_bind_get, orb_true_r.
Qed.
End ExitTheorems.

(** ** Witnesses *)

(** The device after its first write: one identity, with the number 0. *)
Definition carol : identity := Identity (bytes "Carol" ++ replicate 15 x00) 0 false.
Definition first18 : @dev18 seq_klist map_umem :=
  Dev18 (Kll {[1 := carol]} (list_add 1 LIST_HEAD : @klist Z seq_klist) None)
    (Identity (replicate 20 x00) 0 false) (demo_dev (bytes "Carol") 5 "Carol") 1 64
    (Task KGet (Some 2) true false).

Lemma exit18_alone_witness :
  exists d1, rtc (turn (@exit_step seq_klist map_umem err_ptr64 true (fun s => Done tt s [])))
    (XTest 0, first18) (XGone, d1) /\ entries (my_id_list (ids d1)) = [].
Proof.
  destruct (@misc_exit seq_klist map_umem err_ptr64 true (fun s => Done tt s []) first18)
    as [v d1 out|u] eqn:E; [|vm_compute in E; discriminate E].
  exists d1. split.
  - exact (proj2 (proj2 (exit18_alone true (fun s => Done tt s []) first18) v d1 out E d1) eq_refl).
  - vm_compute in E. injection E as _ <- _. reflexivity.
Defined.

Lemma exit18_double_free_witness :
  exists d' m, rtc (@xmove seq_klist map_umem err_ptr64 true (fun s => Done tt s []))
      (XState first18 TFirst (XTest 0)) (XState d' (TFree 1) (XWalk 0 (TNext 1))) /\
    @walker_step seq_klist map_umem true Getter (TFree 1) = Some m /\ m d' = Undef UseAfterFree.
Proof.
  apply (exit18_double_free (fun s => Done tt s []) first18 1 carol); try reflexivity.
  - split; [apply NoDup_singleton|]. intros a ->%list_elem_of_singleton. exists carol.
    split; [reflexivity|]. split; [reflexivity|]. split; [by eexists|]. done.
  - apply list_elem_of_singleton. reflexivity.
Defined.
