(* ===== verification/UserProgs.v ===== *)
(** * The programs that write to the device files

    misc_app.c (Task_6, Task_17, Task_18), debugfs_foo.c and debugfs_jiffies.c
    (Task_8, Task_9) are one program with different paths: it opens a file,
    writes the author's id to it and closes it. The C library and the system
    calls are an interface; a second class says what the VFS promises when the
    file belongs to a driver, and the theorems run the program on the drivers
    of MiscDev.v, Debugfs.v, MiscDev17.v and MiscDev18.v. *)

From Stdlib Require Import ZArith Lia Strings.Byte.
From stdpp Require Import base strings gmap sets numbers list.
From S2P Require Import Prelude.
From S2P Require Import CString.
From S2P Require Import Kernel.
From S2P Require Import KernelInst.
From S2P Require Import MiscDev.
From S2P Require Import Debugfs.
From S2P Require Import Identity.
From S2P Require Import MiscDev17.
From S2P Require Import MiscDev18.

(** ** A process *)

Definition O_RDONLY : Z := 0.
Definition O_WRONLY : Z := 1.
Definition EXIT_SUCCESS : Z := 0.
Definition EXIT_FAILURE : Z := 1.

(** The system as the process sees it. A failed call returns -1 and leaves its
    reason in errno; [write fd bs] writes the bytes [bs]. *)
Class Libc (K : Type) := {
  open : string -> Z -> M K Z;
  write : Z -> list byte -> M K Z;
  close : Z -> M K Z;
  errno : K -> Z;
  strerror : Z -> list byte;
}.

(** What the process has printed, and on which stream. *)
Inductive line :=
| Stdout (m : kmsg)
| Stderr (m : kmsg).

Record proc (K : Type) := Proc { kern : K; stdin : list byte; output : list line }.
Arguments Proc {K} _ _ _.
Arguments kern {K} _.
Arguments stdin {K} _.
Arguments output {K} _.

Definition kernL {K} : lens (proc K) K :=
  Lens kern (fun k p => Proc k (stdin p) (output p)).
Definition stdinL {K} : lens (proc K) (list byte) :=
  Lens stdin (fun i p => Proc (kern p) i (output p)).
Definition outputL {K} : lens (proc K) (list line) :=
  Lens output (fun o p => Proc (kern p) (stdin p) o).

(** A system call, and the three ways to print. *)
Definition sys {K A} (m : M K A) : M (proc K) A := zoom kernL m.

Definition emit {K} (l : line) : M (proc K) unit :=
  o ← kread outputL; kwrite outputL (o ++ [l]).
Definition printf {K} (f : string) (args : list karg) : M (proc K) unit :=
  emit (Stdout (Printk f args)).
Definition fprintf_stderr {K} (f : string) (args : list karg) : M (proc K) unit :=
  emit (Stderr (Printk f args)).

Section Programs.
Context {K : Type} `{Libc K}.

(** perror(s): the string and the text of errno. *)
Definition perror (s : string) : M (proc K) unit :=
  k ← kread kernL;
  fprintf_stderr "%s: %s" [ArgS (bytes s); ArgS (strerror (errno k))].

(** main of misc_app.c, where [shown] is the name its second message has. *)
Definition write_author (path shown : string) : M (proc K) Z :=
  let buf := cstring "Nishad Kamdar" in
  fd ← sys (open path O_WRONLY);
  if fd <? 0 then
    k ← kread kernL;
    fprintf_stderr "error opening file %s:%s"
      [ArgS (bytes path); ArgS (strerror (errno k))] ;;
    mret EXIT_FAILURE
  else
  match slice 0 13 buf with
  | None => undef OutOfBounds
  | Some bs =>
      r ← sys (write fd bs);
      let len := s32 r in
      if len =? -1 then
        k ← kread kernL;
        fprintf_stderr "error writing file %s:%s"
          [ArgS (bytes shown); ArgS (strerror (errno k))] ;;
        mret EXIT_FAILURE
      else
        sys (close fd) ;;
        mret 0
  end.

Definition misc_app6 : M (proc K) Z := write_author "/dev/eudyptula" "dev/eudyptula".
Definition misc_app17 : M (proc K) Z := write_author "/dev/eudyptula" "dev/eudyptula".
Definition misc_app18 : M (proc K) Z := write_author "/dev/eudyptula" "dev/eudyptula".

Definition foo_path : string := "/sys/kernel/debug/eudyptula/foo".
Definition jiffies_path : string := "/sys/kernel/debug/eudyptula/jiffies".

Definition debugfs_foo8 : M (proc K) Z := write_author foo_path foo_path.
Definition debugfs_foo9 : M (proc K) Z := write_author foo_path foo_path.
Definition debugfs_jiffies8 : M (proc K) Z := write_author jiffies_path jiffies_path.
Definition debugfs_jiffies9 : M (proc K) Z := write_author jiffies_path jiffies_path.
End Programs.

(** ** What the VFS promises *)

(** A driver of a device file: its open and write handlers, called with
    the address of the caller's buffer and the count; what opening the file
    and being called by a process with the buffer [bs] set up first. *)
Record chardev (D : Type) := CharDev {
  cd_path : string;
  cd_open : M D Z;
  cd_write : Z -> Z -> M D Z;
  cd_rewind : D -> D;                         (* a new open file is at position 0 *)
  cd_caller : list byte -> D -> D;            (* the caller's memory holds these bytes *)
  cd_buf : Z;                                 (* at this address *)
}.
Arguments cd_path {D} _.
Arguments cd_open {D} _.
Arguments cd_write {D} _.
Arguments cd_rewind {D} _.
Arguments cd_caller {D} _.
Arguments cd_buf {D} _.

(** The driver, and the descriptor on which the process has its device open;
    the process is the only one that uses the device meanwhile. *)
Record vfs (K D : Type) := Vfs { drv : K -> D; opened : K -> option Z }.
Arguments Vfs {K D} _ _.
Arguments drv {K D} _.
Arguments opened {K D} _.

Class VfsOk {K D : Type} `{Libc K} (C : chardev D) (V : vfs K D) : Prop := {
  vfs_open : forall k d o,
    opened V k = None -> cd_open C (cd_rewind C (drv V k)) = Done 0 d o ->
    exists fd k', open (cd_path C) O_WRONLY k = Done fd k' o /\ 0 <= fd /\ drv V k' = d /\
      opened V k' = Some fd;
  vfs_write : forall k fd bs d v o,
    opened V k = Some fd ->
    cd_write C (cd_buf C) (Z.of_nat (length bs)) (cd_caller C bs (drv V k)) = Done v d o ->
    exists k', write fd bs k = Done (if v <? 0 then -1 else v) k' o /\ drv V k' = d /\
      (v < 0 -> errno k' = - v) /\ opened V k' = Some fd;
  vfs_close : forall k fd,
    opened V k = Some fd ->
    exists k', close fd k = Done 0 k' [] /\ drv V k' = drv V k /\ opened V k' = None;
}.

(** A process's memory with given bytes at [ubuf]. *)
Class Caller `{UserMem} := {
  ubuf : Z;
  place : list byte -> umem;
  place_read : forall bs, uread (place bs) ubuf (length bs) = Some bs;
}.

(** *** The drivers *)

Section Drivers.
Context `{UserMem} `{!Caller}.

Definition at_start (d : dev) : dev := Dev (user_input d) 0 (um d).
Definition called_by (bs : list byte) (d : dev) : dev := Dev (user_input d) (f_pos d) (place bs).

(** /dev/eudyptula of Task_6. *)
Definition misc_driver (lv : loglevel) : chardev dev := {|
  cd_path := "/dev/eudyptula";
  cd_open := MiscDev.simple_dev_open lv;
  cd_write := MiscDev.simple_dev_write true lv;
  cd_rewind := at_start;
  cd_caller := called_by;
  cd_buf := ubuf;
|}.

(** /dev/eudyptula of Task_17. *)
Definition misc17_driver : chardev dev := {|
  cd_path := "/dev/eudyptula";
  cd_open := MiscDev17.Waiter.simple_dev_open;
  cd_write := MiscDev17.Waiter.simple_dev_write true;
  cd_rewind := at_start;
  cd_caller := called_by;
  cd_buf := ubuf;
|}.

(** foo of Task_8. *)
Definition foo_driver `{Mutex} : chardev foo := {|
  cd_path := foo_path;
  cd_open := foo_open;
  cd_write := foo_write;
  cd_rewind s := Foo (page s) (lock s) 0 (foo_um s);
  cd_caller bs s := Foo (page s) (lock s) (foo_pos s) (place bs);
  cd_buf := ubuf;
|}.

(** /dev/eudyptula of Task_18. *)
Definition misc18_driver `{KList Z} `{ObjAlloc} `{ErrPtr} : chardev dev18 := {|
  cd_path := "/dev/eudyptula";
  cd_open := MiscDev18.simple_dev_open;
  cd_write := MiscDev18.simple_dev_write true;
  cd_rewind s := set fileL (at_start (file s)) s;
  cd_caller bs s := set fileL (called_by bs (file s)) s;
  cd_buf := ubuf;
|}.
End Drivers.

(** ** Lemmas *)

Section ProgramFacts.
Context {K : Type} `{Libc K}.

Lemma exec_sys {A} (m : M K A) (p : proc K) a k o :
  m (kern p) = Done a k o -> sys m p = Done a (set kernL k p) o.
Proof. exact (zoom_done kernL m p a k o). Qed.

Lemma exec_bind_sys {A B} (m : M K A) (c : A -> M (proc K) B) p a k o :
  m (kern p) = Done a k o -> (sys m ≫= c) p = tell o (c a (set kernL k p)).
Proof. intros E. apply exec_bind. by apply exec_sys. Qed.

Lemma exec_emit (l : line) (p : proc K) :
  emit l p = Done tt (set outputL (output p ++ [l]) p) [].
Proof. by destruct p. Qed.

Lemma exec_bind_emit {B} (l : line) (c : unit -> M (proc K) B) p :
  (emit l ≫= c) p = c tt (set outputL (output p ++ [l]) p).
Proof. by rewrite (exec_bind _ _ _ _ _ _ (exec_emit l p)), tell_nil. Qed.

Lemma exec_bind_printf {B} f l (c : unit -> M (proc K) B) p :
  (printf f l ≫= c) p = c tt (set outputL (output p ++ [Stdout (Printk f l)]) p).
Proof. apply exec_bind_emit. Qed.

Lemma exec_bind_stderr {B} f l (c : unit -> M (proc K) B) p :
  (fprintf_stderr f l ≫= c) p = c tt (set outputL (output p ++ [Stderr (Printk f l)]) p).
Proof. apply exec_bind_emit. Qed.

Lemma exec_bind_perror {B} f (c : unit -> M (proc K) B) p :
  (perror f ≫= c) p = c tt (set outputL (output p ++
    [Stderr (Printk "%s: %s" [ArgS (bytes f); ArgS (strerror (errno (kern p)))])]) p).
Proof.
  unfold perror. rewrite (exec_bind_assoc (kread kernL)), exec_bind_read.
  by rewrite exec_bind_stderr.
Qed.

Definition failed (what : string) (path : string) (k : K) (p : proc K) : proc K :=
  Proc k (stdin p) (output p ++ [Stderr (Printk what
    [ArgS (bytes path); ArgS (strerror (errno k))])]).

(** What the program does with what its calls return. *)
Lemma write_author_exec path shown (p : proc K) fd k1 o1 :
  open path O_WRONLY (kern p) = Done fd k1 o1 ->
  write_author path shown p =
    if fd <? 0 then Done EXIT_FAILURE (failed "error opening file %s:%s" path k1 p) o1 else
    match write fd (bytes "Nishad Kamdar") k1 with
    | Undef u => Undef u
    | Done r k2 o2 =>
        if s32 r =? -1
        then Done EXIT_FAILURE (failed "error writing file %s:%s" shown k2 p) (o1 ++ o2)
        else match close fd k2 with
             | Undef u => Undef u
             | Done _ k3 o3 => Done 0 (Proc k3 (stdin p) (output p)) (o1 ++ o2 ++ o3)
             end
    end.
Proof.
  intros E. unfold write_author. change (slice 0 13 _) with (Some (bytes "Nishad Kamdar")).
  cbv beta iota zeta. rewrite (exec_bind_sys _ _ _ _ _ _ E). cbv beta iota. destruct (fd <? 0).
  { simpl. by rewrite app_nil_r. }
  cbn match. destruct (write fd _ k1) as [r k2 o2|u] eqn:W.
  2: { rewrite (exec_bind_undef _ _ _ u); [done|]. by apply (zoom_undef kernL). }
  rewrite (exec_bind_sys _ _ (set kernL k1 p) _ _ _ W). cbv beta. destruct (s32 r =? -1).
  { simpl. by rewrite !app_nil_r. }
  destruct (close fd k2) as [c k3 o3|u] eqn:C.
  2: { rewrite (exec_bind_undef _ _ _ u); [done|]. by apply (zoom_undef kernL). }
  rewrite (exec_bind_sys _ _ (set kernL k2 (set kernL k1 p)) _ _ _ C). unfold mret, M_ret. simpl. by rewrite app_nil_r.
Qed.
End ProgramFacts.

Section DriverFacts.
Context {K D : Type} `{Libc K} (C : chardev D) (V : vfs K D) `{!VfsOk C V}.

(** A driver whose handlers accept the id is written to, and the program
    leaves no file open. *)
Lemma write_author_driver shown (p : proc K) d1 o1 d2 o2 v :
  opened V (kern p) = None ->
  cd_open C (cd_rewind C (drv V (kern p))) = Done 0 d1 o1 ->
  cd_write C (cd_buf C) 13 (cd_caller C (bytes "Nishad Kamdar") d1) = Done v d2 o2 ->
  0 <= v < 2 ^ 31 ->
  exists k, write_author (cd_path C) shown p = Done 0 (Proc k (stdin p) (output p)) (o1 ++ o2) /\
    drv V k = d2 /\ opened V k = None.
Proof.
  intros N Eo Ew B. destruct (vfs_open _ _ _ N Eo) as (fd & k1 & E1 & F & D1 & O1).
  subst d1. destruct (vfs_write k1 fd (bytes "Nishad Kamdar") d2 v o2 O1 Ew)
    as (k2 & E2 & D2 & _ & O2).
  rewrite (proj2 (Z.ltb_ge v 0)) in E2 by lia.
  destruct (vfs_close k2 fd O2) as (k3 & E3 & D3 & O3).
  exists k3. rewrite (write_author_exec _ _ _ _ _ _ E1), E2, E3.
  rewrite (proj2 (Z.ltb_ge fd 0)) by lia. rewrite s32_id by (unfold int_range; lia).
  rewrite (proj2 (Z.eqb_neq v (-1))), app_nil_r by lia.
  split; [done|]. split; [congruence|done].
Qed.
End DriverFacts.

(** What thirteen bytes stored at the start of a buffer leave there. *)
Lemma splice_start bs l l' :
  splice 0 bs l = Some l' ->
  take (length bs) l' = bs /\ drop (length bs) l' = drop (length bs) l.
Proof.
  unfold splice. case_decide; intros; simplify_eq. simpl.
  by rewrite take_app_length, drop_app_length.
Qed.

(** The thirteen bytes of the caller arrive. *)
Lemma placed `{UserMemOk} `{!Caller} :
  let bs := bytes "Nishad Kamdar" in
  uread (place bs) ubuf 13 = Some bs /\ user_bytes (place bs) ubuf 13 = (bs, O).
Proof.
  intros bs. assert (uread (place bs) ubuf 13 = Some bs) as R by apply (place_read bs).
  split; [done|]. by apply user_bytes_complete.
Qed.

(** ** Theorems *)

Section ProgramTheorems.
Context `{UserMemOk} `{!Caller} {K : Type} `{!Libc K}.

(** The program always ends with one of three outcomes: when open fails it
    says so on its error stream with the text of errno and exits with a
    failure; when write fails it does the same under the other name; otherwise
    it prints nothing and returns 0, even for a short write. *)
Theorem write_author_reports path shown (p : proc K) v p' out :
  write_author path shown p = Done v p' out ->
  stdin p' = stdin p /\
  exists fd k1 o1, open path O_WRONLY (kern p) = Done fd k1 o1 /\
    ((fd < 0 /\ v = EXIT_FAILURE /\ p' = failed "error opening file %s:%s" path k1 p) \/
     (0 <= fd /\ exists r k2 o2, write fd (bytes "Nishad Kamdar") k1 = Done r k2 o2 /\
        ((s32 r = -1 /\ v = EXIT_FAILURE /\
          p' = failed "error writing file %s:%s" shown k2 p) \/
         (s32 r <> -1 /\ v = EXIT_SUCCESS /\ output p' = output p)))).
Proof.
  destruct (open path O_WRONLY (kern p)) as [fd k1 o1|u] eqn:E.
  2: { unfold write_author. rewrite (exec_bind_undef _ _ _ u); [done|].
       by apply (zoom_undef kernL). }
  rewrite (write_author_exec _ _ _ _ _ _ E). destruct (Z.ltb_spec fd 0) as [L|L].
  { intros [= <- <- <-]. split; [done|]. exists fd, k1, o1. split; [done|]. left. done. }
  destruct (write fd _ k1) as [r k2 o2|] eqn:W; [|done].
  destruct (Z.eqb_spec (s32 r) (-1)) as [R|R].
  { intros [= <- <- <-]. split; [done|]. exists fd, k1, o1. split; [done|]. right.
    split; [done|]. exists r, k2, o2. split; [done|]. by left. }
  destruct (close fd k2); [|done]. intros [= <- <- <-]. split; [done|].
  exists fd, k1, o1. split; [done|]. right. split; [done|]. exists r, k2, o2.
  split; [done|]. by right.
Qed.

(** Run on the misc device, misc_app exits with 0 and prints nothing,
    whatever the device's buffer held; then the buffer starts with the id, is
    otherwise unchanged, and the file is closed. *)
Theorem misc_app_author lv (V : vfs K dev) `{!VfsOk (misc_driver lv) V} (p : proc K) :
  opened V (kern p) = None -> dev_wf (drv V (kern p)) ->
  exists k out, misc_app6 p = Done 0 (Proc k (stdin p) (output p)) out /\
    opened V k = None /\ dev_wf (drv V k) /\ holds_author (user_input (drv V k)) = true /\
    drop 13 (user_input (drv V k)) = drop 13 (user_input (drv V (kern p))).
Proof.
  intros N W. set (d1 := called_by (bytes "Nishad Kamdar") (at_start (drv V (kern p)))).
  destruct (write_runs lv d1 ubuf 13) as (v & d2 & [o2 R] & P); [unfold vfs_ok; simpl; lia|done|].
  assert (dev_wf d2) as W2 by (by eapply (write_result_wf d1)).
  destruct placed as [_ Pl].
  destruct P as [|n bs r b ? -> Eu|n bs b v ? -> Eu Es Ev]; [simpl in *; lia|..];
    change (Z.to_nat _) with 13%nat in Eu; change (um d1) with (place (bytes "Nishad Kamdar")) in Eu;
    rewrite Pl in Eu; [done|]. injection Eu as <-.
  destruct (splice_start _ _ _ Es) as [T Dr]. change (length _) with 13%nat in T, Dr.
  assert (holds_author b = true) as A by (unfold holds_author; by rewrite T).
  rewrite A in Ev. subst v.
  destruct (write_author_driver (misc_driver lv) V "dev/eudyptula" p (at_start (drv V (kern p)))
    (logged lv "eudyptula opened" [])
    (Dev b 13 (place (bytes "Nishad Kamdar"))) o2 13) as (k & E & Dk & Ok); [done| |exact R|lia|].
  { simpl. unfold MiscDev.simple_dev_open. rewrite exec_bind_klog. unfold mret, M_ret. simpl.
    by rewrite app_nil_r. }
  exists k, (logged lv "eudyptula opened" [] ++ o2). split; [exact E|]. rewrite Dk. done.
Qed.

(** So does the program of Task_17, on the device with the waiting thread. *)
Corollary misc_app17_author (V : vfs K dev) `{!VfsOk misc17_driver V} (p : proc K) :
  opened V (kern p) = None -> dev_wf (drv V (kern p)) ->
  exists k out, misc_app17 p = Done 0 (Proc k (stdin p) (output p)) out /\
    opened V k = None /\ dev_wf (drv V k) /\ holds_author (user_input (drv V k)) = true /\
    drop 13 (user_input (drv V k)) = drop 13 (user_input (drv V (kern p))).
Proof. exact (misc_app_author Info V p). Qed.

(** Run on the debugfs file foo while nobody holds its lock, debugfs_foo
    exits with 0 and prints nothing; the page then starts with the id and is
    otherwise unchanged, the lock is free again and the file is closed. *)
Theorem debugfs_foo_page `{MutexOk} (V : vfs K foo) `{!VfsOk foo_driver V} (p : proc K) l :
  opened V (kern p) = None -> foo_wf (drv V (kern p)) ->
  lock (drv V (kern p)) = Some l -> mutex_is_locked l = false ->
  exists k out l', debugfs_foo8 p = Done 0 (Proc k (stdin p) (output p)) out /\
    opened V k = None /\ foo_wf (drv V k) /\
    take 13 (page (drv V k)) = bytes "Nishad Kamdar" /\
    drop 13 (page (drv V k)) = drop 13 (page (drv V (kern p))) /\
    lock (drv V k) = Some l' /\ mutex_is_locked l' = false.
Proof.
  intros N W E F. set (s0 := drv V (kern p)) in *.
  set (s1 := Foo (page s0) (lock s0) 0 (place (bytes "Nishad Kamdar"))).
  destruct (foo_write_runs s1 l ubuf 13) as (v & l' & pos' & p' & [o2 R] & U & L & P);
    [unfold vfs_ok; simpl; lia|done|done|done|simpl; lia|].
  destruct placed as [_ Pl].
  destruct P as [|bs r b ? Eu|bs b ? Eu Es]; [simpl in *; lia|..];
    change (Z.to_nat _) with 13%nat in Eu;
    change (foo_um s1) with (place (bytes "Nishad Kamdar")) in Eu;
    rewrite Pl in Eu; [done|]. injection Eu as <-.
  destruct (splice_start _ _ _ Es) as [T Dr]. change (length _) with 13%nat in T, Dr.
  destruct (write_author_driver foo_driver V foo_path p
    (Foo (page s0) (lock s0) 0 (foo_um s0)) [Printk "foo opened" []] _ o2 13 N eq_refl R)
    as (k & Ek & Dk & Ok); [lia|].
  exists k, ([Printk "foo opened" []] ++ o2), l'. split; [exact Ek|]. rewrite Dk. done.
Qed.

(** C21: run on Task_18's device, misc_app exits with 0 and prints nothing; the
    buffer starts with the id, the counter of identities went up by one, the
    thread was woken, and unless the kernel had no memory for it a new
    identity with the old count and the buffer's string stands in front of the
    list. *)
Theorem misc_app_identity `{KListOk Z} `{ObjAllocOk} `{ErrPtrOk}
    (V : vfs K dev18) `{!VfsOk misc18_driver V} (p : proc K) :
  let s := drv V (kern p) in
  opened V (kern p) = None -> dev18_wf s ->
  exists k out, misc_app18 p = Done 0 (Proc k (stdin p) (output p)) out /\
    let s' := drv V k in
    opened V k = None /\ dev18_wf s' /\
    slice 0 13 (user_input (file s')) = Some (bytes "Nishad Kamdar") /\
    id_count s' = u64 (id_count s + 1) /\ MiscDev18.runnable (thread s') = true /\
    (obj_alloc Kmalloc (heap (ids s)) = None /\ ids s' = ids s \/
     exists o, contents (ids s') = o :: contents (ids s) /\ id o = s32 (id_count s) /\
       string_in (name o) = string_in (user_input (file s'))).
Proof.
  intros s N W. set (s0 := set fileL (at_start (file s)) s).
  set (s1 := set fileL (called_by (bytes "Nishad Kamdar") (file s0)) s0).
  assert (dev18_wf s1) as W1 by (destruct W; by split). destruct placed as [Pl _].
  destruct (write18_runs s1 ubuf 13 W1) as (v & s' & [o2 R] & W' & _ & P);
    [unfold vfs_ok; simpl; lia|].
  destruct P as [(B & _)|[(_ & _ & Eu & _)|(_ & Ev & Ep & Es & Er & Ec & D)]];
    [simpl in B; lia|exfalso|].
  { change (uread (place (bytes "Nishad Kamdar")) ubuf 13 = None) in Eu. congruence. }
  change (Z.min 13 (19 - f_pos (file s1))) with 13 in Ev. subst v.
  change (slice 0 13 (user_input (file s')) = uread (place (bytes "Nishad Kamdar")) ubuf 13) in Es.
  rewrite Pl in Es.
  destruct (write_author_driver misc18_driver V "dev/eudyptula" p s0
    [Printk "eudyptula opened" []] s' o2 13 N eq_refl R) as (k & Ek & Dk & Ok); [lia|].
  exists k, ([Printk "eudyptula opened" []] ++ o2). split; [exact Ek|]. rewrite Dk. done.
Qed.
End ProgramTheorems.

(** ** Witnesses *)

(** A system with one device, which one process can have open once. *)
Record mach (D : Type) := Mach { m_drv : D; m_fd : option Z; m_err : Z }.
Arguments Mach {D} _ _ _.
Arguments m_drv {D} _.
Arguments m_fd {D} _.
Arguments m_err {D} _.

Definition mach_call {D} (m : M D Z) (fd : Z -> option Z) (ret : Z) (fd0 : option Z)
    (d : D) (err : Z) : res (mach D) Z :=
  match m d with
  | Done r d' o =>
      if r <? 0 then Done (-1) (Mach d' fd0 (- r)) o
      else Done (if ret =? 0 then r else ret) (Mach d' (fd r) err) o
  | Undef u => Undef u
  end.

Definition mach_libc {D} (C : chardev D) : Libc (mach D) := {|
  open path flags m :=
    if bool_decide (path = cd_path C /\ m_fd m = None)
    then mach_call (cd_open C) (fun _ => Some 3) 3 None (cd_rewind C (m_drv m)) (m_err m)
    else Done (-1) (Mach (m_drv m) (m_fd m) ENOENT) [];
  write fd bs m :=
    if bool_decide (m_fd m = Some fd)
    then mach_call (cd_write C (cd_buf C) (Z.of_nat (length bs))) (fun _ => Some fd) 0 (Some fd)
      (cd_caller C bs (m_drv m)) (m_err m)
    else Done (-1) (Mach (m_drv m) (m_fd m) EBADF) [];
  close fd m :=
    if bool_decide (m_fd m = Some fd) then Done 0 (Mach (m_drv m) None (m_err m)) []
    else Done (-1) (Mach (m_drv m) (m_fd m) EBADF) [];
  errno := m_err;
  strerror e := if e =? ENOENT then bytes "No such file or directory" else bytes "error";
|}.

Definition mach_vfs {D} : vfs (mach D) D := Vfs m_drv m_fd.

Lemma mach_ok {D} (C : chardev D) : @VfsOk (mach D) D (mach_libc C) C mach_vfs.
Proof.
  split; simpl.
  - intros k d o N E. rewrite bool_decide_true by done. unfold mach_call. rewrite E.
    exists 3. eexists. split; [reflexivity|]. split; [lia|done].
  - intros k fd bs d v o N E. rewrite bool_decide_true by done. unfold mach_call. rewrite E.
    destruct (Z.ltb_spec v 0); eexists; (split; [reflexivity|split; [done|split; [|done]]]);
      simpl; lia.
  - intros k fd N. rewrite bool_decide_true by done. eexists. split; [reflexivity|done].
Qed.

#[export] Instance map_caller : Caller := {|
  ubuf := 1000;
  place bs := mapped 1000 bs : @umem map_umem;
  place_read := map_read_mapped 1000;
|}.

(** A process on a system with this device. *)
Definition runs_on {D} (d : D) : proc (mach D) := Proc (Mach d None 0) [] [].

Lemma misc_app_author_witness :
  exists k out,
    @misc_app6 _ (mach_libc (misc_driver Info)) (runs_on (demo_dev (bytes "nobody") 0 "")) =
      Done 0 (Proc k [] []) out /\
    holds_author (user_input (m_drv k)) = true.
Proof.
  destruct (@misc_app_author _ _ _ _ (mach_libc (misc_driver Info)) Info mach_vfs
    (mach_ok _) (runs_on (demo_dev (bytes "nobody") 0 ""))) as (k & out & E & _ & _ & A & _);
    [reflexivity|vm_compute; reflexivity|]. exists k, out. split; [exact E|exact A].
Defined.

Lemma debugfs_foo_page_witness :
  exists k out,
    @debugfs_foo8 _ (mach_libc foo_driver) (runs_on (demo_foo 7 "abc")) =
      Done 0 (Proc k [] []) out /\ take 13 (page (m_drv k)) = bytes "Nishad Kamdar".
Proof.
  destruct (@debugfs_foo_page _ _ _ _ (mach_libc foo_driver) _ _ mach_vfs
    (mach_ok _) (runs_on (demo_foo 7 "abc")) false) as (k & out & _ & E & _ & _ & T & _);
    [reflexivity|vm_compute; reflexivity|reflexivity|reflexivity|].
  exists k, out. split; [exact E|exact T].
Defined.

Lemma misc_app_identity_witness :
  let C := @misc18_driver map_umem map_caller seq_klist next_alloc err_ptr64 in
  exists k out,
    @misc_app18 _ (mach_libc C) (runs_on demo18) = Done 0 (Proc k [] []) out /\
    id_count (m_drv k) = 8.
Proof.
  intros C. pose (A := next_alloc). assert (@ObjAllocOk A) as O by apply next_alloc_ok.
  destruct (@misc_app_identity _ _ _ _ (mach_libc C) _ _ A O _ _ mach_vfs
    (mach_ok _) (runs_on demo18)) as (k & out & E & _ & _ & _ & N & _);
    [reflexivity|exact demo18_wf|]. exists k, out. split; [exact E|exact N].
Defined.

(** No such device. *)
Lemma write_author_reports_witness :
  exists k, @debugfs_jiffies8 _ (mach_libc foo_driver) (runs_on (demo_foo 7 "abc")) =
      Done EXIT_FAILURE (@failed _ (mach_libc foo_driver) "error opening file %s:%s"
        jiffies_path k (runs_on (demo_foo 7 "abc"))) [].
Proof.
  assert (exists p', @debugfs_jiffies8 _ (mach_libc foo_driver) (runs_on (demo_foo 7 "abc")) =
    Done 1 p' []) as [p' E] by (eexists; reflexivity).
  destruct (@write_author_reports _ (mach_libc foo_driver) jiffies_path jiffies_path
    _ _ _ _ E) as (_ & fd & k & o & Eo & [(_ & _ & Ep)|(P & _)]).
  - exists k. by rewrite E, Ep.
  - assert (fd = -1) as -> by (injection Eo; congruence). lia.
Defined.
