(* ===== verification/UserTools.v ===== *)
(** * The other user programs

    ext2_ioctl.c, fat_ioctl.c and fat_vol.c (Task_20) ask a file system for
    its version or volume id and set its label; server.c and socket.c (Task_19)
    talk over a socket while the netfilter module looks on; test_syscall.c
    (Task_15) makes one system call. They are programs of UserProgs.v's
    processes; what they call is an interface. *)

From Stdlib Require Import ZArith Lia Strings.Byte.
From stdpp Require Import base strings gmap sets numbers list.
From S2P Require Import Prelude.
From S2P Require Import CString.
From S2P Require Import UserProgs.

(** ** The interfaces *)

Inductive request := EXT2_IOC_GETVERSION | FAT_IOCTL_GET_VOLUME_ID | FAT_IOCTL_SET_DIR_VOLUME_LABEL.

(** ioctl with the address of an integer, given and returned as the value the
    object has before and after the call, and with a string. *)
Class Ioctl (K : Type) := {
  ioctl_int : Z -> request -> Z -> M K (Z * Z);
  ioctl_str : Z -> request -> list byte -> M K Z;
}.

Record sockaddr_in := Sockaddr { sin_family : Z; sin_addr : string; sin_port : Z }.

Class Sockets (K : Type) := {
  socket : M K Z;                                   (* AF_INET, SOCK_STREAM, 0 *)
  setsockopt : Z -> Z -> Z -> M K Z;                (* at SOL_SOCKET *)
  bind : Z -> sockaddr_in -> M K Z;
  listen : Z -> Z -> M K Z;
  accept : Z -> M K Z;
  connect : Z -> sockaddr_in -> M K Z;
  read_sock : Z -> Z -> M K (Z * list byte);        (* and what was stored *)
  send : Z -> list byte -> M K Z;
  inet_pton : string -> Z;
}.

Class Syscall (K : Type) := { syscall : Z -> list Z -> M K Z }.

Definition AF_INET : Z := 2.
Definition SO_REUSEADDR : Z := 2.
Definition SO_REUSEPORT : Z := 15.
Definition PORT : Z := 8080.

(** ** Reading a line (stdio.h) *)

(** At most [n] characters, up to and with a newline. *)
Fixpoint get_line (n : nat) (inp : list byte) : list byte * list byte :=
  match n, inp with
  | S n', b :: r =>
      if decide (b = x0a) then ([b], r) else
      let c := get_line n' r in (b :: c.1, c.2)
  | _, _ => ([], inp)
  end.

(** fgets(s, size, stdin); [None]: the end of the input, and [s] is unchanged. *)
Definition fgets {K} (size : nat) : M (proc K) (option (list byte)) :=
  i ← kread stdinL;
  let c := get_line (size - 1) i in
  match c.1 with
  | [] => mret None
  | l => kwrite stdinL c.2 ;; mret (Some (l ++ [x00]))
  end.

(** %s of an array of characters. *)
Definition string_arg {K} (buf : list byte) : M (proc K) karg :=
  match string_in buf with
  | Some s => mret (ArgS s)
  | None => undef OutOfBounds
  end.

(** ** The programs on file systems *)

Section Filesystems.
Context {K : Type} `{Libc K} `{Ioctl K}.

(** What the uninitialised [id] happens to hold. *)
Variable garbage : Z.

(** The message for a wrong number of arguments, of which the first is the
    name of the program; without even that, printf is given NULL. *)
Definition usage (argv : list string) : M (proc K) Z :=
  match argv with
  | name :: _ => printf "Usage: %s FILENAME" [ArgS (bytes name)] ;; mret EXIT_FAILURE
  | [] => undef NullDeref
  end.

(** [ext2_ioctl] prints the low half of an unsigned long with %x. *)
Definition ext2_ioctl (argv : list string) : M (proc K) Z :=
  match argv with
  | [_; file] =>
      fd ← sys (open file O_RDONLY);
      if fd =? -1 then perror "open" ;; mret EXIT_FAILURE else
      '(ret, id) ← sys (ioctl_int fd EXT2_IOC_GETVERSION garbage);
      if ret =? -1 then perror "ioctl" ;; mret EXIT_FAILURE else
      printf "inode version is %x" [ArgZ (u32 id)] ;;
      sys (close fd) ;;
      mret EXIT_SUCCESS
  | _ => usage argv
  end.

Definition print_id (id : Z) : M (proc K) unit :=
  printf "Volume ID %4x-%4x" [ArgZ (Z.shiftr id 16); ArgZ (Z.land id 65535)].

Definition newlabel : list byte := cstring "nishad".

Definition set_label (fd : Z) (label : list byte) : M (proc K) unit :=
  r ← sys (ioctl_str fd FAT_IOCTL_SET_DIR_VOLUME_LABEL label);
  if negb (r =? 0) then printf "set volume failed" [] else
  printf "successfully changed label" [].

Definition fat_ioctl (argv : list string) : M (proc K) Z :=
  match argv with
  | [_; file] =>
      fd ← sys (open file O_RDONLY);
      if fd =? -1 then perror "open" ;; mret EXIT_FAILURE else
      '(ret, id) ← sys (ioctl_int fd FAT_IOCTL_GET_VOLUME_ID (u32 garbage));
      if ret =? -1 then perror "ioctl" ;; mret EXIT_FAILURE else
      print_id (u32 id) ;;
      set_label fd newlabel ;;
      '(ret, id) ← sys (ioctl_int fd FAT_IOCTL_GET_VOLUME_ID (u32 id));
      if ret =? -1 then perror "ioctl" ;; mret EXIT_FAILURE else
      print_id (u32 id) ;;
      sys (close fd) ;;
      mret EXIT_SUCCESS
  | _ => usage argv
  end.

Definition fat_vol : M (proc K) Z :=
  printf "New label? " [] ;;
  l ← fgets 20;
  match l with
  | None => undef UninitRead
  | Some label =>
      s ← string_arg label;
      printf "Will assign new label: %s" [s] ;;
      r ← sys (open "/media/nishad/nishad/" O_RDONLY);
      let fd := u32 r in
      (if fd =? 0 then printf "failed to open dir" [] else mret tt) ;;
      set_label (s32 fd) label ;;
      mret 0
  end.
End Filesystems.

(** ** The programs on sockets *)

Section Talk.
Context {K : Type} `{Libc K} `{Sockets K}.

Definition htons (z : Z) : Z :=
  Z.lor (Z.shiftl (Z.land z 255) 8) (Z.land (Z.shiftr z 8) 255).

(** read(fd, buffer, 1024) into [buffer], which holds zeroes. *)
Definition receive (fd : Z) : M (proc K) (list byte) :=
  c ← sys (read_sock fd 1024);
  match splice 0 c.2 (replicate 1024 x00) with
  | Some buffer => mret buffer
  | None => undef OutOfBounds
  end.

Definition print_buffer (buffer : list byte) : M (proc K) unit :=
  s ← string_arg buffer; printf "%s" [s].

Definition fail (s : string) : M (proc K) Z := perror s ;; mret EXIT_FAILURE.

Definition server : M (proc K) Z :=
  server_fd ← sys socket;
  if server_fd =? 0 then fail "socket failed" else
  e ← sys (setsockopt server_fd (Z.lor SO_REUSEADDR SO_REUSEPORT) 1);
  if negb (e =? 0) then fail "setsockopt" else
  e ← sys (bind server_fd (Sockaddr AF_INET "0.0.0.0" (htons PORT)));
  if e <? 0 then fail "bind failed" else
  e ← sys (listen server_fd 3);
  if e <? 0 then fail "listen" else
  new_socket ← sys (accept server_fd);
  if new_socket <? 0 then fail "accept" else
  buffer ← receive new_socket;
  print_buffer buffer ;;
  sys (send new_socket (bytes "Hello Nishad from server")) ;;
  printf "Hello Nishad message sent" [] ;;
  mret 0.

Definition client : M (proc K) Z :=
  sock ← sys socket;
  if sock <? 0 then printf " Socket creation error " [] ;; mret (-1) else
  if inet_pton "127.0.0.1" <=? 0
  then printf "Invalid address/ Address not supported " [] ;; mret (-1) else
  e ← sys (connect sock (Sockaddr AF_INET "127.0.0.1" (htons PORT)));
  if e <? 0 then printf "Connection Failed " [] ;; mret (-1) else
  sys (send sock (bytes "Hello Nishad from client")) ;;
  printf "Hello Nishad message sent" [] ;;
  buffer ← receive sock;
  print_buffer buffer ;;
  mret 0.
End Talk.

(** ** The program on a system call *)

(** %d of a long prints its low half as an int. *)
Definition test_syscall {K} `{Syscall K} : M (proc K) Z :=
  error ← sys (syscall 334 [0; 1234567890]);
  printf "The error obtained is %d" [ArgZ (s32 error)] ;;
  mret 0.

(** ** Lemmas *)

(** The process after it printed [ls], with the system in state [k]. *)
Definition say {K} (ls : list line) (k : K) (p : proc K) : proc K :=
  Proc k (stdin p) (output p ++ ls).
Definition out (f : string) (l : list karg) : line := Stdout (Printk f l).

Lemma get_line_short l inp n :
  x0a ∉ l -> (length l < n)%nat ->
  get_line n (l ++ x0a :: inp) = (l ++ [x0a], inp).
Proof.
  revert n. induction l as [|b l IH]; intros n N L; destruct n as [|n]; simpl in *; try lia.
  - done.
  - apply not_elem_of_cons in N as [Nb Nl]. rewrite decide_False by done.
    by rewrite IH by (done || lia).
Qed.

(** A line printed under a condition. *)
Lemma exec_bind_when {K B} (b : bool) f (c : unit -> M (proc K) B) p :
  ((if b then printf f [] else mret tt) ≫= c) p =
    c tt (say (if b then [out f []] else []) (kern p) p).
Proof.
  destruct b; [by rewrite exec_bind_printf|]. rewrite exec_bind_ret. unfold say.
  rewrite app_nil_r. by destruct p.
Qed.

(** What a buffer of zeroes holds after bytes were stored at its start. *)
Lemma splice_zeros bs n buffer :
  splice 0 bs (replicate n x00) = Some buffer ->
  buffer = bs ++ replicate (n - length bs) x00 /\ (length bs <= n)%nat.
Proof.
  unfold splice. case_decide as D; [|done]. rewrite length_replicate in D.
  intros E. apply (inj Some) in E. subst buffer. split; [|lia].
  by rewrite drop_replicate.
Qed.

Section ToolFacts.
Context {K : Type}.
Implicit Types p : proc K.

Lemma string_arg_exec bs tl p :
  x00 ∉ bs -> string_arg (bs ++ x00 :: tl) p = Done (ArgS bs) p [].
Proof. intros N. unfold string_arg. by rewrite string_in_app. Qed.

Lemma exec_bind_string {B} bs tl (c : karg -> M (proc K) B) p :
  x00 ∉ bs -> (string_arg (bs ++ x00 :: tl) ≫= c) p = c (ArgS bs) p.
Proof. intros N. by rewrite (exec_bind _ _ _ _ _ _ (string_arg_exec bs tl p N)), tell_nil. Qed.

Lemma fgets_exec size p b l rest :
  get_line (size - 1) (stdin p) = (b :: l, rest) ->
  fgets size p = Done (Some ((b :: l) ++ [x00])) (set stdinL rest p) [].
Proof. intros E. unfold fgets. rewrite exec_bind_read. simpl. rewrite E. by destruct p. Qed.

(** printf of the string a buffer of 1024 bytes holds after [bs] was received
    into zeroes. *)
Lemma print_received bs (buffer : list byte) p :
  splice 0 bs (replicate 1024 x00) = Some buffer -> x00 ∉ bs ->
  print_buffer buffer p =
    if decide (length bs < 1024)%nat
    then Done tt (say [out "%s" [ArgS bs]] (kern p) p) [] else Undef OutOfBounds.
Proof.
  intros [-> L]%splice_zeros N. unfold print_buffer.
  destruct (decide (length bs < 1024)%nat) as [D|D].
  - destruct (1024 - length bs)%nat as [|m] eqn:Em; [lia|]. simpl replicate.
    rewrite exec_bind_string by done. by destruct p.
  - replace (1024 - _)%nat with 0%nat by lia. simpl replicate. rewrite app_nil_r.
    apply exec_bind_undef. unfold string_arg, string_in.
    by rewrite (proj2 (strlen_None bs) N).
Qed.
End ToolFacts.

(** ** Theorems *)

Section ToolTheorems.
Context {K : Type} `{!Libc K} `{!Ioctl K}.
Implicit Types p : proc K.

(** The two halves that are printed of a volume id are that id's. *)
Lemma print_id_halves id :
  0 <= id < two32 ->
  Z.shiftr id 16 * 65536 + Z.land id 65535 = id /\ 0 <= Z.shiftr id 16 < 65536 /\
  0 <= Z.land id 65535 < 65536.
Proof.
  unfold two32. intros H. change 65535 with (Z.ones 16). rewrite Z.land_ones by lia.
  rewrite Z.shiftr_div_pow2 by lia. change (2 ^ 16) with 65536.
  pose proof (Z_div_mod_eq_full id 65536). pose proof (Z.mod_pos_bound id 65536).
  split; [lia|]. split; [|lia]. split; [apply Z.div_pos; lia|].
  apply Z.div_lt_upper_bound; lia.
Qed.

Definition verdict (r : Z) : line :=
  out (if r =? 0 then "successfully changed label" else "set volume failed") [].

Lemma set_label_exec fd label p r k o :
  ioctl_str fd FAT_IOCTL_SET_DIR_VOLUME_LABEL label (kern p) = Done r k o ->
  set_label fd label p = Done tt (say [verdict r] k p) o.
Proof.
  intros E. unfold set_label. rewrite (exec_bind_sys _ _ _ _ _ _ E). unfold verdict, say.
  destruct (Z.eqb_spec r 0); simpl; by rewrite app_nil_r.
Qed.

(** Fat_vol assigns the line that was typed, newline included, and never
    notices that the directory cannot be opened: its descriptor is unsigned and
    tested for zero, so that after a failed open, -1, it goes on to call ioctl
    with that descriptor, and complains about a successful open of 0. *)
Theorem fat_vol_open_unnoticed p l rest r k1 o1 e k2 o2 :
  stdin p = l ++ x0a :: rest -> x0a ∉ l -> x00 ∉ l -> (length l < 19)%nat ->
  open "/media/nishad/nishad/" O_RDONLY (kern p) = Done r k1 o1 -> int_range r ->
  ioctl_str r FAT_IOCTL_SET_DIR_VOLUME_LABEL (l ++ [x0a; x00]) k1 = Done e k2 o2 ->
  fat_vol p = Done 0 (Proc k2 rest (output p ++
    [out "New label? " []; out "Will assign new label: %s" [ArgS (l ++ [x0a])]] ++
    (if r =? 0 then [out "failed to open dir" []] else []) ++ [verdict e])) (o1 ++ o2).
Proof.
  intros Ei Nl Nz Ll Eo Hr Es. unfold fat_vol. rewrite exec_bind_printf.
  set (p1 := set outputL _ p).
  assert (exists b m, l ++ [x0a] = b :: m) as (b & m & Eb).
  { destruct l as [|b l]; [by eexists _, _|by exists b, (l ++ [x0a])]. }
  pose proof (get_line_short l rest 19 Nl Ll) as G. rewrite Eb in G.
  rewrite (exec_bind _ _ _ _ _ _ (fgets_exec 20 p1 b m rest
    ltac:(simpl stdin; rewrite Ei; exact G))), tell_nil. cbv beta iota.
  assert (x00 ∉ b :: m) as N.
  { rewrite <- Eb. intros [?|?%list_elem_of_singleton]%elem_of_app; done. }
  rewrite exec_bind_string, exec_bind_printf by done. set (p2 := set outputL _ _).
  rewrite (exec_bind_sys _ _ p2 _ _ _ Eo). cbv beta zeta.
  rewrite <- Eb, <- app_assoc. simpl app.
  rewrite s32_u32 by done. rewrite (u32_zero r) by done.
  rewrite exec_bind_when.
  rewrite (exec_bind _ _ _ _ _ _ (set_label_exec _ _ (say _ k1 (set kernL k1 p2)) _ _ _ Es)).
  unfold mret, M_ret, say. simpl. rewrite app_nil_r. f_equal.
  f_equal. rewrite Eb. by rewrite <- !app_assoc.
Qed.

(** On a file system that answers, fat_ioctl prints the volume id before
    and after it set the label, each as two halves of sixteen bits that make
    up the id, and between them whether the label was changed; it exits with
    success even when it was not. *)
Theorem fat_ioctl_correct g name file p fd k1 o1 r1 id1 k2 o2 e k3 o3 r2 id2 k4 o4 c k5 o5 :
  open file O_RDONLY (kern p) = Done fd k1 o1 -> fd <> -1 ->
  ioctl_int fd FAT_IOCTL_GET_VOLUME_ID (u32 g) k1 = Done (r1, id1) k2 o2 -> r1 <> -1 ->
  ioctl_str fd FAT_IOCTL_SET_DIR_VOLUME_LABEL newlabel k2 = Done e k3 o3 ->
  ioctl_int fd FAT_IOCTL_GET_VOLUME_ID (u32 id1) k3 = Done (r2, id2) k4 o4 -> r2 <> -1 ->
  close fd k4 = Done c k5 o5 -> 0 <= id1 < two32 -> 0 <= id2 < two32 ->
  exists hi1 lo1 hi2 lo2,
    fat_ioctl g [name; file] p = Done EXIT_SUCCESS (say
      [out "Volume ID %4x-%4x" [ArgZ hi1; ArgZ lo1]; verdict e;
       out "Volume ID %4x-%4x" [ArgZ hi2; ArgZ lo2]] k5 p) (o1 ++ o2 ++ o3 ++ o4 ++ o5) /\
    hi1 * 65536 + lo1 = id1 /\ hi2 * 65536 + lo2 = id2 /\
    0 <= lo1 < 65536 /\ 0 <= lo2 < 65536.
Proof.
  intros Eo F E1 R1 Es E2 R2 Ec B1 B2.
  destruct (print_id_halves id1 B1) as (H1 & _ & L1), (print_id_halves id2 B2) as (H2 & _ & L2).
  exists (Z.shiftr id1 16), (Z.land id1 65535), (Z.shiftr id2 16), (Z.land id2 65535).
  split; [|done]. unfold fat_ioctl, print_id.
  rewrite (exec_bind_sys _ _ p _ _ _ Eo), (proj2 (Z.eqb_neq _ _) F).
  set (p1 := set kernL k1 p). rewrite (exec_bind_sys _ _ p1 _ _ _ E1).
  cbv beta iota. rewrite (proj2 (Z.eqb_neq _ _) R1), exec_bind_printf. set (p2 := set outputL _ _).
  rewrite (exec_bind _ _ _ _ _ _ (set_label_exec fd newlabel p2 _ _ _ Es)). set (p3 := say _ k3 p2).
  rewrite (exec_bind_sys _ _ p3 _ _ _ E2).
  cbv beta iota. rewrite (proj2 (Z.eqb_neq _ _) R2), exec_bind_printf. set (p4 := set outputL _ _).
  rewrite (exec_bind_sys _ _ p4 _ _ _ Ec). unfold mret, M_ret. cbn [tell].
  rewrite app_nil_r. f_equal. unfold p4, p3, p2, p1, say. simpl.
  rewrite !u32_id, <- !app_assoc by done. done.
Qed.
End ToolTheorems.

Section TalkTheorems.
Context {K : Type} `{!Libc K} `{!Sockets K}.
Implicit Types p : proc K.

(** What read leaves in the buffer of zeroes. *)
Lemma received_exec fd p n bs k o :
  read_sock fd 1024 (kern p) = Done (n, bs) k o -> (length bs <= 1024)%nat ->
  exists buffer, splice 0 bs (replicate 1024 x00) = Some buffer /\
    receive fd p = Done buffer (set kernL k p) o.
Proof.
  intros E L. destruct (splice 0 bs (replicate 1024 x00)) as [buffer|] eqn:Eb.
  - exists buffer. split; [done|]. unfold receive. rewrite (exec_bind_sys _ _ _ _ _ _ E).
    cbn [snd]. rewrite Eb. simpl. by rewrite app_nil_r.
  - rewrite splice_spec in Eb; [done|lia|]. rewrite length_replicate. lia.
Qed.

Lemma exec_bind_case {A B} (m : M (proc K) A) (c : A -> M (proc K) B) p r :
  m p = r -> (m ≫= c) p = match r with
    | Done a p' o => tell o (c a p') | Undef u => Undef u end.
Proof.
  intros <-. unfold mbind, M_bind, tell. destruct (m p); [|done]. by destruct (c a s).
Qed.

(** The calls of the server up to the connection of a client. *)
Record accepted (k : K) (fd ns : Z) (k' : K) : Prop := Accepted {
  acc_calls : exists k1 k2 k3 k4 e,
    socket k = Done fd k1 [] /\
    setsockopt fd (Z.lor SO_REUSEADDR SO_REUSEPORT) 1 k1 = Done 0 k2 [] /\
    bind fd (Sockaddr AF_INET "0.0.0.0" (htons PORT)) k2 = Done 0 k3 [] /\
    listen fd 3 k3 = Done e k4 [] /\ 0 <= e /\ accept fd k4 = Done ns k' [];
  acc_fd : 0 < fd;
  acc_ns : 0 <= ns;
}.

(** When a client sends up to 1023 bytes without a NUL, the server prints
    them, sends its own message and returns 0; exactly 1024 bytes fill the
    buffer, which is then printed beyond its end. *)
Theorem server_correct p fd ns k n bs k6 r k7 :
  accepted (kern p) fd ns k -> read_sock ns 1024 k = Done (n, bs) k6 [] ->
  (length bs <= 1024)%nat -> x00 ∉ bs ->
  send ns (bytes "Hello Nishad from server") k6 = Done r k7 [] ->
  server p =
    if decide (length bs < 1024)%nat
    then Done 0 (say [out "%s" [ArgS bs]; out "Hello Nishad message sent" []] k7 p) []
    else Undef OutOfBounds.
Proof.
  intros [(k1 & k2 & k3 & k4 & e & Es & Eo & Eb & El & He & Ea) Hf Hn] Er L N Ew.
  unfold server. rewrite (exec_bind_sys _ _ p _ _ _ Es).
  rewrite (proj2 (Z.eqb_neq fd 0)) by lia. set (p1 := set kernL k1 p).
  rewrite (exec_bind_sys _ _ p1 _ _ _ Eo). cbn [negb Z.eqb]. set (p2 := set kernL k2 p1).
  rewrite (exec_bind_sys _ _ p2 _ _ _ Eb). cbn [Z.ltb Z.compare]. set (p3 := set kernL k3 p2).
  rewrite (exec_bind_sys _ _ p3 _ _ _ El).
  rewrite (proj2 (Z.ltb_ge e 0)) by lia. set (p4 := set kernL k4 p3).
  rewrite (exec_bind_sys _ _ p4 _ _ _ Ea).
  rewrite (proj2 (Z.ltb_ge ns 0)) by lia. set (p5 := set kernL k p4).
  destruct (received_exec ns p5 n bs k6 [] Er L) as (buffer & Sb & Rc).
  rewrite (exec_bind _ _ _ _ _ _ Rc), (exec_bind_case _ _ _ _ (print_received _ _ _ Sb N)).
  destruct (decide _); [|done]. set (p6 := say _ _ _).
  rewrite (exec_bind_sys _ _ p6 _ _ _ Ew), exec_bind_printf. unfold mret, M_ret, tell.
  f_equal. unfold p6, p5, p4, p3, p2, p1, say. simpl. by rewrite <- app_assoc.
Qed.
End TalkTheorems.

(** ** Witnesses *)

(** A file system whose state is its label, and which may not be mounted. *)
Definition fat_libc (mounted : bool) : Libc (list byte) := {|
  open _ _ k := Done (if mounted then 3 else -1) k [];
  write _ _ k := Done (-1) k [];
  close _ k := Done 0 k [];
  errno _ := ENOENT;
  strerror _ := bytes "error";
|}.

Definition fat_dev : Ioctl (list byte) := {|
  ioctl_int fd _ old k := Done (if fd =? 3 then (0, 0xabcd1234) else (-1, old)) k [];
  ioctl_str fd _ l k := if fd =? 3 then Done 0 l [] else Done (-1) k [];
|}.

Definition typed (s : string) : proc (list byte) := Proc [] (bytes s) [].

Definition two_lines : list byte := bytes "disk" ++ x0a :: bytes "more".

Lemma fat_vol_open_unnoticed_witness :
  let p := Proc [] two_lines [] in
  @fat_vol _ (fat_libc false) fat_dev p = Done 0 (Proc [] (bytes "more") ([] ++
    [out "New label? " []; out "Will assign new label: %s" [ArgS (bytes "disk" ++ [x0a])]] ++
    [] ++ [verdict (-1)])) ([] ++ []).
Proof.
  intros p. assert (forall b, bool_decide (b ∈ bytes "disk") = false -> b ∉ bytes "disk") as N
    by (intros b E; by apply bool_decide_eq_false in E).
  apply (@fat_vol_open_unnoticed _ (fat_libc false) fat_dev p (bytes "disk") (bytes "more")
    (-1) [] [] (-1) [] []); [reflexivity|by apply N|by apply N|simpl; lia|reflexivity| |reflexivity].
  unfold int_range; lia.
Defined.

Lemma fat_ioctl_correct_witness :
  exists hi1 lo1 hi2 lo2 p',
    @fat_ioctl _ (fat_libc true) fat_dev 77 ["fat_ioctl"; "/media"] (typed "") =
      Done 0 p' [] /\ hi1 * 65536 + lo1 = 0xabcd1234 /\ hi2 * 65536 + lo2 = 0xabcd1234.
Proof.
  destruct (@fat_ioctl_correct _ (fat_libc true) fat_dev 77 "fat_ioctl" "/media" (typed "")
    3 [] [] 0 0xabcd1234 [] [] 0 newlabel [] 0 0xabcd1234 newlabel [] 0 newlabel [])
    as (hi1 & lo1 & hi2 & lo2 & E & H1 & H2 & _);
    [reflexivity|lia|reflexivity|lia|reflexivity|reflexivity|lia|reflexivity
    |unfold two32; lia|unfold two32; lia|].
  eexists hi1, lo1, hi2, lo2, _. split; [exact E|split; [exact H1|exact H2]].
Defined.

(** A network on which one client says hello. *)
Definition hello_net : Sockets (list byte) := {|
  socket k := Done 3 k [];
  setsockopt _ _ _ k := Done 0 k [];
  bind _ _ k := Done 0 k [];
  listen _ _ k := Done 0 k [];
  accept _ k := Done 4 k [];
  connect _ _ k := Done 0 k [];
  read_sock _ _ k := Done (5, bytes "hello") k [];
  send _ bs k := Done (Z.of_nat (length bs)) bs [];
  inet_pton _ := 1;
|}.

Lemma server_correct_witness :
  exists p', @server _ (fat_libc true) hello_net (typed "") = Done 0 p' [] /\
    output p' = [out "%s" [ArgS (bytes "hello")]; out "Hello Nishad message sent" []].
Proof.
  assert (@accepted _ hello_net [] 3 4 []) as A
    by (split; [exists [], [], [], [], 0; split_and!; (reflexivity || lia)|lia|lia]).
  eexists. split.
  - apply (@server_correct _ (fat_libc true) hello_net (typed "") 3 4 [] 5 (bytes "hello") []
      24 (bytes "Hello Nishad from server")); [exact A|reflexivity|simpl; lia| |reflexivity].
    by apply (bool_decide_unpack _).
  - reflexivity.
Defined.
