(* ===== verification/FatLabel.v ===== *)
(** * Setting the label of a FAT volume (vol_label.patch of Task_20)

    The ioctl that fat_ioctl.c and fat_vol.c call: it puts the label into the
    root directory's volume entry, or into a new one, and into the boot
    sector. The directory's slots and the sectors are data of the model, as
    the code reads and writes them in buffers; the functions of fs/fat and of
    the buffer cache are an interface. *)

From Stdlib Require Import ZArith Lia Strings.Byte.
From stdpp Require Import base strings gmap sets numbers list.
From S2P Require Import Prelude.
From S2P Require Import CString.
From S2P Require Import Kernel.
From S2P Require Import KernelInst.

Definition ENOTTY : Z := 25.
Definition ENOSPC : Z := 28.
Definition MSDOS_NAME : Z := 11.
Definition ATTR_VOLUME : Z := 8.
Definition ATTR_EXT : Z := 15.            (* marks the slots of a long name *)

(** ** Data *)

Record msdos_dir_entry := DirEntry {
  name : list byte;
  attr : Z;
  lcase : Z;
  ctime_cs : Z;
  ctime : Z;
  cdate : Z;
  adate : Z;
  time : Z;
  date : Z;
  start : Z;
  size : Z;
}.

Definition with_name (n : list byte) (e : msdos_dir_entry) : msdos_dir_entry :=
  DirEntry n (attr e) (lcase e) (ctime_cs e) (ctime e) (cdate e) (adate e) (time e) (date e)
    (start e) (size e).

Definition is_volume (e : msdos_dir_entry) : bool := negb (Z.land (attr e) ATTR_VOLUME =? 0).

(** The two layouts of a boot sector. *)
Class BootSector := {
  sector : Type;
  fat16_label : lens sector (list byte);
  fat32_label : lens sector (list byte);
  backup_boot : sector -> Z;
}.

Section Fat.
Context `{UserMem} `{Mutex} `{BootSector}.

(** The super block, the root directory and the buffers; [refs] counts the
    buffer heads the caller holds. *)
Record fat := Fat {
  root : list msdos_dir_entry;
  sectors : gmap Z sector;
  refs : Z;
  s_lock : mutex;
  rdonly : bool;
  dirty : bool;
  dirsync : bool;
  fat_bits : Z;
  i_time : Z;
  i_version : Z;
  fat_um : umem;
}.

Definition rootL : lens fat (list msdos_dir_entry) :=
  Lens root (fun x s => Fat x (sectors s) (refs s) (s_lock s) (rdonly s) (dirty s) (dirsync s)
    (fat_bits s) (i_time s) (i_version s) (fat_um s)).
Definition sectorsL : lens fat (gmap Z sector) :=
  Lens sectors (fun x s => Fat (root s) x (refs s) (s_lock s) (rdonly s) (dirty s) (dirsync s)
    (fat_bits s) (i_time s) (i_version s) (fat_um s)).
Definition refsL : lens fat Z :=
  Lens refs (fun x s => Fat (root s) (sectors s) x (s_lock s) (rdonly s) (dirty s) (dirsync s)
    (fat_bits s) (i_time s) (i_version s) (fat_um s)).
Definition s_lockL : lens fat mutex :=
  Lens s_lock (fun x s => Fat (root s) (sectors s) (refs s) x (rdonly s) (dirty s) (dirsync s)
    (fat_bits s) (i_time s) (i_version s) (fat_um s)).
Definition i_timeL : lens fat Z :=
  Lens i_time (fun x s => Fat (root s) (sectors s) (refs s) (s_lock s) (rdonly s) (dirty s)
    (dirsync s) (fat_bits s) x (i_version s) (fat_um s)).
Definition i_versionL : lens fat Z :=
  Lens i_version (fun x s => Fat (root s) (sectors s) (refs s) (s_lock s) (rdonly s) (dirty s)
    (dirsync s) (fat_bits s) (i_time s) x (fat_um s)).
Definition fat_umL : lens fat umem :=
  Lens fat_um (fun x s => Fat (root s) (sectors s) (refs s) (s_lock s) (rdonly s) (dirty s)
    (dirsync s) (fat_bits s) (i_time s) (i_version s) x).
End Fat.

Arguments Fat {_ _ _} _ _ _ _ _ _ _ _ _ _ _.
Arguments root {_ _ _} _.
Arguments sectors {_ _ _} _.
Arguments refs {_ _ _} _.
Arguments s_lock {_ _ _} _.
Arguments rdonly {_ _ _} _.
Arguments dirty {_ _ _} _.
Arguments dirsync {_ _ _} _.
Arguments fat_bits {_ _ _} _.
Arguments i_time {_ _ _} _.
Arguments i_version {_ _ _} _.
Arguments fat_um {_ _ _} _.

(** ** What the patch calls *)

(** [fat_get_entry pos held] yields the position after the entry and the
    number of its slot, in a buffer the caller then holds in place of the one
    it held before; [None] at the end of the directory, with no buffer. *)
Class FatCore `{UserMem} `{Mutex} `{BootSector} := {
  IS_FREE : list byte -> bool;             (* of the name of an entry *)
  fat_get_entry : Z -> bool -> M fat (option (Z * nat));
  fat_make_i_pos : nat -> Z;
  fat_build_inode : nat -> Z -> M fat Z;
  inode_set_times : Z -> Z -> M fat unit;
  mark_inode_dirty : Z -> M fat unit;
  iput : Z -> M fat unit;
  fat_add_entries : msdos_dir_entry -> M fat Z;
  fat_sync_dir : M fat unit;
  mark_dir_dirty : M fat unit;
  sb_bread : Z -> M fat bool;
  write_back : Z -> M fat unit;            (* mark_buffer_dirty, sync_dirty_buffer *)
  current_kernel_time : Z;
  fat_time_unix2fat : Z -> Z * Z;
}.

(** A slot of a directory takes 32 bytes, and is free when its name starts with
    a NUL or with DELETED_FLAG. The entry fat_add_entries writes
    goes into a free slot or behind the last, and its buffer stays held. The
    others leave what the model has alone. *)
Class FatCoreOk `{FatCore} : Prop := {
  is_free_name : forall n,
    IS_FREE n = true <-> head n = Some x00 \/ head n = Some xe5;
  get_entry_some : forall s i held, (i < length (root s))%nat ->
    fat_get_entry (32 * Z.of_nat i) held s =
      Done (Some (32 * Z.of_nat (S i), i))
        (set refsL (refs s - Z.b2z held + 1) s) [];
  get_entry_end : forall s held,
    fat_get_entry (32 * Z.of_nat (length (root s))) held s =
      Done None (set refsL (refs s - Z.b2z held) s) [];
  build_inode_keeps : forall s i p, exists r, fat_build_inode i p s = Done r s [];
  set_times_keeps : forall s r t, inode_set_times r t s = Done tt s [];
  mark_inode_keeps : forall s r, mark_inode_dirty r s = Done tt s [];
  iput_keeps : forall s r, iput r s = Done tt s [];
  sync_dir_keeps : forall s, fat_sync_dir s = Done tt s [];
  mark_dir_keeps : forall s, mark_dir_dirty s = Done tt s [];
  write_back_keeps : forall s n, write_back n s = Done tt s [];
  add_entries_result : forall s de, exists v l,
    fat_add_entries de s = Done v (set refsL (refs s + (if v =? 0 then 1 else 0)) (set rootL l s)) [] /\
    (v <> 0 -> l = root s) /\
    (v = 0 -> exists i, l !! i = Some de /\
       (forall e, root s !! i = Some e -> IS_FREE (name e) = true) /\
       (forall j e, j <> i -> root s !! j = Some e -> l !! j = Some e));
  sb_bread_result : forall s n, exists ok,
    sb_bread n s = Done ok (set refsL (refs s + Z.b2z ok) s) [] /\
    (ok = true -> is_Some (sectors s !! n));
}.

(** Little-endian bytes as a number. *)
Fixpoint le_bytes (l : list byte) : Z :=
  match l with
  | [] => 0
  | c :: l => byte_Z c + 256 * le_bytes l
  end.

(** ** The patch *)

Section Patch.
Context `{FatCore} `{ErrPtr}.

(** What the uninitialised cur_time happens to hold. *)
Variable garbage_time : Z.

Definition load_entry (i : nat) : M fat msdos_dir_entry :=
  l ← kread rootL;
  match l !! i with Some e => mret e | None => undef OutOfBounds end.

(** The next entry that is neither free nor a volume label (or part of a long
    name), [None] for -ENOENT. *)
Fixpoint fat_get_short_entry (fuel : nat) (pos : Z) (held : bool) : M fat (option (Z * nat)) :=
  match fuel with
  | O => undef OutOfFuel
  | S f =>
      r ← fat_get_entry pos held;
      match r with
      | None => mret None
      | Some (pos', i) =>
          e ← load_entry i;
          if negb (IS_FREE (name e)) && negb (is_volume e) then mret (Some (pos', i))
          else fat_get_short_entry f pos' true
      end
  end.

(** struct fat_slot_info; the buffer is that of the slot. *)
Record slot_info := SlotInfo { slot_off : Z; nr_slots : Z; i_pos : Z; de : nat }.

Fixpoint find_label (fuel : nat) (pos : Z) (held : bool) : M fat (option slot_info) :=
  match fuel with
  | O => undef OutOfFuel
  | S f =>
      r ← fat_get_entry pos held;
      match r with
      | None => mret None
      | Some (pos', i) =>
          e ← load_entry i;
          if is_volume e then
            printk "Volume label found\n****Eudyptula****" [] ;;
            mret (Some (SlotInfo (pos' - 32) 1 (fat_make_i_pos i) i))
          else
            printk "Volume label not found\n****Eudyptula****" [] ;;
            find_label f pos' true
      end
  end.

(** The directory has a slot per entry: one more turn finds its end. *)
Definition fat_find_volume_label : M fat (option slot_info) :=
  l ← kread rootL; find_label (S (length l)) 0 false.

Definition lock_fat : M fat unit :=
  l ← kread s_lockL;
  match mutex_lock l with Some l' => kwrite s_lockL l' | None => undef Deadlock end.

Definition unlock_fat : M fat unit :=
  l ← kread s_lockL; kwrite s_lockL (mutex_unlock l).

Definition brelse : M fat unit := r ← kread refsL; kwrite refsL (r - 1).

(** memcpy of the label into the entry of a slot. *)
Definition set_name (i : nat) (n : list byte) : M fat unit :=
  e ← load_entry i;
  l ← kread rootL; kwrite rootL (<[i := with_name n e]> l).

(** memcpy of the label into a sector's buffer. *)
Definition set_label (l : lens sector (list byte)) (n : Z) (lbl : list byte) : M fat unit :=
  m ← kread sectorsL;
  match m !! n with
  | Some b => kwrite sectorsL (<[n := set l lbl b]> m)
  | None => undef NullDeref
  end.

(** The branch for a directory that has a volume entry. *)
Definition replace_label (lbl : list byte) (sinfo : slot_info) : M fat unit :=
  printk "Volume label dir found\n****Eudyptula****" [] ;;
  lock_fat ;;
  set_name (de sinfo) lbl ;;
  label_inode ← fat_build_inode (de sinfo) (i_pos sinfo);
  (if IS_ERR label_inode then undef NullDeref else inode_set_times label_inode garbage_time) ;;
  mark_inode_dirty label_inode ;;
  iput label_inode ;;
  unlock_fat.

(** The other branch; the new entry, with the time and date of the caller. *)
Definition new_entry (lbl : list byte) : msdos_dir_entry :=
  let td := fat_time_unix2fat garbage_time in
  DirEntry lbl ATTR_VOLUME 0 0 0 0 0 td.1 td.2 0 0.

Definition create_label (lbl : list byte) : M fat Z :=
  printk "Creating new Volume label dir\n****Eudyptula****" [] ;;
  lock_fat ;;
  err ← fat_add_entries (new_entry lbl);
  unlock_fat ;;
  mret err.

(** The boot sector and its backup, on a file system of 32 bits. *)
Definition set_label32 (lbl : list byte) : M fat unit :=
  set_label fat32_label 0 lbl ;;
  m ← kread sectorsL;
  match m !! 0 with
  | None => undef NullDeref
  | Some b =>
      bh1 ← sb_bread (backup_boot b);
      if (bh1 : bool) then
        set_label fat32_label (backup_boot b) lbl ;;
        write_back (backup_boot b) ;;
        brelse
      else mret tt
  end.

(** The label of the partition. *)
Definition set_boot_label (lbl : list byte) : M fat Z :=
  s ← kget;
  if rdonly s || dirty s then mret (- ENOTTY) else
  bh ← sb_bread 0;
  if negb bh then mret (- ENOTTY) else
  (if fat_bits s =? 32 then set_label32 lbl else set_label fat16_label 0 lbl) ;;
  write_back 0 ;;
  brelse ;;
  mret 0.

(** After the directory: its times and version, and the boot sector. *)
Definition finish_label (lbl : list byte) (cur_time : Z) : M fat Z :=
  kwrite i_timeL cur_time ;;
  (v ← kread i_versionL; kwrite i_versionL (v + 1)) ;;
  s ← kget;
  (if dirsync s then fat_sync_dir else mark_dir_dirty) ;;
  set_boot_label lbl.

Definition fat_ioctl_set_volume_label (arg : Z) : M fat Z :=
  s ← kget;
  let c := user_bytes (fat_um s) arg (Z.to_nat MSDOS_NAME) in
  if negb (Z.of_nat c.2 =? 0) then mret (- EFAULT) else
  let newlabel := c.1 in
  r ← fat_find_volume_label;
  match r with
  | Some sinfo => replace_label newlabel sinfo ;; finish_label newlabel garbage_time
  | None =>
      err ← create_label newlabel;
      if negb (err =? 0) then mret err else finish_label newlabel current_kernel_time
  end.

(** The case of fat_dir_ioctl; the others are the kernel's. *)
Variable fat_generic_ioctl : Z -> Z -> M fat Z.
Variable set_dir_volume_label : Z.          (* FAT_IOCTL_SET_DIR_VOLUME_LABEL *)

Definition fat_dir_ioctl (cmd arg : Z) : M fat Z :=
  if cmd =? set_dir_volume_label then
    printk "In IOCTL Volume label \n****Eudyptula****" [] ;;
    fat_ioctl_set_volume_label arg
  else fat_generic_ioctl cmd arg.

(** The same case of fat_compat_dir_ioctl, for programs of 32 bits. *)
Variable set_dir_volume_label32 : Z.

Definition fat_compat_dir_ioctl (cmd arg : Z) : M fat Z :=
  if cmd =? set_dir_volume_label32 then
    printk "In IOCTL Volume label \n****Eudyptula****" [] ;;
    fat_ioctl_set_volume_label arg
  else fat_generic_ioctl cmd arg.

(** fat_ioctl_set_volume_id: get_user, which leaves 0 in its variable when the
    memory cannot be read. *)
Definition fat_ioctl_set_volume_id (m : umem) (user_attr : Z) : M Z Z :=
  let c := user_bytes m user_attr 4 in
  if Z.of_nat c.2 =? 0
  then kput (le_bytes c.1) ;; mret 0
  else kput 0 ;; mret (- EFAULT).
End Patch.

(** ** What the ioctl promises *)

(** The slot of the first entry of a kind. *)
Fixpoint first_entry (p : msdos_dir_entry -> bool) (l : list msdos_dir_entry) : option nat :=
  match l with
  | [] => None
  | e :: l => if p e then Some O else S <$> first_entry p l
  end.

Abbreviation first_volume := (first_entry is_volume).

(** The label of the volume, as the directory has it: the name of the first
    entry that is one, and not free or a slot of a long name, which has the
    volume bit as well. *)
Definition is_long (e : msdos_dir_entry) : bool := attr e =? ATTR_EXT.
Definition is_label `{FatCore} (e : msdos_dir_entry) : bool :=
  is_volume e && negb (is_long e) && negb (IS_FREE (name e)).
Definition volume_label `{FatCore} (l : list msdos_dir_entry) : option (list byte) :=
  i ← first_entry is_label l; name <$> l !! i.

(** An entry with a short name: a file or a directory. *)
Definition is_short `{FatCore} (e : msdos_dir_entry) : bool := negb (IS_FREE (name e)) && negb (is_volume e).

(** The label of the boot sector, in the layout of the file system's width. *)
Definition boot_label `{FatCore} (s : fat) : option (list byte) :=
  view (if fat_bits s =? 32 then fat32_label else fat16_label) <$> sectors s !! 0.

(** The end of the ioctl: the boot sector has the label; or it was not touched,
    after the directory was, because the file system is read-only or dirty, or
    because the sector could not be read. *)
Definition boot_result `{FatCore} (s : fat) (lbl : list byte) (v : Z) (s' : fat) : Prop :=
  (v = 0 /\ rdonly s = false /\ dirty s = false /\ boot_label s' = Some lbl) \/
  (v = - ENOTTY /\ sectors s' = sectors s /\
   (rdonly s = true \/ dirty s = true \/
    exists t, sectors t = sectors s /\ sb_bread 0 t = Done false t [])).

(** ** Lemmas *)

Section FatFacts.
Context `{FatCoreOk} `{!ErrPtr} `{!MutexOk}.
Context `{!LensOk fat16_label} `{!LensOk fat32_label}.
Variable garbage_time : Z.
Implicit Types s : fat.

Lemma exec_load_entry {B} i e (k : msdos_dir_entry -> M fat B) s :
  root s !! i = Some e -> (load_entry i ≫= k) s = k e s.
Proof.
  intros E. rewrite (exec_bind _ _ _ e s []); [apply tell_nil|].
  unfold load_entry. rewrite exec_bind_read. simpl. by rewrite E.
Qed.

Lemma set_refs_self s : set refsL (refs s) s = s.
Proof. by destruct s. Qed.

(** One turn of a loop over the slots. *)
Lemma slot_step {B} i held s (stop : M fat B) (k : Z -> nat -> msdos_dir_entry -> M fat B) :
  (i <= length (root s))%nat ->
  (r ← fat_get_entry (32 * Z.of_nat i) held;
   match r with
   | None => stop
   | Some (pos', n) => e ← load_entry n; k pos' n e
   end) s =
  match root s !! i with
  | None => stop (set refsL (refs s - Z.b2z held) s)
  | Some e => k (32 * Z.of_nat (S i)) i e (set refsL (refs s - Z.b2z held + 1) s)
  end.
Proof.
  intros L. destruct (decide (i = length (root s))) as [->|D].
  - rewrite (exec_bind _ _ _ _ _ _ (get_entry_end s held)), tell_nil.
    by rewrite lookup_ge_None_2.
  - destruct (lookup_lt_is_Some_2 (root s) i) as [e E]; [lia|].
    rewrite (exec_bind _ _ _ _ _ _ (get_entry_some s i held ltac:(lia))), tell_nil.
    cbv beta iota. rewrite (exec_load_entry i e) by done. by rewrite E.
Qed.

(** A directory from a slot on. *)
Lemma first_entry_drop p l i :
  first_entry p (drop i l) =
    match l !! i with
    | None => None
    | Some e => if p e then Some O else S <$> first_entry p (drop (S i) l)
    end.
Proof.
  destruct (l !! i) as [e|] eqn:E; [by rewrite (drop_S _ _ _ E)|].
  by rewrite drop_ge by (by apply lookup_ge_None_1).
Qed.

Lemma find_label_exec i fuel held s :
  (i <= length (root s))%nat -> (length (root s) - i < fuel)%nat ->
  exists out, find_label fuel (32 * Z.of_nat i) held s =
    match first_volume (drop i (root s)) with
    | Some j => Done (Some (SlotInfo (32 * Z.of_nat (i + j)) 1 (fat_make_i_pos (i + j)) (i + j)))
                  (set refsL (refs s - Z.b2z held + 1) s) out
    | None => Done None (set refsL (refs s - Z.b2z held) s) out
    end.
Proof.
  revert i held s. induction fuel as [|fuel IH]; intros i held s Li Lf; [lia|].
  cbn [find_label]. rewrite slot_step, first_entry_drop by done.
  destruct (root s !! i) as [e|] eqn:E; [|by eexists].
  apply lookup_lt_Some in E. set (s1 := set refsL _ s). destruct (is_volume e) eqn:V.
  - eexists. rewrite exec_bind_printk, Nat.add_0_r.
    replace (32 * Z.of_nat (S i) - 32) with (32 * Z.of_nat i) by lia. reflexivity.
  - rewrite exec_bind_printk.
    destruct (IH (S i) true s1) as [o Eo]; [simpl; lia|simpl; lia|]. rewrite Eo. simpl root.
    destruct (first_volume (drop (S i) (root s))) as [j|]; simpl.
    + eexists. rewrite Nat.add_succ_r. cbn [tell]. f_equal. unfold s1.
      simpl. f_equal. lia.
    + eexists. cbn [tell]. f_equal. simpl. f_equal. lia.
Qed.

(** The loop that was moved finds the first entry with a short name; at the end
    it holds no buffer. *)
Lemma short_entry_exec i fuel held s :
  (i <= length (root s))%nat -> (length (root s) - i < fuel)%nat ->
  fat_get_short_entry fuel (32 * Z.of_nat i) held s =
    match first_entry is_short (drop i (root s)) with
    | Some j => Done (Some (32 * Z.of_nat (S (i + j)), (i + j)%nat))
                  (set refsL (refs s - Z.b2z held + 1) s) []
    | None => Done None (set refsL (refs s - Z.b2z held) s) []
    end.
Proof.
  revert i held s. induction fuel as [|fuel IH]; intros i held s Li Lf; [lia|].
  cbn [fat_get_short_entry]. rewrite slot_step, first_entry_drop by done.
  destruct (root s !! i) as [e|] eqn:E; [|done]. apply lookup_lt_Some in E.
  unfold is_short at 1. destruct (negb _ && negb _); [by rewrite Nat.add_0_r|].
  rewrite IH by (simpl; lia). simpl root.
  destruct (first_entry is_short (drop (S i) (root s))) as [j|]; simpl.
  - rewrite Nat.add_succ_r. f_equal. f_equal. lia.
  - f_equal. f_equal. lia.
Qed.

(** The search of the whole directory. *)
Lemma find_volume_exec s :
  exists out, fat_find_volume_label s =
    match first_volume (root s) with
    | Some i => Done (Some (SlotInfo (32 * Z.of_nat i) 1 (fat_make_i_pos i) i))
                  (set refsL (refs s + 1) s) out
    | None => Done None s out
    end.
Proof.
  destruct (find_label_exec 0 (S (length (root s))) false s) as [out E]; [lia|lia|].
  exists out. unfold fat_find_volume_label. rewrite exec_bind_read. simpl view.
  change (32 * Z.of_nat 0) with 0 in E. rewrite E, Z.sub_0_r. rewrite drop_0, set_refs_self.
  by destruct (first_volume (root s)).
Qed.

Lemma exec_bind_lock {B} l s (k : unit -> M fat B) :
  mutex_lock (s_lock s) = Some l -> (lock_fat ≫= k) s = k tt (set s_lockL l s).
Proof.
  intros E. rewrite (exec_bind _ _ _ tt (set s_lockL l s) []); [apply tell_nil|].
  unfold lock_fat. rewrite exec_bind_read. simpl. by rewrite E.
Qed.

Lemma exec_bind_unlock_fat {B} s (k : unit -> M fat B) :
  (unlock_fat ≫= k) s = k tt (set s_lockL (mutex_unlock (s_lock s)) s).
Proof. by rewrite (exec_bind _ _ _ tt (set s_lockL (mutex_unlock (s_lock s)) s) []), tell_nil. Qed.

Lemma exec_bind_brelse {B} s (k : unit -> M fat B) :
  (brelse ≫= k) s = k tt (set refsL (refs s - 1) s).
Proof. by rewrite (exec_bind _ _ _ tt (set refsL (refs s - 1) s) []), tell_nil. Qed.

Lemma exec_bind_set_name {B} i n e s (k : unit -> M fat B) :
  root s !! i = Some e ->
  (set_name i n ≫= k) s = k tt (set rootL (<[i := with_name n e]> (root s)) s).
Proof.
  intros E. rewrite (exec_bind _ _ _ tt (set rootL (<[i := with_name n e]> (root s)) s) []).
  { apply tell_nil. }
  unfold set_name. by rewrite (exec_load_entry i e).
Qed.

Lemma exec_bind_keeps {A B} (m : M fat A) a s (k : A -> M fat B) :
  m s = Done a s [] -> (m ≫= k) s = k a s.
Proof. intros E. by rewrite (exec_bind _ _ _ _ _ _ E), tell_nil. Qed.

(** The branch of an existing entry, when its inode can be built. *)
Lemma replace_exec s lbl sinfo e r :
  mutex_is_locked (s_lock s) = false -> root s !! de sinfo = Some e ->
  (forall s, fat_build_inode (de sinfo) (i_pos sinfo) s = Done r s []) -> IS_ERR r = false ->
  exists l out, replace_label garbage_time lbl sinfo s =
      Done tt (set s_lockL l (set rootL (<[de sinfo := with_name lbl e]> (root s)) s)) out /\
    mutex_is_locked l = false.
Proof.
  intros F E B R. destruct (mutex_lock_free _ F) as (l & El & _).
  eexists (mutex_unlock l), _. split; [|apply mutex_unlock_unlocked].
  unfold replace_label. rewrite exec_bind_printk, (exec_bind_lock l) by done.
  rewrite (exec_bind_set_name _ _ e) by done.
  rewrite (exec_bind_keeps _ _ _ _ (B _)), R.
  rewrite (exec_bind_keeps _ _ _ _ (set_times_keeps _ _ _)).
  rewrite (exec_bind_keeps _ _ _ _ (mark_inode_keeps _ _)).
  rewrite (exec_bind_keeps _ _ _ _ (iput_keeps _ _)). reflexivity.
Qed.

(** The branch of a new entry. *)
Lemma create_exec s lbl :
  mutex_is_locked (s_lock s) = false ->
  exists m v l t out, mutex_lock (s_lock s) = Some m /\
    fat_add_entries (new_entry garbage_time lbl) (set s_lockL m s) = Done v t [] /\
    create_label garbage_time lbl s = Done v (set s_lockL (mutex_unlock m)
      (set refsL (refs s + (if v =? 0 then 1 else 0)) (set rootL l s))) out /\
    (v <> 0 -> l = root s) /\
    (v = 0 -> exists i, l !! i = Some (new_entry garbage_time lbl) /\
       (forall e, root s !! i = Some e -> IS_FREE (name e) = true) /\
       (forall j e, j <> i -> root s !! j = Some e -> l !! j = Some e)).
Proof.
  intros F. destruct (mutex_lock_free _ F) as (m & Em & _).
  destruct (add_entries_result (set s_lockL m s) (new_entry garbage_time lbl))
    as (v & l & E & K & A).
  eexists m, v, l, _, _. split; [done|]. split; [exact E|]. split; [|done].
  unfold create_label. rewrite exec_bind_printk, (exec_bind_lock m) by done.
  rewrite (exec_bind _ _ _ _ _ _ E), tell_nil. reflexivity.
Qed.

Lemma sector_label_exec (l : lens sector (list byte)) n lbl b s {B} (k : unit -> M fat B) :
  sectors s !! n = Some b ->
  (set_label l n lbl ≫= k) s = k tt (set sectorsL (<[n := set l lbl b]> (sectors s)) s).
Proof.
  intros E. rewrite (exec_bind _ _ _ tt (set sectorsL (<[n := set l lbl b]> (sectors s)) s) []).
  { apply tell_nil. }
  unfold set_label. rewrite exec_bind_read. simpl. by rewrite E.
Qed.

(** The copy in the backup sector, which may be the boot sector itself. *)
Definition backup_label (lbl : list byte) (n : Z) (m : gmap Z sector) : gmap Z sector :=
  match m !! n with Some b => <[n := set fat32_label lbl b]> m | None => m end.

Lemma backup_label_boot lbl n m b :
  m !! 0 = Some b -> view fat32_label b = lbl ->
  view fat32_label <$> backup_label lbl n m !! 0 = Some lbl.
Proof.
  intros E V. unfold backup_label. destruct (decide (n = 0)) as [->|D].
  - rewrite E, lookup_insert_eq. simpl. by rewrite view_set.
  - destruct (m !! n); [rewrite lookup_insert_ne by done|]; rewrite E; simpl; by rewrite V.
Qed.

(** The copy of the label for a file system of 32 bits. *)
Lemma boot32_exec s lbl b {B} (k : unit -> M fat B) :
  sectors s !! 0 = Some b ->
  exists m, view fat32_label <$> m !! 0 = Some lbl /\
    (set_label32 lbl ≫= k) s = k tt (set sectorsL m s).
Proof.
  intros E. set (b1 := set fat32_label lbl b). set (m1 := <[0 := b1]> (sectors s)).
  set (s1 := set sectorsL m1 s).
  destruct (sb_bread_result s1 (backup_boot b1)) as (ok & Es & P).
  exists (if ok then backup_label lbl (backup_boot b1) m1 else m1). split.
  { assert (m1 !! 0 = Some b1) as E1 by apply lookup_insert_eq.
    assert (view fat32_label b1 = lbl) as V by apply view_set.
    destruct ok; [by apply (backup_label_boot _ _ _ b1)|]. rewrite E1. simpl. by rewrite V. }
  unfold set_label32. rewrite exec_bind_assoc, (sector_label_exec _ _ _ b) by done. fold b1 m1 s1.
  rewrite exec_bind_assoc, exec_bind_read. change (view sectorsL s1) with m1.
  unfold m1 at 1. rewrite lookup_insert_eq.
  rewrite exec_bind_assoc, (exec_bind _ _ _ _ _ _ Es), tell_nil. destruct ok.
  - destruct (P eq_refl) as [c Ec]. unfold backup_label. simpl in Ec. rewrite Ec.
    rewrite exec_bind_assoc, (sector_label_exec _ _ _ c) by done.
    rewrite exec_bind_assoc, (exec_bind_keeps _ _ _ _ (write_back_keeps _ _)), exec_bind_brelse.
    f_equal. destruct s. unfold s1. simpl. f_equal. lia.
  - rewrite exec_bind_ret. f_equal. destruct s. unfold s1. simpl. f_equal. lia.
Qed.

Lemma set_boot_exec s lbl :
  exists v m, runs (set_boot_label lbl) s v (set sectorsL m s) /\
    boot_result s lbl v (set sectorsL m s).
Proof.
  unfold runs, set_boot_label. rewrite exec_bind_get.
  destruct (rdonly s || dirty s) eqn:RD.
  { exists (- ENOTTY), (sectors s). split; [exists []; by destruct s|].
    right. split; [done|]. split; [done|]. apply orb_true_iff in RD as [->| ->]; auto. }
  apply orb_false_iff in RD as [Ro Di].
  destruct (sb_bread_result s 0) as (ok & E0 & P0).
  rewrite (exec_bind _ _ _ _ _ _ E0), tell_nil. set (s1 := set refsL _ s). destruct ok; cbn [negb].
  2: { assert (s1 = s) as Es by (unfold s1; simpl; rewrite Z.add_0_r; by destruct s).
       unfold s1 in Es. rewrite Es in E0. unfold s1. rewrite Es. clear s1.
       exists (- ENOTTY), (sectors s). split; [exists []; by destruct s|].
       right. split; [done|]. split; [done|]. right. right. by exists s. }
  destruct (P0 eq_refl) as [b Eb].
  assert (forall m, set refsL (refs (set sectorsL m s1) - 1) (set sectorsL m s1) = set sectorsL m s)
    as Re by (intros m; unfold s1; destruct s; simpl; f_equal; lia).
  destruct (fat_bits s =? 32) eqn:Fb; cbn iota.
  - destruct (boot32_exec s1 lbl b (fun _ => write_back 0 ;; brelse ;; mret 0)) as (m & Em & Ex);
      [done|].
    exists 0, m. split.
    + exists []. rewrite Ex. rewrite (exec_bind_keeps _ _ _ _ (write_back_keeps _ _)).
      rewrite exec_bind_brelse, Re. done.
    + left. split_and!; try done. unfold boot_label. simpl. by rewrite Fb.
  - exists 0, (<[0 := set fat16_label lbl b]> (sectors s)). split.
    + exists []. rewrite (sector_label_exec _ _ _ b) by done.
      rewrite (exec_bind_keeps _ _ _ _ (write_back_keeps _ _)).
      rewrite exec_bind_brelse. change (sectors s1) with (sectors s). rewrite Re. done.
    + left. split_and!; try done. unfold boot_label. simpl. rewrite Fb, lookup_insert_eq. simpl.
      by rewrite view_set.
Qed.

(** The times and the version of the directory, and the boot sector. *)
Lemma finish_exec s lbl now :
  exists v m, runs (finish_label lbl now) s v
      (set sectorsL m (set i_versionL (i_version s + 1) (set i_timeL now s))) /\
    boot_result s lbl v (set sectorsL m s).
Proof.
  destruct (set_boot_exec (set i_versionL (i_version s + 1) (set i_timeL now s)) lbl)
    as (v & m & [out R] & P).
  exists v, m. split; [|done]. exists out. unfold finish_label.
  rewrite exec_bind_write. rewrite exec_bind_assoc, exec_bind_read, exec_bind_write, exec_bind_get.
  set (s1 := set i_versionL _ _).
  rewrite (exec_bind_keeps _ tt s1); [exact R|].
  destruct (dirsync s1); [apply sync_dir_keeps|apply mark_dir_keeps].
Qed.

Lemma first_entry_spec p l i :
  first_entry p l = Some i -> exists e, l !! i = Some e /\ p e = true /\
    forall j f, (j < i)%nat -> l !! j = Some f -> p f = false.
Proof.
  revert i. induction l as [|e l IH]; intros i; simpl; [done|].
  destruct (p e) eqn:V.
  - intros [= <-]. exists e. split_and!; try done. intros; lia.
  - destruct (first_entry p l) as [j|]; [|done]. intros [= <-].
    destruct (IH j eq_refl) as (f & E & Vf & B). exists f. split_and!; try done.
    intros [|k] g Hk Eg; [by injection Eg as <-|]. apply (B k); [lia|done].
Qed.

Lemma first_entry_here p l i e :
  l !! i = Some e -> p e = true -> (forall j f, (j < i)%nat -> l !! j = Some f -> p f = false) ->
  first_entry p l = Some i.
Proof.
  revert i. induction l as [|x l IH]; intros [|i] E P B; simpl in *; try done.
  - injection E as ->. by rewrite P.
  - rewrite (B 0%nat x) by (done || lia). rewrite (IH i); [done..|].
    intros j f Hj Ef. apply (B (S j)); [lia|done].
Qed.

Lemma first_entry_insert p l i e e' :
  l !! i = Some e -> p e = false -> p e' = false ->
  first_entry p (<[i := e']> l) = first_entry p l.
Proof.
  revert i. induction l as [|x l IH]; intros [|i] E P P'; simpl in *; try done.
  - injection E as ->. by rewrite P, P'.
  - by rewrite (IH i) by done.
Qed.

(** Storing a name that is not free in the first entry with the volume bit sets
    the label, unless the entry is a slot of a long name. *)
Lemma volume_label_replaced l i e lbl :
  first_volume l = Some i -> l !! i = Some e -> IS_FREE lbl = false ->
  volume_label (<[i := with_name lbl e]> l) = if is_long e then volume_label l else Some lbl.
Proof.
  intros Fv E Nf. destruct (first_entry_spec _ _ _ Fv) as (e0 & E0 & V & B). simplify_eq.
  pose proof (lookup_lt_Some _ _ _ E) as L. unfold volume_label. destruct (is_long e) eqn:Lg.
  - assert (forall n, is_label (with_name n e) = false) as N.
    { intros n. unfold is_label. change (is_long (with_name n e)) with (is_long e).
      by rewrite Lg, andb_false_r. }
    assert (is_label e = false) as Ne by (destruct e; apply (N _)).
    rewrite (first_entry_insert _ _ _ e) by done.
    destruct (first_entry is_label l) as [j|] eqn:Ej; [|done]. simpl.
    destruct (first_entry_spec _ _ _ Ej) as (f & Ef & Lf & _).
    rewrite list_lookup_insert_ne; [done|]. intros <-. congruence.
  - rewrite (first_entry_here _ _ i (with_name lbl e)); simpl.
    + by rewrite list_lookup_insert_eq.
    + by apply list_lookup_insert_eq.
    + unfold is_label. change (is_volume (with_name lbl e)) with (is_volume e).
      change (is_long (with_name lbl e)) with (is_long e). simpl. by rewrite V, Lg, Nf.
    + intros j f Hj. rewrite list_lookup_insert_ne by lia. intros Ef.
      unfold is_label. by rewrite (B j f).
Qed.

(** The ioctl, once the label was copied. *)
Lemma copied_exec s arg lbl :
  user_bytes (fat_um s) arg 11 = (lbl, O) ->
  fat_ioctl_set_volume_label garbage_time arg s =
    (r ← fat_find_volume_label;
     match r with
     | Some sinfo => replace_label garbage_time lbl sinfo ;; finish_label lbl garbage_time
     | None =>
         err ← create_label garbage_time lbl;
         if negb (err =? 0) then mret err else finish_label lbl current_kernel_time
     end) s.
Proof.
  intros U. unfold fat_ioctl_set_volume_label. rewrite exec_bind_get.
  change (Z.to_nat MSDOS_NAME) with 11%nat. by rewrite U.
Qed.

(** What the slot search finds, on which the other steps work. *)
Definition slot_of (i : nat) : slot_info := SlotInfo (32 * Z.of_nat i) 1 (fat_make_i_pos i) i.

(** The ioctl on a directory that has an entry with the volume bit. *)
Lemma relabel_exec s arg lbl i r :
  mutex_is_locked (s_lock s) = false -> user_bytes (fat_um s) arg 11 = (lbl, O) ->
  first_volume (root s) = Some i ->
  (forall t, fat_build_inode i (fat_make_i_pos i) t = Done r t []) -> IS_ERR r = false ->
  exists v s' e, runs (fat_ioctl_set_volume_label garbage_time arg) s v s' /\
    root s !! i = Some e /\ is_volume e = true /\
    root s' = <[i := with_name lbl e]> (root s) /\ boot_result s lbl v s' /\
    mutex_is_locked (s_lock s') = false /\ refs s' = refs s + 1 /\ i_time s' = garbage_time.
Proof.
  intros F U Fv B R. destruct (first_entry_spec _ _ _ Fv) as (e & E & V & _).
  destruct (find_volume_exec s) as [o1 E1]. rewrite Fv in E1. set (s1 := set refsL _ s) in E1.
  destruct (replace_exec s1 lbl (slot_of i) e r F E B R) as (l & o2 & E2 & Fl).
  set (s2 := set s_lockL l _) in E2.
  destruct (finish_exec s2 lbl garbage_time) as (v & m & [o3 E3] & P).
  set (s3 := set sectorsL m (set i_versionL _ _)) in E3.
  exists v, s3, e. split.
  { eexists. rewrite (copied_exec _ _ _ U), (exec_bind _ _ _ _ _ _ E1). cbv iota beta.
    fold (slot_of i). rewrite (exec_bind _ _ _ _ _ _ E2), E3. reflexivity. }
  split_and!; done.
Qed.
End FatFacts.

(** ** Theorems *)

Section FatTheorems.
Context `{FatCoreOk} `{!ErrPtr} `{!MutexOk}.
Context `{!LensOk fat16_label} `{!LensOk fat32_label}.
Variable garbage_time : Z.
Implicit Types s : fat.

(** C23: on a directory that has an entry with the volume bit, the ioctl stores
    the eleven bytes it was given, and nothing else, in the first such entry;
    the boot sector then holds them too, or the call fails after the directory
    has changed. The lock is free again, but the entry's buffer stays held and
    the directory's time is that of an uninitialised variable. *)
Theorem fat_label_replaced s arg lbl i r :
  mutex_is_locked (s_lock s) = false -> user_bytes (fat_um s) arg 11 = (lbl, O) ->
  first_volume (root s) = Some i ->
  (forall t, fat_build_inode i (fat_make_i_pos i) t = Done r t []) -> IS_ERR r = false ->
  exists v s' e, runs (fat_ioctl_set_volume_label garbage_time arg) s v s' /\
    root s !! i = Some e /\ is_volume e = true /\
    root s' = <[i := with_name lbl e]> (root s) /\ boot_result s lbl v s' /\
    mutex_is_locked (s_lock s') = false /\ refs s' = refs s + 1 /\ i_time s' = garbage_time.
Proof.
  apply relabel_exec.
Qed.

(** C29: on a directory without one, the ioctl calls fat_add_entries, with the
    lock held, for an entry with the label and the volume bit. When that
    succeeds, the directory has the entry in a place that was free and all the
    others, the entry's buffer stays held, and the boot sector is next; when it
    fails, its error is the result and nothing has changed. Either way the lock
    is free again. *)
Theorem fat_label_created s arg lbl :
  mutex_is_locked (s_lock s) = false -> user_bytes (fat_um s) arg 11 = (lbl, O) ->
  first_volume (root s) = None ->
  exists m err t v s', mutex_lock (s_lock s) = Some m /\
    fat_add_entries (new_entry garbage_time lbl) (set s_lockL m s) = Done err t [] /\
    runs (fat_ioctl_set_volume_label garbage_time arg) s v s' /\
    mutex_is_locked (s_lock s') = false /\
    (err <> 0 -> v = err /\ s' = set s_lockL (mutex_unlock m) s) /\
    (err = 0 -> exists i e, root s' !! i = Some e /\ name e = lbl /\ is_volume e = true /\
       (forall f, root s !! i = Some f -> IS_FREE (name f) = true) /\
       (forall j f, j <> i -> root s !! j = Some f -> root s' !! j = Some f) /\
       boot_result s lbl v s' /\ refs s' = refs s + 1 /\ i_time s' = current_kernel_time).
Proof.
  intros F U Fv. destruct (find_volume_exec s) as [o1 E1]. rewrite Fv in E1.
  destruct (create_exec garbage_time s lbl F) as (m & err & l & t & o2 & Em & Ea & E2 & K & A).
  set (s2 := set s_lockL _ (set refsL _ _)) in E2.
  exists m, err, t.
  destruct (decide (err = 0)) as [->|D].
  - destruct (finish_exec s2 lbl current_kernel_time) as (v & k & [o3 E3] & P).
    set (s3 := set sectorsL k (set i_versionL _ _)) in E3.
    destruct (A eq_refl) as (i & Ei & Free & Keep). exists v, s3. split; [done|]. split; [done|]. split.
    { eexists. rewrite (copied_exec _ _ _ _ U), (exec_bind _ _ _ _ _ _ E1).
      rewrite (exec_bind _ _ _ _ _ _ E2). cbn [negb Z.eqb]. rewrite E3. reflexivity. }
    split; [apply mutex_unlock_unlocked|]. split; [done|]. intros _.
    by exists i, (new_entry garbage_time lbl).
  - exists err, s2. split; [done|]. split; [done|]. split.
    { eexists. rewrite (copied_exec _ _ _ _ U), (exec_bind _ _ _ _ _ _ E1).
      rewrite (exec_bind _ _ _ _ _ _ E2). rewrite (proj2 (Z.eqb_neq _ _) D). reflexivity. }
    split; [apply mutex_unlock_unlocked|]. split; [|done]. intros _. split; [done|].
    unfold s2. rewrite (K D), (proj2 (Z.eqb_neq _ _) D), Z.add_0_r. by destruct s.
Qed.

(** C30: a label that cannot be read is reported before anything changed; an
    inode that cannot be built is not noticed: its error pointer is written
    through. *)
Theorem fat_label_errors s arg :
  ((user_bytes (fat_um s) arg 11).2 <> O ->
   fat_ioctl_set_volume_label garbage_time arg s = Done (- EFAULT) s []) /\
  (forall lbl i r, mutex_is_locked (s_lock s) = false -> user_bytes (fat_um s) arg 11 = (lbl, O) ->
   first_volume (root s) = Some i ->
   (forall t, fat_build_inode i (fat_make_i_pos i) t = Done r t []) -> IS_ERR r = true ->
   fat_ioctl_set_volume_label garbage_time arg s = Undef NullDeref).
Proof.
  split.
  - intros D. unfold fat_ioctl_set_volume_label. rewrite exec_bind_get.
    change (Z.to_nat MSDOS_NAME) with 11%nat.
    destruct (user_bytes (fat_um s) arg 11) as [bs n]. simpl in *.
    rewrite (proj2 (Z.eqb_neq _ _)) by lia. done.
  - intros lbl i r F U Fv B R. destruct (first_entry_spec _ _ _ Fv) as (e & E & _).
    destruct (find_volume_exec s) as [o1 E1]. rewrite Fv in E1.
    rewrite (copied_exec _ _ _ _ U), (exec_bind _ _ _ _ _ _ E1). cbv iota beta.
    set (s1 := set refsL _ s). destruct (mutex_lock_free (s_lock s) F) as (m & El & _).
    rewrite (exec_bind_undef _ _ s1 NullDeref); [done|]. unfold replace_label.
    rewrite exec_bind_printk, (exec_bind_lock m) by done.
    rewrite (exec_bind_set_name _ _ e) by done.
    rewrite (exec_bind_keeps _ _ _ _ (B _)), R. done.
Qed.

(** Setting the volume id stores the four bytes as a number, in memory only;
    an address that cannot be read is reported, but the id is lost: it is 0. *)
Theorem set_volume_id_correct `{!UserMemOk} m arg z :
  match uread m arg 4 with
  | Some bs => fat_ioctl_set_volume_id m arg z = Done 0 (le_bytes bs) [] /\
      0 <= le_bytes bs < two32
  | None => fat_ioctl_set_volume_id m arg z = Done (- EFAULT) 0 []
  end.
Proof.
  unfold fat_ioctl_set_volume_id. pose proof (user_bytes_length m arg 4) as L.
  destruct (uread m arg 4) as [bs|] eqn:E.
  - rewrite (user_bytes_complete _ _ _ _ E) in *. simpl in *. split; [by rewrite exec_bind_put|].
    destruct bs as [|c0 [|c1 [|c2 [|c3 [|]]]]]; try done. simpl.
    pose proof (byte_Z_range c0). pose proof (byte_Z_range c1). pose proof (byte_Z_range c2).
    pose proof (byte_Z_range c3). unfold two32. lia.
  - destruct (Z.eqb_spec (Z.of_nat (user_bytes m arg 4).2) 0) as [D|D]; [|by rewrite exec_bind_put].
    rewrite (user_bytes_ok m arg 4) in E by lia. done.
Qed.
End FatTheorems.

(** ** A directory and two sectors *)

(** Two labels and the number of the backup. *)
#[export] Instance pair_sector : BootSector := {|
  sector := list byte * list byte * Z;
  fat16_label := Lens (fun b => b.1.1) (fun x b => (x, b.1.2, b.2));
  fat32_label := Lens (fun b => b.1.2) (fun x b => (b.1.1, x, b.2));
  backup_boot b := b.2;
|}.

#[export] Instance fat16_label_ok : LensOk fat16_label.
Proof. split; [done|by intros [[]]|by intros t t' [[]]]. Qed.

#[export] Instance fat32_label_ok : LensOk fat32_label.
Proof. split; [done|by intros [[]]|by intros t t' [[]]]. Qed.

Definition DELETED_FLAG : byte := xe5.

Definition free_name (n : list byte) : bool :=
  match n with
  | c :: _ => bool_decide (c = x00) || bool_decide (c = DELETED_FLAG)
  | [] => false
  end.

Definition free_slot (e : msdos_dir_entry) : bool := free_name (name e).

(** The entry is put into the first free slot, or at the end of a directory of
    up to sixteen. *)
Definition add_first (de : msdos_dir_entry) (l : list msdos_dir_entry) :
    option (list msdos_dir_entry) :=
  match first_entry free_slot l with
  | Some i => Some (<[i := de]> l)
  | None => if decide (length l < 16)%nat then Some (l ++ [de]) else None
  end.

(** fat_build_inode returns [label_inode]. *)
#[export] Instance small_fat (label_inode : Z) : FatCore := {|
  IS_FREE := free_name;
  fat_get_entry pos held s :=
    let i := Z.to_nat (pos / 32) in
    match root s !! i with
    | Some _ => Done (Some (32 * Z.of_nat (S i), i)) (set refsL (refs s - Z.b2z held + 1) s) []
    | None => Done None (set refsL (refs s - Z.b2z held) s) []
    end;
  fat_make_i_pos i := 512 + Z.of_nat i;
  fat_build_inode _ _ s := Done label_inode s [];
  inode_set_times _ _ s := Done tt s [];
  mark_inode_dirty _ s := Done tt s [];
  iput _ s := Done tt s [];
  fat_add_entries de s :=
    match add_first de (root s) with
    | Some l => Done 0 (set refsL (refs s + 1) (set rootL l s)) []
    | None => Done (- ENOSPC) s []
    end;
  fat_sync_dir s := Done tt s [];
  mark_dir_dirty s := Done tt s [];
  sb_bread n s :=
    match sectors s !! n with
    | Some _ => Done true (set refsL (refs s + 1) s) []
    | None => Done false s []
    end;
  write_back _ s := Done tt s [];
  current_kernel_time := 1500000000;
  fat_time_unix2fat t := (t mod 65536, 0);
|}.

Lemma slot_index i : Z.to_nat (32 * Z.of_nat i / 32) = i.
Proof. rewrite Z.mul_comm, Z.div_mul; lia. Qed.

Lemma add_first_spec de l l' :
  add_first de l = Some l' -> exists i, l' !! i = Some de /\
    (forall e, l !! i = Some e -> free_name (name e) = true) /\
    (forall j e, j <> i -> l !! j = Some e -> l' !! j = Some e).
Proof.
  unfold add_first. destruct (first_entry free_slot l) as [i|] eqn:E.
  - intros [= <-]. destruct (first_entry_spec _ _ _ E) as (e & Ei & Fe & _).
    exists i. split_and!.
    + apply list_lookup_insert_eq. by apply lookup_lt_Some in Ei.
    + by intros f [= <-]%(eq_trans (eq_sym Ei)).
    + intros j f D Ej. by rewrite list_lookup_insert_ne.
  - destruct (decide _); [|done]. intros [= <-]. exists (length l). split_and!.
    + by rewrite lookup_app_r, Nat.sub_diag.
    + intros e Ee. apply lookup_lt_Some in Ee. lia.
    + intros j e _ Ej. by apply lookup_app_l_Some.
Qed.

Lemma kept_refs (s : fat) z : z = 0 -> s = set refsL (refs s + z) s.
Proof. intros ->. rewrite Z.add_0_r. by destruct s. Qed.

#[export] Instance small_fat_ok label_inode : @FatCoreOk _ _ _ (small_fat label_inode).
Proof.
  split; try (simpl; intros; done).
  - intros [|c n]; simpl; [split; [done|by intros []]|].
    rewrite orb_true_iff, !bool_decide_eq_true. unfold DELETED_FLAG.
    split; intros [X|X]; [left|right|left|right]; congruence.
  - intros s i held L. simpl. rewrite slot_index.
    by destruct (lookup_lt_is_Some_2 (root s) i L) as [e ->].
  - intros s held. simpl. by rewrite slot_index, lookup_ge_None_2.
  - intros. by eexists.
  - intros s de. simpl. destruct (add_first de (root s)) as [l|] eqn:E.
    + exists 0, l. split_and!; [done|done|]. intros _. by apply add_first_spec.
    + exists (- ENOSPC), (root s). split_and!; [|done|done]. f_equal. simpl.
      rewrite Z.add_0_r. by destruct s.
  - intros s n. cbn [sb_bread small_fat]. destruct (sectors s !! n) as [b|] eqn:E.
    + by exists true.
    + exists false. split; [|done]. f_equal. by apply kept_refs.
Qed.

(** *** Witnesses *)

Definition a_file (n : string) (a : Z) : msdos_dir_entry :=
  DirEntry (bytes n) a 0 0 0 0 0 0 0 2 10.

Definition some_bytes : list byte := bytes "MY DISK    ".

Definition mounted (l : list msdos_dir_entry) : fat :=
  Fat l (<[0 := (bytes "NO NAME    ", bytes "NO NAME    ", 6)]> ∅) 0 false false false false 32
    0 0 (mapped 100 some_bytes).

(** A file with a long name, and then the label: the slot of the long name is
    the first with the volume bit, and it is what the ioctl overwrites. *)
Definition long_name_dir : list msdos_dir_entry :=
  [a_file "Along name " ATTR_EXT; a_file "LONGNA~1TXT" 32; a_file "OLD LABEL  " ATTR_VOLUME].

Lemma fat_label_replaced_witness :
  exists v s', runs (@fat_ioctl_set_volume_label _ _ _ (small_fat 4096) _ 7 100)
      (mounted long_name_dir) v s' /\
    root s' = [a_file "MY DISK    " ATTR_EXT; a_file "LONGNA~1TXT" 32;
               a_file "OLD LABEL  " ATTR_VOLUME] /\ refs s' = 1.
Proof.
  destruct (@fat_label_replaced _ _ _ (small_fat 4096) (small_fat_ok 4096) _ _ _ _ 7
    (mounted long_name_dir) 100 some_bytes 0 4096)
    as (v & s' & e & R & E & _ & Er & _ & _ & Re & _);
    [reflexivity|vm_compute; reflexivity|reflexivity|reflexivity|reflexivity|].
  exists v, s'. split; [exact R|]. injection E as <-. rewrite Er, Re. split; reflexivity.
Defined.

Lemma fat_label_created_witness :
  exists v s' i e, runs (@fat_ioctl_set_volume_label _ _ _ (small_fat 4096) _ 7 100)
      (mounted [a_file "README  TXT" 32]) v s' /\
    root s' !! i = Some e /\ name e = some_bytes.
Proof.
  destruct (@fat_label_created _ _ _ (small_fat 4096) (small_fat_ok 4096) _ _ _ _ 7
    (mounted [a_file "README  TXT" 32]) 100 some_bytes)
    as (m & err & t & v & s' & L & A & R & _ & _ & Ok);
    [reflexivity|vm_compute; reflexivity|reflexivity|].
  injection A as <- _. destruct (Ok eq_refl) as (i & e & E & N & _).
  exists v, s', i, e. split; [exact R|split; [exact E|exact N]].
Defined.

Lemma fat_label_errors_witness :
  @fat_ioctl_set_volume_label _ _ _ (small_fat (ERR_PTR (-12))) _ 7 105 (mounted long_name_dir) =
    Done (-14) (mounted long_name_dir) [] /\
  @fat_ioctl_set_volume_label _ _ _ (small_fat (ERR_PTR (-12))) _ 7 100 (mounted long_name_dir) =
    Undef NullDeref.
Proof.
  split.
  - apply (@fat_label_errors _ _ _ (small_fat (ERR_PTR (-12))) (small_fat_ok _) _ _ 7
      (mounted long_name_dir) 105). vm_compute. lia.
  - destruct (@fat_label_errors _ _ _ (small_fat (ERR_PTR (-12))) (small_fat_ok _) _ _ 7
      (mounted long_name_dir) 100) as [_ E].
    apply (E some_bytes 0%nat (ERR_PTR (-12))); [reflexivity|vm_compute; reflexivity|reflexivity
      |reflexivity|vm_compute; reflexivity].
Defined.
