(* ===== verification/FatApps.v ===== *)
(** * fat_ioctl.c on a kernel with the label patch (Task_20)

    The program of UserTools.v calls the ioctl of FatLabel.v: what the label of
    the volume is after the program ran. *)

From Stdlib Require Import ZArith Lia Strings.Byte.
From stdpp Require Import base strings gmap sets numbers list.
From S2P Require Import Prelude.
From S2P Require Import CString.
From S2P Require Import Kernel.
From S2P Require Import KernelInst.
From S2P Require Import UserProgs.
From S2P Require Import UserTools.
From S2P Require Import FatLabel.

(** ** What the system promises *)

Section Mounted.
Context {K : Type} `{Libc K} `{Ioctl K} `{FatCore} `{!Caller} `{ErrPtr}.
Variable garbage_time : Z.
Variable fat_generic_ioctl : Z -> Z -> M fat Z.
Variable set_dir_volume_label : Z.

(** The file system, and the descriptor on which the process has one of its
    directories open; [after] are the bytes of the process's memory behind the
    string it passes, up to the eleventh, and the process is the only one that uses the file
    system meanwhile. *)
Record mount := Mount { volume : K -> fat; dir_fd : K -> option Z; after : list byte }.

(** The calls reach the handlers of the directory; an ioctl with an address
    passes that address on, and reports a negative result as -1. *)
Class MountOk (V : mount) : Prop := {
  mount_open : forall k dir, dir_fd V k = None ->
    exists fd k', open dir O_RDONLY k = Done fd k' [] /\ 0 <= fd /\ volume V k' = volume V k /\
      dir_fd V k' = Some fd;
  mount_id : forall k fd g, dir_fd V k = Some fd ->
    exists id k', ioctl_int fd FAT_IOCTL_GET_VOLUME_ID g k = Done (0, id) k' [] /\
      0 <= id < two32 /\ volume V k' = volume V k /\ dir_fd V k' = Some fd;
  mount_label : forall k fd str v s o, dir_fd V k = Some fd ->
    fat_dir_ioctl garbage_time fat_generic_ioctl set_dir_volume_label set_dir_volume_label ubuf
      (set fat_umL (place (str ++ after V)) (volume V k)) = Done v s o ->
    exists k', ioctl_str fd FAT_IOCTL_SET_DIR_VOLUME_LABEL str k =
        Done (if v <? 0 then -1 else v) k' o /\
      volume V k' = s /\ dir_fd V k' = Some fd;
  mount_close : forall k fd, dir_fd V k = Some fd ->
    exists k', close fd k = Done 0 k' [] /\ volume V k' = volume V k /\ dir_fd V k' = None;
}.
End Mounted.

Section FatApp.
Context {K : Type} `{Libc K} `{Ioctl K} `{FatCoreOk} `{!Caller} `{!UserMemOk} `{!ErrPtr} `{!MutexOk}.
Context `{!LensOk fat16_label} `{!LensOk fat32_label}.
Variable garbage_time : Z.
Variable fat_generic_ioctl : Z -> Z -> M fat Z.
Variable number : Z.
Context (V : mount) `{!MountOk garbage_time fat_generic_ioctl number V}.

(** The call with a string, on a directory that has a label. *)
Lemma dir_ioctl_exec str s i r :
  mutex_is_locked (s_lock s) = false -> (length str + length (after V) = 11)%nat ->
  first_volume (root s) = Some i ->
  (forall t, fat_build_inode i (fat_make_i_pos i) t = Done r t []) -> IS_ERR r = false ->
  let lbl := str ++ after V in
  exists v s' e, runs (fat_dir_ioctl garbage_time fat_generic_ioctl number number ubuf)
      (set fat_umL (place (str ++ after V)) s) v s' /\
    root s !! i = Some e /\ root s' = <[i := with_name lbl e]> (root s) /\
    boot_result s lbl v s'.
Proof.
  intros F L Fv B R lbl. set (s1 := set fat_umL _ s).
  assert (user_bytes (fat_um s1) ubuf 11 = (lbl, O)) as U.
  { apply user_bytes_complete. replace 11%nat with (length lbl); [apply place_read|].
    unfold lbl. rewrite length_app. lia. }
  destruct (relabel_exec garbage_time s1 ubuf lbl i r F U Fv B R)
    as (v & s' & e & [o E] & Ei & _ & Er & Bo & _).
  exists v, s', e. split_and!; try done. eexists. unfold fat_dir_ioctl.
  rewrite Z.eqb_refl, exec_bind_printk, E. reflexivity.
Qed.

(** C24: run on a directory with an entry that has the volume bit, fat_ioctl exits
    with success and reports the result of the ioctl, which has put its literal
    into the first such entry, with that literal's NUL and the four bytes that
    lie behind it in memory, since the ioctl takes eleven bytes and the literal
    has seven. Unless the entry is a slot of a file's long name these are the volume's
    label from then on; when it is one, the label stays what it was, and
    success is reported as well. On a success the boot sector has the
    eleven bytes, otherwise it was not written. *)
Theorem fat_ioctl_relabels g dir (p : proc K) i r b1 b2 b3 b4 :
  dir_fd V (kern p) = None -> mutex_is_locked (s_lock (volume V (kern p))) = false ->
  after V = [b1; b2; b3; b4] ->
  first_volume (root (volume V (kern p))) = Some i ->
  (forall t, fat_build_inode i (fat_make_i_pos i) t = Done r t []) -> IS_ERR r = false ->
  let lbl := bytes "nishad" ++ [x00; b1; b2; b3; b4] in
  exists k o e v first second,
    fat_ioctl g ["fat_ioctl"; dir] p = Done EXIT_SUCCESS (say [first; verdict v; second] k p) o /\
    root (volume V (kern p)) !! i = Some e /\
    root (volume V k) = <[i := with_name lbl e]> (root (volume V (kern p))) /\
    volume_label (root (volume V k)) =
      (if is_long e then volume_label (root (volume V (kern p))) else Some lbl) /\
    (v = 0 -> boot_label (volume V k) = Some lbl) /\
    (v <> 0 -> sectors (volume V k) = sectors (volume V (kern p))) /\ dir_fd V k = None.
Proof.
  intros N F Ea Fv B R lbl.
  destruct (mount_open _ _ _ (kern p) dir N) as (fd & k1 & E1 & P1 & V1 & D1).
  destruct (mount_id _ _ _ k1 fd (u32 g) D1) as (id1 & k2 & E2 & I1 & V2 & D2).
  rewrite V1 in V2. rewrite <- V2 in F, Fv |- *.
  destruct (dir_ioctl_exec newlabel (volume V k2) i r) as (v & s & e & [o3 X3] & Ei & Er & Bo);
    [done|by rewrite Ea|done|done|done|].
  destruct (mount_label _ _ _ k2 fd newlabel v s o3 D2 X3) as (k3 & E3 & V3 & D3).
  destruct (mount_id _ _ _ k3 fd (u32 id1) D3) as (id2 & k4 & E4 & I2 & V4 & D4).
  destruct (mount_close _ _ _ k4 fd D4) as (k5 & E5 & V5 & D5).
  destruct (fat_ioctl_correct g "fat_ioctl" dir p fd k1 [] 0 id1 k2 []
    (if v <? 0 then -1 else v) k3 o3 0 id2 k4 [] 0 k5 [])
    as (h1 & l1 & h2 & l2 & X & _); try done; try lia.
  assert (newlabel ++ after V = lbl) as El by by rewrite Ea.
  rewrite El in *. do 2 eexists. exists e, (if v <? 0 then -1 else v). do 2 eexists. split; [exact X|].
  rewrite V5, V4, V3. split_and!; try done.
  - rewrite Er. apply volume_label_replaced; [done..|].
    destruct (IS_FREE lbl) eqn:Fr; [|done]. by apply is_free_name in Fr as [?|?].
  - intros D. destruct Bo as [(_ & _ & _ & Bl)|(-> & _)]; [done|by vm_compute in D].
  - intros D. by destruct Bo as [(-> & _)|(_ & Es & _)].
Qed.
End FatApp.

(** ** Witness *)

(** A system whose only device is the file system. *)
Record fat_sys := FatSys { f_fat : fat; f_fd : option Z }.

Definition fs_libc : Libc fat_sys := {|
  open _ _ k := match f_fd k with
                | None => Done 3 (FatSys (f_fat k) (Some 3)) []
                | Some _ => Done (-1) k []
                end;
  write _ _ k := Done (-1) k [];
  close _ k := Done 0 (FatSys (f_fat k) None) [];
  errno _ := ENOENT;
  strerror _ := bytes "error";
|}.

Definition behind : list byte := bytes "open".

Definition fs_ioctl : Ioctl fat_sys := {|
  ioctl_int fd _ old k := Done (0, 0xabcd1234) k [];
  ioctl_str fd _ str k :=
    match @fat_dir_ioctl _ _ _ (small_fat 4096) _ 7 (fun _ _ => mret (-25)) 1 1 ubuf
            (set fat_umL (place (str ++ behind)) (f_fat k)) with
    | Done v s o => Done (if v <? 0 then -1 else v) (FatSys s (f_fd k)) o
    | Undef u => Undef u
    end;
|}.

Definition fs_mount : mount := @Mount fat_sys _ _ _ f_fat f_fd behind.

Lemma fs_mount_ok :
  @MountOk fat_sys fs_libc fs_ioctl _ _ _ (small_fat 4096) _ _ 7 (fun _ _ => mret (-25)) 1 fs_mount.
Proof.
  split.
  - intros k dir N. simpl in *. rewrite N. exists 3. eexists. split_and!; done || lia.
  - intros k fd g D. exists 0xabcd1234, k. unfold two32. split_and!; done || lia.
  - intros k fd str v s o D E. cbn [ioctl_str fs_ioctl].
    change (volume fs_mount k) with (f_fat k) in E. change (after fs_mount) with behind in E.
    rewrite E. by eexists.
  - intros k fd D. by eexists.
Qed.

(** A label in front of a file. *)
Definition label_dir : list msdos_dir_entry :=
  [a_file "OLD LABEL  " ATTR_VOLUME; a_file "README  TXT" 32].

Lemma fat_ioctl_relabels_witness :
  let p := Proc (FatSys (mounted label_dir) None) [] [] in
  exists k o e v first second,
    @fat_ioctl _ fs_libc fs_ioctl 77 ["fat_ioctl"; "/media"] p =
      Done EXIT_SUCCESS (say [first; verdict v; second] k p) o /\
    label_dir !! 0%nat = Some e /\
    root (f_fat k) = <[0%nat := with_name (bytes "nishad" ++ x00 :: behind) e]> label_dir /\
    @volume_label _ _ _ (small_fat 4096) (root (f_fat k)) = Some (bytes "nishad" ++ x00 :: behind).
Proof.
  intros p. destruct (@fat_ioctl_relabels _ fs_libc fs_ioctl _ _ _ (small_fat 4096)
    (small_fat_ok 4096) _ _ _ _ _ _ 7 (fun _ _ => mret (-25)) 1 fs_mount fs_mount_ok
    77 "/media" p 0 4096 x6f x70 x65 x6e)
    as (k & o & e & v & f & s & E & Ei & Er & El & _);
    [reflexivity|reflexivity|reflexivity|reflexivity|reflexivity|reflexivity|].
  exists k, o, e, v, f, s. split; [exact E|]. split; [exact Ei|]. split; [exact Er|].
  injection Ei as <-. exact El.
Defined.
