(* ===== verification/SocketTalk.v ===== *)
(** * server.c and socket.c talking to each other (Task_19)

    UserTools.v has each of the two programs alone, over a system that answers
    its calls. Here they are processes that take turns at their calls: the same
    programs call by call, the two running side by side on one loopback
    network, and what every run of the pair ends in. *)

From Stdlib Require Import ZArith Lia Strings.Byte.
From stdpp Require Import base strings gmap sets numbers list.
From S2P Require Import Prelude.
From S2P Require Import CString.
From S2P Require Import UserProgs.
From S2P Require Import UserTools.

(** ** Programs, call by call *)

Inductive call :=
| Socket
| Setsockopt (fd opt v : Z)
| Bind (fd : Z) (a : sockaddr_in)
| Listen (fd n : Z)
| Accept (fd : Z)
| Connect (fd : Z) (a : sockaddr_in)
| Read (fd n : Z)
| Send (fd : Z) (bs : list byte).

(** A call is answered with its result and, for read, the bytes stored. *)
Inductive prog :=
| Ret (a : Z)
| Crash (u : ub)
| Print (f : string) (args : list karg) (p : prog)
| Perror (s : string) (p : prog)
| Call (c : call) (k : Z -> list byte -> prog).

Definition receive_prog (fd : Z) (k : list byte -> prog) : prog :=
  Call (Read fd 1024) (fun _ bs =>
    match splice 0 bs (replicate 1024 x00) with
    | Some buffer => k buffer
    | None => Crash OutOfBounds
    end).

Definition print_prog (buffer : list byte) (p : prog) : prog :=
  match string_in buffer with
  | Some s => Print "%s" [ArgS s] p
  | None => Crash OutOfBounds
  end.

Definition fail_prog (s : string) : prog := Perror s (Ret EXIT_FAILURE).

Definition server_msg : list byte := bytes "Hello Nishad from server".
Definition client_msg : list byte := bytes "Hello Nishad from client".

(** server.c, from its end: each definition is the rest of main from one call. *)
Definition server_send (new_socket : Z) : prog :=
  Call (Send new_socket server_msg) (fun _ _ =>
  Print "Hello Nishad message sent" [] (Ret 0)).

Definition server_read (new_socket : Z) : prog :=
  receive_prog new_socket (fun buffer => print_prog buffer (server_send new_socket)).

Definition server_accept (server_fd : Z) : prog :=
  Call (Accept server_fd) (fun new_socket _ =>
  if new_socket <? 0 then fail_prog "accept" else server_read new_socket).

Definition server_listen (server_fd : Z) : prog :=
  Call (Listen server_fd 3) (fun e _ =>
  if e <? 0 then fail_prog "listen" else server_accept server_fd).

Definition server_bind (server_fd : Z) : prog :=
  Call (Bind server_fd (Sockaddr AF_INET "0.0.0.0" (htons PORT))) (fun e _ =>
  if e <? 0 then fail_prog "bind failed" else server_listen server_fd).

Definition server_setsockopt (server_fd : Z) : prog :=
  Call (Setsockopt server_fd (Z.lor SO_REUSEADDR SO_REUSEPORT) 1) (fun e _ =>
  if negb (e =? 0) then fail_prog "setsockopt" else server_bind server_fd).

Definition server_prog : prog :=
  Call Socket (fun server_fd _ =>
  if server_fd =? 0 then fail_prog "socket failed" else server_setsockopt server_fd).

(** socket.c likewise; [pton] is what inet_pton returns. *)
Definition client_read (sock : Z) : prog :=
  receive_prog sock (fun buffer => print_prog buffer (Ret 0)).

Definition client_send (sock : Z) : prog :=
  Call (Send sock client_msg) (fun _ _ =>
  Print "Hello Nishad message sent" [] (client_read sock)).

Definition client_connect (sock : Z) : prog :=
  Call (Connect sock (Sockaddr AF_INET "127.0.0.1" (htons PORT))) (fun e _ =>
  if e <? 0 then Print "Connection Failed " [] (Ret (-1)) else client_send sock).

Definition client_prog (pton : Z) : prog :=
  Call Socket (fun sock _ =>
  if sock <? 0 then Print " Socket creation error " [] (Ret (-1)) else
  if pton <=? 0 then Print "Invalid address/ Address not supported " [] (Ret (-1)) else
  client_connect sock).

(** ** A program alone *)

Section Run.
Context {K : Type} `{Libc K} `{Sockets K}.

Definition perform (c : call) : M K (Z * list byte) :=
  match c with
  | Socket => r ← socket; mret (r, [])
  | Setsockopt fd opt v => r ← setsockopt fd opt v; mret (r, [])
  | Bind fd a => r ← bind fd a; mret (r, [])
  | Listen fd n => r ← listen fd n; mret (r, [])
  | Accept fd => r ← accept fd; mret (r, [])
  | Connect fd a => r ← connect fd a; mret (r, [])
  | Read fd n => read_sock fd n
  | Send fd bs => r ← send fd bs; mret (r, [])
  end.

Fixpoint run (p : prog) : M (proc K) Z :=
  match p with
  | Ret a => mret a
  | Crash u => undef u
  | Print f args p => printf f args ;; run p
  | Perror s p => perror s ;; run p
  | Call c k => r ← sys (perform c); run (k r.1 r.2)
  end.

(** A call that returns a number. *)
Lemma run_call c (m : M K Z) (k : Z -> list byte -> prog) :
  perform c = (r ← m; mret (r, [])) -> run (Call c k) ≈ (r ← sys m; run (k r [])).
Proof.
  intros E p. cbn [run]. rewrite E. unfold sys, zoom, mbind, M_bind, mret, M_ret. simpl.
  destruct (m (kern p)) as [r k' o|u]; [|done]. simpl. by rewrite app_nil_r.
Qed.

Lemma run_printf f args p : run (Print f args p) ≈ (printf f args ;; run p).
Proof. done. Qed.

Lemma run_fail s : run (fail_prog s) = fail s.
Proof. done. Qed.

Lemma run_receive fd k :
  run (receive_prog fd k) ≈ (buffer ← receive fd; run (k buffer)).
Proof.
  unfold receive. rewrite kequiv_assoc. simpl. apply kequiv_bind. intros [n bs]. simpl.
  destruct (splice 0 bs _); [by rewrite kequiv_ret|done].
Qed.

Lemma run_print buffer p :
  run (print_prog buffer p) ≈ (print_buffer buffer ;; run p).
Proof.
  unfold print_prog, print_buffer, string_arg. rewrite kequiv_assoc.
  destruct (string_in buffer); [by rewrite kequiv_ret|done].
Qed.

Lemma kequiv_if {S A} (b : bool) (m1 m2 m1' m2' : M S A) :
  m1 ≈ m1' -> m2 ≈ m2' -> (if b then m1 else m2) ≈ (if b then m1' else m2').
Proof. by destruct b. Qed.

Lemma run_if (b : bool) p q : run (if b then p else q) = if b then run p else run q.
Proof. by destruct b. Qed.
End Run.

Ltac run_step :=
  (etransitivity; [first [ eapply run_call; reflexivity | apply run_receive | apply run_print
                         | apply run_printf ]|];
   apply kequiv_bind; intros ?; cbv beta)
  || (rewrite run_if; apply kequiv_if; [reflexivity|]).

Section RunTheorems.
Context {K : Type} `{Libc K} `{Sockets K}.

(** Run alone over any system, the programs call by call are the programs
    of UserTools.v. *)
Theorem talk_programs_equiv :
  run server_prog ≈ server /\ run (client_prog (inet_pton "127.0.0.1")) ≈ client.
Proof.
  unfold server, client.
  unfold server_prog, server_setsockopt, server_bind, server_listen, server_accept, server_read,
    server_send, client_prog, client_connect, client_send, client_read.
  split; repeat run_step; reflexivity.
Qed.
End RunTheorems.

(** ** The two programs side by side *)

Inductive side := Server | Client.

(** The connection: none, in the queue of the listening socket, or accepted. *)
Inductive conn := Absent | Pending | Accepted.

#[export] Instance conn_eq_dec : EqDecision conn.
Proof. solve_decision. Defined.

Record net := Net {
  listening : bool;
  state : conn;
  to_server : list byte;                     (* sent and not yet read *)
  to_client : list byte;
}.

Definition inbox (d : side) (n : net) : list byte :=
  match d with Server => to_server n | Client => to_client n end.
Definition set_inbox (d : side) (bs : list byte) (n : net) : net :=
  match d with
  | Server => Net (listening n) (state n) bs (to_client n)
  | Client => Net (listening n) (state n) (to_server n) bs
  end.
Definition peer (d : side) : side := match d with Server => Client | Client => Server end.

(** [answers d g n c r bs n'] : the network may answer call [c] of side [d] so,
    where [g] says that the other process has exited; a call without an answer
    blocks. *)
Class Loopback := {
  sock_fd : side -> Z;
  conn_fd : Z;
  local_addr : Z;                            (* inet_pton of 127.0.0.1 *)
  answers : side -> bool -> net -> call -> Z -> list byte -> net -> Prop;
}.

Definition data_fd `{Loopback} (d : side) : Z :=
  match d with Server => conn_fd | Client => sock_fd Client end.

(** Streams on one machine, on which the port is free. A read waits for bytes
    and takes some of them; what was sent by a process that exited can still be
    read. *)
Class LoopbackOk `{Loopback} : Prop := {
  sock_fd_pos : forall d, 0 < sock_fd d;
  conn_fd_nonneg : 0 <= conn_fd;
  local_addr_ok : 0 < local_addr;
  ans_socket : forall d g n r bs n',
    answers d g n Socket r bs n' <-> r = sock_fd d /\ bs = [] /\ n' = n;
  ans_setsockopt : forall g n o v r bs n',
    answers Server g n (Setsockopt (sock_fd Server) o v) r bs n' <-> r = 0 /\ bs = [] /\ n' = n;
  ans_bind : forall g n r bs n',
    answers Server g n (Bind (sock_fd Server) (Sockaddr AF_INET "0.0.0.0" (htons PORT))) r bs n' <->
      r = 0 /\ bs = [] /\ n' = n;
  ans_listen : forall g n k r bs n',
    answers Server g n (Listen (sock_fd Server) k) r bs n' <->
      r = 0 /\ bs = [] /\ n' = Net true (state n) (to_server n) (to_client n);
  ans_accept : forall g n r bs n', listening n = true ->
    answers Server g n (Accept (sock_fd Server)) r bs n' <->
      state n = Pending /\ r = conn_fd /\ bs = [] /\
      n' = Net true Accepted (to_server n) (to_client n);
  ans_connect : forall g n r bs n', state n = Absent ->
    answers Client g n (Connect (sock_fd Client) (Sockaddr AF_INET "127.0.0.1" (htons PORT))) r bs n' <->
      bs = [] /\ if listening n then r = 0 /\ n' = Net true Pending (to_server n) (to_client n)
                 else r = -1 /\ n' = n;
  ans_send : forall d n bs r out n', state n <> Absent ->
    answers d false n (Send (data_fd d) bs) r out n' <->
      r = Z.of_nat (length bs) /\ out = [] /\
      n' = set_inbox (peer d) (inbox (peer d) n ++ bs) n;
  ans_read : forall d g n k r bs n', state n <> Absent -> inbox d n <> [] \/ g = false -> 0 < k ->
    answers d g n (Read (data_fd d) k) r bs n' <->
      bs <> [] /\ Z.of_nat (length bs) <= k /\ r = Z.of_nat (length bs) /\
      exists rest, inbox d n = bs ++ rest /\ n' = set_inbox d rest n;
}.

Section Talk.
Context `{Loopback}.

Definition gone (p : prog) : bool :=
  match p with Ret _ | Crash _ => true | _ => false end.

(** A step of one process: what it becomes, what it prints, and the network. *)
Inductive pstep (d : side) (g : bool) (n : net) : prog -> prog -> list line -> net -> Prop :=
| step_print f args p : pstep d g n (Print f args p) p [out f args] n
| step_perror s e p :
    pstep d g n (Perror s p) p [Stderr (Printk "%s: %s" [ArgS (bytes s); ArgS e])] n
| step_call c k r bs n' :
    answers d g n c r bs n' -> pstep d g n (Call c k) (k r bs) [] n'.

Record talk := TalkState {
  srv : prog;
  cli : prog;
  srv_out : list line;
  cli_out : list line;
  lo : net;
}.

Inductive tstep : talk -> talk -> Prop :=
| server_moves p c so co n p' o n' :
    pstep Server (gone c) n p p' o n' ->
    tstep (TalkState p c so co n) (TalkState p' c (so ++ o) co n')
| client_moves p c so co n c' o n' :
    pstep Client (gone p) n c c' o n' ->
    tstep (TalkState p c so co n) (TalkState p c' so (co ++ o) n').

Definition talk_init : talk :=
  TalkState server_prog (client_prog local_addr) [] [] (Net false Absent [] []).

(** ** What becomes of the two *)

Definition sent_line : line := out "Hello Nishad message sent" [].
Definition got_line (bs : list byte) : line := out "%s" [ArgS bs].

(** Both return 0, and each has printed a beginning of the other's message. *)
Definition talked (t : talk) : Prop :=
  srv t = Ret 0 /\ cli t = Ret 0 /\
  exists a b, a <> [] /\ a `prefix_of` client_msg /\ b <> [] /\ b `prefix_of` server_msg /\
    srv_out t = [got_line a; sent_line] /\ cli_out t = [sent_line; got_line b].

(** The client was too early; the server waits for another. *)
Definition refused (t : talk) : Prop :=
  srv t = server_accept (sock_fd Server) /\ cli t = Ret (-1) /\
  srv_out t = [] /\ cli_out t = [out "Connection Failed " []] /\ listening (lo t) = true.
End Talk.

(** ** The stages of the two programs *)

Section Stages.
Context `{LoopbackOk}.

(** The server before its call number [i]; at stage 6 it has read [a]. *)
Definition sp (i : nat) (a : list byte) : prog :=
  match i with
  | 0 => server_prog
  | 1 => server_setsockopt (sock_fd Server)
  | 2 => server_bind (sock_fd Server)
  | 3 => server_listen (sock_fd Server)
  | 4 => server_accept (sock_fd Server)
  | 5 => server_read conn_fd
  | 6 => Print "%s" [ArgS a] (server_send conn_fd)
  | 7 => server_send conn_fd
  | 8 => Print "Hello Nishad message sent" [] (Ret 0)
  | _ => Ret 0
  end%nat.

(** The client; stages 7 and 8 are those of a refused connection. *)
Definition cp (j : nat) (b : list byte) : prog :=
  match j with
  | 0 => client_prog local_addr
  | 1 => client_connect (sock_fd Client)
  | 2 => client_send (sock_fd Client)
  | 3 => Print "Hello Nishad message sent" [] (client_read (sock_fd Client))
  | 4 => client_read (sock_fd Client)
  | 5 => Print "%s" [ArgS b] (Ret 0)
  | 6 => Ret 0
  | 7 => Print "Connection Failed " [] (Ret (-1))
  | _ => Ret (-1)
  end%nat.

Definition connected (j : nat) : bool := (2 <=? j)%nat && (j <=? 6)%nat.
Definition has_sent (j : nat) : bool := (3 <=? j)%nat && (j <=? 6)%nat.
Definition has_read (j : nat) : bool := (5 <=? j)%nat && (j <=? 6)%nat.

(** The network between a server at stage [i] and a client at stage [j]. *)
Definition net_at (i j : nat) (a b : list byte) : net :=
  Net (4 <=? i)%nat
    (if connected j then if (5 <=? i)%nat then Accepted else Pending else Absent)
    (if has_sent j then if (6 <=? i)%nat then drop (length a) client_msg else client_msg else [])
    (if (8 <=? i)%nat then if has_read j then drop (length b) server_msg else server_msg else []).

Definition srv_lines (i : nat) (a : list byte) : list line :=
  (if (7 <=? i)%nat then [got_line a] else []) ++ (if (9 <=? i)%nat then [sent_line] else []).
Definition cli_lines (j : nat) (b : list byte) : list line :=
  (if (4 <=? j)%nat && (j <=? 6)%nat then [sent_line] else []) ++
  (if (j =? 6)%nat then [got_line b] else []) ++
  (if (j =? 8)%nat then [out "Connection Failed " []] else []).

(** Which stages go together. *)
Definition fits (i j : nat) : bool :=
  (i <=? 9)%nat && (j <=? 8)%nat && implb (connected j) (4 <=? i)%nat &&
  implb (5 <=? i)%nat (connected j) && implb (6 <=? i)%nat (has_sent j) &&
  implb (has_read j) (8 <=? i)%nat.

Definition part_of (m a : list byte) : Prop := a <> [] /\ a `prefix_of` m.

Record at_stage (i j : nat) (a b : list byte) (t : talk) : Prop := AtStage {
  st_srv : srv t = sp i a;
  st_cli : cli t = cp j b;
  st_srv_out : srv_out t = srv_lines i a;
  st_cli_out : cli_out t = cli_lines j b;
  st_net : lo t = net_at i j a b;
  st_fits : fits i j = true;
  st_a : (6 <= i)%nat -> part_of client_msg a;
  st_b : (5 <= j <= 6)%nat -> part_of server_msg b;
}.

(** How far a stage is from the end. *)
Definition srv_rank (i : nat) : nat := (9 - i)%nat.
Definition cli_rank (j : nat) : nat := if (7 <=? j)%nat then (8 - j)%nat else (6 - j)%nat.

(** A part of a short text without NUL is printed as it is. *)
Lemma print_part m a p :
  part_of m a -> x00 ∉ m -> (length m < 1024)%nat ->
  match splice 0 a (replicate 1024 x00) with
  | Some buffer => print_prog buffer p
  | None => Crash OutOfBounds
  end = Print "%s" [ArgS a] p.
Proof.
  intros [_ [tl ->]] N L. rewrite length_app in L.
  assert (x00 ∉ a) as Na by (intros E; apply N, elem_of_app; by left).
  destruct (splice 0 a (replicate 1024 x00)) as [buffer|] eqn:E.
  - apply splice_zeros in E as [-> La]. unfold print_prog.
    destruct (1024 - length a)%nat as [|k] eqn:Ek; [lia|]. simpl replicate.
    by rewrite string_in_app.
  - rewrite splice_spec in E; [done|lia|rewrite length_replicate; lia].
Qed.

Lemma msgs_plain : (x00 ∉ client_msg) /\ (x00 ∉ server_msg).
Proof. split; by apply (bool_decide_unpack _). Qed.

(** What a read of a whole message takes. *)
Lemma part_taken m a rest :
  m = a ++ rest -> a <> [] -> part_of m a /\ rest = drop (length a) m.
Proof. intros -> N. split; [split; [done|by exists rest]|by rewrite drop_app_length]. Qed.

(** Stages that fit are few. *)
Lemma fits_bounds i j : fits i j = true -> (i <= 9)%nat /\ (j <= 8)%nat.
Proof. unfold fits. rewrite !andb_true_iff, !Nat.leb_le. tauto. Qed.
End Stages.

(** Every stage of the client that fits the server's. *)
Ltac cases_of j F :=
  let B := fresh in
  pose proof (fits_bounds _ _ F) as B;
  destruct j as [|[|[|[|[|[|[|[|[|j]]]]]]]]]; [..|exfalso; lia]; try discriminate F; clear B.

Ltac stage :=
  split; first [ done | intros; lia
               | intros; match goal with P : _ -> part_of _ _ |- _ => apply P; lia end ].

(** And of the server that fits the client's. *)
Ltac cases_of' i F :=
  let B := fresh in
  pose proof (fits_bounds _ _ F) as B;
  destruct i as [|[|[|[|[|[|[|[|[|[|i]]]]]]]]]]; [..|exfalso; lia]; try discriminate F; clear B.

Section Steps.
Context `{LoopbackOk}.

Lemma server_step i j a b t p o n' :
  at_stage i j a b t -> pstep Server (gone (cli t)) (lo t) (srv t) p o n' ->
  (i < 9)%nat /\ exists a', at_stage (S i) j a' b (TalkState p (cli t) (srv_out t ++ o) (cli_out t) n').
Proof.
  destruct t as [sv cl so co n]. intros [-> -> -> -> -> F A B] St. cbn [srv cli srv_out cli_out lo] in *.
  destruct (fits_bounds _ _ F) as [Li _].
  destruct i as [|[|[|[|[|[|[|[|[|i]]]]]]]]]; [..|by inversion St]; (split; [lia|]);
    inversion St as [| |c k r bs n2 An]; subst; clear St.
  - apply ans_socket in An as (-> & -> & ->). pose proof (sock_fd_pos Server).
    rewrite (proj2 (Z.eqb_neq _ _)) by lia. exists a. cases_of j F; stage.
  - apply ans_setsockopt in An as (-> & -> & ->). exists a. cases_of j F; stage.
  - apply ans_bind in An as (-> & -> & ->). exists a. cases_of j F; stage.
  - apply ans_listen in An as (-> & -> & ->). exists a. cases_of j F; stage.
  - apply ans_accept in An as (Sn & -> & -> & ->); [|done]. pose proof conn_fd_nonneg.
    rewrite (proj2 (Z.ltb_ge _ _)) by lia. exists a. cases_of j F; stage.
  - assert (exists rest, part_of client_msg bs /\ rest = drop (length bs) client_msg /\
      n' = set_inbox Server rest (net_at 5 j a b) /\ has_sent j = true) as (rest & P & -> & -> & Hs).
    { cases_of j F; apply (ans_read Server) in An as (Nb & _ & _ & rest & E & ->);
        try (done || (by left) || (by right)); try (by destruct bs);
        destruct (part_taken _ _ _ E Nb) as [P R]; by exists rest. }
    rewrite (print_part client_msg) by (apply msgs_plain || done || (simpl; lia)).
    exists bs. cases_of j F; try discriminate Hs; stage.
  - exists a. cases_of j F; stage.
  - cases_of j F; apply (ans_send Server) in An as (-> & -> & ->); try done; exists a; stage.
  - exists a. cases_of j F; stage.
Qed.

Lemma client_step i j a b t p o n' :
  at_stage i j a b t -> pstep Client (gone (srv t)) (lo t) (cli t) p o n' ->
  exists j' b', at_stage i j' a b' (TalkState (srv t) p (srv_out t) (cli_out t ++ o) n') /\
    (cli_rank j' < cli_rank j)%nat.
Proof.
  destruct t as [sv cl so co n]. intros [-> -> -> -> -> F A B] St. cbn [srv cli srv_out cli_out lo] in *.
  destruct (fits_bounds _ _ F) as [_ Lj].
  destruct j as [|[|[|[|[|[|[|[|[|j]]]]]]]]]; [.. |exfalso; lia];
    try (by inversion St); inversion St as [| |c k r bs n2 An]; subst; clear St.
  - apply ans_socket in An as (-> & -> & ->). pose proof (sock_fd_pos Client).
    pose proof local_addr_ok. rewrite (proj2 (Z.ltb_ge _ _)), (proj2 (Z.leb_gt _ _)) by lia.
    exists 1%nat, b. cases_of' i F; (split; [stage|vm_compute; lia]).
  - apply ans_connect in An as [-> An]; [|done].
    change (listening _) with (4 <=? i)%nat in An. destruct (4 <=? i)%nat eqn:Li.
    + destruct An as [-> ->]. exists 2%nat, b. cases_of' i F; try discriminate Li;
        (split; [stage|vm_compute; lia]).
    + destruct An as [-> ->]. exists 7%nat, b. cases_of' i F; try discriminate Li;
        (split; [stage|vm_compute; lia]).
  - exists 3%nat, b. cases_of' i F; apply (ans_send Client) in An as (-> & -> & ->); try done;
      (split; [stage|vm_compute; lia]).
  - exists 4%nat, b. cases_of' i F; (split; [stage|vm_compute; lia]).
  - assert (exists rest, part_of server_msg bs /\ rest = drop (length bs) server_msg /\
      n' = set_inbox Client rest (net_at i 4 a b) /\ (8 <=? i)%nat = true)
      as (rest & P & -> & -> & Hs).
    { cases_of' i F; apply (ans_read Client) in An as (Nb & _ & _ & rest & E & ->);
        try (done || (by left) || (by right)); try (by destruct bs);
        destruct (part_taken _ _ _ E Nb) as [P R]; by exists rest. }
    rewrite (print_part server_msg) by (apply msgs_plain || done || (simpl; lia)).
    exists 5%nat, bs. cases_of' i F; try discriminate Hs; (split; [stage|vm_compute; lia]).
  - exists 6%nat, b. cases_of' i F; (split; [stage|vm_compute; lia]).
  - exists 8%nat, b. cases_of' i F; (split; [stage|vm_compute; lia]).
Qed.

Lemma stage_step i j a b t t' :
  at_stage i j a b t -> tstep t t' ->
  exists i' j' a' b', at_stage i' j' a' b' t' /\
    (S (srv_rank i' + cli_rank j') <= srv_rank i + cli_rank j)%nat.
Proof.
  intros St T. inversion T as [p c so co n p' o n' P|p c so co n c' o n' P]; subst.
  - destruct (server_step _ _ _ _ _ _ _ _ St P) as [L [a' St']].
    exists (S i), j, a', b. split; [done|]. unfold srv_rank. lia.
  - destruct (client_step _ _ _ _ _ _ _ _ St P) as (j' & b' & St' & L).
    exists i, j', a, b'. split; [done|lia].
Qed.

Lemma stage_steps k t t' :
  nsteps tstep k t t' -> forall i j a b, at_stage i j a b t ->
  exists i' j' a' b', at_stage i' j' a' b' t' /\
    (k + srv_rank i' + cli_rank j' <= srv_rank i + cli_rank j)%nat.
Proof.
  induction 1 as [t|k t t1 t2 T _ IH]; intros i j a b St; [by exists i, j, a, b|].
  destruct (stage_step _ _ _ _ _ _ St T) as (i1 & j1 & a1 & b1 & St1 & L1).
  destruct (IH _ _ _ _ St1) as (i2 & j2 & a2 & b2 & St2 & L2).
  exists i2, j2, a2, b2. split; [done|lia].
Qed.

Lemma stage_init : at_stage 0 0 [] [] talk_init.
Proof. stage. Qed.

(** A read that has something to read can be answered. *)
Lemma read_all d g n :
  state n <> Absent -> inbox d n <> [] -> (length (inbox d n) <= 1024)%nat ->
  answers d g n (Read (data_fd d) 1024) (Z.of_nat (length (inbox d n))) (inbox d n)
    (set_inbox d [] n).
Proof.
  intros A N L. apply ans_read; [done|by left|lia|]. split_and!; [done|lia|done|].
  exists []. by rewrite app_nil_r.
Qed.

(** When the server can go on. *)
Lemma server_can i j a b t :
  at_stage i j a b t ->
  (i <= 3 \/ i = 4 /\ connected j = true \/ i = 5 /\ has_sent j = true \/ 6 <= i <= 8)%nat ->
  exists t', tstep t t'.
Proof.
  intros St C. cut (exists p o n', pstep Server (gone (cli t)) (lo t) (srv t) p o n').
  { intros (p & o & n' & P). destruct t. eexists. by apply server_moves. }
  destruct St as [-> -> _ _ -> F _ _]. destruct (fits_bounds _ _ F) as [Li _].
  destruct i as [|[|[|[|[|[|[|[|[|i]]]]]]]]]; [..|exfalso; lia].
  - do 3 eexists. apply step_call. by apply ans_socket.
  - do 3 eexists. apply step_call. by apply ans_setsockopt.
  - do 3 eexists. apply step_call. by apply ans_bind.
  - do 3 eexists. apply step_call. by apply ans_listen.
  - assert (connected j = true) as Cj by (destruct C as [?|[[_ ?]|[[? _]|?]]]; done || lia).
    do 3 eexists. apply step_call. apply ans_accept; [done|].
    split_and!; [|done..]. unfold net_at. simpl. by rewrite Cj.
  - assert (has_sent j = true) as Cj by (destruct C as [?|[[? _]|[[_ ?]|?]]]; done || lia).
    cases_of j F; try done; do 3 eexists; apply step_call;
      (apply (read_all Server); [done|done|simpl; lia]).
  - do 3 eexists. apply step_print.
  - cases_of j F; do 3 eexists; apply step_call; by apply (ans_send Server).
  - do 3 eexists. apply step_print.
Qed.

(** When the client can. *)
Lemma client_can i j a b t :
  at_stage i j a b t -> (j <= 3 \/ j = 4 /\ 8 <= i \/ j = 5 \/ j = 7)%nat -> exists t', tstep t t'.
Proof.
  intros St C. cut (exists p o n', pstep Client (gone (srv t)) (lo t) (cli t) p o n').
  { intros (p & o & n' & P). destruct t. eexists. by apply client_moves. }
  destruct St as [-> -> _ _ -> F _ _]. destruct (fits_bounds _ _ F) as [_ Lj].
  destruct j as [|[|[|[|[|[|[|[|j]]]]]]]]; [..|exfalso; lia]; try (exfalso; lia);
    try by (do 3 eexists; apply step_print).
  - do 3 eexists. apply step_call. by apply ans_socket.
  - destruct (4 <=? i)%nat eqn:E; do 3 eexists; apply step_call; apply ans_connect; try done;
      (split; [done|]); change (listening _) with (4 <=? i)%nat; by rewrite E.
  - cases_of' i F; do 3 eexists; apply step_call; by apply (ans_send Client).
  - assert (8 <= i)%nat as Li by lia.
    cases_of' i F; try (exfalso; lia); do 3 eexists; apply step_call;
      (apply (read_all Client); [done|done|simpl; lia]).
Qed.
End Steps.

(** ** Theorems *)

Section TalkTheorems.
Context `{LoopbackOk}.

(** C22: however the two programs take turns and however short their reads are,
    they make at most fifteen steps, none into undefined behaviour; when
    neither can go on, either both have returned 0 and each has printed the
    beginning of the other's message, or the client connected too early: it has
    returned -1 and the server waits for a connection that does not come. *)
Theorem talk_ends k t :
  nsteps tstep k talk_init t ->
  (k <= 15)%nat /\ (forall u, srv t <> Crash u /\ cli t <> Crash u) /\
  ((forall t', ~ tstep t t') -> talked t \/ refused t).
Proof.
  intros Tr. destruct (stage_steps _ _ _ Tr _ _ _ _ stage_init) as (i & j & a & b & St & L).
  pose proof (st_fits _ _ _ _ _ St) as F. destruct (fits_bounds _ _ F) as [Li Lj].
  split; [change (k + srv_rank i + cli_rank j <= 15)%nat in L; lia|]. split.
  { destruct St as [-> -> _ _ _ _ _ _]. intros u. split.
    - by destruct i as [|[|[|[|[|[|[|[|[|]]]]]]]]].
    - by destruct j as [|[|[|[|[|[|[|[|]]]]]]]]. }
  intros Stuck. assert (forall P : Prop, (P -> exists t', tstep t t') -> ~ P) as No.
  { intros P C HP. destruct (C HP) as [t' T]. by apply (Stuck t'). }
  pose proof (No _ (server_can _ _ _ _ _ St)) as Ns. pose proof (No _ (client_can _ _ _ _ _ St)) as Nc.
  destruct St as [Es Ec Os Oc En _ A B].
  assert (i = 9 /\ j = 6 \/ i = 4 /\ j = 8)%nat as [[-> ->]|[-> ->]].
  { cases_of j F; cases_of' i F; first
      [ lia | exfalso; apply Ns; lia | exfalso; apply Nc; lia
      | exfalso; apply Ns; right; left; done | exfalso; apply Ns; right; right; left; done ]. }
  - left. split; [done|split; [done|]]. exists a, b.
    destruct (A ltac:(lia)), (B ltac:(lia)). by split_and!.
  - right. split_and!; try done. by rewrite En.
Qed.
End TalkTheorems.

(** ** Witnesses *)

#[export] Instance local_net : Loopback := {|
  sock_fd _ := 3;
  conn_fd := 4;
  local_addr := 1;
  answers d g n c r bs n' :=
    match c with
    | Socket => r = 3 /\ bs = [] /\ n' = n
    | Setsockopt _ _ _ | Bind _ _ => r = 0 /\ bs = [] /\ n' = n
    | Listen _ _ => r = 0 /\ bs = [] /\ n' = Net true (state n) (to_server n) (to_client n)
    | Accept _ => state n = Pending /\ r = 4 /\ bs = [] /\
        n' = Net true Accepted (to_server n) (to_client n)
    | Connect _ _ => bs = [] /\
        if listening n then r = 0 /\ n' = Net true Pending (to_server n) (to_client n)
        else r = -1 /\ n' = n
    | Send _ m => r = Z.of_nat (length m) /\ bs = [] /\
        n' = set_inbox (peer d) (inbox (peer d) n ++ m) n
    | Read _ k =>
        (bs <> [] /\ Z.of_nat (length bs) <= k /\ r = Z.of_nat (length bs) /\
          exists rest, inbox d n = bs ++ rest /\ n' = set_inbox d rest n) \/
        (g = true /\ inbox d n = [] /\ r = 0 /\ bs = [] /\ n' = n)
    end;
|}.

#[export] Instance local_net_ok : LoopbackOk.
Proof.
  split; simpl; try done; try lia.
  intros d g n k r bs n' _ O _. split; [|by left].
  intros [?|(G & I & _)]; [done|]. destruct O as [O|O]; [done|congruence].
Qed.

(** A client that starts before the server listens. *)
Definition too_early : talk :=
  TalkState (server_accept 3) (Ret (-1)) [] [out "Connection Failed " []] (Net true Absent [] []).

Lemma too_early_run : nsteps tstep 7 talk_init too_early.
Proof.
  eapply nsteps_l; [by eapply client_moves, (step_call _ _ _ _ _ 3 [])|].
  eapply nsteps_l; [by eapply client_moves, (step_call _ _ _ _ _ (-1) [])|].
  eapply nsteps_l; [by eapply client_moves, step_print|].
  eapply nsteps_l; [by eapply server_moves, (step_call _ _ _ _ _ 3 [])|].
  eapply nsteps_l; [by eapply server_moves, (step_call _ _ _ _ _ 0 [])|].
  eapply nsteps_l; [by eapply server_moves, (step_call _ _ _ _ _ 0 [])|].
  eapply nsteps_l; [by eapply server_moves, (step_call _ _ _ _ _ 0 [])|].
  apply nsteps_O.
Qed.

Lemma too_early_stuck t : ~ tstep too_early t.
Proof.
  intros T. inversion T as [p c so co n p' o n' P|p c so co n c' o n' P]; subst; inversion P; subst.
  by match goal with A : answers _ _ _ _ _ _ _ |- _ => destruct A end.
Qed.

(** And one that comes in time, to a server that reads five bytes only. *)
Definition in_time : talk :=
  TalkState (Ret 0) (Ret 0) [got_line (bytes "Hello"); sent_line] [sent_line; got_line server_msg]
    (Net true Accepted (bytes " Nishad from client") []).

Ltac server_goes r bs := eapply nsteps_l; [eapply server_moves, (step_call _ _ _ _ _ r bs)|].
Ltac client_goes r bs := eapply nsteps_l; [eapply client_moves, (step_call _ _ _ _ _ r bs)|].
Ltac server_prints := eapply nsteps_l; [by eapply server_moves, step_print|].
Ltac client_prints := eapply nsteps_l; [by eapply client_moves, step_print|].
Ltac reads rest := left; split_and!; [done|simpl; lia|done|by exists rest].

Lemma in_time_run : nsteps tstep 15 talk_init in_time.
Proof.
  server_goes 3 (@nil byte); [done|]. server_goes 0 (@nil byte); [done|].
  server_goes 0 (@nil byte); [done|]. server_goes 0 (@nil byte); [done|].
  client_goes 3 (@nil byte); [done|]. client_goes 0 (@nil byte); [done|].
  server_goes 4 (@nil byte); [done|]. client_goes 24 (@nil byte); [done|]. client_prints.
  server_goes 5 (bytes "Hello"); [reads (bytes " Nishad from client")|]. server_prints.
  server_goes 24 (@nil byte); [done|]. server_prints.
  client_goes 24 server_msg; [reads (@nil byte)|]. client_prints. apply nsteps_O.
Qed.

Lemma in_time_stuck t : ~ tstep in_time t.
Proof. intros T. inversion T; subst; by match goal with P : pstep _ _ _ _ _ _ _ |- _ => inversion P end. Qed.

Lemma talk_ends_witness :
  (talked in_time \/ refused in_time) /\ (talked too_early \/ refused too_early).
Proof.
  split.
  - exact (proj2 (proj2 (talk_ends 15 in_time in_time_run)) in_time_stuck).
  - exact (proj2 (proj2 (talk_ends 7 too_early too_early_run)) too_early_stuck).
Defined.

Lemma talk_programs_equiv_witness :
  @run _ (fat_libc true) hello_net server_prog (typed "") = @server _ (fat_libc true) hello_net (typed "").
Proof. exact (proj1 (@talk_programs_equiv _ (fat_libc true) hello_net) (typed "")). Defined.
