(* ===== verification/TalkHook.v ===== *)
(** * The two programs under the netfilter hook (Task_19)

    What the module prints while server.c and socket.c talk: the packets that
    carry their messages, searched by the hook of Netfilter.v with the
    configuration its initialisation made. *)

From Stdlib Require Import ZArith Lia Strings.Byte.
From stdpp Require Import base strings gmap sets numbers list.
From S2P Require Import Prelude.
From S2P Require Import CString.
From S2P Require Import Kernel.
From S2P Require Import KernelInst.
From S2P Require Import TextSearch.
From S2P Require Import Netfilter.
From S2P Require SocketTalk.

(** A message behind the headers of its packet. *)
Definition packet (hdr msg : list byte) : list byte := hdr ++ msg.
Definition talk_message (msg : list byte) : Prop :=
  msg = SocketTalk.client_msg \/ msg = SocketTalk.server_msg.

(** The configuration that init makes. *)
Record searching `{KList Z} `{ModuleRefs Z} `{Mutex} `{ErrPtr} `{!TsAlgo} (s : nfm)
    (c : ts_config priv) : Prop := Searching {
  sr_conf : ts_confs (core s) !! conf s = Some c;
  sr_pattern : pattern_of (conf_priv c) = bytes "Nishad";
  sr_flags : flags_of (conf_priv c) = 1;
}.

(** ** Lemmas *)

Lemma occurs_head b p text i : occurs_at (b :: p) text i -> text !! i = Some b.
Proof.
  unfold occurs_at. intros E. rewrite <- (Nat.add_0_r i), <- lookup_drop.
  destruct (drop i text) as [|x l]; simpl in *; [done|]. by injection E as ->.
Qed.

Lemma occurs_behind p hdr msg k :
  occurs_at p (hdr ++ msg) (length hdr + k) <-> occurs_at p msg k.
Proof. unfold occurs_at. by rewrite drop_app_add. Qed.

(** The only N of a message is at its seventh byte. *)
Lemma message_N msg k : talk_message msg -> msg !! k = Some x4e -> k = 6%nat.
Proof.
  assert (forall m : list byte, forallb (fun i => bool_decide (m !! i = Some x4e -> i = 6%nat))
    (seq 0 24) = true -> length m = 24%nat -> m !! k = Some x4e -> k = 6%nat) as X.
  { intros m F L E. pose proof (lookup_lt_Some _ _ _ E) as B.
    rewrite forallb_forall in F. specialize (F k). rewrite bool_decide_eq_true in F.
    apply F; [apply in_seq; lia|done]. }
  intros [-> | ->]; by apply X.
Qed.

Lemma packet_N hdr msg i :
  talk_message msg -> x4e ∉ hdr -> packet hdr msg !! i = Some x4e -> i = (length hdr + 6)%nat.
Proof.
  intros T N E. unfold packet in E. destruct (decide (i < length hdr)%nat) as [L|L].
  - rewrite lookup_app_l in E by done. by destruct N; apply list_elem_of_lookup; exists i.
  - rewrite lookup_app_r in E by lia. apply message_N in E; [lia|done].
Qed.

Lemma packet_match hdr msg pos :
  talk_message msg -> x4e ∉ hdr -> first_match (bytes "Nishad") (packet hdr msg) pos ->
  pos = Z.of_nat (length hdr) + 6.
Proof.
  intros T N F. assert (occurs_at (bytes "Nishad") (packet hdr msg) (length hdr + 6)) as O.
  { apply occurs_behind. by destruct T as [-> | ->]. }
  destruct F as [[_ No]|(i & -> & Oi & _)]; [by destruct (No _ O)|].
  apply occurs_head, packet_N in Oi; [lia|done|done].
Qed.

(** ** Theorem *)

Section TalkHook.
Context `{KListOk Z} `{ModuleRefsOk Z} `{MutexOk} `{ErrPtrOk} `{!TsAlgo} `{!TsAlgoOk}.
Variable skb_find_text : list byte -> ts_config priv -> Z.
Variable textsearch_next : ts_config priv -> ts_state -> Z * ts_state.

(** The documented result of searching a packet. *)
Hypothesis skb_find_first : forall data c,
  pattern_of (conf_priv c) <> [] -> Z.of_nat (length data) < UINT_MAX ->
  first_match (compared (conf_priv c) (pattern_of (conf_priv c))) (compared (conf_priv c) data)
    (skb_find_text data c).

(** C25: a packet that carries a message of server.c or socket.c, behind headers
    without the letter N, is accepted and reported six bytes into the message
    as the author's full name, which is nowhere in the packet: the search is
    for the first name only. What else is reported for it are the positions at
    which the module's own search state continues, whatever the packet. *)
Theorem talk_reported s c l st fuel hdr msg :
  searching s c -> continues textsearch_next c (eustate s) l st -> (length l <= fuel)%nat ->
  talk_message msg -> x4e ∉ hdr ->
  Z.of_nat (length hdr) <= 65535 - 24 ->
  let pos := Z.of_nat (length hdr) + 6 in
  eudyptula_hook skb_find_text textsearch_next (S fuel) (packet hdr msg) s =
    Done NF_ACCEPT (set eustateL st s)
      ([Printk "the pos is %d" [ArgZ pos]; Printk "Nishad Kamdar at %d" [ArgZ pos]] ++ lines l ++
       [Printk "Packet received of length %d" [ArgZ (Z.of_nat (length (packet hdr msg)))]]) /\
  forall i, ~ occurs_at (bytes "Nishad Kamdar") (packet hdr msg) i.
Proof.
  intros [Ec Ep Ef] C Lf T N B pos. split.
  - assert (length msg = 24%nat) as Lm by by destruct T as [-> | ->].
    assert (Z.of_nat (length (packet hdr msg)) <= 65535) as Lp
      by (unfold packet; rewrite length_app; lia).
    assert (skb_find_text (packet hdr msg) c = pos) as Es.
    { pose proof (skb_find_first (packet hdr msg) c) as F. unfold compared in F.
      rewrite Ep, Ef in F. apply (packet_match _ _ _ T N), F; [done|]. unfold UINT_MAX. lia. }
    rewrite (hook_exec skb_find_text textsearch_next s c l st (S fuel)
      (packet hdr msg) Ec C) by lia.
    rewrite Es, (proj2 (Z.eqb_neq _ _)) by (unfold UINT_MAX, pos; lia).
    rewrite (s32_id (Z.of_nat _)) by (unfold int_range; lia).
    change (lines (pos :: l)) with ([Printk "the pos is %d" [ArgZ (s32 pos)];
      Printk "Nishad Kamdar at %d" [ArgZ (s32 pos)]] ++ lines l).
    rewrite (s32_id pos) by (unfold int_range, pos; lia). by rewrite <- app_assoc.
  - intros i O. pose proof (occurs_head _ _ _ _ O) as E. apply packet_N in E; [|done|done].
    subst i. apply occurs_behind in O. by destruct T as [-> | ->].
Qed.
End TalkHook.

(** ** Witness *)

Lemma find_name_first data (c : ts_config (@priv naive_algo)) :
  pattern_of (conf_priv c) <> [] -> Z.of_nat (length data) < UINT_MAX ->
  first_match (compared (conf_priv c) (pattern_of (conf_priv c))) (compared (conf_priv c) data)
    (find_name data c).
Proof.
  intros P _. assert (naive_case (conf_priv c) (n_pattern (conf_priv c)) <> []) as P'.
  { unfold naive_case. destruct (_ =? 0); [done|].
    intros E. apply P. exact (fmap_nil_inv _ _ E). }
  destruct (search_from_spec _ (naive_case (conf_priv c) data) 0 P') as [F|(k & E & O & F)];
    [by left|]. right. exists k. split; [exact E|done].
Qed.

(** The headers of IP and TCP, as forty bytes. *)
Definition headers : list byte := replicate 40 x45.

Lemma talk_reported_witness :
  eudyptula_hook find_name no_next 1 (packet headers SocketTalk.client_msg) conf_nfm =
    Done NF_ACCEPT conf_nfm
      [Printk "the pos is %d" [ArgZ 46]; Printk "Nishad Kamdar at %d" [ArgZ 46];
       Printk "Packet received of length %d" [ArgZ 64]].
Proof.
  refine (proj1 (talk_reported find_name no_next find_name_first conf_nfm name_conf [] zero_state 0
    headers SocketTalk.client_msg _ (continues_end no_next name_conf zero_state eq_refl)
    (le_n 0) _ _ _)).
  - split; reflexivity.
  - left. reflexivity.
  - intros [E _]%elem_of_replicate. discriminate.
  - vm_compute. discriminate.
Defined.
