(* ===== verification/SysEudyptula.v ===== *)
(** * The system call sys_eudyptula (the patch of Task_15)

    The call puts two ints together into 64 bits and compares the result with
    the author's id. Here are the call, what putting together should mean, and
    the program that tests it (test_syscall.c, in UserTools.v). *)

From Stdlib Require Import ZArith Lia Strings.Byte.
From stdpp Require Import base strings gmap sets numbers list.
From S2P Require Import Prelude.
From S2P Require Import UserProgs.
From S2P Require Import UserTools.

(** ** The call *)

(** The sign of an int is extended when it is converted to u64. *)
Definition mush (high_id low_id : Z) : Z :=
  let full_id := u64 high_id in
  let full_id := u64 (Z.shiftl full_id 32) in
  Z.lor full_id (u64 low_id).

Definition sys_eudyptula (high_id low_id : Z) : Z :=
  if mush high_id low_id =? 1234567890 then 0 else -1.

(** Number 334 of the table; the wrapper that SYSCALL_DEFINE2 makes converts
    the registers to the types of the parameters. *)
Definition syscall_64 (nr : Z) : option (Z -> Z -> Z) :=
  if nr =? 334 then Some (fun a b => sys_eudyptula (s32 a) (s32 b)) else None.

(** ** What it should compute *)

(** The number with these two halves. *)
Definition joined (high_id low_id : Z) : Z := u32 high_id * two32 + u32 low_id.

(** syscall(2) of the C library: a result that is an error number leaves -1 and
    errno behind. *)
Class SyscallOk (K : Type) `{Syscall K} (entry : Z -> option (Z -> Z -> Z)) : Prop := {
  syscall_result : forall nr f a b k,
    entry nr = Some f ->
    exists k', syscall nr [a; b] k =
      Done (if (-4095 <=? f a b) && (f a b <? 0) then -1 else f a b) k' [];
}.

(** ** Lemmas *)

Lemma u32_bounds z : 0 <= u32 z < two32.
Proof. unfold u32. by apply Z.mod_pos_bound. Qed.

Lemma u64_int z : int_range z -> u64 z = if z <? 0 then z + two64 else z.
Proof.
  unfold int_range, u64, two64. intros. destruct (Z.ltb_spec z 0).
  - symmetry. apply (Z.mod_unique_pos _ _ (-1)); lia.
  - apply Z.mod_small. lia.
Qed.

(** Shifting the low half out. *)
Lemma shifted z : u64 (Z.shiftl (u64 z) 32) = u32 z * two32.
Proof.
  rewrite Z.shiftl_mul_pow2 by lia. unfold u64, u32, two64, two32.
  change (2 ^ 64) with (2 ^ 32 * 2 ^ 32). rewrite Z.mul_mod_distr_r by lia.
  rewrite Z.mod_mod_divide; [done|]. by exists (2 ^ 32).
Qed.

(** A low half stored under a shifted high half. *)
Lemma lor_halves h l : 0 <= l < two32 -> Z.lor (h * two32) l = h * two32 + l.
Proof.
  intros B. rewrite <- Z.add_lor_land. enough (Z.land (h * two32) l = 0) by lia.
  unfold two32 in *. rewrite <- Z.shiftl_mul_pow2 by lia.
  apply Z.bits_inj'. intros n Hn. rewrite Z.land_spec, Z.bits_0.
  destruct (Z.lt_ge_cases n 32) as [L|L].
  - by rewrite Z.shiftl_spec_low.
  - rewrite <- (Z.mod_small l (2 ^ 32)), Z.mod_pow2_bits_high by lia. apply andb_false_r.
Qed.

(** What the call computes: the low int, when it is negative, fills the high
    half with ones. *)
Lemma mush_joined high_id low_id :
  int_range low_id ->
  mush high_id low_id = joined (if low_id <? 0 then -1 else high_id) low_id.
Proof.
  intros R. unfold mush, joined. rewrite shifted, u64_int by done.
  pose proof (u32_bounds high_id) as H. pose proof (u32_bounds low_id) as L.
  rewrite (u32_nonneg low_id) in * by done. unfold int_range in R.
  destruct (Z.ltb_spec low_id 0) as [N|N].
  - change (u32 (-1)) with (Z.ones 32).
    replace (low_id + two64) with (Z.ones 32 * two32 + (low_id + two32))
      by (change (Z.ones 32) with (two32 - 1); unfold two64, two32; lia).
    rewrite <- !lor_halves, Z.lor_assoc by done. f_equal. unfold two32.
    rewrite <- !Z.shiftl_mul_pow2, <- Z.shiftl_lor by lia. f_equal.
    apply Z.lor_ones_low; [lia|]. destruct (Z.eq_dec (u32 high_id) 0) as [->|D]; [done|].
    apply Z.log2_lt_pow2; [lia|]. unfold two32 in H. lia.
  - by rewrite lor_halves.
Qed.

(** Two halves are recovered from the number. *)
Lemma joined_inj h l h' l' :
  int_range h -> int_range l -> int_range h' -> int_range l' ->
  joined h l = joined h' l' -> h = h' /\ l = l'.
Proof.
  intros R1 R2 R3 R4 E. unfold joined in E.
  pose proof (u32_bounds h). pose proof (u32_bounds l).
  pose proof (u32_bounds h'). pose proof (u32_bounds l').
  assert (u32 h = u32 h' /\ u32 l = u32 l') as [Eh El] by (unfold two32 in *; lia).
  rewrite <- (s32_u32 h), <- (s32_u32 l), Eh, El, !s32_u32 by done. done.
Qed.

Lemma author_number : 1234567890 = joined 0 1234567890.
Proof. done. Qed.

(** ** Theorems *)

(** C26: the call accepts exactly the numbers whose two halves make the id, as
    the reference definition [joined] does, so exactly a zero and the id; it
    agrees although it does not compute that number: a negative low half
    overwrites the high one. *)
Theorem sys_eudyptula_equiv high_id low_id :
  int_range high_id -> int_range low_id ->
  sys_eudyptula high_id low_id = (if joined high_id low_id =? 1234567890 then 0 else -1) /\
  (sys_eudyptula high_id low_id = 0 <-> high_id = 0 /\ low_id = 1234567890) /\
  (mush high_id low_id = joined high_id low_id <-> 0 <= low_id \/ high_id = -1).
Proof.
  intros Rh Rl. assert (int_range 0 /\ int_range (-1) /\ int_range 1234567890) as (R0 & R1 & R2)
    by (unfold int_range; lia).
  assert (forall h, int_range h -> joined h low_id = 1234567890 <-> h = 0 /\ low_id = 1234567890) as J.
  { intros h R. split; [|by intros [-> ->]]. intros E. rewrite author_number in E.
    by apply joined_inj in E. }
  unfold sys_eudyptula. rewrite mush_joined by done.
  destruct (Z.ltb_spec low_id 0) as [N|N]; split_and!.
  - rewrite !(proj2 (Z.eqb_neq _ _)); [done|..]; intros E; apply J in E; lia || done.
  - rewrite (proj2 (Z.eqb_neq _ _)); [lia|]. intros E; apply J in E; lia || done.
  - split; [|intros [? | ->]; [lia|done]]. intros E. apply joined_inj in E; [lia|done..].
  - done.
  - rewrite <- J by done. destruct (Z.eqb_spec (joined high_id low_id) 1234567890); split; done || lia.
  - split; [lia|done].
Qed.

(** On a kernel with the call at its number, the program that tests it is
    told 0: it prints that there was no error and returns 0. *)
Theorem test_syscall_accepted `{Syscall K} `{!SyscallOk K syscall_64} (p : proc K) :
  exists k, test_syscall p =
    Done 0 (say [out "The error obtained is %d" [ArgZ 0]] k p) [].
Proof.
  destruct (syscall_result 334 _ 0 1234567890 (kern p) eq_refl) as [k E].
  exists k. unfold test_syscall. rewrite (exec_bind_sys _ _ p _ _ _ E), exec_bind_printf.
  by destruct p.
Qed.

(** ** Witnesses *)

Definition table_syscall : Syscall Z := {|
  syscall nr args k :=
    match syscall_64 nr, args with
    | Some f, [a; b] =>
        if (-4095 <=? f a b) && (f a b <? 0) then Done (-1) (- f a b) [] else Done (f a b) k []
    | _, _ => Done (-1) 38 []
    end;
|}.

Lemma table_syscall_ok : @SyscallOk Z table_syscall syscall_64.
Proof.
  split. intros nr f a b k E. simpl. rewrite E.
  destruct ((-4095 <=? f a b) && (f a b <? 0)); by eexists.
Qed.

Lemma sys_eudyptula_equiv_witness :
  sys_eudyptula 7 (-1) = -1 /\ mush 7 (-1) <> joined 7 (-1).
Proof.
  assert (int_range 7 /\ int_range (-1)) as [R1 R2] by (unfold int_range; lia).
  destruct (sys_eudyptula_equiv 7 (-1) R1 R2) as (E & _ & M). split.
  - rewrite E. reflexivity.
  - intros X. apply M in X. lia.
Defined.

Lemma test_syscall_accepted_witness :
  exists k, @test_syscall Z table_syscall (Proc 0 [] []) =
    Done 0 (say [out "The error obtained is %d" [ArgZ 0]] k (Proc 0 [] [])) [].
Proof. exact (@test_syscall_accepted Z table_syscall table_syscall_ok (Proc 0 [] [])). Defined.
