(* ===== verification/ProcId.v ===== *)
(** * The proc file "id" of every task (the patch of Task_14)

    A new task starts with a fixed number, and each read of its file
    /proc/PID/id prints the number and adds one to it. First the reads one at
    a time, among forks, for all tasks; then reads of one file that overlap,
    where the increment is a load and a store. *)

From Stdlib Require Import ZArith Lia Strings.Byte.
From stdpp Require Import base strings gmap sets numbers list.
From S2P Require Import Prelude.

(** ** One call at a time *)

Definition FIRST_ID : Z := 12345678.

(** The field id of every task, by number, and what the open file has. *)
Record tasks := Tasks { task_id : gmap Z Z; seq_file : list kmsg }.

Definition task_idL : lens tasks (gmap Z Z) :=
  Lens task_id (fun i s => Tasks i (seq_file s)).
Definition seq_fileL : lens tasks (list kmsg) :=
  Lens seq_file (fun m s => Tasks (task_id s) m).

(** What copy_process does with the new field. *)
Definition copy_process (p : Z) : M tasks unit :=
  i ← kread task_idL; kwrite task_idL (<[p := FIRST_ID]> i).

Definition seq_printf (f : string) (l : list karg) : M tasks unit :=
  m ← kread seq_fileL; kwrite seq_fileL (m ++ [Printk f l]).

Definition proc_eudyptula_id (task : Z) : M tasks Z :=
  i ← kread task_idL;
  match i !! task with
  | None => undef UseAfterFree
  | Some n =>
      kwrite task_idL (<[task := u64 (n + 1)]> i) ;;
      seq_printf "id: %llu" [ArgZ n] ;;
      mret 0
  end.

(** What happens to the tasks: forks, and reads of their files. *)
Inductive event := Fork (p : Z) | Read (p : Z).

Definition handle (e : event) : M tasks Z :=
  match e with
  | Fork p => copy_process p ;; mret 0
  | Read p => proc_eudyptula_id p
  end.

Fixpoint handle_all (l : list event) : M tasks unit :=
  match l with
  | [] => mret tt
  | e :: l => handle e ;; handle_all l
  end.

(** The specification: the reads of a task since it was forked, if it was; a
    number is the first one and the reads there were before. *)
Definition count_read (p : Z) (n : option nat) (e : event) : option nat :=
  match e with
  | Fork q => if decide (q = p) then Some O else n
  | Read q => if decide (q = p) then S <$> n else n
  end.

Definition reads (p : Z) (l : list event) : option nat := fold_left (count_read p) l None.

Definition number (n : nat) : Z := u64 (FIRST_ID + Z.of_nat n).

(** The numbers the reads print, in order. *)
Fixpoint printed (before l : list event) : list Z :=
  match l with
  | [] => []
  | Fork p :: l => printed (before ++ [Fork p]) l
  | Read p :: l =>
      match reads p before with Some n => [number n] | None => [] end ++
      printed (before ++ [Read p]) l
  end.

(** Every task that is read was forked before. *)
Fixpoint forked (before l : list event) : Prop :=
  match l with
  | [] => True
  | Fork p :: l => forked (before ++ [Fork p]) l
  | Read p :: l => is_Some (reads p before) /\ forked (before ++ [Read p]) l
  end.

Definition id_line (n : Z) : kmsg := Printk "id: %llu" [ArgZ n].

(** ** Reads that overlap *)

(** A reader of one task's file: before the load, between the load and the
    store of the increment, and after its line was printed. *)
Inductive reader := Begin | Loaded (n : Z) | Printed (n : Z).

Record file := File { id : Z; readers : gmap nat reader; done_reads : Z }.

Inductive rstep : file -> file -> Prop :=
| r_open f r : readers f !! r = None ->
    rstep f (File (id f) (<[r := Begin]> (readers f)) (done_reads f))
| r_load f r : readers f !! r = Some Begin ->
    rstep f (File (id f) (<[r := Loaded (id f)]> (readers f)) (done_reads f))
| r_store f r n : readers f !! r = Some (Loaded n) ->
    rstep f (File (u64 (n + 1)) (<[r := Printed n]> (readers f)) (done_reads f + 1)).

Definition fresh_file (f : file) : Prop := f = File FIRST_ID ∅ 0.

(** ** Lemmas *)

Lemma reads_snoc p l e : reads p (l ++ [e]) = count_read p (reads p l) e.
Proof. unfold reads. by rewrite fold_left_app. Qed.

Lemma number_S n : u64 (number n + 1) = number (S n).
Proof.
  unfold number, u64. rewrite Zplus_mod_idemp_l. f_equal. lia.
Qed.

(** The field of each task says how often it was read. *)
Definition ids_ok (before : list event) (i : gmap Z Z) : Prop :=
  forall p, i !! p = number <$> reads p before.

Lemma handle_exec before e s :
  ids_ok before (task_id s) -> (forall p, e = Read p -> is_Some (reads p before)) ->
  exists i, handle e s =
      Done 0 (Tasks i (seq_file s ++ (id_line <$> printed before [e]))) [] /\
    ids_ok (before ++ [e]) i.
Proof.
  intros I F. destruct e as [p|p]; simpl.
  - exists (<[p := FIRST_ID]> (task_id s)). split.
    + unfold copy_process. kexec. rewrite app_nil_r. done.
    + intros q. rewrite reads_snoc. simpl. destruct (decide (p = q)) as [->|D].
      * by rewrite lookup_insert_eq.
      * rewrite lookup_insert_ne by done. apply I.
  - destruct (F p eq_refl) as [n En]. rewrite En. unfold proc_eudyptula_id.
    rewrite exec_bind_read. simpl. rewrite (I p), En. simpl.
    exists (<[p := u64 (number n + 1)]> (task_id s)). split.
    + unfold seq_printf. kexec. done.
    + intros q. rewrite reads_snoc. simpl. destruct (decide (p = q)) as [->|D].
      * rewrite lookup_insert_eq, En. simpl. by rewrite number_S.
      * rewrite lookup_insert_ne by done. apply I.
Qed.

Lemma handle_all_exec l before s :
  ids_ok before (task_id s) -> forked before l ->
  exists i, handle_all l s =
      Done tt (Tasks i (seq_file s ++ (id_line <$> printed before l))) [] /\
    ids_ok (before ++ l) i.
Proof.
  revert before s. induction l as [|e l IH]; intros before s I F.
  { exists (task_id s). simpl. rewrite !app_nil_r. by destruct s. }
  destruct (handle_exec before e s I) as (i & E & I').
  { intros p ->. apply F. }
  destruct (IH (before ++ [e]) (Tasks i (seq_file s ++ (id_line <$> printed before [e]))))
    as (j & E2 & J); [done|by destruct e; [|apply F]|].
  exists j. simpl. rewrite (exec_bind _ _ _ _ _ _ E), tell_nil, E2. simpl seq_file.
  rewrite <- !app_assoc in *. split; [|done]. do 2 f_equal. f_equal. rewrite <- fmap_app. f_equal.
  destruct e; simpl; [done|]. by rewrite app_nil_r.
Qed.

(** ** Theorems *)

(** C27: whatever tasks are forked and read, in any order, each read prints the
    first number and the count of the reads there were of that task since its
    fork, and the reads of one task do not touch the number of another. *)
Theorem proc_id_sequence l m :
  forked [] l ->
  exists i, handle_all l (Tasks ∅ m) = Done tt (Tasks i (m ++ (id_line <$> printed [] l))) [] /\
    forall p, i !! p = number <$> reads p l.
Proof. intros F. by apply (handle_all_exec l [] (Tasks ∅ m)). Qed.

(** Reads that overlap: the number never runs ahead of the reads that ended. *)
Record file_inv (f : file) : Prop := {
  fi_done : 0 <= done_reads f;
  fi_id : FIRST_ID <= id f <= FIRST_ID + done_reads f;
  fi_loaded : forall r n, readers f !! r = Some (Loaded n) ->
    FIRST_ID <= n <= FIRST_ID + done_reads f;
  fi_printed : forall r n, readers f !! r = Some (Printed n) ->
    FIRST_ID <= n < FIRST_ID + done_reads f;
}.

Lemma file_inv_step f f' :
  done_reads f < 2 ^ 63 -> file_inv f -> rstep f f' -> file_inv f'.
Proof.
  intros B [D I L P] St.
  destruct St as [f r E|f r E|f r n E]; split; simpl; try done;
    try (intros q k; rewrite lookup_insert; case_decide; [|eauto]; by intros [= <-]).
  - lia.
  - pose proof (L r n E). rewrite u64_id by (unfold FIRST_ID, two64 in *; lia). lia.
  - intros q k. rewrite lookup_insert. case_decide; [done|]. intros K%L. lia.
  - pose proof (L r n E). intros q k. rewrite lookup_insert.
    case_decide; [intros [= <-]; lia|]. intros K%P. lia.
Qed.

Lemma file_reachable_inv f :
  reachable fresh_file rstep f -> 0 <= done_reads f /\ (done_reads f < 2 ^ 63 -> file_inv f).
Proof.
  revert f. apply reachable_inv.
  - intros f ->. split; [done|]. intros _. split; simpl; [done|lia|..];
      intros r n; by rewrite lookup_empty.
  - intros f f' [D I] St. split; [destruct St; simpl; lia|]. intros B.
    assert (done_reads f < 2 ^ 63) by (destruct St; simpl in *; lia).
    apply (file_inv_step f); auto.
Qed.

(** Reads of one file that overlap print only numbers that are due: each at
    least the first one and less than the first one and the number of reads
    that ended; but since nothing guards the increment, two of them can print
    the same. *)
Theorem proc_id_overlap :
  (forall f r n, reachable fresh_file rstep f -> done_reads f < 2 ^ 63 ->
    readers f !! r = Some (Printed n) -> FIRST_ID <= n < FIRST_ID + done_reads f) /\
  (exists f r q n, reachable fresh_file rstep f /\ r <> q /\
    readers f !! r = Some (Printed n) /\ readers f !! q = Some (Printed n)).
Proof.
  split.
  - intros f r n [_ I]%file_reachable_inv B E. apply (fi_printed f (I B) r n E).
  - exists (File (FIRST_ID + 1) (<[1%nat := Printed FIRST_ID]> (<[O := Printed FIRST_ID]>
      (<[1%nat := Loaded FIRST_ID]> (<[O := Loaded FIRST_ID]>
      (<[1%nat := Begin]> (<[O := Begin]> ∅)))))) 2), O, 1%nat, FIRST_ID.
    split; [|split_and!; done].
    exists (File FIRST_ID ∅ 0). split; [done|].
    eapply rtc_l; [by apply (r_open _ O)|]. eapply rtc_l; [by apply (r_open _ 1%nat)|].
    eapply rtc_l; [by apply (r_load _ O)|]. eapply rtc_l; [by apply (r_load _ 1%nat)|].
    eapply rtc_l; [by apply (r_store _ O FIRST_ID)|].
    eapply rtc_l; [by apply (r_store _ 1%nat FIRST_ID)|]. apply rtc_refl.
Qed.

(** ** Witnesses *)

Lemma proc_id_sequence_witness :
  let l := [Fork 1; Read 1; Fork 2; Read 1; Read 2; Read 1] in
  exists i, handle_all l (Tasks ∅ []) =
    Done tt (Tasks i [id_line 12345678; id_line 12345679; id_line 12345678; id_line 12345680]) [].
Proof.
  intros l. destruct (proc_id_sequence l []) as (i & E & _).
  - repeat split; by eexists.
  - exists i. exact E.
Defined.
