(* ===== verification/Lis3.v ===== *)
(** * The id file of the accelerometer driver (the patch of Task_11)

    The patch adds the callbacks of my_sysfs.c's [id] to the lis3lv02d driver,
    and creates the file in /sys/devices when the driver registers its
    platform device. The driver core is an interface. *)

From Stdlib Require Import ZArith Lia Strings.Byte.
From stdpp Require Import base strings gmap sets numbers list.
From S2P Require Import Prelude.
From S2P Require Import CString.
From S2P Require Import Kernel.
From S2P Require Import KernelInst.
From S2P Require Import MiscDev.
From S2P Require Sysfs.

(** ** The callbacks, on the driver's own buffer *)

Definition lis3_inputL : lens (list byte) (list byte) := Lens id (fun b _ => b).

(** sprintf(buf, "%s\n", author_id). *)
Definition id_show (buf : list byte) : M (list byte) (Z * list byte) :=
  match string_in author_id with
  | None => undef OutOfBounds
  | Some str =>
      match splice 0 (str ++ [x0a; x00]) buf with
      | None => undef OutOfBounds
      | Some buf' => mret (Z.of_nat (length str) + 1, buf')
      end
  end.

Definition id_store (buf : list byte) (count : Z) : M (list byte) Z :=
  user_input ← kread lis3_inputL;
  match strncpy user_input buf (Z.to_nat count) with
  | None => undef OutOfBounds
  | Some user_input =>
      kwrite lis3_inputL user_input ;;
      match strncmp author_id user_input 13 with
      | None => undef OutOfBounds
      | Some c =>
          if negb (c =? 0)
          then printk "incorrect value written" [] ;; mret (-1)
          else printk "correct value written" [] ;; mret (s32 count)
      end
  end.

(** ** The driver core *)

(** The directories of sysfs and the attribute files in each; [None] where
    there is no such directory. *)
Class DriverCore := {
  dcore : Type;
  kobj : Type;
  kobj_eq_dec :: EqDecision kobj;
  files : dcore -> kobj -> option (gset string);
  dev_kobj : Z -> kobj;                    (* &pdev->dev.kobj *)
  parent : kobj -> kobj;
  platform_device_register_simple : string -> dcore -> Z * dcore;
  platform_device_unregister : Z -> dcore -> dcore;
  platform_set_drvdata : Z -> dcore -> dcore;
  sysfs_create_file : kobj -> string -> dcore -> Z * dcore;
  sysfs_remove_file : kobj -> string -> dcore -> dcore;
  sysfs_create_group : kobj -> gset string -> dcore -> Z * dcore;
  sysfs_remove_group : kobj -> gset string -> dcore -> dcore;
}.

(** Only directory [k] changed, and now has [v]. *)
Definition now_has `{DriverCore} (c : dcore) (k : kobj) (v : option (gset string)) (c' : dcore) :=
  forall j, files c' j = upd (files c) k v j.
Definition same_files `{DriverCore} (c c' : dcore) : Prop := forall j, files c' j = files c j.

(** A registered device has a directory of its own, and the one two levels up
    is another, which was there before; what fails changes nothing. *)
Class DriverCoreOk `{ErrPtr} `{DriverCore} : Prop := {
  register_device : forall n c p c', platform_device_register_simple n c = (p, c') ->
    if IS_ERR p then same_files c c'
    else files c (dev_kobj p) = None /\ (exists fs, now_has c (dev_kobj p) (Some fs) c') /\
      parent (parent (dev_kobj p)) <> dev_kobj p /\
      is_Some (files c (parent (parent (dev_kobj p))));
  unregister_device : forall p c,
    now_has c (dev_kobj p) None (platform_device_unregister p c);
  set_drvdata_files : forall p c, same_files c (platform_set_drvdata p c);
  create_file_ok : forall k n c c' fs, sysfs_create_file k n c = (0, c') ->
    files c k = Some fs -> (n ∉ fs) /\ now_has c k (Some ({[n]} ∪ fs)) c';
  create_file_fails : forall k n c e c', sysfs_create_file k n c = (e, c') -> e <> 0 ->
    same_files c c';
  remove_file_ok : forall k n c fs, files c k = Some fs ->
    now_has c k (Some (fs ∖ {[n]})) (sysfs_remove_file k n c);
  create_group_ok : forall k g c c' fs, sysfs_create_group k g c = (0, c') ->
    files c k = Some fs -> now_has c k (Some (g ∪ fs)) c';
  create_group_fails : forall k g c e c', sysfs_create_group k g c = (e, c') -> e <> 0 ->
    same_files c c';
  remove_group_ok : forall k g c fs, files c k = Some fs ->
    now_has c k (Some (fs ∖ g)) (sysfs_remove_group k g c);
}.

(** ** Registration *)

Section Driver.
Context `{ErrPtr} `{DriverCore}.

(** DRIVER_NAME and the attributes of lis3lv02d_attribute_group, which the
    driver declares elsewhere. *)
Variable DRIVER_NAME : string.
Variable lis3lv02d_attribute_group : gset string.

Record lis3lv02d := Lis3 { core : dcore; pdev : Z }.

Definition coreL : lens lis3lv02d dcore := Lens core (fun c s => Lis3 c (pdev s)).
Definition pdevL : lens lis3lv02d Z := Lens pdev (fun p s => Lis3 (core s) p).

(** A call of the driver core, with a result and without. *)
Definition on_core {A} (f : dcore -> A * dcore) : M lis3lv02d A :=
  c ← kread coreL;
  let r := f c in
  kwrite coreL r.2 ;; mret r.1.
Definition on_core_void (f : dcore -> dcore) : M lis3lv02d unit :=
  c ← kread coreL; kwrite coreL (f c).

(** lis3->pdev->dev.kobj.parent->parent *)
Definition devices_dir (p : Z) : kobj := parent (parent (dev_kobj p)).

Definition lis3lv02d_add_fs (dbg : bool) : M lis3lv02d Z :=
  p ← on_core (platform_device_register_simple DRIVER_NAME);
  kwrite pdevL p ;;
  if IS_ERR p then mret (s32 (PTR_ERR p)) else
  on_core_void (platform_set_drvdata p) ;;
  file_id ← on_core (sysfs_create_file (devices_dir p) "id");
  (if negb (file_id =? 0)
   then pr_debug dbg (mret (Printk "unable to create id file in /sys/devices" []))
   else mret tt) ;;
  on_core (sysfs_create_group (dev_kobj p) lis3lv02d_attribute_group).

(** The part the patch shows, which ends before the power management. *)
Definition lis3lv02d_remove_fs : M lis3lv02d unit :=
  p ← kread pdevL;
  on_core_void (sysfs_remove_group (dev_kobj p) lis3lv02d_attribute_group) ;;
  on_core_void (sysfs_remove_file (devices_dir p) "id") ;;
  on_core_void (platform_device_unregister p).
End Driver.

(** ** Lemmas *)

Section DriverFacts.
Context `{DriverCoreOk}.
Implicit Types s : lis3lv02d.

Lemma exec_on_core {A B} (f : dcore -> A * dcore) (k : A -> M lis3lv02d B) s :
  (on_core f ≫= k) s = k (f (core s)).1 (Lis3 (f (core s)).2 (pdev s)).
Proof.
  by rewrite (exec_bind _ _ _ (f (core s)).1 (Lis3 (f (core s)).2 (pdev s)) []), tell_nil.
Qed.

Lemma exec_on_core_void {B} (f : dcore -> dcore) (k : unit -> M lis3lv02d B) s :
  (on_core_void f ≫= k) s = k tt (Lis3 (f (core s)) (pdev s)).
Proof. by rewrite (exec_bind _ _ _ tt (Lis3 (f (core s)) (pdev s)) []), tell_nil. Qed.

Lemma now_has_eq c k v c' : now_has c k v c' -> files c' k = v.
Proof. intros N. rewrite N. unfold upd. by rewrite decide_True. Qed.

Lemma now_has_ne c k v c' j : now_has c k v c' -> j <> k -> files c' j = files c j.
Proof. intros N D. rewrite N. unfold upd. by rewrite decide_False. Qed.

(** What creating the file leaves in its directory, whether it works or not. *)
Definition id_created (e : Z) (fs : gset string) : gset string :=
  if e =? 0 then {["id"]} ∪ fs else fs.

Lemma create_id_step k c fs e c' :
  files c k = Some fs -> sysfs_create_file k "id" c = (e, c') ->
  now_has c k (Some (id_created e fs)) c' /\ (e = 0 -> "id" ∉ fs).
Proof.
  intros F E. unfold id_created. destruct (Z.eqb_spec e 0) as [->|D].
  - destruct (create_file_ok _ _ _ _ _ E F) as [Ni N]. done.
  - split; [|done]. intros j. rewrite (create_file_fails _ _ _ _ _ E D).
    unfold upd. case_decide as Dj; [by rewrite Dj|done].
Qed.

Lemma create_group_step k g c fs e c' :
  files c k = Some fs -> sysfs_create_group k g c = (e, c') ->
  exists fs', now_has c k (Some fs') c' /\ (e = 0 -> fs' = g ∪ fs) /\ (e <> 0 -> fs' = fs).
Proof.
  intros F E. destruct (decide (e = 0)) as [->|D].
  - exists (g ∪ fs). split; [by eapply create_group_ok|done].
  - exists fs. split; [|done]. intros j. rewrite (create_group_fails _ _ _ _ _ E D).
    unfold upd. case_decide as Dj; [by rewrite Dj|done].
Qed.

(** Unloading removes the device's directory and the name from the other. *)
Lemma remove_exec g s d fs ds :
  files (core s) (dev_kobj (pdev s)) = Some ds -> d = devices_dir (pdev s) ->
  d <> dev_kobj (pdev s) -> files (core s) d = Some fs ->
  exists s', lis3lv02d_remove_fs g s = Done tt s' [] /\
    files (core s') (dev_kobj (pdev s)) = None /\ files (core s') d = Some (fs ∖ {["id"]}) /\
    forall j, j <> d -> j <> dev_kobj (pdev s) -> files (core s') j = files (core s) j.
Proof.
  intros Fd -> D F. eexists. split.
  { unfold lis3lv02d_remove_fs. rewrite exec_bind_read, !exec_on_core_void. reflexivity. }
  simpl. set (c1 := sysfs_remove_group _ _ _). set (c2 := sysfs_remove_file _ _ _).
  pose proof (remove_group_ok (dev_kobj (pdev s)) g (core s) ds Fd) as N1. fold c1 in N1.
  assert (files c1 (devices_dir (pdev s)) = Some fs) as F1 by by rewrite (now_has_ne _ _ _ _ _ N1).
  pose proof (remove_file_ok _ "id" c1 fs F1) as N2. fold c2 in N2.
  pose proof (unregister_device (pdev s) c2) as N3. split_and!.
  - by apply (now_has_eq _ _ _ _ N3).
  - rewrite (now_has_ne _ _ _ _ _ N3) by done. by apply (now_has_eq _ _ _ _ N2).
  - intros j J1 J2. rewrite (now_has_ne _ _ _ _ _ N3), (now_has_ne _ _ _ _ _ N2) by done.
    by apply (now_has_ne _ _ _ _ _ N1).
Qed.

(** The message about the id file. *)
Lemma complain_exec (b dbg : bool) (k : kmsg) s :
  exists o, (if b then pr_debug dbg (mret k) else mret tt) s = Done tt s o.
Proof. destruct b, dbg; by eexists. Qed.

(** The files, once the device is registered. *)
Lemma add_files_exec g dbg p c fs ds :
  files c (devices_dir p) = Some fs -> files c (dev_kobj p) = Some ds ->
  devices_dir p <> dev_kobj p ->
  let e := (sysfs_create_file (devices_dir p) "id" c).1 in
  let v := (sysfs_create_group (dev_kobj p) g (sysfs_create_file (devices_dir p) "id" c).2).1 in
  exists c' ds', runs
    (file_id ← on_core (sysfs_create_file (devices_dir p) "id");
     (if negb (file_id =? 0)
      then pr_debug dbg (mret (Printk "unable to create id file in /sys/devices" []))
      else mret tt) ;;
     on_core (sysfs_create_group (dev_kobj p) g)) (Lis3 c p) v (Lis3 c' p) /\
    files c' (devices_dir p) = Some (id_created e fs) /\ (e = 0 -> "id" ∉ fs) /\
    files c' (dev_kobj p) = Some ds' /\ (v = 0 -> ds' = g ∪ ds) /\ (v <> 0 -> ds' = ds) /\
    forall j, j <> devices_dir p -> j <> dev_kobj p -> files c' j = files c j.
Proof.
  intros F Fd D. destruct (sysfs_create_file (devices_dir p) "id" c) as [e c1] eqn:E1.
  simpl fst. simpl snd. destruct (create_id_step _ _ _ _ _ F E1) as [N1 Ni].
  destruct (sysfs_create_group (dev_kobj p) g c1) as [v c2] eqn:E2.
  destruct (create_group_step (dev_kobj p) g c1 ds v c2) as (ds' & N2 & G & G'); [|done|].
  { by rewrite (now_has_ne _ _ _ _ _ N1). }
  exists c2, ds'. split.
  { unfold runs. rewrite exec_on_core. simpl. rewrite E1. simpl.
    edestruct complain_exec as [o Eo]. rewrite (exec_bind _ _ _ _ _ _ Eo). unfold on_core.
    rewrite exec_bind_read. simpl. rewrite E2. by eexists. }
  split_and!; try done.
  - by rewrite (now_has_ne _ _ _ _ _ N2), (now_has_eq _ _ _ _ N1).
  - by rewrite (now_has_eq _ _ _ _ N2).
  - intros j J1 J2. by rewrite (now_has_ne _ _ _ _ _ N2), (now_has_ne _ _ _ _ _ N1).
Qed.
End DriverFacts.

(** ** Theorems *)

(** On a buffer of their own, the callbacks that the patch gives to the
    accelerometer driver are those of the sysfs module: the same values, data,
    messages and undefined behaviour on every input. *)
Theorem lis3_id_equiv `{Mutex} (s : Sysfs.sysm) buf count :
  Sysfs.id_show buf s = zoom Sysfs.sys_inputL (id_show buf) s /\
  Sysfs.id_store buf count s = zoom Sysfs.sys_inputL (id_store buf count) s.
Proof.
  unfold Sysfs.id_show, Sysfs.sprintf_line, Sysfs.id_store, id_show, id_store, zoom.
  destruct s as [input page lock]. split.
  - destruct (string_in author_id) as [str|]; [|done]. by destruct (splice 0 _ buf).
  - rewrite !exec_bind_read. simpl. destruct (strncpy input buf _) as [i|]; [|done].
    rewrite !exec_bind_write. destruct (strncmp author_id i 13) as [c|]; [|done].
    by destruct (negb (c =? 0)).
Qed.

Section DriverTheorems.
Context `{DriverCoreOk}.
Implicit Types s : lis3lv02d.

(** C28: adding the driver's files either fails at the device and changes
    nothing; or it leaves the device registered and calls sysfs_create_file in
    /sys/devices, where the id file then is when that call returned 0 and
    nothing has changed when it did not, while the result is only that of
    creating the group, whose files are in the device's directory when it is 0.
    Removing them then restores every other directory, and /sys/devices too
    unless it had an id file of its own, which is removed with no one having
    asked. *)
Theorem lis3_add_remove n g dbg s :
  let r := platform_device_register_simple n (core s) in
  let d := devices_dir r.1 in
  let c := platform_set_drvdata r.1 r.2 in
  let file := sysfs_create_file d "id" c in
  let group := sysfs_create_group (dev_kobj r.1) g file.2 in
  exists v s', runs (lis3lv02d_add_fs n g dbg) s v s' /\ pdev s' = r.1 /\
    if IS_ERR r.1 then v = s32 (PTR_ERR r.1) /\ same_files (core s) (core s')
    else
     v = group.1 /\ exists fs ds,
       files (core s) d = Some fs /\
       files (core s') d = Some (if file.1 =? 0 then {["id"]} ∪ fs else fs) /\
       (file.1 = 0 -> "id" ∉ fs) /\ files (core s) (dev_kobj r.1) = None /\
       files (core s') (dev_kobj r.1) = Some ds /\ (v = 0 -> g ⊆ ds) /\
       exists s'', runs (lis3lv02d_remove_fs g) s' tt s'' /\
         files (core s'') d = Some (fs ∖ {["id"]}) /\
         forall j, j <> d -> files (core s'') j = files (core s) j.
Proof.
  intros r d c file group. subst group file c d. unfold runs, lis3lv02d_add_fs.
  rewrite exec_on_core. subst r.
  destruct (platform_device_register_simple n (core s)) as [p c1] eqn:E1. simpl fst. simpl snd.
  rewrite exec_bind_write. pose proof (register_device _ _ _ _ E1) as R.
  destruct (IS_ERR p) eqn:Ep.
  { eexists _, _. split; [by eexists|]. by split. }
  destruct R as (N0 & (ds & N1) & Dd & [fs F]). fold (devices_dir p) in Dd, F.
  rewrite exec_on_core_void. simpl. set (c2 := platform_set_drvdata p c1).
  pose proof (set_drvdata_files p c1) as N2. fold c2 in N2.
  destruct (add_files_exec g dbg p c2 fs ds) as (c3 & ds' & R & F3 & Ni & Fd & G & _ & K3);
    [by rewrite N2, (now_has_ne _ _ _ _ _ N1)|by rewrite N2, (now_has_eq _ _ _ _ N1)|done|].
  destruct (remove_exec g (Lis3 c3 p) (devices_dir p) _ ds' Fd eq_refl Dd F3)
    as (s'' & Er & R1 & R2 & R3).
  eexists _, (Lis3 c3 p). split; [exact R|]. split; [done|]. split; [done|]. exists fs, ds'.
  split_and!; try done.
  { intros V. rewrite (G V). apply union_subseteq_l. }
  exists s''. split; [by eexists|]. split.
  { rewrite R2. f_equal. unfold id_created. clear. destruct (_ =? 0); set_solver. }
  intros j J. destruct (decide (j = dev_kobj p)) as [->|Dj]; [exact (eq_trans R1 (eq_sym N0))|].
  by rewrite R3, K3, N2, (now_has_ne _ _ _ _ _ N1).
Qed.
End DriverTheorems.

(** ** Witness *)

(** Two directories, of which the device's comes and goes. *)
#[export] Instance two_dirs : DriverCore := {|
  dcore := gset string * option (gset string);
  kobj := bool;
  kobj_eq_dec := _;
  files c k := if (k : bool) then c.2 else Some c.1;
  dev_kobj _ := true;
  parent _ := false;
  platform_device_register_simple _ c :=
    match c.2 with
    | None => (4096, (c.1, Some ∅))
    | Some _ => (ERR_PTR (-17), c)
    end;
  platform_device_unregister _ c := (c.1, None);
  platform_set_drvdata _ c := c;
  sysfs_create_file k n c :=
    if (k : bool) then (-17, c)
    else if decide (n ∈ c.1) then (-17, c) else (0, ({[n]} ∪ c.1, c.2));
  sysfs_remove_file k n c := if (k : bool) then (c.1, (fun fs => fs ∖ {[n]}) <$> c.2)
                             else (c.1 ∖ {[n]}, c.2);
  sysfs_create_group k g c := if (k : bool) then (0, (c.1, union g <$> c.2))
                              else (0, (g ∪ c.1, c.2));
  sysfs_remove_group k g c := if (k : bool) then (c.1, (fun fs => fs ∖ g) <$> c.2)
                              else (c.1 ∖ g, c.2);
|}.

#[export] Instance two_dirs_ok : DriverCoreOk.
Proof.
  split; unfold now_has, same_files, upd; simpl.
  - intros n [a [ds|]] p c' [= <- <-]; simpl; [done|]. split_and!; [done| |done|done].
    exists ∅. by intros [].
  - by intros p c [].
  - done.
  - intros [] n [a o] c' fs E F; simpl in *; [done|]. case_decide; [done|].
    injection E as <-. injection F as ->. split; [done|]. by intros [].
  - intros [] n [a o] e c' E D; simpl in *; [by injection E as <- <-|].
    case_decide; by injection E as <- <-.
  - intros [] n [a o] fs F [] ; simpl in *; by simplify_eq.
  - intros [] g [a o] c' fs [= <-] F [] ; simpl in *; by simplify_eq.
  - intros [] g [a o] e c' [= <- <-] D; done.
  - intros [] g [a o] fs F [] ; simpl in *; by simplify_eq.
Qed.

(** A directory that has no file of the name. *)
Definition no_id_yet : lis3lv02d := Lis3 (({["version"]}, None) : @dcore two_dirs) 0.

Lemma lis3_add_remove_witness :
  exists v s' s'', runs (lis3lv02d_add_fs "lis3lv02d" {["rate"]} true) no_id_yet v s' /\
    files (core s') (devices_dir (pdev s')) = Some ({["id"]} ∪ {["version"]}) /\
    runs (lis3lv02d_remove_fs {["rate"]}) s' tt s'' /\
    files (core s'') (devices_dir (pdev s')) = Some ({["version"]} ∖ {["id"]}).
Proof.
  destruct (lis3_add_remove "lis3lv02d" {["rate"]} true no_id_yet)
    as (v & s' & R & Ep & _ & fs & ds & F & F' & _ & _ & _ & _ & s'' & R2 & F2 & _).
  exists v, s', s''. rewrite Ep. injection F as <-.
  split; [exact R|split; [exact F'|split; [exact R2|exact F2]]].
Defined.
