(* ===== verification/Kthreads.v ===== *)
(** * The kernel thread modules of Task_17 (Task_17/kthreads)

    kthread/kthread.c starts two threads that print once; kthread_stop.c stops
    two threads when it is unloaded, guarded by flags; work_queue/maxthreads.c
    starts one more thread every second. *)

From Stdlib Require Import ZArith Lia Strings.Byte.
From stdpp Require Import base strings gmap sets numbers list.
From S2P Require Import Prelude.
From S2P Require Import CString.
From S2P Require Import Kernel.
From S2P Require Import KernelInst.

(** ** kthread/kthread.c *)

Module Kthread.

(** struct params, and the two of them in the module's zeroed data. *)
Record params := Params { pname : list byte; delay : Z; idx : Z }.

Record kthreads := Kthreads {
  threads0 : params;
  threads1 : params;
  started : list (bool * string);   (* which parameters, and the task's name *)
}.

Definition zero_params : params := Params (replicate 100 x00) 0 0.
Definition loaded : kthreads := Kthreads zero_params zero_params [].

(** HZ is the kernel's; schedule_timeout sleeps that many ticks. *)
Definition function (HZ : Z) (data : params) : M kthreads Z :=
  (if bool_decide (int_range (delay data * HZ)) then mret tt else undef SignedOverflow) ;;
  match string_in (pname data) with
  | None => undef OutOfBounds
  | Some nm =>
      printk "%s: Ding" [ArgS nm] ;;
      printk "thread %d stopped" [ArgZ (s32 (idx data + 1))] ;;
      mret 0
  end.

Definition set_name (p : params) (s : string) (n : nat) : M kthreads params :=
  match strncpy (pname p) (cstring s) n with
  | Some nm => mret (Params nm (delay p) (idx p))
  | None => undef OutOfBounds
  end.

Definition init_module : M kthreads Z :=
  s ← kget;
  p0 ← set_name (threads0 s) "thread 1 speaking" 17;
  p1 ← set_name (threads1 s) "thread 2 speaking" 17;
  (let p0 := Params (pname p0) 2 0 in
   let p1 := Params (pname p1) 5 1 in
   printk "Starting.." [] ;;
   kput (Kthreads p0 p1 (started s ++ [(false, "spawn1"); (true, "spawn2")])) ;;
   mret 0).

Definition cleanup_module : M kthreads unit := printk "Module unload successful" [].

End Kthread.

(** ** kthread_stop/kthread_stop.c *)

Module KthreadStop.

(** Where [function] stands: at the loop condition with [n], after the loop
    with what kthread_should_stop said, before the return, and gone. *)
Inductive pc :=
| Loop (n : Z)
| Ended (ind : bool) (n : Z)
| Flagged
| Exited.

#[export] Instance pc_eq_dec : EqDecision pc.
Proof. solve_decision. Defined.

(** A thread, its flag, and whether kthread_stop has asked it to stop. *)
Record kthread := Kthread { kpc : pc; flag : bool; stopping : bool }.

(** One step of function(data). *)
Definition function (data : Z) (t : kthread) : option (kthread * list kmsg) :=
  match kpc t with
  | Loop n =>
      Some (Kthread (if stopping t then Ended true n
                     else if n <? 50 then Loop (n + 1) else Ended false (n + 1))
              (flag t) (stopping t), [])
  | Ended ind n =>
      Some (Kthread Flagged true (stopping t),
        [if ind then Printk "thread %d stopped by cleanup_module at %d" [ArgZ data; ArgZ n]
         else Printk "thread %d completed normally" [ArgZ data]])
  | Flagged => Some (Kthread Exited (flag t) (stopping t), [])
  | Exited => None
  end.

(** cleanup_module: for each thread the test of its flag, the call of
    kthread_stop, and the wait inside it. *)
Inductive cpc :=
| NotCalled
| Test (i : bool)
| Stop (i : bool)
| Wait (i : bool)
| Unloaded.

Record module := Module { thr : bool -> kthread; cleanup : cpc }.

Definition with_thread (i : bool) (t : kthread) (m : module) : module :=
  Module (fun j => if Bool.eqb i j then t else thr m j) (cleanup m).

(** init_module starts both threads. *)
Definition init_module : module := Module (fun _ => Kthread (Loop 0) false false) NotCalled.

(** What follows thread [i] in cleanup_module. *)
Definition next (i : bool) : cpc := if i then Unloaded else Test true.

Inductive step : module -> module -> Prop :=
| thread_step m i t o :
    function (Z.b2z i) (thr m i) = Some (t, o) -> step m (with_thread i t m)
| unload m : cleanup m = NotCalled -> step m (Module (thr m) (Test false))
| test_flag m i :
    cleanup m = Test i ->
    step m (Module (thr m) (if flag (thr m i) then next i else Stop i))
| call_stop m i :
    cleanup m = Stop i -> kpc (thr m i) <> Exited ->
    step m (with_thread i (Kthread (kpc (thr m i)) (flag (thr m i)) true)
              (Module (thr m) (Wait i)))
| stopped m i :
    cleanup m = Wait i -> kpc (thr m i) = Exited -> step m (Module (thr m) (next i)).

(** kthread_stop on a thread that has returned uses a task that is gone. *)
Definition stops_dead_task (m : module) : Prop :=
  exists i, cleanup m = Stop i /\ kpc (thr m i) = Exited.

(** A thread running, or about to return, in code that has been unloaded. *)
Definition runs_unloaded_code (m : module) : Prop :=
  cleanup m = Unloaded /\ exists i, kpc (thr m i) <> Exited.

Definition initial (m : module) : Prop := m = init_module.

(** A thread run on its own, with what kthread_should_stop says at each test. *)
Fixpoint run (fuel : nat) (should_stop : Z -> bool) (data : Z) (p : pc) : option (list kmsg) :=
  match fuel with
  | O => None
  | S f =>
      let st := match p with Loop n => should_stop n | _ => false end in
      match function data (Kthread p false st) with
      | None => Some []
      | Some (t, o) => rest ← run f should_stop data (kpc t); Some (o ++ rest)
      end
  end.

End KthreadStop.

(** ** work_queue/maxthreads.c *)

Module MaxThreads.
Section MaxThreads.
Context `{ErrPtr}.

(** ts[1000] as pointers, NULL being 0; how many times the work is queued. *)
Record state := State { ts : list Z; count : Z; queued : bool }.

Definition tsL : lens state (list Z) := Lens ts (fun x s => State x (count s) (queued s)).
Definition countL : lens state Z := Lens count (fun x s => State (ts s) x (queued s)).
Definition queuedL : lens state bool := Lens queued (fun x s => State (ts s) (count s) x).

Variable kthread_run : Z -> Z.              (* the n-th call's result *)

(** The assignment ts[count] = kthread_run(...). *)
Definition set_ts (i v : Z) : M state unit :=
  l ← kread tsL;
  if decide (0 <= i < Z.of_nat (length l))
  then kwrite tsL (<[Z.to_nat i := v]> l) else undef OutOfBounds.

Definition function : M state unit :=
  c ← kread countL;
  set_ts c (kthread_run c) ;;
  printk "Ding %d" [ArgZ c] ;;
  (if bool_decide (int_range (c + 1)) then kwrite countL (c + 1) else undef SignedOverflow) ;;
  kwrite queuedL true.

Definition init_module : M state Z :=
  kwrite tsL (replicate 1000 0) ;;
  kwrite queuedL true ;;
  printk "Module loaded successfuly" [] ;;
  mret 0.

(** kthread_stop of a pointer that may be an error. *)
Definition stop (p : Z) : M state unit := if IS_ERR p then undef NullDeref else mret tt.

Fixpoint stop_all (l : list Z) : M state unit :=
  match l with
  | [] => mret tt
  | p :: l => (if negb (p =? 0) then stop p else mret tt) ;; stop_all l
  end.

(** flush_workqueue, and cancel_delayed_work for work that is pending. *)
Definition cleanup_module : M state unit :=
  q ← kread queuedL;
  (if (q : bool) then kwrite queuedL false else mret tt) ;;
  l ← kread tsL;
  stop_all l ;;
  printk "Module removed successfully" [].

(** The work, run a number of times. *)
Fixpoint works (n : nat) : M state unit :=
  match n with O => mret tt | S n => function ;; works n end.
End MaxThreads.
End MaxThreads.

(** ** Theorems: kthread.c *)

(** Strncpy copies seventeen characters and no NUL, but into a zeroed array
    that is longer: each thread prints its own whole name and its number. *)
Theorem kthread_names HZ :
  - 2 ^ 28 < HZ < 2 ^ 28 ->
  exists s out0 out1, runs Kthread.init_module Kthread.loaded 0 s /\
    Kthread.started s = [(false, "spawn1"); (true, "spawn2")] /\
    Kthread.function HZ (Kthread.threads0 s) s = Done 0 s out0 /\
    Kthread.function HZ (Kthread.threads1 s) s = Done 0 s out1 /\
    out0 = [Printk "%s: Ding" [ArgS (bytes "thread 1 speaking")];
            Printk "thread %d stopped" [ArgZ 1]] /\
    out1 = [Printk "%s: Ding" [ArgS (bytes "thread 2 speaking")];
            Printk "thread %d stopped" [ArgZ 2]].
Proof.
  intros Hz.
  assert (exists s, runs Kthread.init_module Kthread.loaded 0 s /\
    Kthread.started s = [(false, "spawn1"); (true, "spawn2")] /\
    Kthread.delay (Kthread.threads0 s) = 2 /\ Kthread.delay (Kthread.threads1 s) = 5 /\
    Kthread.idx (Kthread.threads0 s) = 0 /\ Kthread.idx (Kthread.threads1 s) = 1 /\
    string_in (Kthread.pname (Kthread.threads0 s)) = Some (bytes "thread 1 speaking") /\
    string_in (Kthread.pname (Kthread.threads1 s)) = Some (bytes "thread 2 speaking"))
    as (s & R & St & D0 & D1 & I0 & I1 & N0 & N1).
  { eexists. split; [eexists; vm_compute; reflexivity|]. split_and!; reflexivity. }
  exists s. do 2 eexists. split; [done|]. split; [done|].
  unfold Kthread.function. rewrite D0, D1, I0, I1, N0, N1.
  rewrite !bool_decide_true by (unfold int_range; lia). split_and!; reflexivity.
Qed.

Lemma kthread_names_witness :
  exists s out, Kthread.function 100 (Kthread.threads0 s) s = Done 0 s out /\ out <> [].
Proof.
  destruct (kthread_names 100 ltac:(lia)) as (s & o0 & o1 & _ & _ & E & _ & -> & _).
  eexists _, _. split; [exact E|discriminate].
Defined.

(** ** Theorems: kthread_stop.c *)

Module KthreadStopFacts.
Import KthreadStop.

(** From the loop condition with [n], the thread ends with one message. *)
Lemma run_loop should_stop data n fuel :
  0 <= n <= 50 -> (Z.to_nat (50 - n) + 4 < fuel)%nat ->
  exists msg, run fuel should_stop data (Loop n) = Some [msg] /\
    ((exists k, n <= k <= 50 /\ should_stop k = true /\
        (forall j, n <= j < k -> should_stop j = false) /\
        msg = Printk "thread %d stopped by cleanup_module at %d" [ArgZ data; ArgZ k]) \/
     ((forall j, n <= j <= 50 -> should_stop j = false) /\
        msg = Printk "thread %d completed normally" [ArgZ data])).
Proof.
  remember (Z.to_nat (50 - n)) as d eqn:Ed. revert n fuel Ed.
  induction d as [|d IH]; intros n fuel Ed Hn Hf;
    (destruct fuel as [|fuel]; [lia|]); simpl; destruct (should_stop n) eqn:Es.
  - eexists. do 4 (destruct fuel as [|fuel]; [lia|]). split; [reflexivity|].
    left. exists n. split_and!; [lia|lia|done|lia|done].
  - assert (n = 50) as -> by lia. simpl.
    eexists. do 4 (destruct fuel as [|fuel]; [lia|]). split; [reflexivity|].
    right. split; [|done]. intros j Hj. by replace j with 50 by lia.
  - eexists. do 4 (destruct fuel as [|fuel]; [lia|]). split; [reflexivity|].
    left. exists n. split_and!; [lia|lia|done|lia|done].
  - destruct (Z.ltb_spec n 50) as [D|D]; [|lia].
    destruct (IH (n + 1) fuel) as (msg & E & P); [lia|lia|lia|].
    rewrite E. simpl. exists msg. split; [done|].
    destruct P as [(k & Hk & Sk & B & M)|[B M]]; [left; exists k|right].
    + split_and!; [lia|lia|done| |done]. intros j Hj.
      destruct (decide (j = n)) as [->|]; [done|]. apply B. lia.
    + split; [|done]. intros j Hj. destruct (decide (j = n)) as [->|]; [done|]. apply B. lia.
Qed.

(** What holds of a module in operation: a flag is set exactly by a thread that
    has left its loop and printed, and cleanup_module is past a thread only
    when its flag is set. *)
Definition done_with (c : cpc) (i : bool) : bool :=
  match c, i with
  | Unloaded, _ => true
  | Test true, false | Stop true, false | Wait true, false => true
  | _, _ => false
  end.

Definition inv (m : module) : Prop :=
  forall i, (flag (thr m i) = true <-> kpc (thr m i) = Flagged \/ kpc (thr m i) = Exited) /\
    (done_with (cleanup m) i = true -> flag (thr m i) = true).

Lemma inv_initial m : initial m -> inv m.
Proof.
  intros ->. intros i. simpl. split; [|done]. split; [done|]. by intros [|].
Qed.

Lemma inv_step m m' : inv m -> step m m' -> inv m'.
Proof.
  intros I St. destruct St as [m i t o E|m E|m i E|m i E N|m i E X].
  - intros j. destruct (I j) as [I1 I2]. simpl. destruct (Bool.eqb_spec i j) as [->|D]; [|done].
    unfold function in E. destruct (kpc (thr m j)) eqn:K; simplify_eq; simpl.
    + assert (flag (thr m j) <> true) as F by (rewrite I1; by intros [|]).
      split; [|done]. split; [done|].
      destruct (stopping (thr m j)); [by intros [|]|]. case_match; by intros [|].
    + split; [|done]. split; auto.
    + split; [|done]. rewrite I1. split; auto.
  - intros j. split; [apply I|]. by destruct j.
  - intros j. split; [apply I|]. simpl. destruct (I j) as [_ I2]. rewrite E in I2.
    destruct (flag (thr m i)) eqn:F; destruct i, j; simpl in *; try done; auto.
  - intros j. destruct (I j) as [I1 I2]. rewrite E in I2. simpl.
    destruct (Bool.eqb_spec i j) as [->|D]; simpl; (split; [exact I1|]);
      [by destruct j|]. destruct i, j; simpl in *; done || auto.
  - intros j. split; [apply I|]. simpl. destruct (I j) as [I1 I2]. rewrite E in I2.
    destruct i, j; simpl in *; try done; auto; intros _; apply I1; by right.
Qed.

(** What a thread does by itself while nothing else moves. *)
Definition alone (m m' : module) (i : bool) (t : kthread) : Prop :=
  rtc step m m' /\ thr m' i = t /\ cleanup m' = cleanup m /\
  forall j, j <> i -> thr m' j = thr m j.

Lemma alone_step m i t t' o :
  thr m i = t -> function (Z.b2z i) t = Some (t', o) -> alone m (with_thread i t' m) i t'.
Proof.
  intros E F. split_and!.
  - apply rtc_once. eapply thread_step. by rewrite E.
  - simpl. by rewrite Bool.eqb_reflx.
  - done.
  - intros j D. simpl. destruct (Bool.eqb_spec i j); congruence.
Qed.

Lemma alone_trans m m1 m2 i t1 t2 : alone m m1 i t1 -> alone m1 m2 i t2 -> alone m m2 i t2.
Proof.
  intros (R1 & _ & C1 & O1) (R2 & E2 & C2 & O2). split_and!.
  - by etrans.
  - done.
  - congruence.
  - intros j D. rewrite O2, O1 by done. done.
Qed.

Lemma alone_loop m i n :
  thr m i = Kthread (Loop n) false false -> 0 <= n <= 50 ->
  exists m', alone m m' i (Kthread (Ended false 51) false false).
Proof.
  remember (Z.to_nat (50 - n)) as d eqn:Ed. revert m n Ed.
  induction d as [|d IH]; intros m n Ed E Hn.
  - assert (n = 50) as -> by lia. eexists. eapply alone_step; [exact E|reflexivity].
  - pose proof (alone_step m i _ (Kthread (Loop (n + 1)) false false) [] E) as S.
    assert (alone m (with_thread i (Kthread (Loop (n + 1)) false false) m) i
      (Kthread (Loop (n + 1)) false false)) as S1.
    { apply S. unfold function. simpl. destruct (Z.ltb_spec n 50); [done|lia]. }
    destruct (IH (with_thread i (Kthread (Loop (n + 1)) false false) m) (n + 1))
      as [m' A]; [lia|by destruct S1 as (_ & ? & _)|lia|]. exists m'. by eapply alone_trans.
Qed.

(** A thread that nobody stops gets past its flag, and then returns. *)
Lemma alone_flagged m i :
  thr m i = Kthread (Loop 0) false false ->
  exists m', alone m m' i (Kthread Flagged true false).
Proof.
  intros E. destruct (alone_loop m i 0 E) as [m1 A1]; [lia|].
  pose proof A1 as (_ & E1 & _).
  eexists. eapply alone_trans; [exact A1|]. eapply alone_step; [exact E1|reflexivity].
Qed.

Lemma alone_exited m i :
  thr m i = Kthread (Loop 0) false false ->
  exists m', alone m m' i (Kthread Exited true false).
Proof.
  intros E. destruct (alone_flagged m i E) as [m1 A1].
  pose proof A1 as (_ & E1 & _).
  eexists. eapply alone_trans; [exact A1|]. eapply alone_step; [exact E1|reflexivity].
Qed.
End KthreadStopFacts.

(** A thread of kthread_stop.c ends by itself: whatever kthread_should_stop
    answers, it makes at most fifty turns and prints one line, which says at
    which turn it was stopped, the first at which it was asked to, or that it
    completed. *)
Theorem kthread_stop_terminates should_stop data :
  exists msg, KthreadStop.run 55 should_stop data (KthreadStop.Loop 0) = Some [msg] /\
    ((exists k, 0 <= k <= 50 /\ should_stop k = true /\
        (forall j, 0 <= j < k -> should_stop j = false) /\
        msg = Printk "thread %d stopped by cleanup_module at %d" [ArgZ data; ArgZ k]) \/
     ((forall j, 0 <= j <= 50 -> should_stop j = false) /\
        msg = Printk "thread %d completed normally" [ArgZ data])).
Proof. apply KthreadStopFacts.run_loop; lia. Qed.

(** When cleanup_module has returned, each thread has left its loop and
    printed its line: none can still be waiting to be stopped. *)
Theorem kthread_stop_unloaded m i :
  reachable KthreadStop.initial KthreadStop.step m -> KthreadStop.cleanup m = KthreadStop.Unloaded ->
  KthreadStop.kpc (KthreadStop.thr m i) = KthreadStop.Flagged \/
  KthreadStop.kpc (KthreadStop.thr m i) = KthreadStop.Exited.
Proof.
  intros R U. assert (KthreadStopFacts.inv m) as I.
  { revert m R U. intros m R _. revert m R. apply reachable_inv;
      [apply KthreadStopFacts.inv_initial|apply KthreadStopFacts.inv_step]. }
  destruct (I i) as [I1 I2]. apply I1, I2. by rewrite U.
Qed.

(** Unloading gets to its end. *)
Lemma kthread_stop_unloads :
  exists m, reachable KthreadStop.initial KthreadStop.step m /\
    KthreadStop.cleanup m = KthreadStop.Unloaded /\
    KthreadStop.kpc (KthreadStop.thr m true) = KthreadStop.Flagged.
Proof.
  pose proof (reachable_init KthreadStop.initial KthreadStop.step _
    (eq_refl : KthreadStop.initial KthreadStop.init_module)) as R0.
  assert (forall m m', reachable KthreadStop.initial KthreadStop.step m ->
    rtc KthreadStop.step m m' -> reachable KthreadStop.initial KthreadStop.step m') as Rt.
  { intros m m' (s0 & I & R) R'. exists s0. split; [done|by etrans]. }
  destruct (KthreadStopFacts.alone_flagged KthreadStop.init_module false eq_refl)
    as (m1 & A1 & E1 & C1 & O1).
  destruct (KthreadStopFacts.alone_flagged m1 true) as (m2 & A2 & E2 & C2 & O2).
  { by rewrite O1. }
  pose proof (Rt _ _ (Rt _ _ R0 A1) A2) as R.
  assert (KthreadStop.cleanup m2 = KthreadStop.NotCalled) as C by (by rewrite C2, C1).
  pose proof (reachable_step _ _ _ _ R (KthreadStop.unload _ C)) as R3.
  pose proof (reachable_step _ _ _ _ R3
    (KthreadStop.test_flag (KthreadStop.Module (KthreadStop.thr m2) (KthreadStop.Test false))
       false eq_refl)) as R4.
  simpl in R4. rewrite O2, E1 in R4 by done. simpl in R4.
  pose proof (reachable_step _ _ _ _ R4
    (KthreadStop.test_flag (KthreadStop.Module (KthreadStop.thr m2) (KthreadStop.Test true))
       true eq_refl)) as R5.
  simpl in R5. rewrite E2 in R5. simpl in R5.
  eexists. split; [exact R5|]. split; [done|]. simpl. by rewrite E2.
Qed.

(** The flags do not keep cleanup_module from what they are there for: a
    thread can return between the test of its flag and kthread_stop, which
    then uses a task that is gone; and it can still be running when its flag
    lets cleanup_module go past it, so that its code is unloaded under it. *)
Theorem kthread_stop_races :
  (exists m, reachable KthreadStop.initial KthreadStop.step m /\ KthreadStop.stops_dead_task m) /\
  (exists m, reachable KthreadStop.initial KthreadStop.step m /\
     KthreadStop.runs_unloaded_code m).
Proof.
  pose proof (reachable_init KthreadStop.initial KthreadStop.step _
    (eq_refl : KthreadStop.initial KthreadStop.init_module)) as R0.
  assert (forall m m', reachable KthreadStop.initial KthreadStop.step m ->
    rtc KthreadStop.step m m' -> reachable KthreadStop.initial KthreadStop.step m') as Rt.
  { intros m m' (s0 & I & R) R'. exists s0. split; [done|by etrans]. }
  split.
  - pose proof (reachable_step _ _ _ _ R0
      (KthreadStop.unload KthreadStop.init_module eq_refl)) as R1.
    pose proof (reachable_step _ _ _ _ R1
      (KthreadStop.test_flag (KthreadStop.Module (KthreadStop.thr KthreadStop.init_module)
         (KthreadStop.Test false)) false eq_refl)) as R2.
    destruct (KthreadStopFacts.alone_exited _ false (eq_refl :
      KthreadStop.thr (KthreadStop.Module (KthreadStop.thr KthreadStop.init_module)
        (KthreadStop.Stop false)) false = _)) as (m & R & E & C & _).
    exists m. split; [by eapply Rt|]. exists false. by rewrite C, E.
  - destruct kthread_stop_unloads as (m & R & U & F). exists m. split; [done|].
    split; [done|]. exists true. by rewrite F.
Qed.

Lemma kthread_stop_unloaded_witness :
  exists m, KthreadStop.cleanup m = KthreadStop.Unloaded /\
    (KthreadStop.kpc (KthreadStop.thr m true) = KthreadStop.Flagged \/
     KthreadStop.kpc (KthreadStop.thr m true) = KthreadStop.Exited).
Proof.
  assert (exists m, reachable KthreadStop.initial KthreadStop.step m /\
    KthreadStop.cleanup m = KthreadStop.Unloaded) as (m & R & U).
  { destruct kthread_stop_unloads as (m & R & U & _). by exists m. }
  exists m. split; [exact U|]. exact (kthread_stop_unloaded m true R U).
Defined.

(** ** Theorems: maxthreads.c *)

Section MaxThreadsTheorems.
Context `{ErrPtrOk}.
Import MaxThreads.

Lemma function_exec run s :
  length (ts s) = 1000%nat -> 0 <= count s < 1000 ->
  function run s = Done tt (State (<[Z.to_nat (count s) := run (count s)]> (ts s)) (count s + 1) true)
    [Printk "Ding %d" [ArgZ (count s)]].
Proof.
  intros L C. unfold function, set_ts. kexec. rewrite decide_True by lia. kexec.
  rewrite bool_decide_true by (unfold int_range; lia). by kexec.
Qed.

Lemma works_exec run n s :
  length (ts s) = 1000%nat -> 0 <= count s -> count s + Z.of_nat n <= 1000 ->
  exists s', runs (works run n) s tt s' /\ length (ts s') = 1000%nat /\
    count s' = count s + Z.of_nat n /\
    (forall i, (i < 1000)%nat -> ts s' !! i =
       if decide (count s <= Z.of_nat i < count s + Z.of_nat n)
       then Some (run (Z.of_nat i)) else ts s !! i).
Proof.
  revert s. induction n as [|n IH]; intros s L C B.
  - exists s. split; [by eexists|]. split_and!; [done|lia|].
    intros i Hi. by rewrite decide_False by lia.
  - pose proof (function_exec run s L ltac:(lia)) as E.
    destruct (IH (State (<[Z.to_nat (count s) := run (count s)]> (ts s)) (count s + 1) true))
      as (s' & [o R] & L' & C' & T); simpl; [by rewrite length_insert|lia|lia|].
    exists s'. split; [eexists; simpl; by rewrite (exec_bind _ _ _ _ _ _ E), R|].
    simpl in C', T. split_and!; [done|lia|]. intros i Hi. rewrite T by done.
    destruct (decide (Z.of_nat i = count s)) as [Ei|Ei].
    + rewrite decide_False by lia. rewrite decide_True by lia.
      replace (Z.to_nat (count s)) with i by lia. rewrite list_lookup_insert_eq by lia. by rewrite Ei.
    + rewrite list_lookup_insert_ne by lia. repeat case_decide; done || lia.
Qed.
End MaxThreadsTheorems.

(** The table of threads is filled from its second entry, one thread each
    time the work runs; nothing stops the work from being queued again, and
    the thousandth time it stores past the end of the table. *)
Theorem maxthreads_overflow `{ErrPtrOk} kthread_run s :
  length (MaxThreads.ts s) = 1000%nat -> MaxThreads.count s = 1 ->
  (forall n, (n < 1000)%nat -> exists s', runs (MaxThreads.works kthread_run n) s tt s' /\
     MaxThreads.count s' = 1 + Z.of_nat n /\
     forall i, (1 <= i < 1 + n)%nat -> MaxThreads.ts s' !! i = Some (kthread_run (Z.of_nat i))) /\
  (exists s', runs (MaxThreads.works kthread_run 999) s tt s' /\
     MaxThreads.function kthread_run s' = Undef OutOfBounds).
Proof.
  intros L C. split.
  - intros n Hn. destruct (works_exec kthread_run n s L) as (s' & R & _ & C' & T); [lia|lia|].
    exists s'. split; [done|]. split; [lia|]. intros i Hi. rewrite T, decide_True by lia. done.
  - destruct (works_exec kthread_run 999 s L) as (s' & R & L' & C' & _); [lia|lia|].
    exists s'. split; [done|]. unfold MaxThreads.function, MaxThreads.set_ts. kexec.
    rewrite decide_False by lia. done.
Qed.

Lemma maxthreads_overflow_witness :
  exists s', runs (MaxThreads.works (fun n => 64 * n) 999)
    (MaxThreads.State (replicate 1000 0) 1 false) tt s' /\
    MaxThreads.function (fun n => 64 * n) s' = Undef OutOfBounds.
Proof.
  apply (maxthreads_overflow (fun n => 64 * n)); [apply length_replicate|reflexivity].
Defined.
