(* ===== verification/Hello.v ===== *)
(** * The small modules

    The hello world modules of Task_1, Task_4 and Task_16, the USB driver of
    Task_5 (of which Task_8 and Task_9 keep copies), and coding_style.c
    (Task_4), whose do_work has the only arithmetic of them. *)

From Stdlib Require Import ZArith Lia Strings.Byte.
From stdpp Require Import base strings gmap sets numbers list.
From S2P Require Import Prelude.

(** ** Hello world *)

Section HelloWorld.
Context {core : Type}.

(** Task_1 prints with printk, Task_4 with pr_debug. *)
Definition hello_init_at (lv : loglevel) : M core Z :=
  klog lv "Hello, Kernel World!" [] ;; mret 0.
Definition hello_exit_at (lv : loglevel) : M core unit :=
  klog lv "Goodbye, Kernel World!" [].

Definition hello_init1 : M core Z := hello_init_at Info.
Definition hello_exit1 : M core unit := hello_exit_at Info.
Definition hello_init4 (dbg : bool) : M core Z := hello_init_at (Debug dbg).
Definition hello_exit4 (dbg : bool) : M core unit := hello_exit_at (Debug dbg).

(** Task_16 converts a constant first (linux/byteorder). *)
Variable cpu_to_le16 : Z -> Z.

Definition hello_init16 : M core Z :=
  let a := 12 in
  let b := cpu_to_le16 a in
  printk "converted value to __le16 id %hu" [ArgZ b] ;;
  hello_init_at Info.
Definition hello_exit16 : M core unit := hello_exit_at Info.
End HelloWorld.

(** ** The USB driver *)

Record usb_device_id := UsbId {
  match_flags : Z;
  idVendor : Z;
  idProduct : Z;
  bInterfaceClass : Z;
}.

Definition USB_DEVICE_ID_MATCH_INT_CLASS : Z := 128.
Definition USB_INTERFACE_CLASS_HID : Z := 3.

(** A designated initialiser leaves the other members zero. *)
Definition usb_kbd_hello_table : list usb_device_id :=
  [UsbId USB_DEVICE_ID_MATCH_INT_CLASS 0 0 USB_INTERFACE_CLASS_HID; UsbId 0 0 0 0].

(** What a driver hands to the USB core, which calls probe with the entry of
    the table that matched. *)
Record usb_driver (core : Type) := UsbDriver {
  driver_name : string;
  probe : usb_device_id -> M core Z;
  disconnect : M core unit;
  id_table : list usb_device_id;
}.
Arguments probe {core} _.
Arguments id_table {core} _.

Section Usb.
Context {core : Type}.
Variable dbg : bool.
Variable usb_register : usb_driver core -> M core Z.
Variable usb_deregister : usb_driver core -> M core unit.

Definition usb_kbd_hello_probe (id : usb_device_id) : M core Z :=
  klog (Debug dbg) "usb_kbd_hello (%04X:%04X) plugged"
    [ArgZ (idVendor id); ArgZ (idProduct id)] ;;
  mret 0.

Definition usb_kbd_hello_disconnect : M core unit :=
  klog (Debug dbg) "usb_kbd_hello removed" [].

Definition usb_kbd_hello_driver : usb_driver core :=
  UsbDriver _ "usb_kbd_hello" usb_kbd_hello_probe usb_kbd_hello_disconnect usb_kbd_hello_table.

Definition hello_init : M core Z :=
  klog (Debug dbg) "Hello World!" [] ;; usb_register usb_kbd_hello_driver.

Definition hello_exit : M core unit :=
  klog (Debug dbg) "See you later." [] ;; usb_deregister usb_kbd_hello_driver.
End Usb.

(** The copies in Task_8 and Task_9. *)
Module Usb8.
Definition usb_kbd_hello_table := usb_kbd_hello_table.
Definition usb_kbd_hello_driver {core} := @usb_kbd_hello_driver core.
Definition usb_kbd_hello_probe {core} := @usb_kbd_hello_probe core.
Definition usb_kbd_hello_disconnect {core} := @usb_kbd_hello_disconnect core.
Definition hello_init {core} := @hello_init core.
Definition hello_exit {core} := @hello_exit core.
End Usb8.

Module Usb9.
Definition usb_kbd_hello_table := usb_kbd_hello_table.
Definition usb_kbd_hello_driver {core} := @usb_kbd_hello_driver core.
Definition usb_kbd_hello_probe {core} := @usb_kbd_hello_probe core.
Definition usb_kbd_hello_disconnect {core} := @usb_kbd_hello_disconnect core.
Definition hello_init {core} := @hello_init core.
Definition hello_exit {core} := @hello_exit core.
End Usb9.

(** ** coding_style.c *)

(** The int do_work points to, and the microseconds spent in udelay. *)
Record work := Work { my_int : Z; delayed : Z }.

(** udelay(n) is n microseconds long. *)
Definition udelay (n : Z) : M work unit :=
  s ← kget; kput (Work (my_int s) (delayed s + n)).

(** The loop, which reads the int at each turn; no more turns than the int
    counts, so one more is enough fuel. Its result is x after the loop. *)
Fixpoint delay_loop (fuel : nat) (x : Z) : M work Z :=
  match fuel with
  | O => undef OutOfFuel
  | S f =>
      s ← kget;
      if x <? my_int s then udelay 10 ;; delay_loop f (x + 1) else mret x
  end.

Definition do_work (dbg : bool) (retval : Z) : M work Z :=
  s ← kget;
  let y := my_int s in
  x ← delay_loop (S (Z.to_nat y)) 0;
  (if y <? 10 then klog (Debug dbg) "We slept a long time!" [] else mret tt) ;;
  let z := x * y in
  if decide (int_range z) then mret z else undef SignedOverflow.

Definition my_init (dbg : bool) : M work Z :=
  kput (Work 10 0) ;; do_work dbg 10.

Definition my_exit : M work unit := mret tt.

(** ** Lemmas *)

Lemma delay_loop_exec fuel n x d :
  0 <= x <= n -> (Z.to_nat (n - x) < fuel)%nat ->
  delay_loop fuel x (Work n d) = Done n (Work n (d + 10 * (n - x))) [].
Proof.
  revert x d. induction fuel as [|fuel IH]; intros x d B F; [lia|].
  simpl. rewrite exec_bind_get. simpl. destruct (Z.ltb_spec x n) as [L|L].
  - unfold udelay. rewrite exec_bind_assoc, exec_bind_get, exec_bind_put. simpl.
    rewrite IH by lia. do 2 f_equal. lia.
  - assert (x = n) as -> by lia. unfold mret, M_ret. do 2 f_equal. lia.
Qed.

(** ** Theorems *)

(** Do_work ends after ten microseconds for each unit of a non-negative
    int and returns its square, when that fits an int (up to 46340), and for a
    negative int returns at once, with 0; beyond that the multiplication
    overflows. It leaves the int alone, and says that it slept long for the
    ints below ten, those it slept shortest for. *)
Theorem do_work_correct dbg retval n d :
  int_range n ->
  do_work dbg retval (Work n d) =
    if decide (n <= 46340)
    then Done (if n <? 0 then 0 else n * n) (Work n (d + 10 * Z.max 0 n))
      (if n <? 10 then logged (Debug dbg) "We slept a long time!" [] else [])
    else Undef SignedOverflow.
Proof.
  intros R. unfold do_work. rewrite exec_bind_get. simpl my_int. cbv zeta.
  set (x := Z.max 0 n).
  rewrite (exec_bind _ _ _ x (Work n (d + 10 * x)) []).
  2: { destruct (Z.ltb_spec n 0) as [L|L].
       - replace x with 0 by lia. rewrite Z.mul_0_r, Z.add_0_r.
         replace (Z.to_nat n) with O by lia. simpl. rewrite exec_bind_get. simpl.
         destruct (Z.ltb_spec 0 n); [lia|done].
       - replace x with n by lia. rewrite delay_loop_exec by lia. do 2 f_equal. lia. }
  rewrite tell_nil.
  rewrite (exec_bind _ _ _ tt (Work n (d + 10 * x))
    (if n <? 10 then logged (Debug dbg) "We slept a long time!" [] else [])).
  2: { destruct (n <? 10); [by destruct dbg|done]. }
  unfold int_range in *. destruct (decide (n <= 46340)) as [S|S].
  - rewrite decide_True by nia. unfold mret, M_ret. simpl. rewrite app_nil_r. f_equal.
    destruct (Z.ltb_spec n 0); nia.
  - rewrite decide_False by nia. done.
Qed.

(** Loading coding_style.c returns 100, which is no error number. *)
Theorem my_init_positive dbg s : my_init dbg s = Done 100 (Work 10 100) [].
Proof.
  unfold my_init. rewrite exec_bind_put. by destruct dbg.
Qed.

(** Whatever keyboard or mouse is plugged in, the driver reports the ids
    0000:0000: it prints those of the entry of its table that matched, and the
    entries match by the class of the interface alone. *)
Theorem usb_plugged_zero {core} dbg id (s : core) :
  id ∈ id_table (@usb_kbd_hello_driver core dbg) ->
  probe (usb_kbd_hello_driver dbg) id s =
    Done 0 s (logged (Debug dbg) "usb_kbd_hello (%04X:%04X) plugged" [ArgZ 0; ArgZ 0]).
Proof.
  intros [->|[->|[]%elem_of_nil]%elem_of_cons]%elem_of_cons; by destruct dbg.
Qed.

(** ** Witnesses *)

Lemma usb_plugged_zero_witness :
  usb_kbd_hello_probe true (UsbId 128 0 0 3) 5 =
    Done 0 5 [Printk "usb_kbd_hello (%04X:%04X) plugged" [ArgZ 0; ArgZ 0]].
Proof. apply (usb_plugged_zero true (UsbId 128 0 0 3) 5). by left. Defined.

Lemma do_work_correct_witness :
  int_range 7 /\ do_work true 7 (Work 7 0) =
    Done 49 (Work 7 70) [Printk "We slept a long time!" []].
Proof.
  assert (int_range 7) as R by (unfold int_range; lia). split; [exact R|].
  exact (do_work_correct true 7 7 0 R).
Defined.
